(** * A shallow embedding of the heyvito/wal storage core

    The development follows the Go sources: [internal/index_record.go],
    [internal/data_segment.go], the data manager, the index segment, the
    index and the public facade [wal.go].

    Conventions.
    - An [int64] is a [Z]; every arithmetic operation of the source is
      written with its two's-complement wrap-around ([add64], [sub64],
      [mul64]).
    - A byte is a [Z] in [0, 255]; a byte slice is a [list Z].  A memory
      mapped file is the list of its bytes: a store into the mapping is a
      store into the file.
    - A Go panic (slice bounds, nil dereference) is the outcome [Panic]; a
      returned [error] is [Err]; a loop that never leaves is [Diverges].
    - Calls into the operating system (create, truncate, map, sync, close,
      remove) succeed, with one exception: truncating to a negative size.
    - The work directory holds exactly the files of the segments stored in
      the two segment maps. *)

From Stdlib Require Import ZArith Lia Bool.
From stdpp Require Import base gmap list sorting.

Local Open Scope Z_scope.

(** ** Outcomes of a call *)

Inductive error : Type :=
  | NotFound (RecordID : Z)          (* errors.NotFound{RecordID} *)
  | SegmentNotFound (segID : Z)      (* fmt.Errorf("segment %d not found") *)
  | IOFailure.                       (* an error of the operating system *)

Inductive result (A : Type) : Type :=
  | Ok (a : A)
  | Err (e : error)
  | Panic
  | Diverges.

Arguments Ok {A} a.
Arguments Err {A} e.
Arguments Panic {A}.
Arguments Diverges {A}.

Global Instance result_ret : MRet result := fun A a => Ok a.
Global Instance result_bind : MBind result := fun A B k r =>
  match r with
  | Ok a => k a
  | Err e => Err e
  | Panic => Panic
  | Diverges => Diverges
  end.

Global Instance result_fmap : FMap result := fun A B f r =>
  match r with
  | Ok a => Ok (f a)
  | Err e => Err e
  | Panic => Panic
  | Diverges => Diverges
  end.

(** ** Machine integers *)

Definition max_int64 : Z := 2 ^ 63 - 1.
Definition min_int64 : Z := - 2 ^ 63.

(** The value of an [int64] computation whose mathematical result is [z]. *)
Definition wrap64 (z : Z) : Z := (z + 2 ^ 63) mod 2 ^ 64 - 2 ^ 63.

Definition add64 (a b : Z) : Z := wrap64 (a + b).
Definition sub64 (a b : Z) : Z := wrap64 (a - b).
Definition mul64 (a b : Z) : Z := wrap64 (a * b).

(** [uint64(x)] for an [int64] x, and [int64(u)] for a [uint64] u. *)
Definition to_uint64 (x : Z) : Z := x mod 2 ^ 64.
Definition to_int64 (u : Z) : Z := wrap64 u.

(** [atomic.Int32.Add]. *)
Definition wrap32 (z : Z) : Z := (z + 2 ^ 31) mod 2 ^ 32 - 2 ^ 31.
Definition add32 (a b : Z) : Z := wrap32 (a + b).

(** ** Byte slices *)

Definition len {A} (l : list A) : Z := Z.of_nat (length l).

(** [l[lo:hi]]; Go panics unless [0 <= lo <= hi <= cap(l)]. *)
Definition slice {A} (l : list A) (lo hi : Z) : result (list A) :=
  if (0 <=? lo) && (lo <=? hi) && (hi <=? len l)
  then Ok (take (Z.to_nat (hi - lo)) (drop (Z.to_nat lo) l))
  else Panic.

(** [l[lo:]]. *)
Definition slice_from {A} (l : list A) (lo : Z) : result (list A) :=
  slice l lo (len l).

(** The builtin [copy(dst, src)]: the number of elements copied and the
    new contents of [dst]. *)
Definition copy {A} (dst src : list A) : Z * list A :=
  let n := Nat.min (length dst) (length src) in
  (Z.of_nat n, take n src ++ drop n dst).

(** Storing [bs] into the backing array at [off]: what a store through the
    sub-slice [l[off:]] does to [l].  The callers check the bounds. *)
Definition write_at {A} (l : list A) (off : Z) (bs : list A) : list A :=
  take (Z.to_nat off) l ++ bs ++ drop (Z.to_nat off + length bs) l.

Definition zeros (n : Z) : list Z := replicate (Z.to_nat n) 0.

(** [binary.BigEndian.PutUint64]: the eight bytes of [v]. *)
Definition PutUint64 (v : Z) : list Z :=
  [ Z.land (Z.shiftr v 56) 255; Z.land (Z.shiftr v 48) 255;
    Z.land (Z.shiftr v 40) 255; Z.land (Z.shiftr v 32) 255;
    Z.land (Z.shiftr v 24) 255; Z.land (Z.shiftr v 16) 255;
    Z.land (Z.shiftr v 8) 255;  Z.land v 255 ].

(** [binary.BigEndian.Uint64] on a slice of at least eight bytes. *)
Definition Uint64 (b : list Z) : Z :=
  match b with
  | b0 :: b1 :: b2 :: b3 :: b4 :: b5 :: b6 :: b7 :: _ =>
      Z.lor b7 (Z.lor (Z.shiftl b6 8) (Z.lor (Z.shiftl b5 16)
        (Z.lor (Z.shiftl b4 24) (Z.lor (Z.shiftl b3 32)
          (Z.lor (Z.shiftl b2 40) (Z.lor (Z.shiftl b1 48) (Z.shiftl b0 56)))))))
  | _ => 0
  end.

(** An [int64] field at byte offset [off] of a header or slot. *)
Definition get_int64 (b : list Z) (off : nat) : Z :=
  to_int64 (Uint64 (drop off b)).
Definition put_int64 (x : Z) : list Z := PutUint64 (to_uint64 x).

(** The values of [for i := a; i <= b; i++].  With [b] the largest [int64]
    the counter wraps and the condition never fails. *)
Definition for_le (a b : Z) : result (list Z) :=
  if b =? max_int64 then Diverges else Ok (seqZ a (b - a + 1)).

(** ** Configuration ([internal.Config]) *)

Record Config : Type := mkConfig {
  GetIndexSegmentSize : Z;
  GetDataSegmentSize : Z
}.

(** ** Index records ([internal/index_record.go]) *)

Module IndexRecord.

Definition IndexRecordSize : Z := 8 * 5 + 1.

Record t : Type := mk {
  RecordID : Z;
  DataSegmentOffset : Z;
  DataSegmentStartID : Z;
  DataSegmentEndID : Z;
  Size : Z;
  Purged : bool
}.

(** [&IndexRecord{}] *)
Definition zero : t := mk 0 0 0 0 0 false.

(** [IndexRecord.Read(b)]: every access is in bounds exactly when [b]
    has 41 bytes or more. *)
Definition Read (b : list Z) : result t :=
  if len b <? IndexRecordSize then Panic
  else
    let flags := nth 40 b 0 in
    Ok {| RecordID := get_int64 b 0;
          DataSegmentStartID := get_int64 b 8;
          DataSegmentEndID := get_int64 b 16;
          DataSegmentOffset := get_int64 b 24;
          Size := get_int64 b 32;
          Purged := negb (Z.land flags 1 =? 0) |}.

(** The 41 bytes [IndexRecord.Write] stores at the start of its
    argument. *)
Definition encode (r : t) : list Z :=
  put_int64 (RecordID r) ++ put_int64 (DataSegmentStartID r) ++
  put_int64 (DataSegmentEndID r) ++ put_int64 (DataSegmentOffset r) ++
  put_int64 (Size r) ++ [if Purged r then Z.lor 0 1 else 0].

(** [IndexRecord.Write(mem[off:])] as a store into [mem]. *)
Definition Write (r : t) (mem : list Z) (off : Z) : result (list Z) :=
  b ← slice_from mem off;
  if len b <? IndexRecordSize then Panic
  else Ok (write_at mem off (encode r)).

(** [SetIndexRecordPurged(mem[off:])] as a store into [mem]. *)
Definition SetIndexRecordPurged (mem : list Z) (off : Z) : result (list Z) :=
  b ← slice_from mem off;
  if len b <=? 40 then Panic
  else Ok (write_at mem (off + 40) [Z.lor (nth 40 b 0) 1]).

(** [IsIndexRecordPurged(mem[off:])]. *)
Definition IsIndexRecordPurged (mem : list Z) (off : Z) : result bool :=
  b ← slice_from mem off;
  if len b <=? 40 then Panic
  else Ok (negb (Z.land (nth 40 b 0) 1 =? 0)).

End IndexRecord.

(** ** Data segments ([internal/data_segment.go]) *)

Module DataSegment.

Definition dataSegmentMetadataSize : Z := 8 * 3.

Record t : Type := mk {
  SegmentID : Z;
  Size : Z;
  Cursor : Z;
  Metadata : list Z;   (* mapped[:24] *)
  Records : list Z     (* mapped[24:] *)
}.

Definition set_Cursor (c : Z) (s : t) : t :=
  mk (SegmentID s) (Size s) c (Metadata s) (Records s).
Definition set_Records (r : list Z) (s : t) : t :=
  mk (SegmentID s) (Size s) (Cursor s) (Metadata s) r.
Definition set_Metadata (m : list Z) (s : t) : t :=
  mk (SegmentID s) (Size s) (Cursor s) m (Records s).

(** The bytes of the file behind the mapping. *)
Definition file (s : t) : list Z := Metadata s ++ Records s.

Definition FlushMetadata (s : t) : t :=
  set_Metadata (put_int64 (SegmentID s) ++ put_int64 (Size s) ++
                put_int64 (Cursor s)) s.

(** [NewDataSegment(id, config)]; [existing] is the content of the file
    [dataNNNN] when there is one. *)
Definition NewDataSegment (id : Z) (config : Config)
    (existing : option (list Z)) : result t :=
  match existing with
  | None =>
      let size := add64 (GetDataSegmentSize config) dataSegmentMetadataSize in
      if size <? 0 then Err IOFailure
      else
        let mapped := zeros size in
        md ← slice mapped 0 dataSegmentMetadataSize;
        rs ← slice_from mapped dataSegmentMetadataSize;
        Ok (FlushMetadata (mk id (GetDataSegmentSize config) 0 md rs))
  | Some mapped =>
      md ← slice mapped 0 dataSegmentMetadataSize;
      rs ← slice_from mapped dataSegmentMetadataSize;
      Ok (mk (get_int64 md 0) (get_int64 md 8) (get_int64 md 16) md rs)
  end.

(** [Read(into, offset)]: the count returned and the new contents of
    [into]. *)
Definition Read (s : t) (into : list Z) (offset : Z) : result (Z * list Z) :=
  if offset >=? Cursor s then Ok (0, into)
  else
    src ← slice (Records s) offset (add64 offset (len into));
    Ok (copy into src).

(** [Reader(offset, size)]: the bytes behind the reader and the size
    granted. *)
Definition Reader (s : t) (offset size : Z) : result (list Z * Z) :=
  let size := if add64 offset size >? Size s then sub64 (Size s) offset else size in
  let size := if size >? Size s then Size s else size in
  view ← slice (Records s) offset (add64 offset size);
  Ok (view, size).

(** [Write(data)]: the segment afterwards, the offset and the count. *)
Definition Write (s : t) (data : list Z) : result (t * Z * Z) :=
  let offset := Cursor s in
  dst ← slice_from (Records s) offset;
  let '(written, _) := copy dst data in
  let records := write_at (Records s) offset (take (Z.to_nat written) data) in
  Ok (set_Cursor (add64 (Cursor s) written) (set_Records records s),
      offset, written).

Definition AvailableSize (s : t) : Z := sub64 (Size s) (Cursor s).
Definition Available (s : t) : bool := AvailableSize s >? 0.

(** [Close] flushes the header into the mapping before the sync. *)
Definition Close (s : t) : t := FlushMetadata s.

End DataSegment.

(** ** Pointers to segments

    A manager keeps its segments in a map and a pointer to the current
    one.  A pointer to a segment that is in the map is the key of its
    entry: a store through the pointer is a store into the entry.  When the
    entry is deleted the pointer is the only reference left, and the
    segment travels with it. *)

Inductive ref (A : Type) : Type :=
  | Linked (key : Z)
  | Unlinked (obj : A).

Arguments Linked {A} key.
Arguments Unlinked {A} obj.

(** [*p]; a nil pointer panics.  A [Linked] key is always in the map:
    [delete_key] is the only deletion. *)
Definition deref {A} (m : gmap Z A) (p : option (ref A)) : result A :=
  match p with
  | None => Panic
  | Some (Linked k) => match m !! k with Some o => Ok o | None => Panic end
  | Some (Unlinked o) => Ok o
  end.

(** [*p = o]. *)
Definition store_through {A} (m : gmap Z A) (p : option (ref A)) (o : A)
    : gmap Z A * option (ref A) :=
  match p with
  | Some (Linked k) => (<[k := o]> m, p)
  | Some (Unlinked _) => (m, Some (Unlinked o))
  | None => (m, p)
  end.

(** [m.Delete(k)], keeping the pointer [p] valid. *)
Definition delete_key {A} (k : Z) (m : gmap Z A) (p : option (ref A))
    : gmap Z A * option (ref A) :=
  (delete k m,
   match p with
   | Some (Linked k') =>
       if k' =? k then
         match m !! k with Some o => Some (Unlinked o) | None => p end
       else p
   | _ => p
   end).

(** The sorted identifiers of the files found by [os.ReadDir]. *)
Definition sorted_ids {A} (files : gmap Z A) : list Z :=
  merge_sort Z.le (fst <$> map_to_list files).

(** ** The data manager *)

Module DataManager.

Record t : Type := mk {
  Config_of : Config;
  MinSegment : Z;
  MaxSegment : Z;
  Segments : gmap Z DataSegment.t;
  LoadedSegments : Z;
  CurrentSegment : option (ref DataSegment.t)
}.

Definition current (m : t) : result DataSegment.t :=
  deref (Segments m) (CurrentSegment m).

(** A store through [m.CurrentSegment]. *)
Definition set_current (s : DataSegment.t) (m : t) : t :=
  let '(segs, cur) := store_through (Segments m) (CurrentSegment m) s in
  mk (Config_of m) (MinSegment m) (MaxSegment m) segs (LoadedSegments m) cur.

(** The content of the file [dataNNNN], when it exists. *)
Definition file_of (m : t) (id : Z) : option (list Z) :=
  DataSegment.file <$> Segments m !! id.

Definition Rotate (m : t) : result t :=
  match CurrentSegment m with
  | None =>
      seg ← DataSegment.NewDataSegment 0 (Config_of m) (file_of m 0);
      Ok (mk (Config_of m) 0 0 (<[0 := seg]> (Segments m))
             (add32 (LoadedSegments m) 1) (Some (Linked 0)))
  | Some _ =>
      cur ← current m;
      let id := add64 (DataSegment.SegmentID cur) 1 in
      seg ← DataSegment.NewDataSegment id (Config_of m) (file_of m id);
      let key := DataSegment.SegmentID seg in
      Ok (mk (Config_of m) (MinSegment m) key (<[key := seg]> (Segments m))
             (add32 (LoadedSegments m) 1) (Some (Linked key)))
  end.

(** [NewDataManager(config)] over the data files of the work directory. *)
Definition load_segment (config : Config) (files : gmap Z (list Z))
    (acc : result t) (id : Z) : result t :=
  d ← acc;
  segment ← DataSegment.NewDataSegment id config (files !! id);
  let min := if (MinSegment d =? -1) || (id <? MinSegment d)
             then id else MinSegment d in
  let segs := <[id := segment]> (Segments d) in
  let loaded := add32 (LoadedSegments d) 1 in
  let d := mk config min (MaxSegment d) segs loaded (CurrentSegment d) in
  d ← match CurrentSegment d with
      | None => Ok (mk config min id segs loaded (Some (Linked id)))
      | Some _ =>
          cur ← current d;
          if id >? DataSegment.SegmentID cur
          then Ok (mk config min id segs loaded (Some (Linked id)))
          else Ok d
      end;
  cur ← current d;
  if id >? DataSegment.SegmentID cur
  then Ok (mk config (MinSegment d) id (Segments d) (LoadedSegments d)
              (CurrentSegment d))
  else Ok d.

Definition NewDataManager (config : Config) (files : gmap Z (list Z))
    : result t :=
  let segmentsToLoad := sorted_ids files in
  d ← foldl (load_segment config files)
            (Ok (mk config (-1) (-1) ∅ 0 None)) segmentsToLoad;
  if len segmentsToLoad =? 0 then Rotate d else Ok d.

(** [Close]: the data files left in the work directory. *)
Definition Close (m : t) : gmap Z (list Z) :=
  (fun s => DataSegment.file (DataSegment.Close s)) <$> Segments m.

Definition set_Offset (o : Z) (r : IndexRecord.t) : IndexRecord.t :=
  IndexRecord.mk (IndexRecord.RecordID r) o (IndexRecord.DataSegmentStartID r)
    (IndexRecord.DataSegmentEndID r) (IndexRecord.Size r) (IndexRecord.Purged r).
Definition set_StartID (v : Z) (r : IndexRecord.t) : IndexRecord.t :=
  IndexRecord.mk (IndexRecord.RecordID r) (IndexRecord.DataSegmentOffset r) v
    (IndexRecord.DataSegmentEndID r) (IndexRecord.Size r) (IndexRecord.Purged r).
Definition set_EndID (v : Z) (r : IndexRecord.t) : IndexRecord.t :=
  IndexRecord.mk (IndexRecord.RecordID r) (IndexRecord.DataSegmentOffset r)
    (IndexRecord.DataSegmentStartID r) v (IndexRecord.Size r) (IndexRecord.Purged r).

(** [if !m.CurrentSegment.Available() { m.Rotate() }] *)
Definition ensure_available (m : t) : result t :=
  cur ← current m;
  if negb (DataSegment.Available cur) then Rotate m else Ok m.

(** The loop [for written < dataLen] of [Write].  It stores at least one
    byte per round whenever the mapping of the current segment is as long
    as its [Size] says, so [fuel] rounds beyond [len data] are never
    needed then. *)
Fixpoint Write_loop (fuel : nat) (m : t) (data : list Z)
    (rec : IndexRecord.t) (written : Z) : result (t * IndexRecord.t) :=
  if written <? len data then
    match fuel with
    | O => Diverges
    | S fuel =>
        m ← ensure_available m;
        cur ← current m;
        if written =? 0 then
          '(cur, offset, wr) ← DataSegment.Write cur data;
          Write_loop fuel (set_current cur m) data (set_Offset offset rec) wr
        else
          rest ← slice_from data written;
          '(cur, _, wr) ← DataSegment.Write cur rest;
          Write_loop fuel (set_current cur m) data rec (add64 written wr)
    end
  else Ok (m, rec).

Definition Write (m : t) (data : list Z) (rec : IndexRecord.t)
    : result (t * IndexRecord.t) :=
  m ← ensure_available m;
  cur ← current m;
  let rec := set_StartID (DataSegment.SegmentID cur) rec in
  '(m, rec) ← Write_loop (S (length data)) m data rec 0;
  cur ← current m;
  Ok (m, set_EndID (DataSegment.SegmentID cur) rec).

(** The loop [for size > 0] of [Read]; [readers] is what the readers
    collected so far yield.  Every round moves to the next key, so the
    loop leaves the map within [size Segments + 1] rounds. *)
Fixpoint Read_loop (fuel : nat) (m : t) (size segID offset : Z)
    (readers : list Z) : result (list Z) :=
  if size >? 0 then
    match fuel with
    | O => Diverges
    | S fuel =>
        match Segments m !! segID with
        | None => Err (SegmentNotFound segID)
        | Some seg =>
            '(reader, limit) ← DataSegment.Reader seg offset size;
            Read_loop fuel m (sub64 size limit) (add64 segID 1) 0
                      (readers ++ reader)
        end
    end
  else Ok readers.

(** [Read(rec)]: the bytes the returned [io.MultiReader] yields. *)
Definition Read (m : t) (rec : IndexRecord.t) : result (list Z) :=
  Read_loop (S (size (Segments m))) m (IndexRecord.Size rec)
    (IndexRecord.DataSegmentStartID rec) (IndexRecord.DataSegmentOffset rec) [].

(** Unlinking one segment inside [VacuumDataSegments]. *)
Definition unlink (m : t) (k : Z) : t :=
  let '(segs, cur) := delete_key k (Segments m) (CurrentSegment m) in
  mk (Config_of m) (MinSegment m) (MaxSegment m) segs
     (add32 (LoadedSegments m) (-1)) cur.

Definition set_MaxSegment (v : Z) (m : t) : t :=
  mk (Config_of m) (MinSegment m) v (Segments m) (LoadedSegments m)
     (CurrentSegment m).

Definition VacuumDataSegments (m : t) (idsInUse : gset Z) : result t :=
  let doomed := filter (fun k => k ∉ idsInUse) (fst <$> map_to_list (Segments m)) in
  let m := foldl unlink m doomed in
  m ← (if LoadedSegments m =? 0
       then m ← Rotate m; Ok (set_MaxSegment 0 m)
       else Ok m);
  let maxSeg := foldl (fun acc k => if k >? acc then k else acc) 0
                      (fst <$> map_to_list (Segments m)) in
  let m := set_MaxSegment maxSeg m in
  match CurrentSegment m with
  | None =>
      Ok (mk (Config_of m) (MinSegment m) (MaxSegment m) (Segments m)
             (LoadedSegments m)
             (match Segments m !! MaxSegment m with
              | Some _ => Some (Linked (MaxSegment m))
              | None => None
              end))
  | Some _ => Ok m
  end.

End DataManager.

(** ** Index segments *)

Module IndexSegment.

Definition IndexSegmentMetadataSize : Z := 6 * 8 + 1.

Record t : Type := mk {
  SegmentID : Z;
  Size : Z;
  LowerRecord : Z;
  UpperRecord : Z;
  RecordsCount : Z;
  Cursor : Z;
  Purged : bool;
  Metadata : list Z;   (* mapped[:49] *)
  Records : list Z     (* mapped[49:] *)
}.

Definition set_LowerRecord (v : Z) (s : t) : t :=
  mk (SegmentID s) (Size s) v (UpperRecord s) (RecordsCount s) (Cursor s)
     (Purged s) (Metadata s) (Records s).
Definition set_UpperRecord (v : Z) (s : t) : t :=
  mk (SegmentID s) (Size s) (LowerRecord s) v (RecordsCount s) (Cursor s)
     (Purged s) (Metadata s) (Records s).
Definition set_RecordsCount (v : Z) (s : t) : t :=
  mk (SegmentID s) (Size s) (LowerRecord s) (UpperRecord s) v (Cursor s)
     (Purged s) (Metadata s) (Records s).
Definition set_Cursor (v : Z) (s : t) : t :=
  mk (SegmentID s) (Size s) (LowerRecord s) (UpperRecord s) (RecordsCount s) v
     (Purged s) (Metadata s) (Records s).
Definition set_Purged (v : bool) (s : t) : t :=
  mk (SegmentID s) (Size s) (LowerRecord s) (UpperRecord s) (RecordsCount s)
     (Cursor s) v (Metadata s) (Records s).
Definition set_Metadata (v : list Z) (s : t) : t :=
  mk (SegmentID s) (Size s) (LowerRecord s) (UpperRecord s) (RecordsCount s)
     (Cursor s) (Purged s) v (Records s).
Definition set_Records (v : list Z) (s : t) : t :=
  mk (SegmentID s) (Size s) (LowerRecord s) (UpperRecord s) (RecordsCount s)
     (Cursor s) (Purged s) (Metadata s) v.

(** The bytes of the file behind the mapping. *)
Definition file (s : t) : list Z := Metadata s ++ Records s.

Definition FlushMetadata (s : t) : t :=
  set_Metadata
    (put_int64 (SegmentID s) ++ put_int64 (Size s) ++
     put_int64 (LowerRecord s) ++ put_int64 (UpperRecord s) ++
     put_int64 (RecordsCount s) ++ put_int64 (Cursor s) ++
     [if Purged s then Z.lor 0 1 else 0]) s.

(** [LoadMetadata] on a header [md] of 49 bytes. *)
Definition LoadMetadata (md rs : list Z) : t :=
  mk (get_int64 md 0) (get_int64 md 8) (get_int64 md 16) (get_int64 md 24)
     (get_int64 md 32) (get_int64 md 40)
     (negb (Z.land (nth 48 md 0) 1 =? 0)) md rs.

(** [NewIndexSegment(id, config)]; [existing] is the content of the file
    [indexNNNN] when there is one. *)
Definition NewIndexSegment (id : Z) (config : Config)
    (existing : option (list Z)) : result t :=
  match existing with
  | None =>
      let size := add64 (GetIndexSegmentSize config) IndexSegmentMetadataSize in
      if size <? 0 then Err IOFailure
      else
        let mapped := zeros size in
        md ← slice mapped 0 IndexSegmentMetadataSize;
        rs ← slice_from mapped IndexSegmentMetadataSize;
        Ok (FlushMetadata
              (mk id (GetIndexSegmentSize config) 0 0 0 0 false md rs))
  | Some mapped =>
      md ← slice mapped 0 IndexSegmentMetadataSize;
      rs ← slice_from mapped IndexSegmentMetadataSize;
      Ok (LoadMetadata md rs)
  end.

Definition ContainsRecord (s : t) (id : Z) : bool :=
  if RecordsCount s =? 0 then false
  else (id >=? LowerRecord s) && (id <=? UpperRecord s).

(** [LoadRecord(id, rec)]: the boolean returned and [rec] afterwards. *)
Definition LoadRecord (s : t) (id : Z) (rec : IndexRecord.t)
    : result (bool * IndexRecord.t) :=
  if negb (ContainsRecord s id) then Ok (false, rec)
  else
    let offset := mul64 (sub64 id (LowerRecord s)) IndexRecord.IndexRecordSize in
    b ← slice_from (Records s) offset;
    rec ← IndexRecord.Read b;
    Ok (true, rec).

Definition FitsRecord (s : t) : bool :=
  add64 (Cursor s) IndexRecord.IndexRecordSize <=? Size s.

(** The stores of [WriteRecord], in program order. *)
Definition store_slot (rec : IndexRecord.t) (s : t) : result t :=
  records ← IndexRecord.Write rec (Records s) (Cursor s);
  Ok (set_Records records s).
Definition store_lower (cur : Z) (rec : IndexRecord.t) (s : t) : t :=
  if cur =? 0 then set_LowerRecord (IndexRecord.RecordID rec) s else s.
Definition store_cursor (s : t) : t :=
  set_Cursor (add64 (Cursor s) IndexRecord.IndexRecordSize) s.
Definition store_upper (rec : IndexRecord.t) (s : t) : t :=
  set_UpperRecord (IndexRecord.RecordID rec) s.
Definition store_count (s : t) : t :=
  set_RecordsCount (add64 (RecordsCount s) 1) s.

Definition WriteRecord (s : t) (rec : IndexRecord.t) : result t :=
  let cur := Cursor s in
  s ← store_slot rec s;
  Ok (FlushMetadata
        (store_count (store_upper rec (store_cursor (store_lower cur rec s))))).

(** The states of the segment that another goroutine can load while
    [WriteRecord] runs, one per store. *)
Definition WriteRecord_trace (s : t) (rec : IndexRecord.t) : result (list t) :=
  let cur := Cursor s in
  s1 ← store_slot rec s;
  let s2 := store_lower cur rec s1 in
  let s3 := store_cursor s2 in
  let s4 := store_upper rec s3 in
  let s5 := store_count s4 in
  Ok [s1; s2; s3; s4; s5; FlushMetadata s5].

(** First loop of [PurgeFrom]: flag the slots [0, 1, ...], one per
    value of [i]. *)
Fixpoint flag_slots (ids : list Z) (cur : Z) (records : list Z)
    : result (list Z) :=
  match ids with
  | [] => Ok records
  | _ :: ids =>
      records ← IndexRecord.SetIndexRecordPurged records
                  (cur * IndexRecord.IndexRecordSize);
      flag_slots ids (cur + 1) records
  end.

(** Second loop of [PurgeFrom]: count the records not flagged. *)
Fixpoint count_live (s : t) (ids : list Z) (rec : IndexRecord.t) (count : Z)
    : result Z :=
  match ids with
  | [] => Ok count
  | i :: ids =>
      '(_, rec) ← LoadRecord s i rec;
      count_live s ids rec
        (if IndexRecord.Purged rec then count else count + 1)
  end.

(** Third loop of [PurgeFrom]: the first [i] whose slot is not flagged
    becomes the lower record. *)
Fixpoint advance_lower (s : t) (ids : list Z) (cur : Z) : result t :=
  match ids with
  | [] => Ok s
  | i :: ids =>
      purged ← IndexRecord.IsIndexRecordPurged (Records s)
                 (cur * IndexRecord.IndexRecordSize);
      if negb purged then Ok (set_LowerRecord i s)
      else advance_lower s ids (cur + 1)
  end.

Definition PurgeFrom (s : t) (id : Z) : result t :=
  if negb (FitsRecord s) && (id =? UpperRecord s)
  then Ok (FlushMetadata (set_Purged true s))
  else
    let lr := LowerRecord s in
    ids ← for_le lr id;
    records ← flag_slots ids 0 (Records s);
    let s := set_Records records s in
    ids ← for_le lr (UpperRecord s);
    count ← count_live s ids IndexRecord.zero 0;
    let s := set_RecordsCount (to_int64 count) s in
    let s := if (count =? 0) && negb (Purged s)
             then FlushMetadata (set_Purged true s) else s in
    if Purged s then Ok (set_LowerRecord (-1) s)
    else
      ids ← for_le (LowerRecord s) (UpperRecord s);
      advance_lower s ids 0.

(** [Close] syncs the mapping; the header is not flushed. *)
Definition Close (s : t) : t := s.

End IndexSegment.

(** ** The index *)

Module Index.

Record t : Type := mk {
  Config_of : Config;
  MinSegment : Z;
  MaxSegment : Z;
  MaxRecord : Z;
  Segments : gmap Z IndexSegment.t;
  LoadedSegments : Z;
  CurrentSegment : option (ref IndexSegment.t);
  dm : DataManager.t
}.

Definition set_MaxRecord (v : Z) (i : t) : t :=
  mk (Config_of i) (MinSegment i) (MaxSegment i) v (Segments i)
     (LoadedSegments i) (CurrentSegment i) (dm i).
Definition set_MaxSegment (v : Z) (i : t) : t :=
  mk (Config_of i) (MinSegment i) v (MaxRecord i) (Segments i)
     (LoadedSegments i) (CurrentSegment i) (dm i).
Definition set_MinSegment (v : Z) (i : t) : t :=
  mk (Config_of i) v (MaxSegment i) (MaxRecord i) (Segments i)
     (LoadedSegments i) (CurrentSegment i) (dm i).
Definition set_Segments (v : gmap Z IndexSegment.t) (i : t) : t :=
  mk (Config_of i) (MinSegment i) (MaxSegment i) (MaxRecord i) v
     (LoadedSegments i) (CurrentSegment i) (dm i).
Definition set_CurrentSegment (v : option (ref IndexSegment.t)) (i : t) : t :=
  mk (Config_of i) (MinSegment i) (MaxSegment i) (MaxRecord i) (Segments i)
     (LoadedSegments i) v (dm i).
Definition set_dm (v : DataManager.t) (i : t) : t :=
  mk (Config_of i) (MinSegment i) (MaxSegment i) (MaxRecord i) (Segments i)
     (LoadedSegments i) (CurrentSegment i) v.

Definition current (i : t) : result IndexSegment.t :=
  deref (Segments i) (CurrentSegment i).

(** A store through [i.CurrentSegment]. *)
Definition set_current (s : IndexSegment.t) (i : t) : t :=
  let '(segs, cur) := store_through (Segments i) (CurrentSegment i) s in
  mk (Config_of i) (MinSegment i) (MaxSegment i) (MaxRecord i) segs
     (LoadedSegments i) cur (dm i).

(** The content of the file [indexNNNN], when it exists. *)
Definition file_of (i : t) (id : Z) : option (list Z) :=
  IndexSegment.file <$> Segments i !! id.

Definition Rotate (i : t) : result t :=
  match CurrentSegment i with
  | None =>
      seg ← IndexSegment.NewIndexSegment 0 (Config_of i) (file_of i 0);
      Ok (mk (Config_of i) 0 0 (-1) (<[0 := seg]> (Segments i))
             (add32 (LoadedSegments i) 1) (Some (Linked 0)) (dm i))
  | Some _ =>
      cur ← current i;
      let id := add64 (IndexSegment.SegmentID cur) 1 in
      seg ← IndexSegment.NewIndexSegment id (Config_of i) (file_of i id);
      let key := IndexSegment.SegmentID seg in
      Ok (mk (Config_of i) (MinSegment i) key (MaxRecord i)
             (<[key := seg]> (Segments i))
             (add32 (LoadedSegments i) 1) (Some (Linked key)) (dm i))
  end.

(** The work directory: the contents of the data and of the index files,
    by the number in their names. *)
Record Dir : Type := mkDir {
  data_files : gmap Z (list Z);
  index_files : gmap Z (list Z)
}.

Definition empty_dir : Dir := mkDir ∅ ∅.

(** One round of the loading loop of [NewIndex]. *)
Definition load_segment (config : Config) (files : gmap Z (list Z))
    (acc : result t) (id : Z) : result t :=
  i ← acc;
  segment ← IndexSegment.NewIndexSegment id config (files !! id);
  let i := if (id >? MinSegment i) || (MinSegment i =? -1)
           then set_MinSegment id i else i in
  let i := mk (Config_of i) (MinSegment i) (MaxSegment i) (MaxRecord i)
              (<[id := segment]> (Segments i))
              (add32 (LoadedSegments i) 1) (CurrentSegment i) (dm i) in
  let install i :=
    set_MaxSegment (IndexSegment.SegmentID segment)
      (set_MaxRecord (IndexSegment.UpperRecord segment)
         (set_CurrentSegment (Some (Linked id)) i)) in
  match CurrentSegment i with
  | None => Ok (install i)
  | Some _ =>
      cur ← current i;
      if id >? IndexSegment.SegmentID cur then Ok (install i) else Ok i
  end.

Definition NewIndex (config : Config) (dir : Dir) : result t :=
  dm ← DataManager.NewDataManager config (data_files dir);
  let segmentsToLoad := sorted_ids (index_files dir) in
  i ← foldl (load_segment config (index_files dir))
            (Ok (mk config (-1) (-1) 0 ∅ 0 None dm)) segmentsToLoad;
  if len segmentsToLoad =? 0 then Rotate i else Ok i.

(** [Close]: what is left in the work directory. *)
Definition Close (i : t) : Dir :=
  mkDir (DataManager.Close (dm i))
        ((fun s => IndexSegment.file (IndexSegment.Close s)) <$> Segments i).

(** [i.Segments.Range()]: Go leaves the order open. *)
Definition Range (i : t) : list (Z * IndexSegment.t) :=
  map_to_list (Segments i).

(** [SegmentForID(id)] with the key under which the segment is stored. *)
Definition SegmentForID (i : t) (id : Z) : option (Z * IndexSegment.t) :=
  List.find (fun e => IndexSegment.ContainsRecord e.2 id) (Range i).

Definition set_RecordID (v : Z) (r : IndexRecord.t) : IndexRecord.t :=
  IndexRecord.mk v (IndexRecord.DataSegmentOffset r)
    (IndexRecord.DataSegmentStartID r) (IndexRecord.DataSegmentEndID r)
    (IndexRecord.Size r) (IndexRecord.Purged r).
Definition set_Size (v : Z) (r : IndexRecord.t) : IndexRecord.t :=
  IndexRecord.mk (IndexRecord.RecordID r) (IndexRecord.DataSegmentOffset r)
    (IndexRecord.DataSegmentStartID r) (IndexRecord.DataSegmentEndID r)
    v (IndexRecord.Purged r).
Definition set_Purged (v : bool) (r : IndexRecord.t) : IndexRecord.t :=
  IndexRecord.mk (IndexRecord.RecordID r) (IndexRecord.DataSegmentOffset r)
    (IndexRecord.DataSegmentStartID r) (IndexRecord.DataSegmentEndID r)
    (IndexRecord.Size r) v.

(** [if !i.CurrentSegment.FitsRecord() { i.Rotate() }] *)
Definition ensure_fits (i : t) : result t :=
  cur ← current i;
  if negb (IndexSegment.FitsRecord cur) then Rotate i else Ok i.

(** The head of [Append], up to and including [i.dm.Write]: the index,
    [recID] and [rec] at that point. *)
Definition Append_data (i : t) (data : list Z) (rec : IndexRecord.t)
    : result (t * Z * IndexRecord.t) :=
  i ← ensure_fits i;
  let recID := add64 (MaxRecord i) 1 in
  let rec := set_Purged false (set_Size (len data) (set_RecordID recID rec)) in
  '(dm, rec) ← DataManager.Write (dm i) data rec;
  Ok (set_dm dm i, recID, rec).

(** [Append(data, rec)]: the index and [rec] afterwards. *)
Definition Append (i : t) (data : list Z) (rec : IndexRecord.t)
    : result (t * IndexRecord.t) :=
  '(i, recID, rec) ← Append_data i data rec;
  let i := set_MaxRecord recID i in
  cur ← current i;
  cur ← IndexSegment.WriteRecord cur rec;
  Ok (set_current cur i, rec).

(** The states of the index that another goroutine can load while
    [Append] runs, from the return of [i.dm.Write] on: one per store, in
    program order.  The first is the state after
    [i.MaxRecord.Store(recID)]. *)
Definition Append_trace (i : t) (data : list Z) (rec : IndexRecord.t)
    : result (list t) :=
  '(i, recID, rec) ← Append_data i data rec;
  let i := set_MaxRecord recID i in
  cur ← current i;
  segs ← IndexSegment.WriteRecord_trace cur rec;
  Ok (i :: ((fun s => set_current s i) <$> segs)).

Definition LookupMeta (i : t) (id : Z) (rec : IndexRecord.t)
    : result IndexRecord.t :=
  match SegmentForID i id with
  | None => Err (NotFound id)
  | Some (_, seg) =>
      '(_, rec) ← IndexSegment.LoadRecord seg id rec;
      Ok rec
  end.

Definition ReadRecord (i : t) (rec : IndexRecord.t) : result (list Z) :=
  DataManager.Read (dm i) rec.

Definition IsEmpty (i : t) : result bool :=
  if (MinSegment i =? 0) && (MaxSegment i =? 0) then
    cur ← current i;
    Ok (IndexSegment.RecordsCount cur =? 0)
  else
    Ok (forallb (fun e => IndexSegment.Purged e.2) (Range i)).

(** The loop of [CountObjects]: one round per successor segment.  The
    keys visited are pairwise different, so the loop leaves the map
    within [size Segments + 1] rounds. *)
Fixpoint CountObjects_loop (fuel : nat) (i : t) (seg : IndexSegment.t)
    (total : Z) : result Z :=
  match fuel with
  | O => Diverges
  | S fuel =>
      match Segments i !! add64 (IndexSegment.SegmentID seg) 1 with
      | None => Ok total
      | Some seg =>
          CountObjects_loop fuel i seg
            (add64 total (IndexSegment.RecordsCount seg))
      end
  end.

Definition CountObjects (i : t) (id : Z) (inclusive : bool) : result Z :=
  match SegmentForID i id with
  | None => Ok 0
  | Some (_, seg) =>
      let total := sub64 (IndexSegment.UpperRecord seg) id in
      total ← CountObjects_loop (S (size (Segments i))) i seg total;
      Ok (if inclusive then add64 total 1 else total)
  end.

(** The loop of [VacuumObjects] that marks the segments below the
    purged one, downwards until a key is missing. *)
Fixpoint mark_previous (fuel : nat) (segs : gmap Z IndexSegment.t)
    (segID : Z) (segsToRemove : list Z)
    : result (gmap Z IndexSegment.t * list Z) :=
  match segs !! segID with
  | None => Ok (segs, segsToRemove)
  | Some seg =>
      match fuel with
      | O => Diverges
      | S fuel =>
          let seg := IndexSegment.FlushMetadata (IndexSegment.set_Purged true seg) in
          mark_previous fuel (<[segID := seg]> segs) (sub64 segID 1)
                        (segsToRemove ++ [segID])
      end
  end.

(** The data segments referenced by the records [ids] of [seg]. *)
Fixpoint records_in_use (seg : IndexSegment.t) (ids : list Z)
    (rec : IndexRecord.t) (drsInUse : gset Z) : result (gset Z) :=
  match ids with
  | [] => Ok drsInUse
  | i :: ids =>
      '(_, rec) ← IndexSegment.LoadRecord seg i rec;
      if IndexRecord.Purged rec then records_in_use seg ids rec drsInUse
      else
        span ← for_le (IndexRecord.DataSegmentStartID rec)
                      (IndexRecord.DataSegmentEndID rec);
        records_in_use seg ids rec (drsInUse ∪ list_to_set span)
  end.

Definition segment_in_use (acc : result (gset Z)) (e : Z * IndexSegment.t)
    : result (gset Z) :=
  drsInUse ← acc;
  let seg := e.2 in
  if IndexSegment.Purged seg then Ok drsInUse
  else
    ids ← for_le (IndexSegment.LowerRecord seg) (IndexSegment.UpperRecord seg);
    records_in_use seg ids IndexRecord.zero drsInUse.

Definition data_in_use (i : t) : result (gset Z) :=
  foldl segment_in_use (Ok ∅) (Range i).

(** One round of the loop over [segsToRemove]. *)
Definition unlink (i : t) (v : Z) : t :=
  match Segments i !! v with
  | None => i
  | Some _ =>
      let is_current :=
        match current i with
        | Ok cur => v =? IndexSegment.SegmentID cur
        | _ => false
        end in
      let '(segs, cur) := delete_key v (Segments i) (CurrentSegment i) in
      mk (Config_of i) (MinSegment i) (MaxSegment i) (MaxRecord i) segs
         (add32 (LoadedSegments i) (-1))
         (if is_current then None else cur) (dm i)
  end.

(** The tail of [VacuumObjects], from the test of [LoadedSegments] on. *)
Definition settle (i : t) : result t :=
  i ← (if LoadedSegments i =? 0
       then i ← Rotate i; Ok (set_MaxSegment 0 i)
       else Ok i);
  let keys := fst <$> Range i in
  let maxSeg := foldl (fun acc k => if k >=? acc then k else acc) 0 keys in
  let minSeg := foldl (fun acc k => if k <=? acc then k else acc) max_int64 keys in
  let i := set_MinSegment minSeg (set_MaxSegment maxSeg i) in
  let i :=
    match CurrentSegment i with
    | None =>
        set_CurrentSegment
          (match Segments i !! MaxSegment i with
           | Some _ => Some (Linked (MaxSegment i))
           | None => None
           end) i
    | Some _ => i
    end in
  cur ← current i;
  let rec := IndexSegment.RecordsCount cur in
  if rec =? 0 then Ok (set_MaxRecord (-1) i) else Ok (set_MaxRecord rec i).

Definition VacuumObjects (i : t) (id : Z) (inclusive : bool) : result t :=
  let id := if negb inclusive then sub64 id 1 else id in
  if id <? 0 then Ok i
  else
    match SegmentForID i id with
    | None => Ok i
    | Some (key, seg) =>
        seg ← IndexSegment.PurgeFrom seg id;
        let segs := <[key := seg]> (Segments i) in
        let segsToRemove :=
          if IndexSegment.Purged seg then [IndexSegment.SegmentID seg] else [] in
        '(segs, segsToRemove) ←
          mark_previous (S (size segs)) segs
            (sub64 (IndexSegment.SegmentID seg) 1) segsToRemove;
        let i := set_Segments segs i in
        dataInUse ← data_in_use i;
        dm ← DataManager.VacuumDataSegments (dm i) dataInUse;
        let i := set_dm dm i in
        let i := foldl unlink i segsToRemove in
        settle i
    end.

(** [ReadObjects] and the cursor of [internal/index_cursor.go]. *)
Record indexCursor : Type := mkCursor {
  wants : Z;
  record : IndexRecord.t
}.

Definition ReadObjects (id : Z) (inclusive : bool) : indexCursor :=
  mkCursor (if negb inclusive then add64 id 1 else id) IndexRecord.zero.

(** [Next]: the boolean returned and the cursor afterwards. *)
Definition Next (i : t) (c : indexCursor) : result (bool * indexCursor) :=
  match LookupMeta i (wants c) (record c) with
  | Ok rec => Ok (true, mkCursor (add64 (wants c) 1) rec)
  | Err _ => Ok (false, c)
  | Panic => Panic
  | Diverges => Diverges
  end.

Definition Offset (c : indexCursor) : Z := sub64 (wants c) 1.

(** [Read] of the cursor: the bytes of the record the last [Next]
    loaded. *)
Definition Read (i : t) (c : indexCursor) : result (list Z) :=
  ReadRecord i (record c).

End Index.

(** ** The facade ([wal.go]) *)

Module WAL.

(** [NearestMultiple(j, k)] for integers. *)
Definition NearestMultiple (j k : Z) : Z :=
  if j >=? 0 then Z.quot j k * k else Z.quot (j - k + 1) k * k.

(** The defaults [New] fills in for sizes left at zero. *)
Definition with_defaults (config : Config) : Config :=
  let config :=
    if GetIndexSegmentSize config =? 0
    then mkConfig (NearestMultiple (64 * 1024 * 1024) IndexRecord.IndexRecordSize)
                  (GetDataSegmentSize config)
    else config in
  if GetDataSegmentSize config =? 0
  then mkConfig (GetIndexSegmentSize config) (128 * 1024 * 1024)
  else config.

(** [New(config)] on the work directory [dir]; the lock is not modelled. *)
Definition New (config : Config) (dir : Index.Dir) : result Index.t :=
  Index.NewIndex (with_defaults config) dir.

Definition WriteObject (w : Index.t) (data : list Z) : result Index.t :=
  '(i, _) ← Index.Append w data IndexRecord.zero;
  Ok i.

(** [ReadObject(id)]: the bytes the returned reader yields. *)
Definition ReadObject (w : Index.t) (id : Z) : result (list Z) :=
  rec ← Index.LookupMeta w id IndexRecord.zero;
  if IndexRecord.Purged rec then Err (NotFound id)
  else Index.ReadRecord w rec.

Definition Close (w : Index.t) : Index.Dir := Index.Close w.

Definition VacuumRecords (w : Index.t) (id : Z) (inclusive : bool)
    : result Index.t :=
  Index.VacuumObjects w id inclusive.

Definition CountObjects (w : Index.t) (id : Z) (inclusive : bool) : result Z :=
  Index.CountObjects w id inclusive.

Definition CurrentRecordID (w : Index.t) : Z :=
  Z.max (Index.MaxRecord w) 0.

Definition IsEmpty (w : Index.t) : result bool := Index.IsEmpty w.

End WAL.

(** ** The lock file ([internal/flock/flock.go])

    The methods run under the mutex of the instance, one at a time.  What
    the operating system answers to a call is an argument of the method
    that makes the call: [None] for success, [Some e] for the error. *)

Module Flock.

(** An error of the operating system.  [is_closed] tells whether
    [errors.Is(err, os.ErrClosed)] holds of it, [not_exist] whether
    [os.IsNotExist(err)] does. *)
Record os_error : Type := mk_os_error {
  errno : Z;
  is_closed : bool;
  not_exist : bool
}.

Inductive error : Type :=
  | AlreadyLockedErr
  | NotLockedErr
  | ClosedErr
  | CannotLockErr (cause : os_error)     (* errors.Join(CannotLockErr, err) *)
  | OSError (e : os_error).

(** [errors.Is(err, os.ErrClosed)]: the errors of the package are made by
    [fmt.Errorf] and wrap nothing. *)
Definition is_os_ErrClosed (e : error) : bool :=
  match e with
  | OSError e => is_closed e
  | CannotLockErr e => is_closed e
  | _ => false
  end.

(** [os.IsNotExist(err)] on the error of [os.Remove]. *)
Definition IsNotExist (e : os_error) : bool := not_exist e.

(** The calls into the operating system. *)
Inductive call : Type :=
  | flock_LOCK_EX_NB
  | flock_LOCK_UN
  | file_Close
  | os_Remove
  | file_WriteAt (data : list Z)
  | file_Sync
  | file_ReadAt (size : Z).

(** The fields of [flock] that change. *)
Record t : Type := mk {
  locked : bool;
  closed : bool
}.

(** What a method returns: the instance afterwards, the error, and the
    calls it made with whether each succeeded. *)
Definition outcome : Type := t * option error * list (call * bool).

Definition answered (c : call) (answer : option os_error) : call * bool :=
  (c, match answer with None => true | Some _ => false end).

(** [New(path)], once [os.OpenFile] has succeeded. *)
Definition New : t := mk false false.

Definition Lock (f : t) (kernel : option os_error) : outcome :=
  if closed f then (f, Some ClosedErr, [])
  else if locked f then (f, Some AlreadyLockedErr, [])
  else
    match kernel with
    | None => (mk true (closed f), None, [answered flock_LOCK_EX_NB kernel])
    | Some e => (f, Some (CannotLockErr e), [answered flock_LOCK_EX_NB kernel])
    end.

Definition unlock (f : t) (kernel : option os_error) : outcome :=
  if closed f || negb (locked f) then (f, None, [])
  else
    match kernel with
    | None => (mk false (closed f), None, [answered flock_LOCK_UN kernel])
    | Some e => (f, Some (OSError e), [answered flock_LOCK_UN kernel])
    end.

Definition Unlock (f : t) (kernel : option os_error) : outcome :=
  if closed f then (f, Some ClosedErr, [])
  else if negb (locked f) then (f, Some NotLockedErr, [])
  else unlock f kernel.

Definition close (f : t) (kernel file : option os_error) : outcome :=
  if closed f then (f, Some ClosedErr, [])
  else
    let '(f, err, calls) := unlock f kernel in
    match err with
    | Some e => (f, Some e, calls)
    | None =>
        match file with
        | Some e => (f, Some (OSError e), calls ++ [answered file_Close file])
        | None => (mk (locked f) true, None, calls ++ [answered file_Close file])
        end
    end.

Definition Close (f : t) (kernel file : option os_error) : outcome :=
  close f kernel file.

Definition Remove (f : t) (kernel file remove : option os_error) : outcome :=
  let '(f, err, calls) := close f kernel file in
  let failed := match err with
                | Some e => negb (is_os_ErrClosed e)
                | None => false
                end in
  if failed then (f, err, calls)
  else
    match remove with
    | Some e =>
        if negb (IsNotExist e)
        then (f, Some (OSError e), calls ++ [answered os_Remove remove])
        else (f, None, calls ++ [answered os_Remove remove])
    | None => (f, None, calls ++ [answered os_Remove remove])
    end.

Definition Write (f : t) (data : list Z) (write sync : option os_error)
    : outcome :=
  match write with
  | Some e => (f, Some (OSError e), [answered (file_WriteAt data) write])
  | None =>
      (f, (fun e => OSError e) <$> sync,
       [answered (file_WriteAt data) write; answered file_Sync sync])
  end.

(** [Read(data)]: the count [ReadAt] returned is passed on with the
    error. *)
Definition Read (f : t) (size : Z) (count : Z) (read : option os_error)
    : outcome * Z :=
  ((f, (fun e => OSError e) <$> read, [answered (file_ReadAt size) read]), count).

End Flock.

(** * Properties *)

(** ** Machine integers and byte order *)

Definition in_int64 (z : Z) : Prop := min_int64 <= z <= max_int64.

Lemma wrap64_id z : in_int64 z -> wrap64 z = z.
Proof.
  unfold in_int64, min_int64, max_int64, wrap64. intros H.
  rewrite Z.mod_small; lia.
Qed.

Lemma wrap64_range z : in_int64 (wrap64 z).
Proof.
  unfold in_int64, min_int64, max_int64, wrap64.
  pose proof (Z.mod_pos_bound (z + 2 ^ 63) (2 ^ 64) ltac:(lia)). lia.
Qed.

Lemma wrap64_wrap64_add a b : wrap64 (wrap64 a + b) = wrap64 (a + b).
Proof.
  unfold wrap64. f_equal.
  replace ((a + 2 ^ 63) mod 2 ^ 64 - 2 ^ 63 + b + 2 ^ 63)
    with ((a + 2 ^ 63) mod 2 ^ 64 + b) by lia.
  rewrite Zplus_mod_idemp_l. f_equal. lia.
Qed.

Lemma to_int64_to_uint64 x : in_int64 x -> to_int64 (to_uint64 x) = x.
Proof.
  unfold in_int64, min_int64, max_int64, to_int64, to_uint64, wrap64. intros H.
  rewrite Zplus_mod_idemp_l. rewrite Z.mod_small; lia.
Qed.

Lemma to_uint64_range x : 0 <= to_uint64 x < 2 ^ 64.
Proof. unfold to_uint64. apply Z.mod_pos_bound. lia. Qed.

Lemma testbit_255 n : 0 <= n -> Z.testbit 255 n = (n <? 8).
Proof.
  intros Hn. change 255 with (Z.ones 8).
  rewrite Z.testbit_ones by lia.
  destruct (Z.leb_spec 0 n); [|lia]. reflexivity.
Qed.

Lemma testbit_shiftr_255 v k m :
  0 <= k -> Z.testbit (Z.land (Z.shiftr v k) 255) m =
    (0 <=? m) && (m <? 8) && Z.testbit v (m + k).
Proof.
  intros Hk. destruct (Z.leb_spec 0 m) as [Hm|Hm].
  - rewrite Z.land_spec, Z.shiftr_spec, testbit_255 by lia.
    cbn. apply andb_comm.
  - rewrite Z.testbit_neg_r by lia. reflexivity.
Qed.

(** [Uint64] reads back what [PutUint64] stored, whatever follows. *)
Lemma Uint64_PutUint64 v tail :
  0 <= v < 2 ^ 64 -> Uint64 (PutUint64 v ++ tail) = v.
Proof.
  intros Hv. unfold PutUint64. cbn [app Uint64].
  apply Z.bits_inj'. intros n Hn.
  rewrite !Z.lor_spec, !Z.shiftl_spec by lia.
  rewrite !testbit_shiftr_255 by lia.
  rewrite Z.land_spec, testbit_255 by lia.
  replace (n - 8 + 8) with n by lia. replace (n - 16 + 16) with n by lia.
  replace (n - 24 + 24) with n by lia. replace (n - 32 + 32) with n by lia.
  replace (n - 40 + 40) with n by lia. replace (n - 48 + 48) with n by lia.
  replace (n - 56 + 56) with n by lia.
  destruct (Z.ltb_spec n 64) as [Hlt|Hge].
  - destruct (Z.testbit v n); rewrite ?andb_false_r, ?andb_false_l; [|reflexivity].
    rewrite ?andb_true_r, ?andb_true_l.
    assert (Hcases : n < 8 \/ 8 <= n < 16 \/ 16 <= n < 24 \/ 24 <= n < 32 \/
              32 <= n < 40 \/ 40 <= n < 48 \/ 48 <= n < 56 \/ 56 <= n < 64)
      by lia.
    repeat match goal with
    | |- context [?a <=? ?b] => destruct (Z.leb_spec a b); try lia
    | |- context [?a <? ?b] => destruct (Z.ltb_spec a b); try lia
    end; reflexivity.
  - assert (Hz : Z.testbit v n = false).
    { destruct (Z.eq_dec v 0) as [->|Hnz]; [apply Z.bits_0|].
      apply Z.bits_above_log2; [lia|].
      apply Z.log2_lt_pow2; [lia|].
      apply Z.lt_le_trans with (2 ^ 64); [lia|].
      apply Z.pow_le_mono_r; lia. }
    rewrite Hz, ?andb_false_r, ?andb_false_l. reflexivity.
Qed.

Lemma get_put_int64 x tail :
  in_int64 x -> get_int64 (put_int64 x ++ tail) 0 = x.
Proof.
  intros Hx. unfold get_int64, put_int64. rewrite drop_0.
  rewrite Uint64_PutUint64 by apply to_uint64_range.
  by apply to_int64_to_uint64.
Qed.

Lemma length_put_int64 x : length (put_int64 x) = 8%nat.
Proof. reflexivity. Qed.

(** The vectors of [TestIndexRecordWrite] and [TestIndexRecordRead]. *)
Example IndexRecord_test_vector :
  IndexRecord.encode (IndexRecord.mk 10 40 20 30 50 false)
    = [0; 0; 0; 0; 0; 0; 0; 10;  0; 0; 0; 0; 0; 0; 0; 20;
       0; 0; 0; 0; 0; 0; 0; 30;  0; 0; 0; 0; 0; 0; 0; 40;
       0; 0; 0; 0; 0; 0; 0; 50;  0] /\
  IndexRecord.Read (IndexRecord.encode (IndexRecord.mk 10 40 20 30 50 false))
    = Ok (IndexRecord.mk 10 40 20 30 50 false).
Proof. split; reflexivity. Qed.

(** The file of [TestDataSegmentNew]: a new data segment of 64 bytes. *)
Example DataSegment_test_vector :
  DataSegment.file <$> DataSegment.NewDataSegment 0 (mkConfig 1024 64) None
    = Ok ([0; 0; 0; 0; 0; 0; 0; 0;  0; 0; 0; 0; 0; 0; 0; 64;
           0; 0; 0; 0; 0; 0; 0; 0] ++ zeros 64).
Proof. reflexivity. Qed.

(** ** Slices *)

Lemma len_nonneg {A} (l : list A) : 0 <= len l.
Proof. unfold len. lia. Qed.

Lemma slice_ok {A} (l : list A) lo hi :
  0 <= lo -> lo <= hi -> hi <= len l ->
  slice l lo hi = Ok (take (Z.to_nat (hi - lo)) (drop (Z.to_nat lo) l)).
Proof.
  intros H1 H2 H3. unfold slice.
  destruct (Z.leb_spec 0 lo); [|lia].
  destruct (Z.leb_spec lo hi); [|lia].
  destruct (Z.leb_spec hi (len l)); [|lia]. reflexivity.
Qed.

Lemma slice_panic {A} (l : list A) lo hi :
  lo < 0 \/ hi < lo \/ len l < hi -> slice l lo hi = Panic.
Proof.
  intros H. unfold slice.
  destruct (Z.leb_spec 0 lo); [|reflexivity].
  destruct (Z.leb_spec lo hi); [|reflexivity].
  destruct (Z.leb_spec hi (len l)); [lia|reflexivity].
Qed.

Lemma slice_from_ok {A} (l : list A) lo :
  0 <= lo -> lo <= len l -> slice_from l lo = Ok (drop (Z.to_nat lo) l).
Proof.
  intros H1 H2. unfold slice_from. rewrite slice_ok by lia.
  f_equal. apply take_ge. rewrite length_drop. unfold len. lia.
Qed.

(** ** C5: [DataSegment.Read] *)

(** What the specification says [Read] returns and leaves in [into]: at most
    the bytes below the cursor. *)
Definition Read_by_spec (s : DataSegment.t) (into : list Z) (offset : Z)
    : Z * list Z :=
  if offset >=? DataSegment.Cursor s then (0, into)
  else
    let n := Z.min (len into) (DataSegment.Cursor s - offset) in
    (n, take (Z.to_nat n) (drop (Z.to_nat offset) (DataSegment.Records s))
          ++ drop (Z.to_nat n) into).

(** A segment of 8 bytes whose first 4 are written, and a buffer of 8. *)
Definition half_full : DataSegment.t :=
  DataSegment.mk 0 8 4 (zeros 24) [1; 1; 1; 1; 0; 0; 0; 0].

(** C5, as stated, fails: with 4 bytes written, reading into a buffer of 8
    at offset 0 returns 8, not [min 8 (4 - 0)], and the buffer receives the
    four bytes beyond the cursor as well. *)
Lemma Read_beyond_cursor :
  DataSegment.Read half_full [7; 7; 7; 7; 7; 7; 7; 7] 0
    = Ok (8, [1; 1; 1; 1; 0; 0; 0; 0]) /\
  Read_by_spec half_full [7; 7; 7; 7; 7; 7; 7; 7] 0
    = (4, [1; 1; 1; 1; 7; 7; 7; 7]) /\
  DataSegment.Read half_full [7; 7; 7; 7; 7; 7; 7; 7] 0
    <> Ok (Read_by_spec half_full [7; 7; 7; 7; 7; 7; 7; 7] 0).
Proof. split; [|split]; [reflexivity | reflexivity | discriminate]. Qed.

(** C5, amended: [Read] returns 0 and leaves the buffer alone when
    [offset >= Cursor]; from an offset below the cursor it copies exactly
    [len into] bytes of the mapping from [offset] on and returns
    [len into], when these bytes lie inside the mapping: the cursor
    decides whether anything is read, not how much. *)
Theorem Read_copies_whole_buffer (s : DataSegment.t) (into : list Z) (offset : Z)
  (Hrecords : len (DataSegment.Records s) <= max_int64) :
  (DataSegment.Cursor s <= offset ->
   DataSegment.Read s into offset = Ok (0, into)) /\
  (0 <= offset < DataSegment.Cursor s ->
   offset + len into <= len (DataSegment.Records s) ->
   DataSegment.Read s into offset
     = Ok (len into,
           take (length into) (drop (Z.to_nat offset) (DataSegment.Records s)))).
Proof.
  unfold DataSegment.Read. split.
  - intros Hge. destruct (Z.geb_spec offset (DataSegment.Cursor s)); [reflexivity|lia].
  - intros Hlo Hhi.
    destruct (Z.geb_spec offset (DataSegment.Cursor s)); [lia|].
    pose proof (len_nonneg into) as Hlen.
    unfold add64. rewrite wrap64_id by (unfold in_int64, min_int64, max_int64 in *; lia).
    rewrite slice_ok by lia. cbn.
    replace (Z.to_nat (offset + len into - offset)) with (length into)
      by (unfold len; lia).
    unfold copy.
    assert (Hl : length (take (length into)
                   (drop (Z.to_nat offset) (DataSegment.Records s)))
                 = length into).
    { rewrite length_take, length_drop. unfold len in *. lia. }
    rewrite Hl, Nat.min_id, drop_all, app_nil_r.
    rewrite take_take, Nat.min_id. reflexivity.
Qed.

Lemma Read_copies_whole_buffer_witness :
  len (DataSegment.Records half_full) <= max_int64 /\
  DataSegment.Read half_full [7; 7; 7; 7; 7; 7; 7; 7] 0
    = Ok (8, [1; 1; 1; 1; 0; 0; 0; 0]).
Proof.
  assert (H1 : len (DataSegment.Records half_full) <= max_int64)
    by (vm_compute; discriminate).
  split; [exact H1|].
  apply (proj2 (Read_copies_whole_buffer half_full [7; 7; 7; 7; 7; 7; 7; 7] 0 H1)).
  - vm_compute. split; [discriminate|reflexivity].
  - vm_compute. discriminate.
Defined.

(** ** Inversion of successful calls *)

Lemma bind_Ok {A B} (r : result A) (k : A -> result B) (b : B) :
  r ≫= k = Ok b -> exists a, r = Ok a /\ k a = Ok b.
Proof. destruct r; cbn; intros H; try discriminate. eauto. Qed.

Ltac inv_bind H :=
  let a := fresh "a" in
  let Ha := fresh "H" a in
  apply bind_Ok in H as (a & Ha & H).

Ltac inv_Ok H := injection H as H; subst.

(** ** [Append] and the record counter *)

Lemma Rotate_MaxRecord i i' :
  Index.CurrentSegment i <> None -> Index.Rotate i = Ok i' ->
  Index.MaxRecord i' = Index.MaxRecord i.
Proof.
  unfold Index.Rotate. destruct (Index.CurrentSegment i); [|congruence].
  intros _ H. inv_bind H. inv_bind H. inv_Ok H. reflexivity.
Qed.

Lemma ensure_fits_MaxRecord i i' :
  Index.ensure_fits i = Ok i' -> Index.MaxRecord i' = Index.MaxRecord i.
Proof.
  unfold Index.ensure_fits. intros H. inv_bind H.
  destruct (negb (IndexSegment.FitsRecord a)).
  - eapply Rotate_MaxRecord; [|exact H].
    unfold Index.current, deref in Ha.
    destruct (Index.CurrentSegment i); [discriminate|discriminate].
  - by inv_Ok H.
Qed.

Lemma Write_loop_RecordID fuel m data rec written m' rec' :
  DataManager.Write_loop fuel m data rec written = Ok (m', rec') ->
  IndexRecord.RecordID rec' = IndexRecord.RecordID rec.
Proof.
  revert m rec written. induction fuel as [|fuel IH]; intros m rec written; cbn.
  - destruct (written <? len data); [discriminate|]. intros H. by inv_Ok H.
  - destruct (written <? len data); [|intros H; by inv_Ok H].
    intros H. inv_bind H. inv_bind H.
    destruct (written =? 0).
    + inv_bind H. destruct a1 as [[c o] w]. apply IH in H. exact H.
    + inv_bind H. inv_bind H. destruct a2 as [[c o] w]. apply IH in H. exact H.
Qed.

Lemma Write_RecordID m data rec m' rec' :
  DataManager.Write m data rec = Ok (m', rec') ->
  IndexRecord.RecordID rec' = IndexRecord.RecordID rec.
Proof.
  unfold DataManager.Write. intros H. inv_bind H. inv_bind H. inv_bind H.
  destruct a1 as [m1 rec1]. inv_bind H. inv_Ok H.
  apply Write_loop_RecordID in Ha1. exact Ha1.
Qed.

Lemma Append_data_spec i data rec i1 recID rec1 :
  Index.Append_data i data rec = Ok (i1, recID, rec1) ->
  recID = add64 (Index.MaxRecord i) 1 /\
  IndexRecord.RecordID rec1 = recID /\
  Index.MaxRecord i1 = Index.MaxRecord i.
Proof.
  unfold Index.Append_data. intros H. inv_bind H. inv_bind H.
  destruct a0 as [dm1 rec']. inv_Ok H.
  apply ensure_fits_MaxRecord in Ha. apply Write_RecordID in Ha0.
  rewrite Ha. cbn in Ha0. rewrite Ha in Ha0. auto.
Qed.

Lemma set_current_MaxRecord s i :
  Index.MaxRecord (Index.set_current s i) = Index.MaxRecord i.
Proof.
  unfold Index.set_current.
  destruct (store_through (Index.Segments i) (Index.CurrentSegment i) s).
  reflexivity.
Qed.

Lemma Append_spec i data rec i' rec' :
  Index.Append i data rec = Ok (i', rec') ->
  IndexRecord.RecordID rec' = add64 (Index.MaxRecord i) 1 /\
  Index.MaxRecord i' = IndexRecord.RecordID rec'.
Proof.
  unfold Index.Append. intros H. inv_bind H. destruct a as [[i1 recID] rec1].
  inv_bind H. inv_bind H. inv_Ok H.
  apply Append_data_spec in Ha as (-> & Hid & Hmax).
  rewrite set_current_MaxRecord. cbn. auto.
Qed.

Lemma WriteObject_spec w data w' :
  WAL.WriteObject w data = Ok w' ->
  Index.MaxRecord w' = add64 (Index.MaxRecord w) 1.
Proof.
  unfold WAL.WriteObject. intros H. inv_bind H. destruct a as [i rec].
  inv_Ok H. apply Append_spec in Ha as [H1 H2]. congruence.
Qed.

(** ** The data layer accepts every write *)

Lemma len_zeros n : 0 <= n -> len (zeros n) = n.
Proof. intros H. unfold len, zeros. rewrite length_replicate. lia. Qed.

Lemma slice_zeros_header n h :
  0 <= h -> 0 <= n -> slice (zeros (n + h)) 0 h = Ok (zeros h).
Proof.
  intros Hh Hn. rewrite slice_ok by (rewrite ?len_zeros; lia).
  f_equal. unfold zeros. rewrite drop_0, take_replicate. f_equal. lia.
Qed.

Lemma slice_from_zeros_header n h :
  0 <= h -> 0 <= n -> slice_from (zeros (n + h)) h = Ok (zeros n).
Proof.
  intros Hh Hn. rewrite slice_from_ok by (rewrite ?len_zeros; lia).
  f_equal. unfold zeros. rewrite drop_replicate. f_equal. lia.
Qed.

Definition fresh_data_segment (id D : Z) : DataSegment.t :=
  DataSegment.FlushMetadata (DataSegment.mk id D 0 (zeros 24) (zeros D)).

Lemma NewDataSegment_fresh id config :
  0 <= GetDataSegmentSize config <= 2 ^ 62 ->
  DataSegment.NewDataSegment id config None
    = Ok (fresh_data_segment id (GetDataSegmentSize config)).
Proof.
  intros HD. unfold DataSegment.NewDataSegment, DataSegment.dataSegmentMetadataSize.
  unfold add64. rewrite wrap64_id by (unfold in_int64, min_int64, max_int64; lia).
  destruct (Z.ltb_spec (GetDataSegmentSize config + 8 * 3) 0); [lia|].
  change (8 * 3) with 24.
  rewrite slice_zeros_header by lia. cbn.
  rewrite slice_from_zeros_header by lia. reflexivity.
Qed.

Lemma length_write_at {A} (l : list A) off bs :
  0 <= off -> off + len bs <= len l -> length (write_at l off bs) = length l.
Proof.
  unfold write_at, len. intros H1 H2.
  rewrite !length_app, length_take, length_drop. lia.
Qed.

(** The current data segment is stored under its own identifier [k], its
    mapping is as long as the configured size [D], and no file with a
    larger number exists. *)
Definition dm_at (D k : Z) (m : DataManager.t) : Prop :=
  GetDataSegmentSize (DataManager.Config_of m) = D /\
  DataManager.CurrentSegment m = Some (Linked k) /\
  (exists cur, DataManager.Segments m !! k = Some cur /\
     DataSegment.SegmentID cur = k /\
     0 <= DataSegment.Cursor cur <= D /\
     DataSegment.Size cur = D /\ len (DataSegment.Records cur) = D) /\
  (forall k', k < k' -> DataManager.Segments m !! k' = None).

Lemma dm_at_current D k m :
  dm_at D k m ->
  exists cur, DataManager.current m = Ok cur /\
    DataManager.Segments m !! k = Some cur /\
    DataSegment.SegmentID cur = k /\
    0 <= DataSegment.Cursor cur <= D /\
    DataSegment.Size cur = D /\ len (DataSegment.Records cur) = D.
Proof.
  intros (HD & Hcur & (cur & Hk & Hrest) & Hfresh).
  exists cur. unfold DataManager.current, deref. rewrite Hcur, Hk. auto.
Qed.

Lemma dm_Rotate_ok D k m :
  0 < D <= 2 ^ 62 -> min_int64 <= k < max_int64 -> dm_at D k m ->
  exists m', DataManager.Rotate m = Ok m' /\ dm_at D (k + 1) m' /\
    exists cur, DataManager.current m' = Ok cur /\ DataSegment.Cursor cur = 0.
Proof.
  intros HD Hk Hat.
  destruct (dm_at_current _ _ _ Hat) as (cur & Hc & Hlk & Hid & Hcur & Hsz & Hlen).
  destruct Hat as (HcD & Hptr & _ & Hfresh).
  unfold DataManager.Rotate. rewrite Hptr, Hc. cbn.
  rewrite Hid. unfold add64.
  rewrite wrap64_id by (unfold in_int64, min_int64, max_int64 in *; lia).
  unfold DataManager.file_of. rewrite (Hfresh (k + 1)) by lia.
  cbn [fmap option_fmap option_map].
  rewrite NewDataSegment_fresh by lia. cbn.
  eexists. split; [reflexivity|]. split.
  - repeat split; cbn; try done.
    + exists (fresh_data_segment (k + 1) (GetDataSegmentSize (DataManager.Config_of m))).
      rewrite lookup_insert_eq. cbn. rewrite len_zeros by lia.
      repeat split; try lia; congruence.
    + intros k' Hk'. rewrite lookup_insert_ne by lia. apply Hfresh. lia.
  - unfold DataManager.current, deref. cbn. rewrite lookup_insert_eq.
    eexists; split; reflexivity.
Qed.

Lemma dm_ensure_available_ok D k m :
  0 < D <= 2 ^ 62 -> min_int64 <= k < max_int64 -> dm_at D k m ->
  exists m' k' cur, DataManager.ensure_available m = Ok m' /\ dm_at D k' m' /\
    k <= k' <= k + 1 /\
    DataManager.current m' = Ok cur /\ DataSegment.SegmentID cur = k' /\
    0 <= DataSegment.Cursor cur < D /\ DataSegment.Size cur = D /\
    len (DataSegment.Records cur) = D.
Proof.
  intros HD Hk Hat.
  destruct (dm_at_current _ _ _ Hat) as (cur & Hc & Hlk & Hid & Hcur & Hsz & Hlen).
  unfold DataManager.ensure_available. rewrite Hc. cbn.
  unfold DataSegment.Available, DataSegment.AvailableSize, sub64.
  rewrite Hsz.
  rewrite wrap64_id by (unfold in_int64, min_int64, max_int64; lia).
  destruct (Z.gtb_spec (D - DataSegment.Cursor cur) 0) as [Hav|Hfull]; cbn.
  - exists m, k, cur. split; [reflexivity|]. split; [exact Hat|].
    repeat split; auto; lia.
  - destruct (dm_Rotate_ok D k m HD Hk Hat) as (m' & Hrot & Hat' & cur' & Hc' & Hz).
    destruct (dm_at_current _ _ _ Hat') as (c2 & Hc2 & _ & Hid2 & _ & Hsz2 & Hlen2).
    rewrite Hc' in Hc2. inv_Ok Hc2.
    exists m', (DataSegment.SegmentID c2), c2.
    rewrite Hid2. split; [exact Hrot|]. split; [exact Hat'|].
    repeat split; auto; lia.
Qed.

Lemma DataSegment_Write_ok (cur : DataSegment.t) (rest : list Z) D :
  0 < D <= 2 ^ 62 -> 0 <= DataSegment.Cursor cur < D ->
  len (DataSegment.Records cur) = D -> 0 < len rest ->
  exists cur' n, DataSegment.Write cur rest = Ok (cur', DataSegment.Cursor cur, n) /\
    1 <= n <= len rest /\
    DataSegment.SegmentID cur' = DataSegment.SegmentID cur /\
    DataSegment.Size cur' = DataSegment.Size cur /\
    DataSegment.Cursor cur' = DataSegment.Cursor cur + n /\
    DataSegment.Cursor cur' <= D /\
    len (DataSegment.Records cur') = D.
Proof.
  intros HD Hcur Hlen Hrest. unfold DataSegment.Write.
  rewrite slice_from_ok by lia. cbn. unfold copy.
  set (n := Nat.min _ _).
  assert (Hn : 1 <= Z.of_nat n <= len rest /\
               DataSegment.Cursor cur + Z.of_nat n <= D).
  { subst n. rewrite length_drop. unfold len in *. lia. }
  do 2 eexists. split; [reflexivity|]. cbn.
  unfold add64. rewrite wrap64_id by (unfold in_int64, min_int64, max_int64; lia).
  repeat split; try lia.
  unfold len at 1. rewrite length_write_at.
  - exact Hlen.
  - lia.
  - unfold len at 1. rewrite length_take. unfold len in *. lia.
Qed.

Lemma dm_set_current_ok D k m (cur : DataSegment.t) :
  dm_at D k m -> DataSegment.SegmentID cur = k ->
  0 <= DataSegment.Cursor cur <= D -> DataSegment.Size cur = D ->
  len (DataSegment.Records cur) = D ->
  dm_at D k (DataManager.set_current cur m) /\
  DataManager.current (DataManager.set_current cur m) = Ok cur.
Proof.
  intros (HcD & Hptr & _ & Hfresh) Hid Hc Hsz Hlen.
  unfold DataManager.set_current, store_through. rewrite Hptr.
  unfold dm_at, DataManager.current, deref. cbn. rewrite lookup_insert_eq.
  repeat split; auto.
  - exists cur. auto.
  - intros k' Hk'. rewrite lookup_insert_ne by lia. auto.
Qed.

Lemma dm_Write_loop_ok D data fuel : forall m rec written k,
  0 < D <= 2 ^ 62 -> len data <= 2 ^ 62 ->
  dm_at D k m -> 0 <= written <= len data ->
  len data - written <= Z.of_nat fuel ->
  min_int64 <= k -> k + (len data - written) < max_int64 ->
  exists m' rec' k', DataManager.Write_loop fuel m data rec written = Ok (m', rec') /\
    dm_at D k' m' /\ k <= k' <= k + (len data - written).
Proof.
  induction fuel as [|fuel IH]; intros m rec written k HD Hdata Hat Hw Hfuel Hk Hkmax.
  - cbn. destruct (Z.ltb_spec written (len data)); [lia|].
    exists m, rec, k. split; [reflexivity|]. split; [exact Hat|lia].
  - cbn [DataManager.Write_loop].
    destruct (Z.ltb_spec written (len data)) as [Hlt|Hge];
      [|exists m, rec, k; split; [reflexivity|]; split; [exact Hat|lia]].
    destruct (dm_ensure_available_ok D k m HD ltac:(lia) Hat)
      as (m1 & k1 & cur & Hens & Hat1 & Hk1 & Hc1 & Hid1 & Hcur1 & Hsz1 & Hlen1).
    rewrite Hens. cbn [mbind result_bind]. rewrite Hc1. cbn [mbind result_bind].
    assert (Hrest : slice_from data written = Ok (drop (Z.to_nat written) data))
      by (apply slice_from_ok; lia).
    assert (Hrlen : len (drop (Z.to_nat written) data) = len data - written)
      by (unfold len; rewrite length_drop; unfold len in *; lia).
    destruct (DataSegment_Write_ok cur (drop (Z.to_nat written) data) D HD Hcur1 Hlen1
                ltac:(lia))
      as (cur' & n & Hwr & Hn & Hid' & Hsz' & Hcur' & Hle' & Hlen').
    destruct (dm_set_current_ok D k1 m1 cur' Hat1 ltac:(congruence) ltac:(lia)
                ltac:(congruence) Hlen') as [Hat2 _].
    destruct (Z.eqb_spec written 0) as [->|Hnz].
    + change (Z.to_nat 0) with 0%nat in Hwr. rewrite drop_0 in Hwr.
      rewrite Hwr. cbn [mbind result_bind].
      destruct (IH (DataManager.set_current cur' m1)
                  (DataManager.set_Offset (DataSegment.Cursor cur) rec) n k1)
        as (m' & rec' & k' & Hl & Hat' & Hk'); auto; try lia.
      exists m', rec', k'. split; [exact Hl|]. split; [exact Hat'|lia].
    + rewrite Hrest. cbn [mbind result_bind]. rewrite Hwr. cbn [mbind result_bind].
      unfold add64.
      rewrite wrap64_id by (unfold in_int64, min_int64, max_int64; lia).
      destruct (IH (DataManager.set_current cur' m1) rec (written + n) k1)
        as (m' & rec' & k' & Hl & Hat' & Hk'); auto; try lia.
      exists m', rec', k'. split; [exact Hl|]. split; [exact Hat'|lia].
Qed.

Lemma dm_Write_ok D k m data rec :
  0 < D <= 2 ^ 62 -> len data <= 2 ^ 62 -> dm_at D k m ->
  min_int64 <= k -> k + len data + 1 < max_int64 ->
  exists m' rec' k', DataManager.Write m data rec = Ok (m', rec') /\
    dm_at D k' m' /\ k <= k' <= k + len data + 1.
Proof.
  intros HD Hdata Hat Hk Hkmax. unfold DataManager.Write.
  pose proof (len_nonneg data) as Hnn.
  destruct (dm_ensure_available_ok D k m HD ltac:(lia) Hat)
    as (m1 & k1 & cur & Hens & Hat1 & Hk1 & Hc1 & _).
  rewrite Hens. cbn [mbind result_bind]. rewrite Hc1. cbn [mbind result_bind].
  destruct (dm_Write_loop_ok D data (S (length data)) m1
              (DataManager.set_StartID (DataSegment.SegmentID cur) rec) 0 k1)
    as (m2 & rec2 & k2 & Hloop & Hat2 & Hk2); auto;
    try (unfold len in *; lia).
  rewrite Hloop. cbn [mbind result_bind].
  destruct (dm_at_current _ _ _ Hat2) as (c2 & Hc2 & _).
  rewrite Hc2. cbn [mbind result_bind].
  do 3 eexists. split; [reflexivity|]. split; [exact Hat2|]. lia.
Qed.

(** ** The index accepts every append *)

Definition fresh_index_segment (id I : Z) : IndexSegment.t :=
  IndexSegment.FlushMetadata
    (IndexSegment.mk id I 0 0 0 0 false (zeros 49) (zeros I)).

Lemma NewIndexSegment_fresh id config :
  0 <= GetIndexSegmentSize config <= 2 ^ 62 ->
  IndexSegment.NewIndexSegment id config None
    = Ok (fresh_index_segment id (GetIndexSegmentSize config)).
Proof.
  intros HI. unfold IndexSegment.NewIndexSegment, IndexSegment.IndexSegmentMetadataSize.
  unfold add64. rewrite wrap64_id by (unfold in_int64, min_int64, max_int64; lia).
  destruct (Z.ltb_spec (GetIndexSegmentSize config + (6 * 8 + 1)) 0); [lia|].
  change (6 * 8 + 1) with 49.
  rewrite slice_zeros_header by lia. cbn [mbind result_bind].
  rewrite slice_from_zeros_header by lia. reflexivity.
Qed.

(** The current index segment is stored under its own identifier [k], its
    mapping is as long as the configured size [I], and no file with a
    larger number exists. *)
Definition idx_at (I k : Z) (i : Index.t) : Prop :=
  GetIndexSegmentSize (Index.Config_of i) = I /\
  Index.CurrentSegment i = Some (Linked k) /\
  (exists cur, Index.Segments i !! k = Some cur /\
     IndexSegment.SegmentID cur = k /\
     0 <= IndexSegment.Cursor cur <= I /\
     IndexSegment.Size cur = I /\ len (IndexSegment.Records cur) = I) /\
  (forall k', k < k' -> Index.Segments i !! k' = None).

Lemma idx_at_current I k i :
  idx_at I k i ->
  exists cur, Index.current i = Ok cur /\
    IndexSegment.SegmentID cur = k /\
    0 <= IndexSegment.Cursor cur <= I /\
    IndexSegment.Size cur = I /\ len (IndexSegment.Records cur) = I.
Proof.
  intros (HI & Hcur & (cur & Hk & Hrest) & Hfresh).
  exists cur. unfold Index.current, deref. rewrite Hcur, Hk. auto.
Qed.

Lemma idx_Rotate_ok I k i :
  41 <= I <= 2 ^ 62 -> min_int64 <= k < max_int64 -> idx_at I k i ->
  exists i', Index.Rotate i = Ok i' /\ idx_at I (k + 1) i' /\
    Index.dm i' = Index.dm i /\
    exists cur, Index.current i' = Ok cur /\ IndexSegment.Cursor cur = 0.
Proof.
  intros HI Hk Hat.
  destruct (idx_at_current _ _ _ Hat) as (cur & Hc & Hid & Hcur & Hsz & Hlen).
  destruct Hat as (HcI & Hptr & _ & Hfresh).
  unfold Index.Rotate. rewrite Hptr, Hc. cbn [mbind result_bind].
  rewrite Hid. unfold add64.
  rewrite wrap64_id by (unfold in_int64, min_int64, max_int64 in *; lia).
  unfold Index.file_of. rewrite (Hfresh (k + 1)) by lia.
  cbn [fmap option_fmap option_map].
  rewrite NewIndexSegment_fresh by lia. cbn.
  eexists. split; [reflexivity|]. split; [|split; [reflexivity|]].
  - split; [exact HcI|]. split; [reflexivity|]. cbn. split.
    + exists (fresh_index_segment (k + 1) (GetIndexSegmentSize (Index.Config_of i))).
      rewrite lookup_insert_eq. cbn. rewrite len_zeros by lia.
      repeat split; try lia; congruence.
    + intros k' Hk'. rewrite lookup_insert_ne by lia. apply Hfresh. lia.
  - unfold Index.current, deref. cbn. rewrite lookup_insert_eq.
    eexists; split; reflexivity.
Qed.

Lemma idx_ensure_fits_ok I k i :
  41 <= I <= 2 ^ 62 -> min_int64 <= k < max_int64 -> idx_at I k i ->
  exists i' k' cur, Index.ensure_fits i = Ok i' /\ idx_at I k' i' /\
    k <= k' <= k + 1 /\ Index.dm i' = Index.dm i /\
    Index.current i' = Ok cur /\ IndexSegment.SegmentID cur = k' /\
    0 <= IndexSegment.Cursor cur /\ IndexSegment.Cursor cur + 41 <= I /\
    IndexSegment.Size cur = I /\ len (IndexSegment.Records cur) = I.
Proof.
  intros HI Hk Hat.
  destruct (idx_at_current _ _ _ Hat) as (cur & Hc & Hid & Hcur & Hsz & Hlen).
  unfold Index.ensure_fits. rewrite Hc. cbn [mbind result_bind].
  unfold IndexSegment.FitsRecord, IndexRecord.IndexRecordSize, add64.
  rewrite Hsz.
  rewrite wrap64_id by (unfold in_int64, min_int64, max_int64; lia).
  change (8 * 5 + 1) with 41.
  destruct (Z.leb_spec (IndexSegment.Cursor cur + 41) I) as [Hfit|Hfull]; cbn.
  - exists i, k, cur. split; [reflexivity|]. split; [exact Hat|].
    repeat split; auto; lia.
  - destruct (idx_Rotate_ok I k i HI Hk Hat) as (i' & Hrot & Hat' & Hdm & cur' & Hc' & Hz).
    destruct (idx_at_current _ _ _ Hat') as (c2 & Hc2 & Hid2 & _ & Hsz2 & Hlen2).
    rewrite Hc' in Hc2. inv_Ok Hc2.
    exists i', (IndexSegment.SegmentID c2), c2.
    rewrite Hid2. split; [exact Hrot|]. split; [exact Hat'|].
    repeat split; auto; lia.
Qed.

Lemma length_encode r : length (IndexRecord.encode r) = 41%nat.
Proof. reflexivity. Qed.

Lemma WriteRecord_fields cur rec cur' :
  IndexSegment.WriteRecord cur rec = Ok cur' ->
  IndexSegment.SegmentID cur' = IndexSegment.SegmentID cur /\
  IndexSegment.Size cur' = IndexSegment.Size cur /\
  IndexSegment.Cursor cur' = add64 (IndexSegment.Cursor cur) 41 /\
  IndexSegment.LowerRecord cur' =
    (if IndexSegment.Cursor cur =? 0 then IndexRecord.RecordID rec
     else IndexSegment.LowerRecord cur) /\
  IndexSegment.UpperRecord cur' = IndexRecord.RecordID rec /\
  IndexSegment.RecordsCount cur' = add64 (IndexSegment.RecordsCount cur) 1 /\
  IndexSegment.Purged cur' = IndexSegment.Purged cur /\
  IndexSegment.Records cur' =
    write_at (IndexSegment.Records cur) (IndexSegment.Cursor cur)
             (IndexRecord.encode rec).
Proof.
  unfold IndexSegment.WriteRecord, IndexSegment.store_slot, IndexRecord.Write.
  intros H. inv_bind H. inv_bind Ha. inv_bind Ha0.
  destruct (len a1 <? IndexRecord.IndexRecordSize); [discriminate|].
  inv_Ok Ha0. inv_Ok Ha. inv_Ok H.
  unfold IndexSegment.store_lower.
  destruct (IndexSegment.Cursor cur =? 0); repeat split; reflexivity.
Qed.

Lemma WriteRecord_ok (cur : IndexSegment.t) (rec : IndexRecord.t) I :
  41 <= I <= 2 ^ 62 -> 0 <= IndexSegment.Cursor cur ->
  IndexSegment.Cursor cur + 41 <= I -> len (IndexSegment.Records cur) = I ->
  exists cur', IndexSegment.WriteRecord cur rec = Ok cur' /\
    IndexSegment.SegmentID cur' = IndexSegment.SegmentID cur /\
    IndexSegment.Size cur' = IndexSegment.Size cur /\
    IndexSegment.Cursor cur' = IndexSegment.Cursor cur + 41 /\
    len (IndexSegment.Records cur') = I.
Proof.
  intros HI Hc Hfit Hlen.
  assert (Hok : exists cur', IndexSegment.WriteRecord cur rec = Ok cur').
  { unfold IndexSegment.WriteRecord, IndexSegment.store_slot, IndexRecord.Write.
    rewrite slice_from_ok by lia. cbn [mbind result_bind].
    unfold IndexRecord.IndexRecordSize. change (8 * 5 + 1) with 41.
    destruct (Z.ltb_spec (len (drop (Z.to_nat (IndexSegment.Cursor cur))
                                 (IndexSegment.Records cur))) 41) as [Hshort|_].
    { unfold len in *. rewrite length_drop in Hshort. lia. }
    cbn [mbind result_bind]. eauto. }
  destruct Hok as [cur' Hw]. exists cur'. split; [exact Hw|].
  apply WriteRecord_fields in Hw as (H1 & H2 & H3 & _ & _ & _ & _ & H8).
  rewrite H1, H2, H3, H8. split; [reflexivity|]. split; [reflexivity|]. split.
  - unfold add64. apply wrap64_id. unfold in_int64, min_int64, max_int64. lia.
  - unfold len at 1. rewrite length_write_at; [exact Hlen | lia |].
    rewrite Hlen. unfold len. rewrite length_encode. lia.
Qed.

Lemma idx_set_current_ok I k i (cur : IndexSegment.t) :
  idx_at I k i -> IndexSegment.SegmentID cur = k ->
  0 <= IndexSegment.Cursor cur <= I -> IndexSegment.Size cur = I ->
  len (IndexSegment.Records cur) = I ->
  idx_at I k (Index.set_current cur i) /\
  Index.dm (Index.set_current cur i) = Index.dm i.
Proof.
  intros (HcI & Hptr & _ & Hfresh) Hid Hc Hsz Hlen.
  unfold Index.set_current, store_through. rewrite Hptr.
  unfold idx_at. cbn. rewrite lookup_insert_eq.
  repeat split; auto.
  - exists cur. auto.
  - intros k' Hk'. rewrite lookup_insert_ne by lia. auto.
Qed.

(** A log whose two current segments are the newest files. *)
Definition log_at (config : Config) (ki kd : Z) (i : Index.t) : Prop :=
  Index.Config_of i = config /\
  idx_at (GetIndexSegmentSize config) ki i /\
  dm_at (GetDataSegmentSize config) kd (Index.dm i).

Definition config_ok (config : Config) : Prop :=
  41 <= GetIndexSegmentSize config <= 2 ^ 62 /\
  0 < GetDataSegmentSize config <= 2 ^ 62.

Lemma ensure_fits_Config i i' :
  Index.ensure_fits i = Ok i' -> Index.Config_of i' = Index.Config_of i.
Proof.
  unfold Index.ensure_fits. intros H. inv_bind H.
  destruct (negb _); [|by inv_Ok H].
  unfold Index.Rotate in H. destruct (Index.CurrentSegment i).
  - inv_bind H. inv_bind H. by inv_Ok H.
  - inv_bind H. by inv_Ok H.
Qed.

Lemma Append_ok config ki kd i data rec :
  config_ok config -> log_at config ki kd i -> len data <= 2 ^ 62 ->
  min_int64 <= ki < max_int64 ->
  min_int64 <= kd -> kd + len data + 1 < max_int64 ->
  exists i' rec' ki' kd', Index.Append i data rec = Ok (i', rec') /\
    log_at config ki' kd' i' /\
    ki <= ki' <= ki + 1 /\ kd <= kd' <= kd + len data + 1.
Proof.
  intros [HI HD] (Hcfg & Hidx & Hdm) Hdata Hki Hkd Hkdmax.
  unfold Index.Append, Index.Append_data.
  destruct (idx_ensure_fits_ok _ ki i HI Hki Hidx)
    as (i1 & ki1 & cur & Hens & Hidx1 & Hki1 & Hdm1 & Hc1 & Hid1 & Hcur0 & Hfit & Hsz1 & Hlen1).
  rewrite Hens. cbn [mbind result_bind].
  rewrite Hdm1.
  destruct (dm_Write_ok _ kd (Index.dm i) data
              (Index.set_Purged false
                 (Index.set_Size (len data)
                    (Index.set_RecordID (add64 (Index.MaxRecord i1) 1) rec)))
              HD Hdata Hdm Hkd Hkdmax)
    as (m' & rec' & kd' & Hw & Hdm' & Hkd').
  rewrite Hw. cbn [mbind result_bind].
  assert (Hc2 : Index.current
                  (Index.set_MaxRecord (add64 (Index.MaxRecord i1) 1)
                     (Index.set_dm m' i1)) = Ok cur) by exact Hc1.
  rewrite Hc2. cbn [mbind result_bind].
  destruct (WriteRecord_ok cur rec' _ HI Hcur0 Hfit Hlen1)
    as (cur' & Hwr & Hid' & Hsz' & Hcur' & Hlen').
  rewrite Hwr. cbn [mbind result_bind].
  assert (Hidx2 : idx_at (GetIndexSegmentSize config) ki1
                    (Index.set_MaxRecord (add64 (Index.MaxRecord i1) 1)
                       (Index.set_dm m' i1))) by exact Hidx1.
  destruct (idx_set_current_ok _ ki1 _ cur' Hidx2 ltac:(congruence) ltac:(lia)
              ltac:(congruence) Hlen') as [Hidx3 Hdm3].
  eexists _, _, ki1, kd'. split; [reflexivity|]. split; [|lia].
  split; [|split; [exact Hidx3|]].
  - unfold Index.set_current.
    destruct (store_through _ _ _). cbn.
    rewrite (ensure_fits_Config _ _ Hens). exact Hcfg.
  - rewrite Hdm3. exact Hdm'.
Qed.

Lemma sorted_ids_empty {A} : sorted_ids (∅ : gmap Z A) = [].
Proof. unfold sorted_ids. rewrite map_to_list_empty. reflexivity. Qed.

(** A log opened on an empty work directory. *)
Lemma New_fresh config :
  config_ok config ->
  exists w, WAL.New config Index.empty_dir = Ok w /\ log_at config 0 0 w /\
    Index.MaxRecord w = -1.
Proof.
  intros [HI HD].
  assert (Hdef : WAL.with_defaults config = config).
  { unfold WAL.with_defaults.
    destruct (Z.eqb_spec (GetIndexSegmentSize config) 0); [lia|].
    destruct (Z.eqb_spec (GetDataSegmentSize config) 0); [lia|]. reflexivity. }
  unfold WAL.New. rewrite Hdef.
  unfold Index.NewIndex, DataManager.NewDataManager, Index.empty_dir.
  cbn [Index.data_files Index.index_files].
  rewrite !sorted_ids_empty. cbn [foldl mbind result_bind len length Z.of_nat Z.eqb].
  unfold DataManager.Rotate at 1. cbn [DataManager.CurrentSegment].
  unfold DataManager.file_of. cbn [DataManager.Segments]. rewrite lookup_empty.
  cbn [fmap option_fmap option_map DataManager.Config_of].
  rewrite NewDataSegment_fresh by lia. cbn [mbind result_bind].
  unfold Index.Rotate. cbn [Index.CurrentSegment].
  unfold Index.file_of. cbn [Index.Segments]. rewrite lookup_empty.
  cbn [fmap option_fmap option_map Index.Config_of].
  rewrite NewIndexSegment_fresh by lia. cbn [mbind result_bind].
  eexists. split; [reflexivity|]. split; [|reflexivity].
  split; [reflexivity|]. split.
  - split; [reflexivity|]. split; [reflexivity|]. cbn. split.
    + eexists. rewrite lookup_insert_eq. split; [reflexivity|]. cbn.
      rewrite len_zeros by lia. repeat split; lia.
    + intros k' Hk'. rewrite lookup_insert_ne by lia. apply lookup_empty.
  - split; [reflexivity|]. split; [reflexivity|]. cbn. split.
    + eexists. rewrite lookup_insert_eq. split; [reflexivity|]. cbn.
      rewrite len_zeros by lia. repeat split; lia.
    + intros k' Hk'. rewrite lookup_insert_ne by lia. apply lookup_empty.
Qed.

(** A run of [WriteObject] calls, with the identifiers [Append] assigned. *)
Fixpoint Append_run (i : Index.t) (datas : list (list Z))
    : result (Index.t * list Z) :=
  match datas with
  | [] => Ok (i, [])
  | data :: datas =>
      '(i, rec) ← Index.Append i data IndexRecord.zero;
      '(i, ids) ← Append_run i datas;
      Ok (i, IndexRecord.RecordID rec :: ids)
  end.

(** The bytes and slots a run needs: a bound on the segments it creates. *)
Definition run_cost (datas : list (list Z)) : Z :=
  foldr (fun data acc => len data + 1 + acc) 0 datas.

Lemma run_cost_len datas : len datas <= run_cost datas.
Proof.
  induction datas as [|d ds IH]; [unfold len, run_cost; cbn; lia|].
  change (run_cost (d :: ds)) with (len d + 1 + run_cost ds).
  pose proof (len_nonneg d).
  assert (len (d :: ds) = 1 + len ds) by (unfold len; cbn [length]; lia).
  lia.
Qed.

Lemma Append_run_ok config datas : forall ki kd i,
  config_ok config -> log_at config ki kd i ->
  Forall (fun data => len data <= 2 ^ 62) datas ->
  min_int64 <= ki -> ki + len datas < max_int64 ->
  min_int64 <= kd -> kd + run_cost datas < max_int64 ->
  exists i' ids ki' kd', Append_run i datas = Ok (i', ids) /\ log_at config ki' kd' i'.
Proof.
  induction datas as [|d ds IH]; intros ki kd i Hcfg Hat Hall Hki Hkimax Hkd Hkdmax.
  - cbn. eauto 10.
  - cbn [Append_run]. inversion Hall as [|? ? Hd Hds]; subst.
    pose proof (len_nonneg d) as Hnn. pose proof (len_nonneg ds) as Hnn'.
    pose proof (run_cost_len ds) as Hrc.
    assert (Hlen : len (d :: ds) = 1 + len ds) by (unfold len; cbn [length]; lia).
    change (run_cost (d :: ds)) with (len d + 1 + run_cost ds) in Hkdmax.
    destruct (Append_ok config ki kd i d IndexRecord.zero Hcfg Hat Hd
                ltac:(lia) Hkd ltac:(lia))
      as (i1 & rec1 & ki1 & kd1 & Happ & Hat1 & Hki1 & Hkd1).
    rewrite Happ. cbn [mbind result_bind].
    destruct (IH ki1 kd1 i1 Hcfg Hat1 Hds ltac:(lia) ltac:(lia) ltac:(lia) ltac:(lia))
      as (i2 & ids & ki2 & kd2 & Hrun & Hat2).
    rewrite Hrun. cbn [mbind result_bind]. eauto 10.
Qed.

Lemma Append_run_ids datas : forall i i' ids,
  Append_run i datas = Ok (i', ids) ->
  Index.MaxRecord i + len datas <= max_int64 -> min_int64 <= Index.MaxRecord i ->
  ids = seqZ (Index.MaxRecord i + 1) (len datas) /\
  Index.MaxRecord i' = Index.MaxRecord i + len datas.
Proof.
  induction datas as [|d ds IH]; intros i i' ids Hrun Hmax Hmin.
  - cbn in Hrun. inv_Ok Hrun. unfold len. cbn. split; [reflexivity|lia].
  - cbn [Append_run] in Hrun. inv_bind Hrun. destruct a as [i1 rec1].
    inv_bind Hrun. destruct a as [i2 ids2]. inv_Ok Hrun.
    pose proof (len_nonneg ds) as Hnn.
    assert (Hlen : len (d :: ds) = 1 + len ds) by (unfold len; cbn [length]; lia).
    apply Append_spec in Ha as [Hid Hm1].
    unfold add64 in Hid.
    rewrite wrap64_id in Hid by (unfold in_int64; lia).
    apply IH in Ha0 as [Hids Hm2]; [|lia|lia].
    rewrite Hlen. split; [|lia].
    rewrite seqZ_cons by lia. rewrite Hid. f_equal.
    rewrite Hids. f_equal; lia.
Qed.

(** ** What [VacuumObjects] leaves in the record counter *)

Lemma current_set_MaxRecord v i :
  Index.current (Index.set_MaxRecord v i) = Index.current i.
Proof. reflexivity. Qed.

Lemma settle_MaxRecord i i' :
  Index.settle i = Ok i' ->
  exists cur, Index.current i' = Ok cur /\
    Index.MaxRecord i' =
      if IndexSegment.RecordsCount cur =? 0 then -1
      else IndexSegment.RecordsCount cur.
Proof.
  unfold Index.settle. intros H. inv_bind H. inv_bind H.
  exists a0. destruct (IndexSegment.RecordsCount a0 =? 0); inv_Ok H;
    rewrite current_set_MaxRecord; auto.
Qed.

(** The identifier [VacuumObjects] works on. *)
Definition vacuum_target (id : Z) (inclusive : bool) : Z :=
  if negb inclusive then sub64 id 1 else id.

(** Either the call returns at once and leaves the index as it was, or it
    ends by storing the current segment's [RecordsCount] (or -1 when that
    is zero) into [MaxRecord]. *)
Lemma VacuumObjects_MaxRecord i id inclusive i' :
  Index.VacuumObjects i id inclusive = Ok i' ->
  (i' = i /\ (vacuum_target id inclusive < 0 \/
              Index.SegmentForID i (vacuum_target id inclusive) = None)) \/
  (0 <= vacuum_target id inclusive /\
   is_Some (Index.SegmentForID i (vacuum_target id inclusive)) /\
   exists cur, Index.current i' = Ok cur /\
     Index.MaxRecord i' =
       if IndexSegment.RecordsCount cur =? 0 then -1
       else IndexSegment.RecordsCount cur).
Proof.
  unfold Index.VacuumObjects. fold (vacuum_target id inclusive).
  destruct (Z.ltb_spec (vacuum_target id inclusive) 0) as [Hneg|Hpos].
  { intros H. inv_Ok H. left. auto. }
  destruct (Index.SegmentForID i (vacuum_target id inclusive)) as [[key seg]|] eqn:Hseg.
  2: { intros H. inv_Ok H. left. auto. }
  intros H. inv_bind H. inv_bind H. destruct a0 as [segs rm].
  inv_bind H. inv_bind H.
  right. split; [lia|]. split; [eauto|].
  by apply settle_MaxRecord in H.
Qed.

(** ** Concrete logs *)

Definition blank_dm : DataManager.t :=
  DataManager.mk (mkConfig 0 0) 0 0 ∅ 0 None.
Definition blank_index : Index.t :=
  Index.mk (mkConfig 0 0) 0 0 0 ∅ 0 None blank_dm.

(** The value of a call that succeeds. *)
Definition force {A} (default : A) (r : result A) : A :=
  match r with Ok a => a | _ => default end.

Definition is_Ok {A} (r : result A) : bool :=
  match r with Ok _ => true | _ => false end.

Lemma force_Ok {A} (default : A) (r : result A) :
  is_Ok r = true -> r = Ok (force default r).
Proof. destruct r; cbn; intros H; try discriminate. reflexivity. Qed.

Lemma force_Ok_pair {A B} (default : A * B) (r : result (A * B)) :
  is_Ok r = true -> r = Ok ((force default r).1, (force default r).2).
Proof. destruct r as [[a b]| | |]; cbn; intros H; try discriminate. reflexivity. Qed.

(** A run of [WriteObject] calls. *)
Definition WriteObjects (w : result Index.t) (datas : list (list Z))
    : result Index.t :=
  foldl (fun acc data => w ← acc; WAL.WriteObject w data) w datas.

(** A log with index segments of 1024 and data segments of 128 bytes, new
    and after one record. *)
Definition small_config : Config := mkConfig 1024 128.
Definition new_log : Index.t :=
  force blank_index (WAL.New small_config Index.empty_dir).
Definition hello : list Z := [104; 101; 108; 108; 111].
Definition one_record_log : Index.t :=
  force blank_index (WAL.WriteObject new_log hello).

Lemma new_log_eq : WAL.New small_config Index.empty_dir = Ok new_log.
Proof. refine (force_Ok blank_index _ _). vm_compute. reflexivity. Qed.

Lemma one_record_log_eq : WAL.WriteObject new_log hello = Ok one_record_log.
Proof. refine (force_Ok blank_index _ _). vm_compute. reflexivity. Qed.

(** The same log after a second record. *)
Definition two_records : Index.t * IndexRecord.t :=
  force (blank_index, IndexRecord.zero)
        (Index.Append one_record_log hello IndexRecord.zero).

Lemma two_records_eq :
  Index.Append one_record_log hello IndexRecord.zero
    = Ok (two_records.1, two_records.2).
Proof.
  refine (force_Ok_pair (blank_index, IndexRecord.zero) _ _).
  vm_compute. reflexivity.
Qed.

Lemma New_empty_MaxRecord config w :
  WAL.New config Index.empty_dir = Ok w -> Index.MaxRecord w = -1.
Proof.
  unfold WAL.New. generalize (WAL.with_defaults config). clear config.
  intros config. unfold Index.NewIndex, Index.empty_dir.
  cbn [Index.data_files Index.index_files].
  rewrite sorted_ids_empty. cbn [foldl len length Z.of_nat Z.eqb].
  intros H. inv_bind H. cbn [mbind result_bind] in H.
  unfold Index.Rotate in H. cbn [Index.CurrentSegment] in H.
  inv_bind H. by inv_Ok H.
Qed.

(** ** C6: the identifier [Append] assigns *)

(** C6, as stated, fails: on one log the first two appends are assigned
    0 and 1; both records are vacuumed; the next append is assigned 0
    again, not 2, the previous maximum plus one. *)
Lemma RecordID_restarts_after_vacuum :
  WAL.New small_config Index.empty_dir = Ok new_log /\
  (IndexRecord.RecordID <$>
     (snd <$> Index.Append new_log hello IndexRecord.zero)) = Ok 0 /\
  WAL.WriteObject new_log hello = Ok one_record_log /\
  Index.Append one_record_log hello IndexRecord.zero
    = Ok (two_records.1, two_records.2) /\
  IndexRecord.RecordID two_records.2 = 1 /\
  (IndexRecord.RecordID <$>
     (snd <$> (w ← WAL.VacuumRecords two_records.1 1 true;
               Index.Append w hello IndexRecord.zero))) = Ok 0.
Proof.
  split; [exact new_log_eq|].
  split; [vm_compute; reflexivity|].
  split; [exact one_record_log_eq|].
  split; [exact two_records_eq|].
  split; vm_compute; reflexivity.
Qed.

(** C6, amended: every successful [Append] assigns [MaxRecord + 1], one
    more than the counter [CurrentRecordID] reports, or 0 when the counter
    stands at -1; the identifier is not negative, and it is the new value
    of the counter.  On a new log that is not vacuumed this is the
    previous maximum plus one: every run of appends succeeds and assigns
    0, 1, 2, ...  After a vacuum that leaves the current index segment
    without records the counter stands at -1, and the next append is
    assigned 0 whatever was assigned before. *)
Theorem Append_assigns_next_RecordID :
  (forall i data rec i' rec',
     Index.Append i data rec = Ok (i', rec') ->
     -1 <= Index.MaxRecord i < max_int64 ->
     IndexRecord.RecordID rec' = Index.MaxRecord i + 1 /\
     IndexRecord.RecordID rec' =
       (if Index.MaxRecord i =? -1 then 0 else WAL.CurrentRecordID i + 1) /\
     0 <= IndexRecord.RecordID rec' /\
     Index.MaxRecord i' = IndexRecord.RecordID rec' /\
     WAL.CurrentRecordID i' = IndexRecord.RecordID rec') /\
  (forall config datas,
     config_ok config ->
     Forall (fun data => len data <= 2 ^ 62) datas ->
     run_cost datas < 2 ^ 62 ->
     exists w w', WAL.New config Index.empty_dir = Ok w /\
       Append_run w datas = Ok (w', seqZ 0 (len datas))) /\
  (forall w id inclusive w' cur data rec w'' rec',
     WAL.VacuumRecords w id inclusive = Ok w' ->
     0 <= vacuum_target id inclusive ->
     is_Some (Index.SegmentForID w (vacuum_target id inclusive)) ->
     Index.current w' = Ok cur -> IndexSegment.RecordsCount cur = 0 ->
     Index.Append w' data rec = Ok (w'', rec') ->
     IndexRecord.RecordID rec' = 0).
Proof.
  split; [|split].
  - intros i data rec i' rec' Hok Hrange.
    apply Append_spec in Hok as [Hid Hmax].
    unfold add64 in Hid.
    rewrite wrap64_id in Hid by (unfold in_int64, min_int64 in *; lia).
    unfold WAL.CurrentRecordID. rewrite Hmax, Hid.
    split; [reflexivity|]. split; [|lia].
    destruct (Z.eqb_spec (Index.MaxRecord i) (-1)); lia.
  - intros config datas Hcfg Hall Hcost.
    destruct (New_fresh config Hcfg) as (w & Hnew & Hat & Hmax).
    pose proof (run_cost_len datas) as Hlen.
    destruct (Append_run_ok config datas 0 0 w Hcfg Hat Hall)
      as (w' & ids & _ & _ & Hrun & _);
      try (unfold min_int64, max_int64; lia).
    exists w, w'. split; [exact Hnew|].
    destruct (Append_run_ids datas w w' ids Hrun) as [Hids _];
      try (rewrite Hmax; unfold min_int64, max_int64; lia).
    rewrite Hrun, Hids, Hmax. reflexivity.
  - intros w id inclusive w' cur data rec w'' rec' Hvac Hpos Hseg Hcur Hzero Happ.
    assert (Hmax : Index.MaxRecord w' = -1).
    { apply VacuumObjects_MaxRecord in Hvac
        as [[_ [Hneg|Hnone]]|(_ & _ & c & Hc & Hmax)].
      - lia.
      - rewrite Hnone in Hseg. by destruct Hseg.
      - rewrite Hcur in Hc. inv_Ok Hc. rewrite Hmax, Hzero. reflexivity. }
    apply Append_spec in Happ as [Hid _]. rewrite Hid, Hmax. reflexivity.
Qed.

(** The small log after its two records have been vacuumed, and the next
    append. *)
Definition both_vacuumed : Index.t :=
  force blank_index (WAL.VacuumRecords two_records.1 1 true).
Definition third_append : Index.t * IndexRecord.t :=
  force (blank_index, IndexRecord.zero)
        (Index.Append both_vacuumed hello IndexRecord.zero).

Lemma Append_assigns_next_RecordID_witness :
  (Index.Append one_record_log hello IndexRecord.zero
     = Ok (two_records.1, two_records.2) /\
   -1 <= Index.MaxRecord one_record_log < max_int64 /\
   WAL.VacuumRecords two_records.1 1 true = Ok both_vacuumed /\
   0 <= vacuum_target 1 true /\
   is_Some (Index.SegmentForID two_records.1 (vacuum_target 1 true)) /\
   Index.current both_vacuumed = Ok (fresh_index_segment 0 1024) /\
   IndexSegment.RecordsCount (fresh_index_segment 0 1024) = 0 /\
   Index.Append both_vacuumed hello IndexRecord.zero
     = Ok (third_append.1, third_append.2)) /\
  IndexRecord.RecordID two_records.2 = Index.MaxRecord one_record_log + 1 /\
  Index.MaxRecord one_record_log + 1 = 1 /\
  IndexRecord.RecordID third_append.2 = 0.
Proof.
  assert (H2 : -1 <= Index.MaxRecord one_record_log < max_int64)
    by (split; vm_compute; [discriminate | reflexivity]).
  assert (H3 : WAL.VacuumRecords two_records.1 1 true = Ok both_vacuumed).
  { refine (force_Ok blank_index _ _). vm_compute. reflexivity. }
  assert (H4 : 0 <= vacuum_target 1 true) by (vm_compute; discriminate).
  assert (H5 : is_Some (Index.SegmentForID two_records.1 (vacuum_target 1 true))).
  { apply not_eq_None_Some. vm_compute. discriminate. }
  assert (H6 : Index.current both_vacuumed = Ok (fresh_index_segment 0 1024))
    by (vm_compute; reflexivity).
  assert (H7 : IndexSegment.RecordsCount (fresh_index_segment 0 1024) = 0)
    by reflexivity.
  assert (H8 : Index.Append both_vacuumed hello IndexRecord.zero
               = Ok (third_append.1, third_append.2)).
  { refine (force_Ok_pair (blank_index, IndexRecord.zero) _ _).
    vm_compute. reflexivity. }
  split; [exact (conj two_records_eq (conj H2 (conj H3 (conj H4 (conj H5
            (conj H6 (conj H7 H8)))))))|].
  split; [|split].
  - exact (proj1 (proj1 Append_assigns_next_RecordID one_record_log hello
                    IndexRecord.zero two_records.1 two_records.2
                    two_records_eq H2)).
  - vm_compute. reflexivity.
  - exact (proj2 (proj2 Append_assigns_next_RecordID) two_records.1 1 true
             both_vacuumed (fresh_index_segment 0 1024) hello IndexRecord.zero
             third_append.1 third_append.2 H3 H4 H5 H6 H7 H8).
Defined.

(** ** C10: [CurrentRecordID] on an empty log *)

(** C10. A new log, and a log whose vacuum left the current index segment
    without records, have [MaxRecord = -1]; there [CurrentRecordID] is 0,
    and it is still 0 after one successful [WriteObject], which sets
    [MaxRecord] to 0. *)
Theorem CurrentRecordID_empty_log :
  (forall config w,
     WAL.New config Index.empty_dir = Ok w -> Index.MaxRecord w = -1) /\
  (forall w id inclusive w' cur,
     WAL.VacuumRecords w id inclusive = Ok w' ->
     0 <= vacuum_target id inclusive ->
     is_Some (Index.SegmentForID w (vacuum_target id inclusive)) ->
     Index.current w' = Ok cur -> IndexSegment.RecordsCount cur = 0 ->
     Index.MaxRecord w' = -1) /\
  (forall w,
     Index.MaxRecord w = -1 ->
     WAL.CurrentRecordID w = 0 /\
     forall data w',
       WAL.WriteObject w data = Ok w' ->
       Index.MaxRecord w' = 0 /\ WAL.CurrentRecordID w' = 0).
Proof.
  split; [exact New_empty_MaxRecord|]. split.
  - intros w id inclusive w' cur Hvac Hpos Hseg Hcur Hzero.
    apply VacuumObjects_MaxRecord in Hvac as [[_ [Hneg|Hnone]]|(_ & _ & c & Hc & Hmax)].
    + lia.
    + rewrite Hnone in Hseg. by destruct Hseg.
    + rewrite Hcur in Hc. inv_Ok Hc. rewrite Hmax, Hzero. reflexivity.
  - intros w Hempty. unfold WAL.CurrentRecordID. rewrite Hempty.
    split; [reflexivity|].
    intros data w' Hw. apply WriteObject_spec in Hw. rewrite Hempty in Hw.
    rewrite Hw. split; reflexivity.
Qed.

Lemma CurrentRecordID_empty_log_witness :
  (Index.MaxRecord new_log = -1 /\
   WAL.WriteObject new_log hello = Ok one_record_log) /\
  WAL.CurrentRecordID new_log = 0 /\ WAL.CurrentRecordID one_record_log = 0.
Proof.
  assert (H1 : Index.MaxRecord new_log = -1)
    by exact (proj1 CurrentRecordID_empty_log _ _ new_log_eq).
  destruct (proj2 (proj2 CurrentRecordID_empty_log) new_log H1) as [H0 Hnext].
  split; [split; [exact H1 | exact one_record_log_eq]|].
  split; [exact H0|].
  exact (proj2 (Hnext hello one_record_log one_record_log_eq)).
Defined.

(** ** C4: identifiers over appends and vacuums *)

(** The small log after one record has been appended and vacuumed. *)
Definition vacuumed_log : Index.t :=
  force blank_index (WAL.VacuumRecords one_record_log 0 true).

Lemma vacuumed_log_eq :
  WAL.VacuumRecords one_record_log 0 true = Ok vacuumed_log.
Proof. refine (force_Ok blank_index _ _). vm_compute. reflexivity. Qed.

(** C4, as stated, fails: on one log, the first append is assigned 0, the
    record is vacuumed, and the next append is assigned 0 again. *)
Lemma RecordID_reused_after_full_vacuum :
  (IndexRecord.RecordID <$>
     (snd <$> Index.Append new_log hello IndexRecord.zero)) = Ok 0 /\
  WAL.WriteObject new_log hello = Ok one_record_log /\
  WAL.VacuumRecords one_record_log 0 true = Ok vacuumed_log /\
  (IndexRecord.RecordID <$>
     (snd <$> Index.Append vacuumed_log hello IndexRecord.zero)) = Ok 0.
Proof.
  split; [vm_compute; reflexivity|].
  split; [exact one_record_log_eq|].
  split; [exact vacuumed_log_eq|].
  vm_compute; reflexivity.
Qed.

Lemma NoDup_seqZ_above m n : Forall (fun id => m < id) (seqZ (m + 1) n).
Proof. apply Forall_seqZ. intros k Hk. lia. Qed.

(** C4, amended: within a run of successful appends with no vacuum in
    between, the identifiers assigned are [MaxRecord + 1], [MaxRecord + 2],
    ...: pairwise different and above every identifier the counter stood
    for.  A vacuum that leaves the current index segment with zero records
    sets the counter to -1, and the next append is assigned 0 again. *)
Theorem RecordIDs_unique_between_vacuums :
  (forall i datas i' ids,
     Append_run i datas = Ok (i', ids) ->
     min_int64 <= Index.MaxRecord i ->
     Index.MaxRecord i + len datas <= max_int64 ->
     ids = seqZ (Index.MaxRecord i + 1) (len datas) /\
     NoDup ids /\
     Forall (fun id => Index.MaxRecord i < id) ids /\
     Index.MaxRecord i' = Index.MaxRecord i + len datas) /\
  (forall w id inclusive w' cur,
     WAL.VacuumRecords w id inclusive = Ok w' ->
     0 <= vacuum_target id inclusive ->
     is_Some (Index.SegmentForID w (vacuum_target id inclusive)) ->
     Index.current w' = Ok cur -> IndexSegment.RecordsCount cur = 0 ->
     Index.MaxRecord w' = -1 /\
     forall data rec w'' rec',
       Index.Append w' data rec = Ok (w'', rec') ->
       IndexRecord.RecordID rec' = 0).
Proof.
  split.
  - intros i datas i' ids Hrun Hmin Hmax.
    destruct (Append_run_ids datas i i' ids Hrun Hmax Hmin) as [-> Hm].
    split; [reflexivity|]. split; [apply NoDup_seqZ|].
    split; [apply NoDup_seqZ_above | exact Hm].
  - intros w id inclusive w' cur Hvac Hpos Hseg Hcur Hzero.
    assert (Hm : Index.MaxRecord w' = -1).
    { apply VacuumObjects_MaxRecord in Hvac
        as [[_ [Hneg|Hnone]]|(_ & _ & c & Hc & Hmax)].
      - lia.
      - rewrite Hnone in Hseg. by destruct Hseg.
      - rewrite Hcur in Hc. inv_Ok Hc. rewrite Hmax, Hzero. reflexivity. }
    split; [exact Hm|].
    intros data rec w'' rec' Happ. apply Append_spec in Happ as [Hid _].
    rewrite Hid, Hm. reflexivity.
Qed.

Lemma RecordIDs_unique_between_vacuums_witness :
  (Append_run new_log [hello; hello; hello]
     = Ok ((force (blank_index, []) (Append_run new_log [hello; hello; hello])).1,
           (force (blank_index, []) (Append_run new_log [hello; hello; hello])).2) /\
   min_int64 <= Index.MaxRecord new_log /\
   Index.MaxRecord new_log + len [hello; hello; hello] <= max_int64) /\
  NoDup (force (blank_index, []) (Append_run new_log [hello; hello; hello])).2.
Proof.
  assert (H1 : Append_run new_log [hello; hello; hello]
     = Ok ((force (blank_index, []) (Append_run new_log [hello; hello; hello])).1,
           (force (blank_index, []) (Append_run new_log [hello; hello; hello])).2)).
  { refine (force_Ok_pair (blank_index, []) _ _). vm_compute. reflexivity. }
  assert (H2 : min_int64 <= Index.MaxRecord new_log)
    by (vm_compute; discriminate).
  assert (H3 : Index.MaxRecord new_log + len [hello; hello; hello] <= max_int64)
    by (vm_compute; discriminate).
  split; [auto|].
  exact (proj1 (proj2 (proj1 RecordIDs_unique_between_vacuums new_log
                         [hello; hello; hello] _ _ H1 H2 H3))).
Defined.

(** ** The scenarios of the test suite *)

(** The decimal digits of [n], most significant first ([strconv.Itoa] for
    [0 <= n]). *)
Fixpoint decimal_digits (fuel : nat) (n : Z) (acc : list Z) : list Z :=
  match fuel with
  | O => acc
  | S fuel =>
      let acc := (48 + n mod 10) :: acc in
      if n / 10 =? 0 then acc else decimal_digits fuel (n / 10) acc
  end.

(** [[]byte("object " + strconv.Itoa(i))] *)
Definition object_payload (i : Z) : list Z :=
  [111; 98; 106; 101; 99; 116; 32] ++ decimal_digits 20 i [].

(** [n] bytes [b]. *)
Definition fill (n b : Z) : list Z := replicate (Z.to_nat n) b.

Definition then_vacuum (id : Z) (w : result Index.t) : result Index.t :=
  w ← w; WAL.VacuumRecords w id true.

(** [TestWALOperationPartialVacuum]. *)
Definition partial_vacuum_config : Config := mkConfig 92 64.
Definition thousand_records : result Index.t :=
  WriteObjects (WAL.New partial_vacuum_config Index.empty_dir)
               (object_payload <$> seqZ 0 1000).

(** The steps of the test after the appends, and what [CurrentRecordID]
    returns before the first and after each of them. *)
Inductive step : Type :=
  | Vacuum (id : Z)      (* w.VacuumRecords(id, true) *)
  | Reopen.              (* w.Close(), then New(conf) *)

Definition run_step (config : Config) (w : Index.t) (s : step) : result Index.t :=
  match s with
  | Vacuum id => WAL.VacuumRecords w id true
  | Reopen => WAL.New config (WAL.Close w)
  end.

Fixpoint CurrentRecordIDs (config : Config) (w : Index.t) (steps : list step)
    : result (list Z) :=
  match steps with
  | [] => Ok [WAL.CurrentRecordID w]
  | s :: steps =>
      w' ← run_step config w s;
      ids ← CurrentRecordIDs config w' steps;
      Ok (WAL.CurrentRecordID w :: ids)
  end.

(** [TestWALVacuumSegmented]. *)
Definition segmented_config : Config := mkConfig 1024 128.
Definition three_records : result Index.t :=
  WriteObjects (WAL.New segmented_config Index.empty_dir)
               [fill 298 1; fill 25 2; fill 25 3].
Definition after_vacuum_0 : result Index.t := then_vacuum 0 three_records.
Definition after_vacuum_1 : result Index.t := then_vacuum 1 after_vacuum_0.
Definition after_vacuum_2 : result Index.t := then_vacuum 2 after_vacuum_1.

(** The numbers of the data files in the work directory. *)
Definition data_files_of (w : Index.t) : list Z :=
  merge_sort Z.le (fst <$> map_to_list (DataManager.Segments (Index.dm w))).

(** The header of the index segments, by key. *)
Definition index_headers (w : Index.t) : list (Z * (Z * Z * Z * bool)) :=
  (fun e : Z * IndexSegment.t =>
     (e.1, (IndexSegment.LowerRecord e.2, IndexSegment.UpperRecord e.2,
            IndexSegment.RecordsCount e.2, IndexSegment.Purged e.2)))
    <$> map_to_list (Index.Segments w).

(** Ten records in one index segment, then a vacuum up to record 2. *)
Definition ten_records : result Index.t :=
  WriteObjects (WAL.New segmented_config Index.empty_dir)
               ((fun i => fill 4 i) <$> seqZ 0 10).
Definition ten_after_vacuum_2 : result Index.t := then_vacuum 2 ten_records.

Ltac split_conj := repeat match goal with |- _ /\ _ => split end.

(** ** C1: the record counter after a vacuum *)

(** C1 (the code departs from it). A vacuum that finds its segment ends by
    storing the [RecordsCount] of the current index segment into
    [MaxRecord], not the highest identifier assigned.  In
    [TestWALOperationPartialVacuum] the current segment holds the two
    records 998 and 999: [CurrentRecordID] is 999 after the appends and
    after the reopening, and 2 after each of the five vacuums. *)
Theorem Vacuum_stores_RecordsCount_in_MaxRecord :
  (forall w id inclusive w',
     WAL.VacuumRecords w id inclusive = Ok w' ->
     0 <= vacuum_target id inclusive ->
     is_Some (Index.SegmentForID w (vacuum_target id inclusive)) ->
     exists cur, Index.current w' = Ok cur /\
       Index.MaxRecord w' =
         if IndexSegment.RecordsCount cur =? 0 then -1
         else IndexSegment.RecordsCount cur) /\
  (w ← thousand_records;
   CurrentRecordIDs partial_vacuum_config w
     [Vacuum 20; Vacuum 30; Vacuum 50; Vacuum 100; Reopen; Vacuum 500])
    = Ok [999; 2; 2; 2; 2; 999; 2].
Proof.
  split.
  - intros w id inclusive w' Hvac Hpos Hseg.
    apply VacuumObjects_MaxRecord in Hvac
      as [[_ [Hneg|Hnone]]|(_ & _ & Hcur)].
    + lia.
    + rewrite Hnone in Hseg. by destruct Hseg.
    + exact Hcur.
  - vm_compute. reflexivity.
Qed.

(** ** C3: reading a record after a partial vacuum *)

(** C3 (the code departs from it). In [TestWALVacuumSegmented] the records
    1 and 2 read back as written before any vacuum.  [Vacuum(0, true)]
    flags slot 0 and moves [LowerRecord] to 1, while the slots stay where
    they are: [LoadRecord] now finds record 1 at slot 0 and record 2 at
    slot 1.  Reading record 1 fails with NotFound, and reading record 2
    yields the bytes of record 1. *)
Theorem ReadObject_after_partial_vacuum :
  (w ← three_records; WAL.ReadObject w 1) = Ok (fill 25 2) /\
  (w ← three_records; WAL.ReadObject w 2) = Ok (fill 25 3) /\
  index_headers <$> after_vacuum_0 = Ok [(0, (1, 2, 2, false))] /\
  (w ← after_vacuum_0; WAL.ReadObject w 1) = Err (NotFound 1) /\
  (w ← after_vacuum_0; WAL.ReadObject w 2) = Ok (fill 25 2).
Proof. split_conj; vm_compute; reflexivity. Qed.

(** ** C7: which identifiers are not found *)

(** C7 (the code departs from it). Ten records of four bytes in one index
    segment; [Vacuum(2, true)] purges the records 0, 1 and 2.  The records
    3 to 9 are live, yet 3, 4 and 5 are not found: [LookupMeta] succeeds
    for them with the flagged slots of the records 0, 1 and 2.  The records
    6 to 9 read the bytes of the records 3 to 6. *)
Theorem NotFound_for_live_records :
  (fun id => w ← ten_records; WAL.ReadObject w id) <$> seqZ 0 11
    = ((fun id => Ok (fill 4 id)) <$> seqZ 0 10) ++ [Err (NotFound 10)] /\
  index_headers <$> ten_after_vacuum_2 = Ok [(0, (3, 9, 7, false))] /\
  (fun id => w ← ten_after_vacuum_2; WAL.ReadObject w id) <$> seqZ 0 11
    = [Err (NotFound 0); Err (NotFound 1); Err (NotFound 2);
       Err (NotFound 3); Err (NotFound 4); Err (NotFound 5);
       Ok (fill 4 3); Ok (fill 4 4); Ok (fill 4 5); Ok (fill 4 6);
       Err (NotFound 10)] /\
  (fun id => w ← ten_after_vacuum_2;
             rec ← Index.LookupMeta w id IndexRecord.zero;
             Ok (IndexRecord.RecordID rec, IndexRecord.Purged rec))
    <$> seqZ 3 3
    = [Ok (0, true); Ok (1, true); Ok (2, true)].
Proof. split_conj; vm_compute; reflexivity. Qed.

(** ** C8: the data segments a vacuum unlinks *)

(** C8 (the code departs from it). In [TestWALVacuumSegmented] the record
    2 lies in data segment 2.  [Vacuum(0, true)] leaves the data file 2
    alone.  [Vacuum(1, true)] does not flag the slot of record 2 (at byte
    82), yet it unlinks data file 2 and creates data file 3: the scan for
    the segments in use reads the records 1 and 2 from the slots 0 and 1.
    After it record 2 is not found.  [Vacuum(2, true)] and a further write
    succeed. *)
Theorem Vacuum_unlinks_data_segment_in_use :
  data_files_of <$> three_records = Ok [0; 1; 2] /\
  (w ← three_records;
   rec ← Index.LookupMeta w 2 IndexRecord.zero;
   Ok (IndexRecord.DataSegmentStartID rec, IndexRecord.DataSegmentEndID rec))
    = Ok (2, 2) /\
  data_files_of <$> after_vacuum_0 = Ok [2] /\
  data_files_of <$> after_vacuum_1 = Ok [3] /\
  (w ← after_vacuum_1; cur ← Index.current w;
   IndexRecord.IsIndexRecordPurged (IndexSegment.Records cur) 82) = Ok false /\
  (w ← after_vacuum_1; WAL.ReadObject w 2) = Err (NotFound 2) /\
  data_files_of <$> after_vacuum_2 = Ok [4] /\
  is_Ok (w ← after_vacuum_2; WAL.WriteObject w (fill 25 2)) = true.
Proof. split_conj; vm_compute; reflexivity. Qed.

(** ** C9: [CountObjects] *)

(** Every index segment is stored under its own identifier, an [int64]
    below the largest one. *)
Definition keys_ok (i : Index.t) : bool :=
  forallb (fun e : Z * IndexSegment.t =>
             (IndexSegment.SegmentID e.2 =? e.1) &&
             (min_int64 <=? e.1) && (e.1 <? max_int64))
          (Index.Range i).

Lemma keys_ok_lookup i k s :
  keys_ok i = true -> Index.Segments i !! k = Some s ->
  IndexSegment.SegmentID s = k /\ min_int64 <= k < max_int64.
Proof.
  unfold keys_ok, Index.Range. rewrite forallb_forall. intros Hall Hk.
  specialize (Hall (k, s)). cbn in Hall.
  assert (Hin : In (k, s) (map_to_list (Index.Segments i))).
  { apply list_elem_of_In. by apply elem_of_map_to_list. }
  apply Hall in Hin. apply andb_prop in Hin as [Hin H3].
  apply andb_prop in Hin as [H1 H2]. lia.
Qed.

Lemma SegmentForID_Some i id k seg :
  Index.SegmentForID i id = Some (k, seg) ->
  Index.Segments i !! k = Some seg /\ IndexSegment.ContainsRecord seg id = true.
Proof.
  unfold Index.SegmentForID, Index.Range. intros H.
  apply find_some in H as [Hin Hc]. split; [|exact Hc].
  apply list_elem_of_In in Hin. by apply elem_of_map_to_list in Hin.
Qed.

Lemma SegmentForID_None i id :
  Index.SegmentForID i id = None <->
  forall k seg, Index.Segments i !! k = Some seg ->
                IndexSegment.ContainsRecord seg id = false.
Proof.
  unfold Index.SegmentForID, Index.Range. split.
  - intros H k seg Hk.
    apply (find_none _ _ H (k, seg)).
    apply list_elem_of_In. by apply elem_of_map_to_list.
  - intros H. destruct (find _ _) as [[k seg]|] eqn:Hf; [|reflexivity].
    apply find_some in Hf as [Hin Hc]. apply list_elem_of_In in Hin.
    apply elem_of_map_to_list in Hin. cbn in Hc.
    rewrite (H k seg Hin) in Hc. discriminate.
Qed.

Definition sum_RecordsCount (segs : list IndexSegment.t) : Z :=
  foldr (fun s acc => IndexSegment.RecordsCount s + acc) 0 segs.

(** The loop adds the [RecordsCount] of the segments stored under the keys
    that follow the one of [seg], up to the first key that is missing; the
    fuel lasts. *)
Lemma CountObjects_loop_spec i fuel : forall seg total (X : gset Z),
  keys_ok i = true ->
  min_int64 <= IndexSegment.SegmentID seg < max_int64 ->
  in_int64 total ->
  (forall k, IndexSegment.SegmentID seg < k ->
             is_Some (Index.Segments i !! k) -> k ∈ X) ->
  (size X < fuel)%nat ->
  exists succs : list IndexSegment.t,
    (forall (j : nat) s, succs !! j = Some s ->
       Index.Segments i !! (IndexSegment.SegmentID seg + 1 + Z.of_nat j) = Some s) /\
    Index.Segments i !! (IndexSegment.SegmentID seg + 1 + len succs) = None /\
    Index.CountObjects_loop fuel i seg total
      = Ok (wrap64 (total + sum_RecordsCount succs)).
Proof.
  induction fuel as [|fuel IH]; intros seg total X Hkeys Hid Htotal HX Hsize; [lia|].
  cbn [Index.CountObjects_loop].
  assert (Hnext : add64 (IndexSegment.SegmentID seg) 1 = IndexSegment.SegmentID seg + 1).
  { unfold add64. apply wrap64_id. unfold in_int64. lia. }
  rewrite Hnext.
  destruct (Index.Segments i !! (IndexSegment.SegmentID seg + 1)) as [s|] eqn:Hs.
  - destruct (keys_ok_lookup i _ s Hkeys Hs) as [Hsid Hrange].
    assert (Hin : IndexSegment.SegmentID seg + 1 ∈ X).
    { apply HX; [lia|]. rewrite Hs. eauto. }
    destruct (IH s (add64 total (IndexSegment.RecordsCount s))
                (X ∖ {[IndexSegment.SegmentID seg + 1]}))
      as (succs & Hsuccs & Hend & Hloop); auto.
    + lia.
    + unfold add64. apply wrap64_range.
    + intros k Hk Hsome. rewrite Hsid in Hk.
      apply elem_of_difference. split; [apply HX; [lia|exact Hsome]|].
      rewrite elem_of_singleton. lia.
    + assert (Hsz : size X = S (size (X ∖ {[IndexSegment.SegmentID seg + 1]}))).
      { rewrite (union_difference_L {[IndexSegment.SegmentID seg + 1]} X) at 1
          by (apply singleton_subseteq_l; exact Hin).
        rewrite size_union by set_solver. rewrite size_singleton. lia. }
      lia.
    + exists (s :: succs). split; [|split].
      * intros [|j] s' Hj; cbn in Hj.
        -- injection Hj as <-. rewrite <- Hs. f_equal. lia.
        -- apply Hsuccs in Hj. rewrite <- Hj. f_equal. lia.
      * rewrite <- Hend. f_equal. unfold len. cbn [length]. lia.
      * rewrite Hloop. f_equal. unfold add64.
        rewrite wrap64_wrap64_add. f_equal.
        change (sum_RecordsCount (s :: succs))
          with (IndexSegment.RecordsCount s + sum_RecordsCount succs). lia.
  - exists []. split; [|split].
    + intros j s Hj. discriminate.
    + rewrite <- Hs. f_equal. unfold len. cbn [length]. lia.
    + change (sum_RecordsCount []) with 0.
      rewrite Z.add_0_r, wrap64_id by exact Htotal. reflexivity.
Qed.

(** Scenario 4 of the specification: a thousand short payloads with
    segments of 4096 bytes. *)
Definition thousand_short_records : result Index.t :=
  WriteObjects (WAL.New (mkConfig 4096 4096) Index.empty_dir)
               (object_payload <$> seqZ 0 1000).

(** C9. When no index segment contains [id], [CountObjects] returns 0.
    Otherwise, with [seg] the containing segment that [SegmentForID] finds,
    it returns [UpperRecord seg - id], plus the [RecordsCount] of the
    segments stored under the following identifiers, in increasing order up
    to the first one missing, plus 1 when [inclusive]: slots are counted,
    whatever the flags of the records.  After a thousand short appends
    [CountObjects(49, false)] is 950. *)
Theorem CountObjects_counts_slots :
  (forall i id inclusive,
     keys_ok i = true ->
     ((forall k seg, Index.Segments i !! k = Some seg ->
                     IndexSegment.ContainsRecord seg id = false) ->
      Index.CountObjects i id inclusive = Ok 0) /\
     (forall k seg,
        Index.SegmentForID i id = Some (k, seg) ->
        Index.Segments i !! k = Some seg /\
        IndexSegment.ContainsRecord seg id = true /\
        exists succs : list IndexSegment.t,
          (forall (j : nat) s, succs !! j = Some s ->
             Index.Segments i !! (k + 1 + Z.of_nat j) = Some s) /\
          Index.Segments i !! (k + 1 + len succs) = None /\
          Index.CountObjects i id inclusive
            = Ok (wrap64 (IndexSegment.UpperRecord seg - id
                          + sum_RecordsCount succs
                          + (if inclusive then 1 else 0))))) /\
  (w ← thousand_short_records; WAL.CountObjects w 49 false) = Ok 950.
Proof.
  split; [|vm_compute; reflexivity].
  intros i id inclusive Hkeys. split.
  - intros Hnone. apply SegmentForID_None in Hnone.
    unfold Index.CountObjects. rewrite Hnone. reflexivity.
  - intros k seg Hfind.
    destruct (SegmentForID_Some _ _ _ _ Hfind) as [Hk Hc].
    split; [exact Hk|]. split; [exact Hc|].
    destruct (keys_ok_lookup i k seg Hkeys Hk) as [Hid Hrange].
    destruct (CountObjects_loop_spec i (S (size (Index.Segments i))) seg
                (sub64 (IndexSegment.UpperRecord seg) id)
                (dom (Index.Segments i)))
      as (succs & Hsuccs & Hend & Hloop); auto.
    + lia.
    + unfold sub64. apply wrap64_range.
    + intros k' _ Hsome. by apply elem_of_dom.
    + rewrite size_dom. lia.
    + rewrite Hid in Hsuccs, Hend.
      exists succs. split; [exact Hsuccs|]. split; [exact Hend|].
      unfold Index.CountObjects. rewrite Hfind, Hloop.
      cbn [mbind result_bind]. f_equal. unfold sub64.
      rewrite wrap64_wrap64_add.
      destruct inclusive.
      * unfold add64. rewrite wrap64_wrap64_add. reflexivity.
      * f_equal. lia.
Qed.

(** Two hundred short records in three index segments. *)
Definition two_hundred_short : Index.t :=
  force blank_index
    (WriteObjects (WAL.New (mkConfig 4096 4096) Index.empty_dir)
                  (object_payload <$> seqZ 0 200)).

Lemma CountObjects_counts_slots_witness :
  keys_ok two_hundred_short = true /\
  Index.SegmentForID two_hundred_short 49 <> None /\
  forall k seg,
    Index.SegmentForID two_hundred_short 49 = Some (k, seg) ->
    Index.Segments two_hundred_short !! k = Some seg /\
    IndexSegment.ContainsRecord seg 49 = true /\
    exists succs : list IndexSegment.t,
      (forall (j : nat) s, succs !! j = Some s ->
         Index.Segments two_hundred_short !! (k + 1 + Z.of_nat j) = Some s) /\
      Index.Segments two_hundred_short !! (k + 1 + len succs) = None /\
      Index.CountObjects two_hundred_short 49 false
        = Ok (wrap64 (IndexSegment.UpperRecord seg - 49
                      + sum_RecordsCount succs + 0)).
Proof.
  assert (H1 : keys_ok two_hundred_short = true) by (vm_compute; reflexivity).
  split; [exact H1|]. split; [vm_compute; discriminate|].
  exact (proj2 (proj1 CountObjects_counts_slots two_hundred_short 49 false H1)).
Defined.

(** ** C2: what an observer can load while [Append] runs *)

Lemma slice_from_inv {A} (l : list A) lo b :
  slice_from l lo = Ok b -> 0 <= lo <= len l /\ b = drop (Z.to_nat lo) l.
Proof.
  unfold slice_from, slice. intros H.
  destruct (Z.leb_spec 0 lo); [|discriminate].
  destruct (Z.leb_spec lo (len l)); [|discriminate].
  destruct (Z.leb_spec (len l) (len l)); [|lia].
  cbn in H. inv_Ok H. split; [lia|].
  apply take_ge. rewrite length_drop. unfold len. lia.
Qed.

Lemma slice_from_write_at (mem : list Z) off bs :
  0 <= off -> off + len bs <= len mem ->
  slice_from (write_at mem off bs) off
    = Ok (bs ++ drop (Z.to_nat off + length bs) mem).
Proof.
  intros H1 H2. pose proof (len_nonneg bs) as Hnn.
  assert (Hlen : len (write_at mem off bs) = len mem).
  { unfold len. f_equal. apply length_write_at; assumption. }
  rewrite slice_from_ok by lia.
  f_equal. unfold write_at.
  assert (Hl : length (take (Z.to_nat off) mem) = Z.to_nat off).
  { rewrite length_take. unfold len in *. lia. }
  rewrite <- Hl at 1. apply drop_app_length.
Qed.

(** The fields of a record are [int64] values. *)
Definition record_in_int64 (r : IndexRecord.t) : Prop :=
  in_int64 (IndexRecord.RecordID r) /\
  in_int64 (IndexRecord.DataSegmentStartID r) /\
  in_int64 (IndexRecord.DataSegmentEndID r) /\
  in_int64 (IndexRecord.DataSegmentOffset r) /\
  in_int64 (IndexRecord.Size r).

(** [Read] decodes what [Write] stored. *)
Lemma Read_encode r tail :
  record_in_int64 r -> IndexRecord.Read (IndexRecord.encode r ++ tail) = Ok r.
Proof.
  intros (H1 & H2 & H3 & H4 & H5). unfold IndexRecord.Read.
  assert (Hlen : (len (IndexRecord.encode r ++ tail) <? IndexRecord.IndexRecordSize) = false).
  { apply Z.ltb_ge. unfold len. rewrite length_app, length_encode.
    unfold IndexRecord.IndexRecordSize. lia. }
  rewrite Hlen.
  assert (Hflag : nth 40 (IndexRecord.encode r ++ tail) 0
                  = if IndexRecord.Purged r then Z.lor 0 1 else 0) by reflexivity.
  rewrite Hflag.
  assert (E0 : get_int64 (IndexRecord.encode r ++ tail) 0 = IndexRecord.RecordID r).
  { unfold IndexRecord.encode. rewrite <- !app_assoc. by apply get_put_int64. }
  assert (E8 : get_int64 (IndexRecord.encode r ++ tail) 8
               = IndexRecord.DataSegmentStartID r).
  { change (get_int64 (IndexRecord.encode r ++ tail) 8)
      with (get_int64 (put_int64 (IndexRecord.DataSegmentStartID r) ++
              put_int64 (IndexRecord.DataSegmentEndID r) ++
              put_int64 (IndexRecord.DataSegmentOffset r) ++
              put_int64 (IndexRecord.Size r) ++
              [if IndexRecord.Purged r then Z.lor 0 1 else 0] ++ tail) 0).
    by apply get_put_int64. }
  assert (E16 : get_int64 (IndexRecord.encode r ++ tail) 16
                = IndexRecord.DataSegmentEndID r).
  { change (get_int64 (IndexRecord.encode r ++ tail) 16)
      with (get_int64 (put_int64 (IndexRecord.DataSegmentEndID r) ++
              put_int64 (IndexRecord.DataSegmentOffset r) ++
              put_int64 (IndexRecord.Size r) ++
              [if IndexRecord.Purged r then Z.lor 0 1 else 0] ++ tail) 0).
    by apply get_put_int64. }
  assert (E24 : get_int64 (IndexRecord.encode r ++ tail) 24
                = IndexRecord.DataSegmentOffset r).
  { change (get_int64 (IndexRecord.encode r ++ tail) 24)
      with (get_int64 (put_int64 (IndexRecord.DataSegmentOffset r) ++
              put_int64 (IndexRecord.Size r) ++
              [if IndexRecord.Purged r then Z.lor 0 1 else 0] ++ tail) 0).
    by apply get_put_int64. }
  assert (E32 : get_int64 (IndexRecord.encode r ++ tail) 32 = IndexRecord.Size r).
  { change (get_int64 (IndexRecord.encode r ++ tail) 32)
      with (get_int64 (put_int64 (IndexRecord.Size r) ++
              [if IndexRecord.Purged r then Z.lor 0 1 else 0] ++ tail) 0).
    by apply get_put_int64. }
  rewrite E0, E8, E16, E24, E32.
  destruct r as [a b c d e p]. destruct p; reflexivity.
Qed.

Lemma store_slot_inv rec c0 s1 :
  IndexSegment.store_slot rec c0 = Ok s1 ->
  0 <= IndexSegment.Cursor c0 /\
  IndexSegment.Cursor c0 + 41 <= len (IndexSegment.Records c0) /\
  s1 = IndexSegment.set_Records
         (write_at (IndexSegment.Records c0) (IndexSegment.Cursor c0)
                   (IndexRecord.encode rec)) c0.
Proof.
  unfold IndexSegment.store_slot, IndexRecord.Write. intros H.
  inv_bind H. inv_bind Ha.
  apply slice_from_inv in Ha0 as [Hb ->].
  unfold IndexRecord.IndexRecordSize in Ha. change (8 * 5 + 1) with 41 in Ha.
  destruct (Z.ltb_spec (len (drop (Z.to_nat (IndexSegment.Cursor c0))
                               (IndexSegment.Records c0))) 41) as [|Hlen];
    [discriminate|].
  inv_Ok Ha. inv_Ok H.
  unfold len in *. rewrite length_drop in Hlen. repeat split; lia.
Qed.

(** Which record an observer decodes from a segment whose slot area holds
    the new record at the old cursor. *)
Lemma LoadRecord_written (s c0 : IndexSegment.t) (recID : Z) (rec : IndexRecord.t) :
  IndexSegment.Records s
    = write_at (IndexSegment.Records c0) (IndexSegment.Cursor c0)
               (IndexRecord.encode rec) ->
  0 <= IndexSegment.Cursor c0 ->
  IndexSegment.Cursor c0 + 41 <= len (IndexSegment.Records c0) ->
  record_in_int64 rec ->
  IndexSegment.ContainsRecord c0 recID = false ->
  (IndexSegment.LowerRecord s = IndexSegment.LowerRecord c0 /\
   IndexSegment.UpperRecord s = IndexSegment.UpperRecord c0 /\
   IndexSegment.RecordsCount s = IndexSegment.RecordsCount c0) \/
  mul64 (sub64 recID (IndexSegment.LowerRecord s)) IndexRecord.IndexRecordSize
    = IndexSegment.Cursor c0 ->
  IndexSegment.ContainsRecord s recID = true ->
  IndexSegment.LoadRecord s recID IndexRecord.zero = Ok (true, rec).
Proof.
  intros Hrecords Hcur Hfit Hrec Hnew [(HL & HU & HC)|Halign] Hcontains.
  - unfold IndexSegment.ContainsRecord in *. rewrite HL, HU, HC in Hcontains.
    congruence.
  - unfold IndexSegment.LoadRecord. rewrite Hcontains. cbn [negb].
    rewrite Halign, Hrecords.
    rewrite slice_from_write_at
      by (try lia; unfold len at 1; rewrite length_encode; lia).
    cbn [mbind result_bind]. rewrite Read_encode by exact Hrec. reflexivity.
Qed.

(** The new record sits at the old cursor: either the segment is empty,
    and the record becomes its lower record, or the slot of [recID] is the
    one at the cursor. *)
Definition slot_at_cursor (c0 : IndexSegment.t) (recID : Z) : Prop :=
  IndexSegment.Cursor c0 = 0 \/
  (IndexSegment.Cursor c0 <> 0 /\
   mul64 (sub64 recID (IndexSegment.LowerRecord c0)) IndexRecord.IndexRecordSize
     = IndexSegment.Cursor c0).

Lemma mul64_sub64_self x : mul64 (sub64 x x) IndexRecord.IndexRecordSize = 0.
Proof. unfold sub64. rewrite Z.sub_diag. reflexivity. Qed.

Lemma WriteRecord_trace_views c0 rec segs :
  IndexSegment.WriteRecord_trace c0 rec = Ok segs ->
  record_in_int64 rec ->
  IndexSegment.ContainsRecord c0 (IndexRecord.RecordID rec) = false ->
  slot_at_cursor c0 (IndexRecord.RecordID rec) ->
  Forall (fun s =>
            IndexSegment.ContainsRecord s (IndexRecord.RecordID rec) = true ->
            IndexSegment.LoadRecord s (IndexRecord.RecordID rec) IndexRecord.zero
              = Ok (true, rec)) segs.
Proof.
  unfold IndexSegment.WriteRecord_trace. intros H Hrec Hnew Hslot.
  inv_bind H. inv_Ok H.
  apply store_slot_inv in Ha as (Hcur & Hfit & ->).
  assert (Hview : forall s,
    IndexSegment.Records s
      = write_at (IndexSegment.Records c0) (IndexSegment.Cursor c0)
                 (IndexRecord.encode rec) ->
    (IndexSegment.LowerRecord s = IndexSegment.LowerRecord c0 /\
     IndexSegment.UpperRecord s = IndexSegment.UpperRecord c0 /\
     IndexSegment.RecordsCount s = IndexSegment.RecordsCount c0) \/
    mul64 (sub64 (IndexRecord.RecordID rec) (IndexSegment.LowerRecord s))
          IndexRecord.IndexRecordSize = IndexSegment.Cursor c0 ->
    IndexSegment.ContainsRecord s (IndexRecord.RecordID rec) = true ->
    IndexSegment.LoadRecord s (IndexRecord.RecordID rec) IndexRecord.zero
      = Ok (true, rec)).
  { intros s Hs Hcase. by apply (LoadRecord_written s c0). }
  unfold IndexSegment.store_lower.
  destruct Hslot as [Hzero|[Hnz Halign]].
  - destruct (Z.eqb_spec (IndexSegment.Cursor c0) 0) as [_|]; [|contradiction].
    repeat apply Forall_cons_2; [| | | | | |apply Forall_nil_2];
      (apply Hview; [reflexivity|]);
      try (left; repeat split; reflexivity);
      right; cbn [IndexSegment.LowerRecord IndexSegment.store_count
                  IndexSegment.store_upper IndexSegment.store_cursor
                  IndexSegment.FlushMetadata IndexSegment.set_Metadata
                  IndexSegment.set_RecordsCount IndexSegment.set_UpperRecord
                  IndexSegment.set_Cursor IndexSegment.set_LowerRecord
                  IndexSegment.set_Records];
      rewrite Hzero; apply mul64_sub64_self.
  - destruct (Z.eqb_spec (IndexSegment.Cursor c0) 0) as [|_]; [contradiction|].
    repeat apply Forall_cons_2; [| | | | | |apply Forall_nil_2];
      (apply Hview; [reflexivity|]);
      try (left; repeat split; reflexivity);
      right; exact Halign.
Qed.

Lemma LookupMeta_set_current (i : Index.t) (s : IndexSegment.t) recID rec :
  Index.SegmentForID i recID = None ->
  (IndexSegment.ContainsRecord s recID = true ->
   IndexSegment.LoadRecord s recID IndexRecord.zero = Ok (true, rec)) ->
  Index.LookupMeta (Index.set_current s i) recID IndexRecord.zero
    = Err (NotFound recID) \/
  Index.LookupMeta (Index.set_current s i) recID IndexRecord.zero = Ok rec.
Proof.
  intros Hnone Hview. unfold Index.LookupMeta.
  destruct (Index.SegmentForID (Index.set_current s i) recID)
    as [[k' seg]|] eqn:Hfind; [|left; reflexivity].
  apply SegmentForID_Some in Hfind as [Hk' Hc].
  rewrite SegmentForID_None in Hnone.
  unfold Index.set_current, store_through in Hk'.
  destruct (Index.CurrentSegment i) as [[k|obj]|]; cbn in Hk'.
  - destruct (decide (k = k')) as [->|Hne].
    + rewrite lookup_insert_eq in Hk'. injection Hk' as <-.
      right. rewrite (Hview Hc). reflexivity.
    + rewrite lookup_insert_ne in Hk' by exact Hne.
      rewrite (Hnone _ _ Hk') in Hc. discriminate.
  - rewrite (Hnone _ _ Hk') in Hc. discriminate.
  - rewrite (Hnone _ _ Hk') in Hc. discriminate.
Qed.

Lemma WriteRecord_trace_last c0 rec segs :
  IndexSegment.WriteRecord_trace c0 rec = Ok segs ->
  exists s, IndexSegment.WriteRecord c0 rec = Ok s /\ last segs = Some s.
Proof.
  unfold IndexSegment.WriteRecord_trace, IndexSegment.WriteRecord. intros H.
  inv_bind H. inv_Ok H. rewrite Ha. cbn [mbind result_bind].
  eexists. split; reflexivity.
Qed.

(** What an observer reads in each state of [Append_trace]: [MaxRecord],
    and whether the lookup of [id] succeeds. *)
Definition observe_trace (i : Index.t) (data : list Z) (id : Z)
    : result (list (Z * bool)) :=
  trace ← Index.Append_trace i data IndexRecord.zero;
  Ok ((fun st : Index.t =>
         (Index.MaxRecord st, is_Ok (Index.LookupMeta st id IndexRecord.zero)))
        <$> (trace : list Index.t)).

(** The first slot of the current index segment in the first state of
    [Append_trace]. *)
Definition first_slot_observed (i : Index.t) (data : list Z) : result (list Z) :=
  trace ← Index.Append_trace i data IndexRecord.zero;
  cur ← Index.current (default blank_index (head (trace : list Index.t)));
  Ok (take 41 (IndexSegment.Records cur)).

(** C2, as stated, fails: while the first record is appended to a new log,
    [MaxRecord] already reads 0 in every state another goroutine can load
    after the data write, and in the first five of them (the slot not yet
    stored, or stored and not yet covered by [UpperRecord] and
    [RecordsCount]) the lookup of record 0 fails; in the first one the slot
    still holds zeros. *)
Lemma MaxRecord_advanced_before_slot_written :
  observe_trace new_log hello 0
    = Ok [(0, false); (0, false); (0, false); (0, false); (0, false);
          (0, true); (0, true)] /\
  first_slot_observed new_log hello = Ok (zeros 41).
Proof. split; vm_compute; reflexivity. Qed.

(** The states [Append_trace] lists, when the identifier being assigned
    is in no index segment yet and its slot is the one at the cursor of
    the current segment: the first has [MaxRecord = recID] with the index
    segments untouched, and the lookup of [recID] fails there; in every
    one the lookup of [recID] fails or yields the record being appended;
    the last is the state [Append] returns. *)
Lemma Append_trace_spec
  (i : Index.t) (data : list Z) (rec0 : IndexRecord.t)
  (i1 : Index.t) (recID : Z) (rec : IndexRecord.t) (c0 : IndexSegment.t)
  (trace : list Index.t)
  (Hdata : Index.Append_data i data rec0 = Ok (i1, recID, rec))
  (Hcur : Index.current i1 = Ok c0)
  (Hnew : Index.SegmentForID i1 recID = None)
  (Hcur_new : IndexSegment.ContainsRecord c0 recID = false)
  (Hslot : slot_at_cursor c0 recID)
  (Hrec : record_in_int64 rec)
  (Htrace : Index.Append_trace i data rec0 = Ok trace) :
  exists st0 rest, trace = st0 :: rest /\
    (Index.MaxRecord st0 = recID /\
     Index.Segments st0 = Index.Segments i1 /\ Index.dm st0 = Index.dm i1 /\
     Index.LookupMeta st0 recID IndexRecord.zero = Err (NotFound recID)) /\
    Forall (fun st =>
              Index.MaxRecord st = recID /\
              (Index.LookupMeta st recID IndexRecord.zero = Err (NotFound recID) \/
               Index.LookupMeta st recID IndexRecord.zero = Ok rec)) trace /\
    exists i', Index.Append i data rec0 = Ok (i', rec) /\ last trace = Some i'.
Proof.
  destruct (Append_data_spec _ _ _ _ _ _ Hdata) as (_ & Hid & _).
  unfold Index.Append_trace in Htrace. rewrite Hdata in Htrace.
  cbn [mbind result_bind] in Htrace.
  rewrite current_set_MaxRecord, Hcur in Htrace. cbn [mbind result_bind] in Htrace.
  inv_bind Htrace. inv_Ok Htrace. rename a into segs.
  assert (Hfirst : Index.LookupMeta (Index.set_MaxRecord (IndexRecord.RecordID rec) i1)
                     (IndexRecord.RecordID rec) IndexRecord.zero
                   = Err (NotFound (IndexRecord.RecordID rec))).
  { unfold Index.LookupMeta.
    change (Index.SegmentForID (Index.set_MaxRecord (IndexRecord.RecordID rec) i1)
                               (IndexRecord.RecordID rec))
      with (Index.SegmentForID i1 (IndexRecord.RecordID rec)).
    rewrite Hnew. reflexivity. }
  do 2 eexists. split; [reflexivity|]. split; [|split].
  - repeat split; try reflexivity. exact Hfirst.
  - apply Forall_cons_2; [split; [reflexivity|left; exact Hfirst]|].
    apply Forall_fmap.
    pose proof (WriteRecord_trace_views c0 rec segs Ha Hrec Hcur_new Hslot)
      as Hviews.
    eapply Forall_impl; [exact Hviews|].
    intros s Hview. cbn. split; [apply set_current_MaxRecord|].
    apply LookupMeta_set_current; [exact Hnew | exact Hview].
  - destruct (WriteRecord_trace_last _ _ _ Ha) as (s & Hw & Hlast).
    exists (Index.set_current s (Index.set_MaxRecord (IndexRecord.RecordID rec) i1)).
    split.
    + unfold Index.Append. rewrite Hdata. cbn [mbind result_bind].
      rewrite current_set_MaxRecord, Hcur. cbn [mbind result_bind].
      rewrite Hw. reflexivity.
    + rewrite last_cons, fmap_last, Hlast. reflexivity.
Qed.

(** The second append to the small log: the state after the data write
    and the current index segment then. *)
Definition blank_segment : IndexSegment.t :=
  IndexSegment.mk 0 0 0 0 0 0 false [] [].
Definition second_append : Index.t * Z * IndexRecord.t :=
  force (blank_index, 0, IndexRecord.zero)
        (Index.Append_data one_record_log hello IndexRecord.zero).
Definition second_append_segment : IndexSegment.t :=
  force blank_segment (Index.current second_append.1.1).

(** * Further properties of the storage core *)

(** ** Index records: what [Write] stores, [Read] decodes *)

Lemma len_app {A} (l1 l2 : list A) : len (l1 ++ l2) = len l1 + len l2.
Proof. unfold len. rewrite length_app. lia. Qed.

Lemma len_take {A} (l : list A) n :
  0 <= n <= len l -> len (take (Z.to_nat n) l) = n.
Proof. unfold len. intros H. rewrite length_take. lia. Qed.

Lemma len_drop {A} (l : list A) n :
  0 <= n <= len l -> len (drop (Z.to_nat n) l) = len l - n.
Proof. unfold len. intros H. rewrite length_drop. lia. Qed.

Lemma len_write_at {A} (l : list A) off bs :
  0 <= off -> off + len bs <= len l -> len (write_at l off bs) = len l.
Proof. intros H1 H2. unfold len. f_equal. by apply length_write_at. Qed.

Lemma take_write_at {A} (l : list A) off bs :
  0 <= off <= len l ->
  take (Z.to_nat off) (write_at l off bs) = take (Z.to_nat off) l.
Proof.
  intros H. unfold write_at.
  rewrite take_app_le by (rewrite length_take; unfold len in H; lia).
  rewrite take_take. f_equal. lia.
Qed.

Lemma drop_write_at {A} (l : list A) off bs :
  0 <= off -> off + len bs <= len l ->
  drop (Z.to_nat (off + len bs)) (write_at l off bs)
    = drop (Z.to_nat (off + len bs)) l.
Proof.
  intros H1 H2. unfold write_at. unfold len in *.
  rewrite app_assoc.
  rewrite drop_app_length'.
  - f_equal. lia.
  - rewrite length_app, length_take. lia.
Qed.

(** X1. A record stored with [Write] at [off] is what [Read] decodes from
    [off]: the store succeeds whenever 41 bytes are left, it touches these
    41 bytes only, and the five fields and the flag come back unchanged. *)
Theorem IndexRecord_Write_then_Read (r : IndexRecord.t) (mem : list Z) (off : Z)
  (Hr : record_in_int64 r) (Hoff : 0 <= off) (Hfit : off + 41 <= len mem) :
  exists mem', IndexRecord.Write r mem off = Ok mem' /\
    len mem' = len mem /\
    take (Z.to_nat off) mem' = take (Z.to_nat off) mem /\
    drop (Z.to_nat (off + 41)) mem' = drop (Z.to_nat (off + 41)) mem /\
    (b ← slice_from mem' off; IndexRecord.Read b) = Ok r.
Proof.
  assert (Henc : len (IndexRecord.encode r) = 41) by reflexivity.
  unfold IndexRecord.Write. rewrite slice_from_ok by lia.
  cbn [mbind result_bind].
  rewrite len_drop by lia.
  unfold IndexRecord.IndexRecordSize. change (8 * 5 + 1) with 41.
  destruct (Z.ltb_spec (len mem - off) 41); [lia|].
  eexists. split; [reflexivity|].
  split; [apply len_write_at; lia|].
  split; [apply take_write_at; lia|].
  split.
  - rewrite <- Henc. apply drop_write_at; lia.
  - rewrite slice_from_write_at by lia. cbn [mbind result_bind].
    by apply Read_encode.
Qed.

Lemma IndexRecord_Write_then_Read_witness :
  (record_in_int64 (IndexRecord.mk 10 40 20 30 50 true) /\
   0 <= 41 /\ 41 + 41 <= len (zeros 100)) /\
  (b ← slice_from
         (force [] (IndexRecord.Write (IndexRecord.mk 10 40 20 30 50 true)
                                      (zeros 100) 41)) 41;
   IndexRecord.Read b) = Ok (IndexRecord.mk 10 40 20 30 50 true).
Proof.
  assert (H1 : record_in_int64 (IndexRecord.mk 10 40 20 30 50 true)).
  { unfold record_in_int64, in_int64. split_conj; vm_compute; discriminate. }
  assert (H2 : 0 <= 41) by lia.
  assert (H3 : 41 + 41 <= len (zeros 100)) by (vm_compute; discriminate).
  split; [split_conj; assumption|].
  destruct (IndexRecord_Write_then_Read _ _ _ H1 H2 H3) as (mem' & Hw & _ & _ & _ & Hrd).
  rewrite Hw. exact Hrd.
Defined.

(** ** Index records: the purge flag *)

Lemma write_at_write_at_same {A} (l : list A) off (x y : A) :
  0 <= off -> off + 1 <= len l ->
  write_at (write_at l off [x]) off [y] = write_at l off [y].
Proof.
  intros H1 H2. unfold write_at at 1 3.
  rewrite take_write_at by lia.
  f_equal. f_equal.
  change (Z.to_nat off + length [y])%nat with (Z.to_nat off + length [x])%nat.
  replace (Z.to_nat off + length [x])%nat with (Z.to_nat (off + len [x]))
    by (unfold len; cbn [length]; lia).
  apply drop_write_at; [lia|]. unfold len in *. cbn [length]. lia.
Qed.

Lemma lor_1_flag f : negb (Z.land (Z.lor f 1) 1 =? 0) = true.
Proof.
  assert (H : Z.land (Z.lor f 1) 1 = 1).
  { apply Z.bits_inj'. intros n Hn.
    rewrite Z.land_spec, Z.lor_spec.
    destruct (Z.eq_dec n 0) as [->|Hne].
    - change (Z.testbit 1 0) with true. by rewrite orb_true_r.
    - assert (H1 : Z.testbit 1 n = false).
      { change 1 with (Z.ones 1). rewrite Z.testbit_ones by lia.
        destruct (Z.ltb_spec n 1); [lia|]. by rewrite andb_false_r. }
      rewrite H1. by rewrite andb_false_r. }
  rewrite H. reflexivity.
Qed.

(** The slot that starts a buffer of 41 bytes or more, with its flag byte
    replaced. *)
Lemma Read_flag_replaced (b : list Z) (x : Z) :
  41 <= len b ->
  IndexRecord.Read (take 40 b ++ x :: drop 41 b)
    = (fun r => IndexRecord.mk (IndexRecord.RecordID r)
                  (IndexRecord.DataSegmentOffset r)
                  (IndexRecord.DataSegmentStartID r)
                  (IndexRecord.DataSegmentEndID r) (IndexRecord.Size r)
                  (negb (Z.land x 1 =? 0))) <$> IndexRecord.Read b.
Proof.
  intros Hlen. unfold len in Hlen.
  do 41 (destruct b as [|? b]; [cbn [length] in Hlen; lia|]).
  unfold IndexRecord.Read.
  assert (H1 : forall (l : list Z), (len l <? IndexRecord.IndexRecordSize) = false ->
            forall P Q : result IndexRecord.t,
            (if len l <? IndexRecord.IndexRecordSize then P else Q) = Q).
  { intros l -> P Q. reflexivity. }
  rewrite !H1.
  - reflexivity.
  - apply Z.ltb_ge. unfold len, IndexRecord.IndexRecordSize. cbn [length]. lia.
  - apply Z.ltb_ge. unfold len, IndexRecord.IndexRecordSize.
    rewrite length_app. cbn [take length]. lia.
Qed.

(** X2. [SetIndexRecordPurged] on a slot of 41 bytes succeeds, stores the
    flag byte only, and turns the slot into the same record with [Purged]
    set: [IsIndexRecordPurged] answers true afterwards, [Read] decodes the
    five fields as before, and setting the flag a second time changes
    nothing. *)
Theorem SetIndexRecordPurged_sets_flag_only (mem : list Z) (off : Z)
  (Hoff : 0 <= off) (Hfit : off + 41 <= len mem) :
  exists mem', IndexRecord.SetIndexRecordPurged mem off = Ok mem' /\
    len mem' = len mem /\
    take (Z.to_nat (off + 40)) mem' = take (Z.to_nat (off + 40)) mem /\
    drop (Z.to_nat (off + 41)) mem' = drop (Z.to_nat (off + 41)) mem /\
    IndexRecord.IsIndexRecordPurged mem' off = Ok true /\
    (b ← slice_from mem' off; IndexRecord.Read b)
      = Index.set_Purged true <$> (b ← slice_from mem off; IndexRecord.Read b) /\
    IndexRecord.SetIndexRecordPurged mem' off = Ok mem'.
Proof.
  pose proof (len_nonneg mem) as Hnn.
  assert (Hb : slice_from mem off = Ok (drop (Z.to_nat off) mem))
    by (apply slice_from_ok; lia).
  assert (Hlb : len (drop (Z.to_nat off) mem) = len mem - off)
    by (apply len_drop; lia).
  set (b := drop (Z.to_nat off) mem) in *.
  set (x := Z.lor (nth 40 b 0) 1).
  assert (Hset : IndexRecord.SetIndexRecordPurged mem off
                 = Ok (write_at mem (off + 40) [x])).
  { unfold IndexRecord.SetIndexRecordPurged. rewrite Hb. cbn [mbind result_bind].
    destruct (Z.leb_spec (len b) 40); [lia|]. reflexivity. }
  assert (Hlen' : len (write_at mem (off + 40) [x]) = len mem).
  { apply len_write_at; [lia|]. unfold len at 1. cbn [length]. lia. }
  assert (Hb' : slice_from (write_at mem (off + 40) [x]) off
                = Ok (take 40 b ++ x :: drop 41 b)).
  { rewrite slice_from_ok by lia. f_equal. unfold write_at.
    rewrite drop_app_le by (rewrite length_take; unfold len in *; lia).
    f_equal.
    - subst b. rewrite take_drop_commute. f_equal. f_equal. lia.
    - cbn [app length]. f_equal. subst b. rewrite drop_drop. f_equal. lia. }
  assert (Hnth : nth 40 (take 40 b ++ x :: drop 41 b) 0 = x).
  { rewrite app_nth2 by (rewrite length_take; unfold len in *; lia).
    rewrite length_take.
    replace (40 - 40 `min` length b)%nat with 0%nat by (unfold len in *; lia).
    reflexivity. }
  assert (Hlb' : len (take 40 b ++ x :: drop 41 b) = len b).
  { unfold len in *. rewrite length_app, length_take. cbn [length].
    rewrite length_drop. lia. }
  exists (write_at mem (off + 40) [x]).
  split; [exact Hset|]. split; [exact Hlen'|].
  split; [apply take_write_at; lia|].
  split.
  { replace (off + 41) with (off + 40 + len [x]) by (unfold len; cbn [length]; lia).
    apply drop_write_at; [lia|]. unfold len at 1. cbn [length]. lia. }
  split.
  { unfold IndexRecord.IsIndexRecordPurged. rewrite Hb'. cbn [mbind result_bind].
    rewrite Hlb'. destruct (Z.leb_spec (len b) 40); [lia|].
    rewrite Hnth. subst x. by rewrite lor_1_flag. }
  split.
  { rewrite Hb', Hb. cbn [mbind result_bind].
    rewrite Read_flag_replaced by lia.
    subst x. rewrite lor_1_flag.
    destruct (IndexRecord.Read b); reflexivity. }
  unfold IndexRecord.SetIndexRecordPurged. rewrite Hb'. cbn [mbind result_bind].
  rewrite Hlb'. destruct (Z.leb_spec (len b) 40); [lia|].
  rewrite Hnth. f_equal.
  rewrite write_at_write_at_same by (unfold len in *; lia).
  f_equal. f_equal. subst x.
  rewrite <- Z.lor_assoc. reflexivity.
Qed.

Lemma SetIndexRecordPurged_sets_flag_only_witness :
  (0 <= 41 /\ 41 + 41 <= len (zeros 100)) /\
  IndexRecord.IsIndexRecordPurged
    (force [] (IndexRecord.SetIndexRecordPurged (zeros 100) 41)) 41 = Ok true.
Proof.
  assert (H2 : 0 <= 41) by lia.
  assert (H3 : 41 + 41 <= len (zeros 100)) by (vm_compute; discriminate).
  split; [split; assumption|].
  destruct (SetIndexRecordPurged_sets_flag_only (zeros 100) 41 H2 H3)
    as (mem' & Hw & _ & _ & _ & Hp & _).
  rewrite Hw. exact Hp.
Defined.

(** ** Data segments: the header and the file *)

Lemma slice_app_header {A} (md rs : list A) n :
  len md = n -> slice (md ++ rs) 0 n = Ok md.
Proof.
  intros H. pose proof (len_nonneg md). pose proof (len_nonneg rs).
  rewrite slice_ok by (rewrite ?len_app; lia).
  f_equal. rewrite drop_0, Z.sub_0_r.
  rewrite take_app_le by (unfold len in *; lia).
  apply take_ge. unfold len in *. lia.
Qed.

Lemma slice_from_app_header {A} (md rs : list A) n :
  len md = n -> slice_from (md ++ rs) n = Ok rs.
Proof.
  intros H. pose proof (len_nonneg md). pose proof (len_nonneg rs).
  rewrite slice_from_ok by (rewrite ?len_app; lia).
  f_equal. replace (Z.to_nat n) with (length md) by (unfold len in *; lia).
  apply drop_app_length.
Qed.

Lemma get_put_int64_8 x y tail :
  in_int64 y -> get_int64 (put_int64 x ++ put_int64 y ++ tail) 8 = y.
Proof.
  intros Hy.
  change (get_int64 (put_int64 x ++ put_int64 y ++ tail) 8)
    with (get_int64 (put_int64 y ++ tail) 0).
  by apply get_put_int64.
Qed.

Lemma get_put_int64_16 x y z tail :
  in_int64 z -> get_int64 (put_int64 x ++ put_int64 y ++ put_int64 z ++ tail) 16 = z.
Proof.
  intros Hz.
  change (get_int64 (put_int64 x ++ put_int64 y ++ put_int64 z ++ tail) 16)
    with (get_int64 (put_int64 z ++ tail) 0).
  by apply get_put_int64.
Qed.

(** Opening the file of a data segment that was closed. *)
Lemma NewDataSegment_closed (s : DataSegment.t) (id : Z) (config : Config) :
  in_int64 (DataSegment.SegmentID s) -> in_int64 (DataSegment.Size s) ->
  in_int64 (DataSegment.Cursor s) ->
  DataSegment.NewDataSegment id config
      (Some (DataSegment.file (DataSegment.Close s)))
    = Ok (DataSegment.Close s).
Proof.
  intros Hid Hsize Hcursor.
  unfold DataSegment.NewDataSegment, DataSegment.file, DataSegment.Close,
    DataSegment.FlushMetadata, DataSegment.dataSegmentMetadataSize.
  cbn [DataSegment.Metadata DataSegment.Records DataSegment.set_Metadata
       DataSegment.SegmentID DataSegment.Size DataSegment.Cursor].
  change (8 * 3) with 24.
  rewrite slice_app_header by reflexivity. cbn [mbind result_bind].
  rewrite slice_from_app_header by reflexivity. cbn [mbind result_bind].
  rewrite <- (app_nil_r (put_int64 (DataSegment.Cursor s))) at 1 2 3.
  rewrite get_put_int64 by exact Hid.
  rewrite get_put_int64_8 by exact Hsize.
  rewrite get_put_int64_16 by exact Hcursor.
  reflexivity.
Qed.

(** X3. A data segment that is closed and opened again is the segment that
    was closed: [Close] flushes the header, and [NewDataSegment] on an
    existing file takes the identifier, the size and the cursor from the
    header, whatever the number in the file name and the configured size,
    and maps the same records. *)
Theorem DataSegment_Close_then_open (s : DataSegment.t) (id : Z) (config : Config)
  (Hid : in_int64 (DataSegment.SegmentID s))
  (Hsize : in_int64 (DataSegment.Size s))
  (Hcursor : in_int64 (DataSegment.Cursor s)) :
  DataSegment.NewDataSegment id config
      (Some (DataSegment.file (DataSegment.Close s)))
    = Ok (DataSegment.Close s) /\
  DataSegment.SegmentID (DataSegment.Close s) = DataSegment.SegmentID s /\
  DataSegment.Size (DataSegment.Close s) = DataSegment.Size s /\
  DataSegment.Cursor (DataSegment.Close s) = DataSegment.Cursor s /\
  DataSegment.Records (DataSegment.Close s) = DataSegment.Records s.
Proof.
  split; [by apply NewDataSegment_closed|].
  unfold DataSegment.Close, DataSegment.FlushMetadata. repeat split.
Qed.

Lemma DataSegment_Close_then_open_witness :
  (in_int64 (DataSegment.SegmentID half_full) /\
   in_int64 (DataSegment.Size half_full) /\
   in_int64 (DataSegment.Cursor half_full)) /\
  DataSegment.NewDataSegment 7 (mkConfig 1024 64)
      (Some (DataSegment.file (DataSegment.Close half_full)))
    = Ok (DataSegment.Close half_full).
Proof.
  assert (H1 : in_int64 (DataSegment.SegmentID half_full))
    by (split; vm_compute; discriminate).
  assert (H2 : in_int64 (DataSegment.Size half_full))
    by (split; vm_compute; discriminate).
  assert (H3 : in_int64 (DataSegment.Cursor half_full))
    by (split; vm_compute; discriminate).
  split; [split_conj; assumption|].
  exact (proj1 (DataSegment_Close_then_open half_full 7 (mkConfig 1024 64) H1 H2 H3)).
Defined.

(** ** Data segments: [Write], [Read] and [Reader] *)

(** What [Write] returns and leaves in the segment. *)
Lemma DataSegment_Write_spec (s : DataSegment.t) (data : list Z)
  (Hcursor : 0 <= DataSegment.Cursor s <= len (DataSegment.Records s))
  (Hrecords : len (DataSegment.Records s) <= max_int64) :
  exists s',
    DataSegment.Write s data
      = Ok (s', DataSegment.Cursor s,
            Z.min (len data) (len (DataSegment.Records s) - DataSegment.Cursor s)) /\
    DataSegment.SegmentID s' = DataSegment.SegmentID s /\
    DataSegment.Size s' = DataSegment.Size s /\
    DataSegment.Cursor s'
      = DataSegment.Cursor s
        + Z.min (len data) (len (DataSegment.Records s) - DataSegment.Cursor s) /\
    len (DataSegment.Records s') = len (DataSegment.Records s) /\
    take (Z.to_nat (DataSegment.Cursor s)) (DataSegment.Records s')
      = take (Z.to_nat (DataSegment.Cursor s)) (DataSegment.Records s) /\
    take (Z.to_nat (DataSegment.Cursor s' - DataSegment.Cursor s))
         (drop (Z.to_nat (DataSegment.Cursor s)) (DataSegment.Records s'))
      = take (Z.to_nat (DataSegment.Cursor s' - DataSegment.Cursor s)) data /\
    drop (Z.to_nat (DataSegment.Cursor s')) (DataSegment.Records s')
      = drop (Z.to_nat (DataSegment.Cursor s')) (DataSegment.Records s).
Proof.
  pose proof (len_nonneg data) as Hnn.
  set (c := DataSegment.Cursor s) in *. set (R := DataSegment.Records s) in *.
  set (n := Z.min (len data) (len R - c)).
  assert (Hn : 0 <= n <= len data /\ c + n <= len R) by lia.
  unfold DataSegment.Write. fold c R.
  rewrite slice_from_ok by lia. cbn [mbind result_bind]. unfold copy.
  assert (Hmin : Z.of_nat (Nat.min (length (drop (Z.to_nat c) R)) (length data)) = n).
  { rewrite length_drop. subst n. unfold len in *. lia. }
  rewrite Hmin.
  assert (Hchunk : len (take (Z.to_nat n) data) = n) by (apply len_take; lia).
  assert (Hadd : add64 c n = c + n).
  { unfold add64. apply wrap64_id. unfold in_int64, min_int64, max_int64 in *. lia. }
  rewrite Hadd.
  eexists. split; [reflexivity|].
  cbn [DataSegment.SegmentID DataSegment.Size DataSegment.Cursor
       DataSegment.Records DataSegment.set_Cursor DataSegment.set_Records].
  split; [reflexivity|]. split; [reflexivity|]. split; [reflexivity|].
  split; [apply len_write_at; lia|].
  split; [apply take_write_at; lia|].
  split.
  - replace (c + n - c) with n by lia.
    unfold write_at.
    rewrite drop_app_length' by (rewrite length_take; unfold len in *; lia).
    rewrite take_app_le by (unfold len in *; lia).
    rewrite take_take. f_equal. lia.
  - rewrite <- Hchunk at 1 3. apply drop_write_at; lia.
Qed.

(** X4. [Write] stores at the cursor as many bytes of [data] as the mapping
    still holds, never more: it returns the old cursor and that count,
    advances the cursor by it, and leaves every byte below the old cursor
    and beyond the new one as it was.  On a full segment it stores nothing
    and returns 0. *)
Theorem DataSegment_Write_stores_what_fits (s : DataSegment.t) (data : list Z)
  (Hcursor : 0 <= DataSegment.Cursor s <= len (DataSegment.Records s))
  (Hrecords : len (DataSegment.Records s) <= max_int64) :
  exists s' n,
    n = Z.min (len data) (len (DataSegment.Records s) - DataSegment.Cursor s) /\
    DataSegment.Write s data = Ok (s', DataSegment.Cursor s, n) /\
    (DataSegment.Cursor s = len (DataSegment.Records s) -> n = 0 /\ s' = s) /\
    DataSegment.SegmentID s' = DataSegment.SegmentID s /\
    DataSegment.Size s' = DataSegment.Size s /\
    DataSegment.Cursor s' = DataSegment.Cursor s + n /\
    len (DataSegment.Records s') = len (DataSegment.Records s) /\
    take (Z.to_nat (DataSegment.Cursor s)) (DataSegment.Records s')
      = take (Z.to_nat (DataSegment.Cursor s)) (DataSegment.Records s) /\
    take (Z.to_nat n) (drop (Z.to_nat (DataSegment.Cursor s)) (DataSegment.Records s'))
      = take (Z.to_nat n) data /\
    drop (Z.to_nat (DataSegment.Cursor s + n)) (DataSegment.Records s')
      = drop (Z.to_nat (DataSegment.Cursor s + n)) (DataSegment.Records s).
Proof.
  pose proof (len_nonneg data) as Hnn.
  destruct (DataSegment_Write_spec s data Hcursor Hrecords)
    as (s' & Hw & Hid & Hsz & Hc & Hlen & Hlow & Hmid & Hhigh).
  exists s', (Z.min (len data) (len (DataSegment.Records s) - DataSegment.Cursor s)).
  split; [reflexivity|]. split; [exact Hw|].
  split.
  { intros Hfull.
    assert (Hn : Z.min (len data)
                   (len (DataSegment.Records s) - DataSegment.Cursor s) = 0) by lia.
    split; [exact Hn|].
    rewrite Hn, Z.add_0_r in Hc.
    assert (HR : DataSegment.Records s' = DataSegment.Records s).
    { transitivity (take (Z.to_nat (DataSegment.Cursor s)) (DataSegment.Records s')
                    ++ drop (Z.to_nat (DataSegment.Cursor s)) (DataSegment.Records s'));
        [symmetry; apply take_drop|].
      rewrite Hlow. rewrite Hc in Hhigh. rewrite Hhigh. apply take_drop. }
    unfold DataSegment.Write in Hw.
    rewrite slice_from_ok in Hw by lia. cbn [mbind result_bind] in Hw.
    destruct (copy _ _) as [w d]. inv_Ok Hw.
    destruct s as [a b c md rs].
    cbn [DataSegment.Records DataSegment.Cursor DataSegment.set_Cursor
         DataSegment.set_Records DataSegment.SegmentID DataSegment.Size
         DataSegment.Metadata] in *.
    rewrite HR, Hc. reflexivity. }
  split; [exact Hid|]. split; [exact Hsz|]. split; [exact Hc|].
  split; [exact Hlen|]. split; [exact Hlow|].
  split.
  - rewrite Hc in Hmid.
    replace (DataSegment.Cursor s
             + Z.min (len data) (len (DataSegment.Records s) - DataSegment.Cursor s)
             - DataSegment.Cursor s)
      with (Z.min (len data) (len (DataSegment.Records s) - DataSegment.Cursor s))
      in Hmid by lia.
    exact Hmid.
  - rewrite Hc in Hhigh. exact Hhigh.
Qed.

Lemma DataSegment_Write_stores_what_fits_witness :
  (0 <= DataSegment.Cursor half_full <= len (DataSegment.Records half_full) /\
   len (DataSegment.Records half_full) <= max_int64) /\
  (fun r : DataSegment.t * Z * Z => (r.1.2, r.2))
    <$> DataSegment.Write half_full [9; 9; 9; 9; 9; 9] = Ok (4, 4).
Proof.
  assert (H1 : 0 <= DataSegment.Cursor half_full
               <= len (DataSegment.Records half_full))
    by (split; vm_compute; discriminate).
  assert (H2 : len (DataSegment.Records half_full) <= max_int64)
    by (vm_compute; discriminate).
  split; [split; assumption|].
  destruct (DataSegment_Write_stores_what_fits half_full [9; 9; 9; 9; 9; 9] H1 H2)
    as (s' & n & Hn & Hw & _).
  rewrite Hw, Hn. reflexivity.
Defined.

(** X5. What [Write] stored, [Read] returns: when [data] fits behind the
    cursor, [Write] stores all of it, and [Read] into a buffer of the same
    length at the offset [Write] returned yields exactly [data]. *)
Theorem DataSegment_Write_then_Read (s : DataSegment.t) (data into : list Z)
  (Hcursor : 0 <= DataSegment.Cursor s)
  (Hfit : DataSegment.Cursor s + len data <= len (DataSegment.Records s))
  (Hrecords : len (DataSegment.Records s) <= max_int64)
  (Hinto : length into = length data) :
  exists s',
    DataSegment.Write s data = Ok (s', DataSegment.Cursor s, len data) /\
    DataSegment.Read s' into (DataSegment.Cursor s) = Ok (len data, data).
Proof.
  pose proof (len_nonneg data) as Hnn.
  destruct (DataSegment_Write_spec s data ltac:(lia) Hrecords)
    as (s' & Hw & _ & _ & Hc' & Hlen' & _ & Hdata & _).
  replace (Z.min (len data) (len (DataSegment.Records s) - DataSegment.Cursor s))
    with (len data) in * by lia.
  exists s'. split; [exact Hw|].
  unfold DataSegment.Read.
  destruct (Z.geb_spec (DataSegment.Cursor s) (DataSegment.Cursor s')) as [Hge|Hlt].
  - assert (Hz : len data = 0) by lia.
    rewrite Hz. destruct data; [|unfold len in Hz; cbn [length] in Hz; lia].
    destruct into; [reflexivity|discriminate].
  - assert (Hlen_into : len into = len data) by (unfold len; lia).
    rewrite Hlen_into.
    assert (Hadd : add64 (DataSegment.Cursor s) (len data)
                   = DataSegment.Cursor s + len data).
    { unfold add64. apply wrap64_id.
      unfold in_int64, min_int64, max_int64 in *. lia. }
    rewrite Hadd, slice_ok by lia. cbn [mbind result_bind].
    replace (DataSegment.Cursor s + len data - DataSegment.Cursor s)
      with (DataSegment.Cursor s' - DataSegment.Cursor s) by lia.
    rewrite Hdata.
    replace (Z.to_nat (DataSegment.Cursor s' - DataSegment.Cursor s))
      with (length data) by (unfold len in *; lia).
    rewrite firstn_all. unfold copy. rewrite Hinto, Nat.min_id.
    rewrite firstn_all, <- Hinto, drop_all, app_nil_r.
    unfold len. rewrite Hinto. reflexivity.
Qed.

Lemma DataSegment_Write_then_Read_witness :
  (0 <= DataSegment.Cursor half_full /\
   DataSegment.Cursor half_full + len [9; 8; 7]
     <= len (DataSegment.Records half_full) /\
   len (DataSegment.Records half_full) <= max_int64 /\
   length [0; 0; 0] = length [9; 8; 7]) /\
  (s' ← (fun r : DataSegment.t * Z * Z => r.1.1)
          <$> DataSegment.Write half_full [9; 8; 7];
   DataSegment.Read s' [0; 0; 0] 4) = Ok (3, [9; 8; 7]).
Proof.
  assert (H1 : 0 <= DataSegment.Cursor half_full) by (vm_compute; discriminate).
  assert (H2 : DataSegment.Cursor half_full + len [9; 8; 7]
               <= len (DataSegment.Records half_full))
    by (vm_compute; discriminate).
  assert (H3 : len (DataSegment.Records half_full) <= max_int64)
    by (vm_compute; discriminate).
  assert (H4 : length [0; 0; 0] = length [9; 8; 7]) by reflexivity.
  split; [split_conj; assumption|].
  destruct (DataSegment_Write_then_Read half_full [9; 8; 7] [0; 0; 0] H1 H2 H3 H4)
    as (s' & Hw & Hr).
  rewrite Hw. exact Hr.
Defined.

(** X6. [Reader] grants at most the bytes between [offset] and [Size]: for
    an offset inside the segment it yields [min size (Size - offset)] bytes
    of the mapping from [offset] on and returns that count; for an offset
    beyond [Size] it panics on the slice expression, whatever [size]. *)
Theorem DataSegment_Reader_clamps_to_Size (s : DataSegment.t) (offset size : Z)
  (Hsize : 0 <= DataSegment.Size s <= len (DataSegment.Records s))
  (Hrecords : len (DataSegment.Records s) <= max_int64)
  (Hoffset : 0 <= offset <= max_int64)
  (Hwant : 0 <= size) (Hsum : offset + size <= max_int64) :
  DataSegment.Reader s offset size =
    if offset <=? DataSegment.Size s
    then Ok (take (Z.to_nat (Z.min size (DataSegment.Size s - offset)))
                  (drop (Z.to_nat offset) (DataSegment.Records s)),
             Z.min size (DataSegment.Size s - offset))
    else Panic.
Proof.
  unfold DataSegment.Reader.
  set (S := DataSegment.Size s) in *. set (R := DataSegment.Records s) in *.
  assert (Hadd : add64 offset size = offset + size).
  { unfold add64. apply wrap64_id. unfold in_int64, min_int64, max_int64 in *. lia. }
  assert (Hsub : sub64 S offset = S - offset).
  { unfold sub64. apply wrap64_id. unfold in_int64, min_int64, max_int64 in *. lia. }
  rewrite Hadd, Hsub.
  destruct (Z.leb_spec offset S) as [Hin|Hout].
  - destruct (Z.gtb_spec (offset + size) S) as [Hclamp|Hfits].
    + destruct (Z.gtb_spec (S - offset) S) as [|_]; [lia|].
      assert (Hadd' : add64 offset (S - offset) = S).
      { unfold add64. rewrite wrap64_id
          by (unfold in_int64, min_int64, max_int64 in *; lia). lia. }
      rewrite Hadd'. rewrite slice_ok by lia. cbn [mbind result_bind].
      replace (Z.min size (S - offset)) with (S - offset) by lia. reflexivity.
    + destruct (Z.gtb_spec size S) as [|_]; [lia|].
      rewrite Hadd. rewrite slice_ok by lia. cbn [mbind result_bind].
      replace (offset + size - offset) with size by lia.
      replace (Z.min size (S - offset)) with size by lia. reflexivity.
  - destruct (Z.gtb_spec (offset + size) S) as [_|]; [|lia].
    destruct (Z.gtb_spec (S - offset) S) as [|_]; [lia|].
    assert (Hadd' : add64 offset (S - offset) = S).
    { unfold add64. rewrite wrap64_id
        by (unfold in_int64, min_int64, max_int64 in *; lia). lia. }
    rewrite Hadd'. rewrite slice_panic by lia. reflexivity.
Qed.

Lemma DataSegment_Reader_clamps_to_Size_witness :
  (0 <= DataSegment.Size half_full <= len (DataSegment.Records half_full) /\
   len (DataSegment.Records half_full) <= max_int64 /\
   0 <= 2 <= max_int64 /\ 0 <= 100 /\ 2 + 100 <= max_int64) /\
  DataSegment.Reader half_full 2 100 = Ok ([1; 1; 0; 0; 0; 0], 6).
Proof.
  assert (H1 : 0 <= DataSegment.Size half_full
               <= len (DataSegment.Records half_full))
    by (split; vm_compute; discriminate).
  assert (H2 : len (DataSegment.Records half_full) <= max_int64)
    by (vm_compute; discriminate).
  assert (H3 : 0 <= 2 <= max_int64) by (split; vm_compute; discriminate).
  assert (H4 : 0 <= 100) by lia.
  assert (H5 : 2 + 100 <= max_int64) by (vm_compute; discriminate).
  split; [exact (conj H1 (conj H2 (conj H3 (conj H4 H5))))|].
  rewrite (DataSegment_Reader_clamps_to_Size half_full 2 100 H1 H2 H3 H4 H5).
  reflexivity.
Defined.

(** ** Index segments: the header and the file *)

Definition segment_in_int64 (s : IndexSegment.t) : Prop :=
  in_int64 (IndexSegment.SegmentID s) /\ in_int64 (IndexSegment.Size s) /\
  in_int64 (IndexSegment.LowerRecord s) /\ in_int64 (IndexSegment.UpperRecord s) /\
  in_int64 (IndexSegment.RecordsCount s) /\ in_int64 (IndexSegment.Cursor s).

(** The fields [LoadMetadata] decodes from a flushed header. *)
Lemma LoadMetadata_FlushMetadata (s : IndexSegment.t) (rs : list Z) :
  segment_in_int64 s ->
  IndexSegment.LoadMetadata (IndexSegment.Metadata (IndexSegment.FlushMetadata s)) rs
    = IndexSegment.set_Records rs (IndexSegment.FlushMetadata s).
Proof.
  intros (H1 & H2 & H3 & H4 & H5 & H6).
  unfold IndexSegment.LoadMetadata, IndexSegment.FlushMetadata.
  cbn [IndexSegment.Metadata IndexSegment.set_Metadata].
  set (flag := [if IndexSegment.Purged s then Z.lor 0 1 else 0]).
  assert (E0 : get_int64 (put_int64 (IndexSegment.SegmentID s) ++
                 put_int64 (IndexSegment.Size s) ++
                 put_int64 (IndexSegment.LowerRecord s) ++
                 put_int64 (IndexSegment.UpperRecord s) ++
                 put_int64 (IndexSegment.RecordsCount s) ++
                 put_int64 (IndexSegment.Cursor s) ++ flag) 0
               = IndexSegment.SegmentID s) by (by apply get_put_int64).
  assert (E8 : get_int64 (put_int64 (IndexSegment.SegmentID s) ++
                 put_int64 (IndexSegment.Size s) ++
                 put_int64 (IndexSegment.LowerRecord s) ++
                 put_int64 (IndexSegment.UpperRecord s) ++
                 put_int64 (IndexSegment.RecordsCount s) ++
                 put_int64 (IndexSegment.Cursor s) ++ flag) 8
               = IndexSegment.Size s) by (by apply get_put_int64_8).
  assert (E16 : get_int64 (put_int64 (IndexSegment.SegmentID s) ++
                 put_int64 (IndexSegment.Size s) ++
                 put_int64 (IndexSegment.LowerRecord s) ++
                 put_int64 (IndexSegment.UpperRecord s) ++
                 put_int64 (IndexSegment.RecordsCount s) ++
                 put_int64 (IndexSegment.Cursor s) ++ flag) 16
               = IndexSegment.LowerRecord s) by (by apply get_put_int64_16).
  assert (E24 : get_int64 (put_int64 (IndexSegment.SegmentID s) ++
                 put_int64 (IndexSegment.Size s) ++
                 put_int64 (IndexSegment.LowerRecord s) ++
                 put_int64 (IndexSegment.UpperRecord s) ++
                 put_int64 (IndexSegment.RecordsCount s) ++
                 put_int64 (IndexSegment.Cursor s) ++ flag) 24
               = IndexSegment.UpperRecord s).
  { change (get_int64 (put_int64 (IndexSegment.SegmentID s) ++
                 put_int64 (IndexSegment.Size s) ++
                 put_int64 (IndexSegment.LowerRecord s) ++
                 put_int64 (IndexSegment.UpperRecord s) ++
                 put_int64 (IndexSegment.RecordsCount s) ++
                 put_int64 (IndexSegment.Cursor s) ++ flag) 24)
      with (get_int64 (put_int64 (IndexSegment.UpperRecord s) ++
                 put_int64 (IndexSegment.RecordsCount s) ++
                 put_int64 (IndexSegment.Cursor s) ++ flag) 0).
    by apply get_put_int64. }
  assert (E32 : get_int64 (put_int64 (IndexSegment.SegmentID s) ++
                 put_int64 (IndexSegment.Size s) ++
                 put_int64 (IndexSegment.LowerRecord s) ++
                 put_int64 (IndexSegment.UpperRecord s) ++
                 put_int64 (IndexSegment.RecordsCount s) ++
                 put_int64 (IndexSegment.Cursor s) ++ flag) 32
               = IndexSegment.RecordsCount s).
  { change (get_int64 (put_int64 (IndexSegment.SegmentID s) ++
                 put_int64 (IndexSegment.Size s) ++
                 put_int64 (IndexSegment.LowerRecord s) ++
                 put_int64 (IndexSegment.UpperRecord s) ++
                 put_int64 (IndexSegment.RecordsCount s) ++
                 put_int64 (IndexSegment.Cursor s) ++ flag) 32)
      with (get_int64 (put_int64 (IndexSegment.RecordsCount s) ++
                 put_int64 (IndexSegment.Cursor s) ++ flag) 0).
    by apply get_put_int64. }
  assert (E40 : get_int64 (put_int64 (IndexSegment.SegmentID s) ++
                 put_int64 (IndexSegment.Size s) ++
                 put_int64 (IndexSegment.LowerRecord s) ++
                 put_int64 (IndexSegment.UpperRecord s) ++
                 put_int64 (IndexSegment.RecordsCount s) ++
                 put_int64 (IndexSegment.Cursor s) ++ flag) 40
               = IndexSegment.Cursor s).
  { change (get_int64 (put_int64 (IndexSegment.SegmentID s) ++
                 put_int64 (IndexSegment.Size s) ++
                 put_int64 (IndexSegment.LowerRecord s) ++
                 put_int64 (IndexSegment.UpperRecord s) ++
                 put_int64 (IndexSegment.RecordsCount s) ++
                 put_int64 (IndexSegment.Cursor s) ++ flag) 40)
      with (get_int64 (put_int64 (IndexSegment.Cursor s) ++ flag) 0).
    by apply get_put_int64. }
  rewrite E0, E8, E16, E24, E32, E40.
  assert (Eflag : nth 48 (put_int64 (IndexSegment.SegmentID s) ++
                 put_int64 (IndexSegment.Size s) ++
                 put_int64 (IndexSegment.LowerRecord s) ++
                 put_int64 (IndexSegment.UpperRecord s) ++
                 put_int64 (IndexSegment.RecordsCount s) ++
                 put_int64 (IndexSegment.Cursor s) ++ flag) 0
               = if IndexSegment.Purged s then Z.lor 0 1 else 0) by reflexivity.
  rewrite Eflag.
  destruct s as [a b c d e f p md rs0]. destruct p; reflexivity.
Qed.

Lemma len_FlushMetadata (s : IndexSegment.t) :
  len (IndexSegment.Metadata (IndexSegment.FlushMetadata s)) = 49.
Proof. reflexivity. Qed.

(** Opening the file of a segment whose header is the flushed one. *)
Lemma NewIndexSegment_flushed (s : IndexSegment.t) (id : Z) (config : Config) :
  segment_in_int64 s ->
  IndexSegment.NewIndexSegment id config
      (Some (IndexSegment.file (IndexSegment.Close (IndexSegment.FlushMetadata s))))
    = Ok (IndexSegment.FlushMetadata s).
Proof.
  intros Hs. unfold IndexSegment.NewIndexSegment, IndexSegment.file,
    IndexSegment.Close, IndexSegment.IndexSegmentMetadataSize.
  change (6 * 8 + 1) with 49.
  rewrite slice_app_header by apply len_FlushMetadata. cbn [mbind result_bind].
  rewrite slice_from_app_header by apply len_FlushMetadata.
  cbn [mbind result_bind].
  rewrite LoadMetadata_FlushMetadata by exact Hs.
  destruct s; reflexivity.
Qed.

(** X7. A record written with [WriteRecord] is in the file: the header is
    flushed at the end of the call, so closing the segment and opening its
    file again, under whatever name and configuration, gives the segment
    [WriteRecord] left, with its bounds, count, cursor and slots. *)
Theorem IndexSegment_WriteRecord_then_open
  (s s' : IndexSegment.t) (rec : IndexRecord.t) (id : Z) (config : Config)
  (Hwrite : IndexSegment.WriteRecord s rec = Ok s')
  (Hid : in_int64 (IndexSegment.SegmentID s))
  (Hsize : in_int64 (IndexSegment.Size s))
  (Hlower : in_int64 (IndexSegment.LowerRecord s))
  (Hrec : in_int64 (IndexRecord.RecordID rec)) :
  IndexSegment.NewIndexSegment id config
      (Some (IndexSegment.file (IndexSegment.Close s'))) = Ok s'.
Proof.
  unfold IndexSegment.WriteRecord in Hwrite. inv_bind Hwrite. inv_Ok Hwrite.
  apply NewIndexSegment_flushed.
  unfold IndexSegment.store_slot in Ha. inv_bind Ha. inv_Ok Ha.
  unfold segment_in_int64, IndexSegment.store_lower.
  destruct (IndexSegment.Cursor s =? 0); cbn;
    repeat split; try apply wrap64_range; try apply Hid; try apply Hsize;
    try apply Hlower; try apply Hrec.
Qed.

Lemma IndexSegment_WriteRecord_then_open_witness :
  (IndexSegment.WriteRecord second_append_segment second_append.2
     = Ok (force blank_segment
             (IndexSegment.WriteRecord second_append_segment second_append.2)) /\
   in_int64 (IndexSegment.SegmentID second_append_segment) /\
   in_int64 (IndexSegment.Size second_append_segment) /\
   in_int64 (IndexSegment.LowerRecord second_append_segment) /\
   in_int64 (IndexRecord.RecordID second_append.2)) /\
  IndexSegment.UpperRecord <$>
    IndexSegment.NewIndexSegment 5 (mkConfig 0 0)
      (Some (IndexSegment.file (IndexSegment.Close
         (force blank_segment
            (IndexSegment.WriteRecord second_append_segment second_append.2)))))
    = Ok 1.
Proof.
  assert (H1 : IndexSegment.WriteRecord second_append_segment second_append.2
     = Ok (force blank_segment
             (IndexSegment.WriteRecord second_append_segment second_append.2))).
  { refine (force_Ok blank_segment _ _). vm_compute. reflexivity. }
  assert (H2 : in_int64 (IndexSegment.SegmentID second_append_segment))
    by (split; vm_compute; discriminate).
  assert (H3 : in_int64 (IndexSegment.Size second_append_segment))
    by (split; vm_compute; discriminate).
  assert (H4 : in_int64 (IndexSegment.LowerRecord second_append_segment))
    by (split; vm_compute; discriminate).
  assert (H5 : in_int64 (IndexRecord.RecordID second_append.2))
    by (split; vm_compute; discriminate).
  split; [exact (conj H1 (conj H2 (conj H3 (conj H4 H5))))|].
  rewrite (IndexSegment_WriteRecord_then_open _ _ _ 5 (mkConfig 0 0) H1 H2 H3 H4 H5).
  vm_compute. reflexivity.
Defined.

(** ** Index segments: what a partial purge leaves in the file *)

Lemma advance_lower_fields (s : IndexSegment.t) ids : forall cur s',
  IndexSegment.advance_lower s ids cur = Ok s' ->
  exists lo, s' = IndexSegment.set_LowerRecord lo s.
Proof.
  induction ids as [|i ids IH]; intros cur s' H; cbn in H.
  - inv_Ok H. exists (IndexSegment.LowerRecord s'). by destruct s'.
  - inv_bind H. destruct (negb a).
    + inv_Ok H. eauto.
    + eapply IH. exact H.
Qed.

(** X8. A [PurgeFrom] that leaves the segment unpurged does not flush the
    header.  It flags slots in the mapping and moves [LowerRecord] and
    [RecordsCount] in memory only: the identifier, the size, the upper
    record, the cursor and the header bytes stay as they were, and the file,
    closed and opened again, gives a segment with the flagged slots and
    with the [LowerRecord] and [RecordsCount] the header held before the
    purge. *)
Theorem PurgeFrom_partial_is_not_flushed
  (s s' : IndexSegment.t) (id : Z) (name : Z) (config : Config)
  (Hpurge : IndexSegment.PurgeFrom s id = Ok s')
  (Hlive : IndexSegment.Purged s' = false)
  (Hheader : len (IndexSegment.Metadata s) = 49) :
  IndexSegment.Metadata s' = IndexSegment.Metadata s /\
  IndexSegment.SegmentID s' = IndexSegment.SegmentID s /\
  IndexSegment.Size s' = IndexSegment.Size s /\
  IndexSegment.UpperRecord s' = IndexSegment.UpperRecord s /\
  IndexSegment.Cursor s' = IndexSegment.Cursor s /\
  IndexSegment.NewIndexSegment name config
      (Some (IndexSegment.file (IndexSegment.Close s')))
    = Ok (IndexSegment.LoadMetadata (IndexSegment.Metadata s)
                                    (IndexSegment.Records s')).
Proof.
  assert (Hfields : IndexSegment.Metadata s' = IndexSegment.Metadata s /\
            IndexSegment.SegmentID s' = IndexSegment.SegmentID s /\
            IndexSegment.Size s' = IndexSegment.Size s /\
            IndexSegment.UpperRecord s' = IndexSegment.UpperRecord s /\
            IndexSegment.Cursor s' = IndexSegment.Cursor s).
  { unfold IndexSegment.PurgeFrom in Hpurge.
    destruct (negb (IndexSegment.FitsRecord s) && (id =? IndexSegment.UpperRecord s)).
    { inv_Ok Hpurge. discriminate. }
    inv_bind Hpurge. inv_bind Hpurge. inv_bind Hpurge. inv_bind Hpurge.
    cbn [IndexSegment.Purged IndexSegment.set_RecordsCount
         IndexSegment.set_Records] in Hpurge.
    destruct ((a2 =? 0) && negb (IndexSegment.Purged s)).
    { cbn in Hpurge. inv_Ok Hpurge. discriminate. }
    cbn [IndexSegment.Purged IndexSegment.set_RecordsCount
         IndexSegment.set_Records] in Hpurge.
    destruct (IndexSegment.Purged s) eqn:Hp; cbn [IndexSegment.Purged] in Hpurge.
    { inv_Ok Hpurge. cbn in Hlive. congruence. }
    inv_bind Hpurge.
    apply advance_lower_fields in Hpurge as [lo ->]. repeat split. }
  destruct Hfields as (Hmd & Hsid & Hsz & Hup & Hcur).
  split_conj; try assumption.
  unfold IndexSegment.NewIndexSegment, IndexSegment.file, IndexSegment.Close,
    IndexSegment.IndexSegmentMetadataSize.
  change (6 * 8 + 1) with 49. rewrite Hmd.
  rewrite slice_app_header by exact Hheader. cbn [mbind result_bind].
  rewrite slice_from_app_header by exact Hheader. reflexivity.
Qed.

(** The current index segment of the log with two records, and what
    [PurgeFrom 0] makes of it. *)
Definition two_records_segment : IndexSegment.t :=
  force blank_segment (Index.current two_records.1).
Definition two_records_purged : IndexSegment.t :=
  force blank_segment (IndexSegment.PurgeFrom two_records_segment 0).

Lemma PurgeFrom_partial_is_not_flushed_witness :
  (IndexSegment.PurgeFrom two_records_segment 0 = Ok two_records_purged /\
   IndexSegment.Purged two_records_purged = false /\
   len (IndexSegment.Metadata two_records_segment) = 49) /\
  (IndexSegment.LowerRecord two_records_purged,
   IndexSegment.RecordsCount two_records_purged) = (1, 1) /\
  (fun r => (IndexSegment.LowerRecord r, IndexSegment.RecordsCount r)) <$>
    IndexSegment.NewIndexSegment 0 small_config
      (Some (IndexSegment.file (IndexSegment.Close two_records_purged)))
    = Ok (0, 2).
Proof.
  assert (H1 : IndexSegment.PurgeFrom two_records_segment 0 = Ok two_records_purged).
  { refine (force_Ok blank_segment _ _). vm_compute. reflexivity. }
  assert (H2 : IndexSegment.Purged two_records_purged = false)
    by (vm_compute; reflexivity).
  assert (H3 : len (IndexSegment.Metadata two_records_segment) = 49)
    by (vm_compute; reflexivity).
  split; [exact (conj H1 (conj H2 H3))|].
  split; [vm_compute; reflexivity|].
  destruct (PurgeFrom_partial_is_not_flushed _ _ 0 0 small_config H1 H2 H3)
    as (_ & _ & _ & _ & _ & Hopen).
  rewrite Hopen. vm_compute. reflexivity.
Defined.

(** ** [NearestMultiple] and the default sizes *)

(** X9. For a positive [k], [NearestMultiple(j, k)] is the largest multiple
    of [k] that is not above [j], for negative [j] as well: it is
    [k * floor(j / k)], it divides by [k], and [j] lies less than [k]
    above it. *)
Theorem NearestMultiple_floors_to_multiple (j k : Z)
  (Hk : 0 < k) (Hj : in_int64 j) (Hlow : min_int64 <= j - k + 1) :
  WAL.NearestMultiple j k = k * (j / k) /\
  (k | WAL.NearestMultiple j k) /\
  WAL.NearestMultiple j k <= j < WAL.NearestMultiple j k + k.
Proof.
  assert (H : WAL.NearestMultiple j k = k * (j / k)).
  { unfold WAL.NearestMultiple. destruct (Z.geb_spec j 0) as [Hpos|Hneg].
    - rewrite Z.quot_div_nonneg by lia. lia.
    - replace (j - k + 1) with (- (k - 1 - j)) by lia.
      rewrite Z.quot_opp_l by lia.
      rewrite Z.quot_div_nonneg by lia.
      assert (Hq : (k - 1 - j) / k = - (j / k)).
      { symmetry. apply (Z.div_unique _ _ _ (k - 1 - j mod k)).
        - pose proof (Z.mod_pos_bound j k Hk). lia.
        - pose proof (Z.div_mod j k ltac:(lia)). lia. }
      rewrite Hq. lia. }
  rewrite H. split; [reflexivity|]. split.
  - exists (j / k). lia.
  - pose proof (Z.mod_pos_bound j k Hk). pose proof (Z.div_mod j k ltac:(lia)). lia.
Qed.

Lemma NearestMultiple_floors_to_multiple_witness :
  (0 < 41 /\ in_int64 (-100) /\ min_int64 <= -100 - 41 + 1) /\
  WAL.NearestMultiple (-100) 41 = -123.
Proof.
  assert (H1 : 0 < 41) by lia.
  assert (H2 : in_int64 (-100)) by (split; vm_compute; discriminate).
  assert (H3 : min_int64 <= -100 - 41 + 1) by (vm_compute; discriminate).
  split; [exact (conj H1 (conj H2 H3))|].
  rewrite (proj1 (NearestMultiple_floors_to_multiple (-100) 41 H1 H2 H3)).
  reflexivity.
Defined.

Lemma with_defaults_eq (I D : Z) :
  WAL.with_defaults (mkConfig I D)
    = mkConfig (if I =? 0 then 41 * 1636801 else I)
               (if D =? 0 then 128 * 1024 * 1024 else D).
Proof.
  unfold WAL.with_defaults. cbn [GetIndexSegmentSize GetDataSegmentSize].
  destruct (I =? 0); cbn [GetIndexSegmentSize GetDataSegmentSize];
    destruct (D =? 0); reflexivity.
Qed.

(** X10. The sizes [New] works with: a size given in the configuration is
    kept; an index segment size left at zero becomes 41 * 1636801 =
    67108841, the largest multiple of the 41 bytes of a record within
    64 MiB, so that a default index segment holds 1636801 records and no
    spare bytes; a data segment size left at zero becomes 128 MiB.
    Filling in the defaults twice changes nothing. *)
Theorem New_default_sizes (config : Config) :
  GetIndexSegmentSize (WAL.with_defaults config)
    = (if GetIndexSegmentSize config =? 0 then 41 * 1636801
       else GetIndexSegmentSize config) /\
  GetDataSegmentSize (WAL.with_defaults config)
    = (if GetDataSegmentSize config =? 0 then 128 * 1024 * 1024
       else GetDataSegmentSize config) /\
  41 * 1636801 <= 64 * 1024 * 1024 < 41 * 1636801 + 41 /\
  WAL.with_defaults (WAL.with_defaults config) = WAL.with_defaults config /\
  forall dir, WAL.New (WAL.with_defaults config) dir = WAL.New config dir.
Proof.
  destruct config as [I D]. cbn [GetIndexSegmentSize GetDataSegmentSize].
  assert (Hidem : WAL.with_defaults (WAL.with_defaults (mkConfig I D))
                  = WAL.with_defaults (mkConfig I D)).
  { rewrite !with_defaults_eq.
    destruct (Z.eqb_spec I 0) as [HI|HI], (Z.eqb_spec D 0) as [HD|HD].
    - reflexivity.
    - destruct (Z.eqb_spec D 0); [contradiction|reflexivity].
    - destruct (Z.eqb_spec I 0); [contradiction|reflexivity].
    - destruct (Z.eqb_spec I 0); [contradiction|].
      destruct (Z.eqb_spec D 0); [contradiction|reflexivity]. }
  split; [by rewrite with_defaults_eq|]. split; [by rewrite with_defaults_eq|].
  split; [lia|]. split; [exact Hidem|].
  intros dir. unfold WAL.New. rewrite Hidem. reflexivity.
Qed.

(** ** The data manager: what [Write] stores, [Read] returns *)

(** [data] lies in the data segments from byte [off] of the segment [k] on:
    it fills every segment it reaches up to the end, but for the last one,
    and it ends at or before byte [cf] of the segment [kf]. *)
Inductive stored (D : Z) (segs : gmap Z DataSegment.t) (kf cf : Z)
    : Z -> Z -> list Z -> Prop :=
  | stored_nil k off : stored D segs kf cf k off []
  | stored_last k off seg data :
      data <> [] -> segs !! k = Some seg ->
      DataSegment.Size seg = D -> len (DataSegment.Records seg) = D ->
      0 <= off -> off + len data <= D ->
      k < kf \/ (k = kf /\ off + len data <= cf) ->
      take (length data) (drop (Z.to_nat off) (DataSegment.Records seg)) = data ->
      stored D segs kf cf k off data
  | stored_span k off seg data :
      segs !! k = Some seg ->
      DataSegment.Size seg = D -> len (DataSegment.Records seg) = D ->
      0 <= off < D -> D < off + len data -> k < kf ->
      drop (Z.to_nat off) (DataSegment.Records seg)
        = take (Z.to_nat (D - off)) data ->
      stored D segs kf cf (k + 1) 0 (drop (Z.to_nat (D - off)) data) ->
      stored D segs kf cf k off data.

(** The segments [segs'] hold what [segs] held below byte [cf] of the
    segment [kf]. *)
Definition agree_below (kf cf : Z) (segs segs' : gmap Z DataSegment.t) : Prop :=
  (forall j, j < kf -> segs' !! j = segs !! j) /\
  exists s s', segs !! kf = Some s /\ segs' !! kf = Some s' /\
    DataSegment.Size s' = DataSegment.Size s /\
    len (DataSegment.Records s') = len (DataSegment.Records s) /\
    take (Z.to_nat cf) (DataSegment.Records s')
      = take (Z.to_nat cf) (DataSegment.Records s).

Definition frontier_le (k c k' c' : Z) : Prop := k < k' \/ (k = k' /\ c <= c').

Lemma frontier_le_refl k c : frontier_le k c k c.
Proof. right. lia. Qed.

Lemma frontier_le_trans k1 c1 k2 c2 k3 c3 :
  frontier_le k1 c1 k2 c2 -> frontier_le k2 c2 k3 c3 -> frontier_le k1 c1 k3 c3.
Proof. unfold frontier_le. lia. Qed.

Lemma agree_below_refl kf cf segs s :
  segs !! kf = Some s -> agree_below kf cf segs segs.
Proof. intros H. split; [reflexivity|]. exists s, s. auto. Qed.

Lemma take_eq_le {A} (l l' : list A) (n m : nat) :
  (n <= m)%nat -> take m l' = take m l -> take n l' = take n l.
Proof.
  intros Hle H.
  replace n with (n `min` m)%nat by lia.
  rewrite <- !take_take. by rewrite H.
Qed.

Lemma agree_below_trans k1 c1 k2 c2 segs1 segs2 segs3 :
  0 <= c1 ->
  agree_below k1 c1 segs1 segs2 -> agree_below k2 c2 segs2 segs3 ->
  frontier_le k1 c1 k2 c2 -> agree_below k1 c1 segs1 segs3.
Proof.
  intros Hc1 [Hlow1 (s1 & s2 & Hs1 & Hs2 & Hsz1 & Hlen1 & Htake1)]
         [Hlow2 (t2 & t3 & Ht2 & Ht3 & Hsz2 & Hlen2 & Htake2)] [Hlt|[-> Hle]].
  - split.
    + intros j Hj. rewrite Hlow2 by lia. apply Hlow1. exact Hj.
    + exists s1, s2. rewrite Hlow2 by lia. auto.
  - split.
    + intros j Hj. rewrite Hlow2 by lia. apply Hlow1. exact Hj.
    + rewrite Hs2 in Ht2. injection Ht2 as <-.
      exists s1, t3. split; [exact Hs1|]. split; [exact Ht3|].
      split; [congruence|]. split; [congruence|].
      rewrite <- Htake1. apply (take_eq_le _ _ _ (Z.to_nat c2)); [lia|exact Htake2].
Qed.

Lemma stored_head_le D segs kf cf k off data :
  stored D segs kf cf k off data -> data <> [] -> k <= kf.
Proof. intros H Hne. destruct H; [congruence|lia|lia]. Qed.

Lemma take_drop_agree {A} (l l' : list A) (o n c : nat) :
  (o + n <= c)%nat -> take c l' = take c l ->
  take n (drop o l') = take n (drop o l).
Proof.
  intros Hle H. rewrite !take_drop_commute.
  f_equal. apply (take_eq_le _ _ _ c); [lia|exact H].
Qed.

(** What lies below the frontier stays stored when the segments change at
    or beyond the frontier only. *)
Lemma stored_frame D segs segs' kf cf kf' cf' k off data :
  stored D segs kf cf k off data ->
  agree_below kf cf segs segs' -> frontier_le kf cf kf' cf' ->
  stored D segs' kf' cf' k off data.
Proof.
  intros Hst [Hlow (s & s' & Hs & Hs' & Hsz & Hlen & Htake)] Hle.
  induction Hst as [k off|k off seg data Hne Hk HsD HlD Hoff Hfit Hpos Hdata
                   |k off seg data Hk HsD HlD Hoff Hover Hlt Hdata Hrest IH].
  - constructor.
  - destruct Hpos as [Hlt|[-> Hcf]].
    + eapply stored_last; eauto.
      * rewrite Hlow by lia. exact Hk.
      * unfold frontier_le in Hle. lia.
    + rewrite Hs in Hk. injection Hk as ->.
      eapply stored_last; eauto; try congruence.
      * unfold frontier_le in Hle. lia.
      * transitivity (take (length data)
                        (drop (Z.to_nat off) (DataSegment.Records seg)));
          [|exact Hdata].
        apply (take_drop_agree _ _ _ _ (Z.to_nat cf)); [|exact Htake].
        unfold len in *. lia.
  - eapply stored_span; eauto.
    + rewrite Hlow by lia. exact Hk.
    + unfold frontier_le in Hle. lia.
Qed.

(** [Read_loop] over stored bytes: it yields them, and the fuel lasts. *)
Lemma Read_loop_stored D m kf cf k off data :
  stored D (DataManager.Segments m) kf cf k off data ->
  0 < D <= 2 ^ 62 -> kf < max_int64 -> min_int64 <= k -> len data <= 2 ^ 62 ->
  forall fuel acc (X : gset Z),
  (forall j, k <= j -> is_Some (DataManager.Segments m !! j) -> j ∈ X) ->
  (size X < fuel)%nat ->
  DataManager.Read_loop fuel m (len data) k off acc = Ok (acc ++ data).
Proof.
  intros Hst HD Hkf.
  induction Hst as [k off|k off seg data Hne Hk HsD HlD Hoff Hfit Hpos Hdata
                   |k off seg data Hk HsD HlD Hoff Hover Hlt Hdata Hrest IH];
    intros Hkmin Hlen fuel acc X HX Hfuel.
  - destruct fuel; cbn; by rewrite app_nil_r.
  - destruct fuel as [|fuel]; [lia|]. cbn [DataManager.Read_loop].
    assert (Hpos' : 0 < len data).
    { destruct data; [congruence|]. unfold len. cbn [length]. lia. }
    destruct (Z.gtb_spec (len data) 0) as [_|]; [|lia].
    rewrite Hk. unfold DataSegment.Reader. rewrite HsD.
    assert (Hadd : add64 off (len data) = off + len data).
    { unfold add64. apply wrap64_id. unfold in_int64, min_int64, max_int64. lia. }
    rewrite Hadd.
    destruct (Z.gtb_spec (off + len data) D) as [|_]; [lia|].
    destruct (Z.gtb_spec (len data) D) as [|_]; [lia|].
    rewrite Hadd, slice_ok by lia. cbn [mbind result_bind].
    replace (Z.to_nat (off + len data - off)) with (length data)
      by (unfold len; lia).
    rewrite Hdata.
    assert (Hsub : sub64 (len data) (len data) = 0).
    { unfold sub64. rewrite Z.sub_diag. reflexivity. }
    rewrite Hsub. destruct fuel; reflexivity.
  - destruct fuel as [|fuel]; [lia|]. cbn [DataManager.Read_loop].
    pose proof (len_nonneg data) as Hnn.
    destruct (Z.gtb_spec (len data) 0) as [_|]; [|lia].
    rewrite Hk. unfold DataSegment.Reader. rewrite HsD.
    assert (Hadd : add64 off (len data) = off + len data).
    { unfold add64. apply wrap64_id. unfold in_int64, min_int64, max_int64. lia. }
    assert (Hsub : sub64 D off = D - off).
    { unfold sub64. apply wrap64_id. unfold in_int64, min_int64, max_int64. lia. }
    assert (Hadd' : add64 off (D - off) = D).
    { unfold add64. rewrite wrap64_id
        by (unfold in_int64, min_int64, max_int64; lia). lia. }
    assert (Hsub' : sub64 (len data) (D - off) = len data - (D - off)).
    { unfold sub64. apply wrap64_id. unfold in_int64, min_int64, max_int64. lia. }
    assert (Hnext : add64 k 1 = k + 1).
    { unfold add64. apply wrap64_id. unfold in_int64. lia. }
    rewrite Hadd.
    destruct (Z.gtb_spec (off + len data) D) as [_|]; [|lia].
    rewrite Hsub.
    destruct (Z.gtb_spec (D - off) D) as [|_]; [lia|].
    rewrite Hadd', slice_ok by lia. cbn [mbind result_bind].
    rewrite Hsub', Hnext.
    assert (Hchunk : take (Z.to_nat (D - off))
                       (drop (Z.to_nat off) (DataSegment.Records seg))
                     = take (Z.to_nat (D - off)) data).
    { rewrite Hdata, take_take. f_equal. lia. }
    rewrite Hchunk.
    assert (Hin : k ∈ X) by (apply HX; [lia|rewrite Hk; eauto]).
    assert (Hsz : size X = S (size (X ∖ {[k]}))).
    { rewrite (union_difference_L {[k]} X) at 1
        by (apply singleton_subseteq_l; exact Hin).
      rewrite size_union by set_solver. rewrite size_singleton. lia. }
    assert (Hlen_rest : len (drop (Z.to_nat (D - off)) data) = len data - (D - off)).
    { apply len_drop. lia. }
    rewrite <- Hlen_rest.
    rewrite (IH ltac:(lia) ltac:(lia) fuel
                (acc ++ take (Z.to_nat (D - off)) data) (X ∖ {[k]})).
    + rewrite <- app_assoc, take_drop. reflexivity.
    + intros j Hj Hsome. apply elem_of_difference. split; [apply HX; [lia|exact Hsome]|].
      rewrite elem_of_singleton. lia.
    + lia.
Qed.

(** Where [Write] puts the next byte: at the cursor of the current segment,
    or at the start of the next segment when the current one is full. *)
Definition next_pos (D k c : Z) : Z * Z := if c <? D then (k, c) else (k + 1, 0).

Lemma dm_Rotate_eq D k m :
  0 < D <= 2 ^ 62 -> min_int64 <= k < max_int64 -> dm_at D k m ->
  DataManager.Rotate m
    = Ok (DataManager.mk (DataManager.Config_of m) (DataManager.MinSegment m)
            (k + 1) (<[k + 1 := fresh_data_segment (k + 1) D]> (DataManager.Segments m))
            (add32 (DataManager.LoadedSegments m) 1) (Some (Linked (k + 1)))).
Proof.
  intros HD Hk Hat.
  destruct (dm_at_current _ _ _ Hat) as (cur & Hc & Hlk & Hid & Hcur & Hsz & Hlen).
  destruct Hat as (HcD & Hptr & _ & Hfresh).
  unfold DataManager.Rotate. rewrite Hptr, Hc. cbn [mbind result_bind].
  rewrite Hid. unfold add64.
  rewrite wrap64_id by (unfold in_int64, min_int64, max_int64 in *; lia).
  unfold DataManager.file_of. rewrite (Hfresh (k + 1)) by lia.
  cbn [fmap option_fmap option_map].
  rewrite NewDataSegment_fresh by lia. cbn [mbind result_bind].
  rewrite HcD. reflexivity.
Qed.

Lemma dm_ensure_available_pos D k m cur :
  0 < D <= 2 ^ 62 -> min_int64 <= k < max_int64 -> dm_at D k m ->
  DataManager.current m = Ok cur ->
  exists m' cur',
    DataManager.ensure_available m = Ok m' /\
    dm_at D (next_pos D k (DataSegment.Cursor cur)).1 m' /\
    DataManager.current m' = Ok cur' /\
    DataManager.Segments m' !! (next_pos D k (DataSegment.Cursor cur)).1 = Some cur' /\
    DataSegment.SegmentID cur' = (next_pos D k (DataSegment.Cursor cur)).1 /\
    DataSegment.Cursor cur' = (next_pos D k (DataSegment.Cursor cur)).2 /\
    0 <= DataSegment.Cursor cur' < D /\
    DataSegment.Size cur' = D /\ len (DataSegment.Records cur') = D /\
    agree_below k (DataSegment.Cursor cur)
      (DataManager.Segments m) (DataManager.Segments m').
Proof.
  intros HD Hk Hat Hc.
  destruct (dm_at_current _ _ _ Hat) as (cur0 & Hc0 & Hlk & Hid & Hcur & Hsz & Hlen).
  rewrite Hc in Hc0. injection Hc0 as <-.
  unfold DataManager.ensure_available. rewrite Hc. cbn [mbind result_bind].
  unfold DataSegment.Available, DataSegment.AvailableSize, sub64. rewrite Hsz.
  rewrite wrap64_id by (unfold in_int64, min_int64, max_int64; lia).
  unfold next_pos.
  destruct (Z.gtb_spec (D - DataSegment.Cursor cur) 0) as [Hav|Hfull];
    cbn [negb].
  - destruct (Z.ltb_spec (DataSegment.Cursor cur) D); [|lia]. cbn [fst snd].
    exists m, cur. split; [reflexivity|]. split; [exact Hat|].
    split; [exact Hc|]. split; [exact Hlk|]. split; [exact Hid|].
    split; [reflexivity|]. split; [lia|]. split; [exact Hsz|].
    split; [exact Hlen|]. by eapply agree_below_refl.
  - destruct (Z.ltb_spec (DataSegment.Cursor cur) D); [lia|]. cbn [fst snd].
    rewrite (dm_Rotate_eq D k m HD Hk Hat).
    destruct (dm_Rotate_ok D k m HD Hk Hat) as (m' & Hrot & Hat' & _).
    rewrite (dm_Rotate_eq D k m HD Hk Hat) in Hrot. injection Hrot as <-.
    eexists _, (fresh_data_segment (k + 1) D).
    split; [reflexivity|]. split; [exact Hat'|].
    split.
    { unfold DataManager.current, deref. cbn. by rewrite lookup_insert_eq. }
    split; [cbn; by rewrite lookup_insert_eq|].
    cbn [DataManager.Segments fresh_data_segment DataSegment.FlushMetadata
         DataSegment.set_Metadata DataSegment.SegmentID DataSegment.Cursor
         DataSegment.Size DataSegment.Records].
    rewrite len_zeros by lia.
    split; [reflexivity|]. split; [reflexivity|]. split; [lia|].
    split; [reflexivity|]. split; [reflexivity|]. split.
    + intros j Hj. rewrite lookup_insert_ne by lia. reflexivity.
    + exists cur, cur. rewrite lookup_insert_ne by lia. auto.
Qed.

(** One round of the loop of [Write]: a chunk goes into the current
    segment. *)
Lemma dm_write_chunk D k m cur rest :
  0 < D <= 2 ^ 62 -> dm_at D k m -> DataManager.current m = Ok cur ->
  0 <= DataSegment.Cursor cur < D -> 0 < len rest ->
  exists cur' n,
    DataSegment.Write cur rest = Ok (cur', DataSegment.Cursor cur, n) /\
    n = Z.min (len rest) (D - DataSegment.Cursor cur) /\
    dm_at D k (DataManager.set_current cur' m) /\
    DataManager.current (DataManager.set_current cur' m) = Ok cur' /\
    DataManager.Segments (DataManager.set_current cur' m) !! k = Some cur' /\
    DataSegment.Cursor cur' = DataSegment.Cursor cur + n /\
    DataSegment.Size cur' = D /\ len (DataSegment.Records cur') = D /\
    agree_below k (DataSegment.Cursor cur) (DataManager.Segments m)
      (DataManager.Segments (DataManager.set_current cur' m)) /\
    take (Z.to_nat n) (drop (Z.to_nat (DataSegment.Cursor cur))
                            (DataSegment.Records cur'))
      = take (Z.to_nat n) rest.
Proof.
  intros HD Hat Hc Hcur Hrest.
  destruct (dm_at_current _ _ _ Hat) as (cur0 & Hc0 & Hlk & Hid & _ & Hsz & Hlen).
  rewrite Hc in Hc0. injection Hc0 as <-.
  destruct (DataSegment_Write_spec cur rest)
    as (cur' & Hw & Hid' & Hsz' & Hc' & Hlen' & Hlow & Hmid & _);
    [lia | unfold max_int64; lia |].
  rewrite Hlen in *.
  set (n := Z.min (len rest) (D - DataSegment.Cursor cur)) in *.
  destruct (dm_set_current_ok D k m cur' Hat ltac:(congruence) ltac:(lia)
              ltac:(congruence) ltac:(congruence)) as [Hat2 Hc2].
  exists cur', n. split; [exact Hw|]. split; [reflexivity|].
  split; [exact Hat2|]. split; [exact Hc2|].
  assert (Hsegs : DataManager.Segments (DataManager.set_current cur' m)
                  = <[k := cur']> (DataManager.Segments m)).
  { destruct Hat as (_ & Hptr & _). unfold DataManager.set_current, store_through.
    rewrite Hptr. reflexivity. }
  rewrite Hsegs.
  split; [by rewrite lookup_insert_eq|]. split; [exact Hc'|].
  split; [congruence|]. split; [congruence|]. split.
  - split.
    + intros j Hj. rewrite lookup_insert_ne by lia. reflexivity.
    + exists cur, cur'. rewrite lookup_insert_eq. repeat split; auto; congruence.
  - rewrite Hc' in Hmid.
    replace (DataSegment.Cursor cur + n - DataSegment.Cursor cur) with n in Hmid by lia.
    exact Hmid.
Qed.

(** The loop of [Write] stores the rest of [data] from the next position
    on, and changes nothing below the cursor it started from. *)
Lemma dm_Write_loop_stored D data fuel : forall m rec written k cur,
  0 < D <= 2 ^ 62 -> len data <= 2 ^ 62 -> dm_at D k m ->
  DataManager.current m = Ok cur ->
  0 <= written <= len data -> len data - written <= Z.of_nat fuel ->
  min_int64 <= k -> k + (len data - written) < max_int64 ->
  exists m' rec' kf cur',
    DataManager.Write_loop fuel m data rec written = Ok (m', rec') /\
    dm_at D kf m' /\ DataManager.current m' = Ok cur' /\
    k <= kf <= k + (len data - written) /\
    agree_below k (DataSegment.Cursor cur)
      (DataManager.Segments m) (DataManager.Segments m') /\
    frontier_le k (DataSegment.Cursor cur) kf (DataSegment.Cursor cur') /\
    stored D (DataManager.Segments m') kf (DataSegment.Cursor cur')
      (next_pos D k (DataSegment.Cursor cur)).1
      (next_pos D k (DataSegment.Cursor cur)).2
      (drop (Z.to_nat written) data) /\
    rec' = if (written =? 0) && (0 <? len data)
           then DataManager.set_Offset (next_pos D k (DataSegment.Cursor cur)).2 rec
           else rec.
Proof.
  assert (Hdone : forall fuel m rec written k cur,
    dm_at D k m -> DataManager.current m = Ok cur ->
    0 <= written <= len data -> len data <= written ->
    exists m' rec' kf cur',
      DataManager.Write_loop fuel m data rec written = Ok (m', rec') /\
      dm_at D kf m' /\ DataManager.current m' = Ok cur' /\
      k <= kf <= k + (len data - written) /\
      agree_below k (DataSegment.Cursor cur)
        (DataManager.Segments m) (DataManager.Segments m') /\
      frontier_le k (DataSegment.Cursor cur) kf (DataSegment.Cursor cur') /\
      stored D (DataManager.Segments m') kf (DataSegment.Cursor cur')
        (next_pos D k (DataSegment.Cursor cur)).1
        (next_pos D k (DataSegment.Cursor cur)).2
        (drop (Z.to_nat written) data) /\
      rec' = if (written =? 0) && (0 <? len data)
             then DataManager.set_Offset (next_pos D k (DataSegment.Cursor cur)).2 rec
             else rec).
  { intros fuel0 m rec written k cur Hat Hc Hw Hge.
    destruct (dm_at_current _ _ _ Hat) as (cur0 & Hc0 & Hlk & _).
    rewrite Hc in Hc0. injection Hc0 as <-.
    exists m, rec, k, cur.
    split.
    { destruct fuel0; cbn [DataManager.Write_loop];
        destruct (Z.ltb_spec written (len data)); try lia; reflexivity. }
    split; [exact Hat|]. split; [exact Hc|]. split; [lia|].
    split; [by eapply agree_below_refl|]. split; [apply frontier_le_refl|].
    split.
    - rewrite drop_ge by (unfold len in *; lia). constructor.
    - destruct (Z.eqb_spec written 0) as [->|]; [|reflexivity].
      destruct (Z.ltb_spec 0 (len data)); [lia|reflexivity]. }
  induction fuel as [|fuel IH]; intros m rec written k cur HD Hdata Hat Hc Hw Hfuel Hk Hkmax.
  { apply Hdone; auto. lia. }
  destruct (Z.ltb_spec written (len data)) as [Hlt|Hge]; [|apply Hdone; auto].
  cbn [DataManager.Write_loop].
  destruct (Z.ltb_spec written (len data)) as [_|]; [|lia].
  destruct (dm_ensure_available_pos D k m cur HD ltac:(lia) Hat Hc)
    as (m1 & cur1 & Hens & Hat1 & Hc1 & Hlk1 & Hid1 & Hcur1 & Hrange1 & Hsz1 & Hlen1 & Hagree1).
  set (k1 := (next_pos D k (DataSegment.Cursor cur)).1) in *.
  set (c1 := (next_pos D k (DataSegment.Cursor cur)).2) in *.
  assert (Hk1 : k <= k1 <= k + 1 /\ frontier_le k (DataSegment.Cursor cur) k1 c1).
  { subst k1 c1. unfold next_pos, frontier_le.
    destruct (Z.ltb_spec (DataSegment.Cursor cur) D); cbn [fst snd]; lia. }
  destruct Hk1 as [Hk1 Hfront1].
  assert (Hcur0 : 0 <= DataSegment.Cursor cur).
  { destruct (dm_at_current _ _ _ Hat) as (cur0 & Hc0 & _ & _ & Hcr & _).
    rewrite Hc in Hc0. injection Hc0 as <-. lia. }
  rewrite Hens. cbn [mbind result_bind]. rewrite Hc1. cbn [mbind result_bind].
  set (rest := drop (Z.to_nat written) data).
  assert (Hrest : slice_from data written = Ok rest)
    by (apply slice_from_ok; lia).
  assert (Hrlen : len rest = len data - written) by (apply len_drop; lia).
  destruct (dm_write_chunk D k1 m1 cur1 rest HD Hat1 Hc1 ltac:(lia) ltac:(lia))
    as (cur2 & n & Hwr & Hn & Hat2 & Hc2 & Hlk2 & Hcur2 & Hsz2 & Hlen2 & Hagree2 & Hchunk).
  rewrite Hcur1 in *.
  assert (Hn' : 1 <= n <= len rest /\ c1 + n <= D) by lia.
  (* both branches of the round continue with the same state *)
  assert (Hstep : forall rec1,
    exists m' rec' kf cur',
      DataManager.Write_loop fuel (DataManager.set_current cur2 m1) data rec1
        (written + n) = Ok (m', rec') /\
      dm_at D kf m' /\ DataManager.current m' = Ok cur' /\
      k <= kf <= k + (len data - written) /\
      agree_below k (DataSegment.Cursor cur)
        (DataManager.Segments m) (DataManager.Segments m') /\
      frontier_le k (DataSegment.Cursor cur) kf (DataSegment.Cursor cur') /\
      stored D (DataManager.Segments m') kf (DataSegment.Cursor cur') k1 c1 rest /\
      rec' = rec1).
  { intros rec1.
    destruct (IH (DataManager.set_current cur2 m1) rec1 (written + n) k1 cur2)
      as (m' & rec' & kf & cur' & Hloop & Hat' & Hc' & Hkf & Hagree' & Hfront' & Hst' & Hrec');
      auto; try lia.
    rewrite Hcur2 in *.
    exists m', rec', kf, cur'.
    split; [exact Hloop|]. split; [exact Hat'|]. split; [exact Hc'|].
    split; [lia|].
    assert (Hfront2 : frontier_le k1 c1 k1 (c1 + n)) by (right; lia).
    split.
    { eapply (agree_below_trans k (DataSegment.Cursor cur) k1 c1); eauto.
      eapply (agree_below_trans k1 c1 k1 (c1 + n)); eauto. lia. }
    split.
    { eapply frontier_le_trans; [exact Hfront1|].
      eapply frontier_le_trans; [exact Hfront2|exact Hfront']. }
    split.
    - destruct Hagree' as [_ (s2 & s' & Hs2 & Hs' & Hsz' & Hlen' & Htake')].
      rewrite Hlk2 in Hs2. injection Hs2 as <-.
      assert (Hne : rest <> []).
      { intros E. rewrite E in Hrlen. unfold len in Hrlen at 1. cbn in Hrlen. lia. }
      destruct (Z.le_gt_cases (c1 + len rest) D) as [Hfits|Hspans].
      + (* the rest fits into the current segment *)
        assert (En : n = len rest) by lia.
        eapply stored_last; eauto; try congruence; try lia.
        * unfold frontier_le in Hfront'. lia.
        * transitivity (take (length rest)
                          (drop (Z.to_nat c1) (DataSegment.Records cur2))).
          { apply (take_drop_agree _ _ _ _ (Z.to_nat (c1 + n))); [|exact Htake'].
            unfold len in *. lia. }
          replace (length rest) with (Z.to_nat n) by (unfold len in *; lia).
          rewrite Hchunk. apply take_ge. unfold len in *. lia.
      + (* the current segment is filled, and the rest goes on *)
        assert (En : n = D - c1) by lia.
        assert (Hfull : c1 + n = D) by lia.
        assert (HR : DataSegment.Records s' = DataSegment.Records cur2).
        { rewrite <- (take_ge (DataSegment.Records s') (Z.to_nat (c1 + n)))
            by (unfold len in *; lia).
          rewrite <- (take_ge (DataSegment.Records cur2) (Z.to_nat (c1 + n)))
            by (unfold len in *; lia).
          exact Htake'. }
        assert (Hnext : next_pos D k1 (c1 + n) = (k1 + 1, 0)).
        { unfold next_pos. destruct (Z.ltb_spec (c1 + n) D); [lia|reflexivity]. }
        rewrite Hnext in Hst'. cbn [fst snd] in Hst'.
        assert (Hdrop : drop (Z.to_nat (written + n)) data
                        = drop (Z.to_nat (D - c1)) rest).
        { subst rest. rewrite drop_drop. f_equal. lia. }
        rewrite Hdrop in Hst'.
        assert (Hne' : drop (Z.to_nat (D - c1)) rest <> []).
        { intros E. assert (Hl : len (drop (Z.to_nat (D - c1)) rest) = len rest - (D - c1))
            by (apply len_drop; lia).
          rewrite E in Hl. unfold len in Hl at 1. cbn in Hl. lia. }
        pose proof (stored_head_le _ _ _ _ _ _ _ Hst' Hne') as Hkf'.
        eapply stored_span; eauto; try congruence; try lia.
        rewrite HR. rewrite <- En, <- Hchunk.
        symmetry. apply take_ge. rewrite length_drop. unfold len in *. lia.
    - rewrite Hrec'.
      destruct (Z.eqb_spec (written + n) 0); [lia|reflexivity]. }
  destruct (Z.eqb_spec written 0) as [->|Hnz].
  - assert (Hrest0 : rest = data) by (subst rest; reflexivity).
    rewrite Hrest0 in Hwr. rewrite Hwr. cbn [mbind result_bind].
    destruct (Hstep (DataManager.set_Offset c1 rec))
      as (m' & rec' & kf & cur' & Hloop & Hat' & Hc' & Hkf & Hagree' & Hfront' & Hst' & Hrec').
    rewrite Z.add_0_l in Hloop.
    exists m', rec', kf, cur'.
    split; [exact Hloop|]. split; [exact Hat'|]. split; [exact Hc'|].
    split; [lia|]. split; [exact Hagree'|]. split; [exact Hfront'|].
    split; [exact Hst'|].
    rewrite Hrec'. destruct (Z.ltb_spec 0 (len data)); [reflexivity|lia].
  - rewrite Hrest. cbn [mbind result_bind]. rewrite Hwr. cbn [mbind result_bind].
    assert (Hadd : add64 written n = written + n).
    { unfold add64. apply wrap64_id. unfold in_int64, min_int64, max_int64. lia. }
    rewrite Hadd.
    destruct (Hstep rec)
      as (m' & rec' & kf & cur' & Hloop & Hat' & Hc' & Hkf & Hagree' & Hfront' & Hst' & Hrec').
    exists m', rec', kf, cur'.
    split; [exact Hloop|]. split; [exact Hat'|]. split; [exact Hc'|].
    split; [lia|]. split; [exact Hagree'|]. split; [exact Hfront'|].
    split; [exact Hst'|]. exact Hrec'.
Qed.

(** [Write] stores [data] where the record it fills in says, and changes
    nothing below the cursor it started from. *)
Lemma dm_Write_stored D k m cur data rec :
  0 < D <= 2 ^ 62 -> len data <= 2 ^ 62 -> dm_at D k m ->
  DataManager.current m = Ok cur ->
  min_int64 <= k -> k + len data + 1 < max_int64 ->
  exists m' rec' kf cur',
    DataManager.Write m data rec = Ok (m', rec') /\
    dm_at D kf m' /\ DataManager.current m' = Ok cur' /\
    k <= kf <= k + len data + 1 /\
    agree_below k (DataSegment.Cursor cur)
      (DataManager.Segments m) (DataManager.Segments m') /\
    frontier_le k (DataSegment.Cursor cur) kf (DataSegment.Cursor cur') /\
    stored D (DataManager.Segments m') kf (DataSegment.Cursor cur')
      (IndexRecord.DataSegmentStartID rec') (IndexRecord.DataSegmentOffset rec') data /\
    IndexRecord.RecordID rec' = IndexRecord.RecordID rec /\
    IndexRecord.Size rec' = IndexRecord.Size rec /\
    IndexRecord.Purged rec' = IndexRecord.Purged rec /\
    k <= IndexRecord.DataSegmentStartID rec' <= kf /\
    IndexRecord.DataSegmentEndID rec' = kf /\
    (0 < len data -> 0 <= IndexRecord.DataSegmentOffset rec' < D) /\
    (len data = 0 ->
     IndexRecord.DataSegmentOffset rec' = IndexRecord.DataSegmentOffset rec).
Proof.
  intros HD Hdata Hat Hc Hk Hkmax. unfold DataManager.Write.
  pose proof (len_nonneg data) as Hnn.
  destruct (dm_ensure_available_pos D k m cur HD ltac:(lia) Hat Hc)
    as (m1 & cur1 & Hens & Hat1 & Hc1 & Hlk1 & Hid1 & Hcur1 & Hrange1 & Hsz1 & Hlen1 & Hagree1).
  set (k1 := (next_pos D k (DataSegment.Cursor cur)).1) in *.
  set (c1 := (next_pos D k (DataSegment.Cursor cur)).2) in *.
  assert (Hk1 : k <= k1 <= k + 1 /\ frontier_le k (DataSegment.Cursor cur) k1 c1).
  { subst k1 c1. unfold next_pos, frontier_le.
    destruct (Z.ltb_spec (DataSegment.Cursor cur) D); cbn [fst snd]; lia. }
  destruct Hk1 as [Hk1 Hfront1].
  assert (Hcur0 : 0 <= DataSegment.Cursor cur).
  { destruct (dm_at_current _ _ _ Hat) as (cur0 & Hc0 & _ & _ & Hcr & _).
    rewrite Hc in Hc0. injection Hc0 as <-. lia. }
  rewrite Hens. cbn [mbind result_bind]. rewrite Hc1. cbn [mbind result_bind].
  rewrite Hid1.
  destruct (dm_Write_loop_stored D data (S (length data)) m1
              (DataManager.set_StartID k1 rec) 0 k1 cur1)
    as (m2 & rec2 & kf & cur2 & Hloop & Hat2 & Hc2 & Hkf & Hagree2 & Hfront2 & Hst & Hrec2);
    auto; try (unfold len in *; lia).
  rewrite Hloop. cbn [mbind result_bind]. rewrite Hc2. cbn [mbind result_bind].
  destruct (dm_at_current _ _ _ Hat2) as (c2 & Hc2' & _ & Hid2 & Hcr2 & _).
  rewrite Hc2 in Hc2'. injection Hc2' as <-.
  rewrite Hid2.
  rewrite Hcur1 in *.
  assert (Hpos1 : next_pos D k1 c1 = (k1, c1)).
  { unfold next_pos. destruct (Z.ltb_spec c1 D); [reflexivity|lia]. }
  rewrite Hpos1 in *. cbn [fst snd] in *.
  change (drop (Z.to_nat 0) data) with data in Hst.
  exists m2, (DataManager.set_EndID kf rec2), kf, cur2.
  split; [reflexivity|]. split; [exact Hat2|]. split; [exact Hc2|].
  split; [lia|].
  split; [eapply (agree_below_trans k (DataSegment.Cursor cur) k1 c1); eauto|].
  split; [eapply frontier_le_trans; eauto|].
  subst rec2.
  destruct (Z.ltb_spec 0 (len data)) as [Hpos|Hzero]; cbn [Z.eqb andb].
  - assert (Hle : k1 <= kf).
    { destruct data as [|b data']; [unfold len in Hpos; cbn in Hpos; lia|].
      exact (stored_head_le _ _ _ _ _ _ _ Hst ltac:(discriminate)). }
    cbn. split_conj; auto; try lia; intros; lia.
  - assert (E : data = []).
    { destruct data; [reflexivity|]. unfold len in Hzero. cbn [length] in Hzero. lia. }
    subst data. unfold len in Hkf. cbn in Hkf.
    cbn. split_conj; auto; try lia; try constructor; intros; try lia; reflexivity.
Qed.

(** X11. What the data manager wrote, it reads: on a manager whose current
    segment is the newest file, mapped at the configured size, [Write]
    succeeds for any payload, across as many segments as the payload needs,
    and [Read] of the record it filled in yields the payload, byte for
    byte.  [Write] fills in the span and the offset only: the identifier,
    the size and the flag of the record stay as the caller set them. *)
Theorem DataManager_Write_then_Read
  (D k : Z) (m : DataManager.t) (data : list Z) (rec : IndexRecord.t)
  (HD : 0 < D <= 2 ^ 62) (Hdata : len data <= 2 ^ 62)
  (Hat : dm_at D k m)
  (Hk : min_int64 <= k) (Hroom : k + len data + 1 < max_int64)
  (Hsize : IndexRecord.Size rec = len data) :
  exists m' rec',
    DataManager.Write m data rec = Ok (m', rec') /\
    DataManager.Read m' rec' = Ok data /\
    IndexRecord.RecordID rec' = IndexRecord.RecordID rec /\
    IndexRecord.Size rec' = len data /\
    IndexRecord.Purged rec' = IndexRecord.Purged rec /\
    k <= IndexRecord.DataSegmentStartID rec' <= IndexRecord.DataSegmentEndID rec' /\
    IndexRecord.DataSegmentEndID rec' <= k + len data + 1.
Proof.
  destruct (dm_at_current _ _ _ Hat) as (cur & Hc & _).
  destruct (dm_Write_stored D k m cur data rec HD Hdata Hat Hc Hk Hroom)
    as (m' & rec' & kf & cur' & Hw & Hat' & Hc' & Hkf & _ & _ & Hst & Hid & Hsz & Hp
        & Hstart & Hend & _).
  exists m', rec'. split; [exact Hw|]. split.
  - unfold DataManager.Read. rewrite Hsz, Hsize.
    apply (Read_loop_stored D m' kf (DataSegment.Cursor cur') _ _ data Hst HD
             ltac:(lia) ltac:(lia) Hdata _ [] (dom (DataManager.Segments m'))).
    + intros j _ Hsome. by apply elem_of_dom.
    + rewrite size_dom. lia.
  - rewrite Hend. split_conj; auto; try lia; congruence.
Qed.

Lemma new_log_at : log_at small_config 0 0 new_log.
Proof.
  assert (Hcfg : config_ok small_config).
  { unfold config_ok, small_config. cbn. lia. }
  destruct (New_fresh small_config Hcfg) as (w & Hnew & Hat & _).
  rewrite new_log_eq in Hnew. injection Hnew as <-. exact Hat.
Qed.

Lemma DataManager_Write_then_Read_witness :
  (0 < 128 <= 2 ^ 62 /\ len (fill 300 7) <= 2 ^ 62 /\
   dm_at 128 0 (Index.dm new_log) /\
   min_int64 <= 0 /\ 0 + len (fill 300 7) + 1 < max_int64 /\
   IndexRecord.Size (Index.set_Size 300 IndexRecord.zero) = len (fill 300 7)) /\
  ('(m', rec') ← DataManager.Write (Index.dm new_log) (fill 300 7)
                   (Index.set_Size 300 IndexRecord.zero);
   DataManager.Read m' rec') = Ok (fill 300 7).
Proof.
  assert (H1 : 0 < 128 <= 2 ^ 62) by lia.
  assert (H2 : len (fill 300 7) <= 2 ^ 62) by (vm_compute; discriminate).
  assert (H3 : dm_at 128 0 (Index.dm new_log)).
  { destruct new_log_at as (_ & _ & H). exact H. }
  assert (H4 : min_int64 <= 0) by (vm_compute; discriminate).
  assert (H5 : 0 + len (fill 300 7) + 1 < max_int64) by (vm_compute; reflexivity).
  assert (H6 : IndexRecord.Size (Index.set_Size 300 IndexRecord.zero)
               = len (fill 300 7)) by (vm_compute; reflexivity).
  split; [exact (conj H1 (conj H2 (conj H3 (conj H4 (conj H5 H6)))))|].
  destruct (DataManager_Write_then_Read 128 0 (Index.dm new_log) (fill 300 7)
              (Index.set_Size 300 IndexRecord.zero) H1 H2 H3 H4 H5 H6)
    as (m' & rec' & Hw & Hr & _).
  rewrite Hw. exact Hr.
Defined.

(** ** A log that has only been appended to *)

(** [rec] is the record of [id]: exactly one index segment contains [id],
    and the slot it holds for [id] decodes to [rec]. *)
Definition located (i : Index.t) (id : Z) (rec : IndexRecord.t) : Prop :=
  exists k seg, Index.Segments i !! k = Some seg /\
    IndexSegment.ContainsRecord seg id = true /\
    (forall k' seg', Index.Segments i !! k' = Some seg' ->
       IndexSegment.ContainsRecord seg' id = true -> k' = k) /\
    IndexSegment.LoadRecord seg id IndexRecord.zero = Ok (true, rec).

Lemma located_SegmentForID i id rec :
  located i id rec ->
  exists k seg, Index.SegmentForID i id = Some (k, seg) /\
    IndexSegment.LoadRecord seg id IndexRecord.zero = Ok (true, rec).
Proof.
  intros (k & seg & Hk & Hc & Huniq & Hload).
  destruct (Index.SegmentForID i id) as [[k' seg']|] eqn:Hfind.
  - apply SegmentForID_Some in Hfind as [Hk' Hc'].
    pose proof (Huniq _ _ Hk' Hc') as ->.
    rewrite Hk in Hk'. injection Hk' as <-. eauto.
  - rewrite SegmentForID_None in Hfind. rewrite (Hfind _ _ Hk) in Hc. discriminate.
Qed.

Lemma located_LookupMeta i id rec :
  located i id rec -> Index.LookupMeta i id IndexRecord.zero = Ok rec.
Proof.
  intros H. apply located_SegmentForID in H as (k & seg & Hfind & Hload).
  unfold Index.LookupMeta. rewrite Hfind, Hload. reflexivity.
Qed.

(** The current index segment of a log that was never vacuumed, whose
    records are numbered from [b] to [n - 1]: it is empty, or its slots are
    the last [RecordsCount] records. *)
Definition cur_ok (b n : Z) (cur : IndexSegment.t) : Prop :=
  IndexSegment.Purged cur = false /\
  ((IndexSegment.RecordsCount cur = 0 /\ IndexSegment.Cursor cur = 0 /\
    IndexSegment.UpperRecord cur = 0) \/
   (0 < IndexSegment.RecordsCount cur /\
    IndexSegment.Cursor cur = 41 * IndexSegment.RecordsCount cur /\
    IndexSegment.UpperRecord cur = n - 1 /\
    IndexSegment.LowerRecord cur = n - IndexSegment.RecordsCount cur /\
    b <= IndexSegment.LowerRecord cur)).

(** The log holds the payloads [datas] under the identifiers [b],
    [b + 1], ...: every payload has its record in the index, and lies in
    the data segments where the record says. *)
Definition log_inv (config : Config) (b : Z) (datas : list (list Z)) (ki kd : Z)
    (i : Index.t) (cur : IndexSegment.t) (dcur : DataSegment.t) : Prop :=
  log_at config ki kd i /\
  (0 <= Index.MinSegment i <= ki /\ Index.MaxSegment i = ki) /\
  Index.MaxRecord i = b + len datas - 1 /\
  Index.current i = Ok cur /\ cur_ok b (b + len datas) cur /\
  DataManager.current (Index.dm i) = Ok dcur /\
  (forall k seg id, Index.Segments i !! k = Some seg ->
     IndexSegment.ContainsRecord seg id = true -> b <= id < b + len datas) /\
  (forall (j : nat) data, datas !! j = Some data ->
     exists rec, located i (b + Z.of_nat j) rec /\
       IndexRecord.RecordID rec = b + Z.of_nat j /\
       IndexRecord.Size rec = len data /\ IndexRecord.Purged rec = false /\
       0 <= IndexRecord.DataSegmentStartID rec /\
       stored (GetDataSegmentSize config) (DataManager.Segments (Index.dm i))
         kd (DataSegment.Cursor dcur)
         (IndexRecord.DataSegmentStartID rec)
         (IndexRecord.DataSegmentOffset rec) data).

(** The identifier the first slot of [seg] holds, or will hold when [seg]
    has no slot yet. *)
Definition first_record (n : Z) (seg : IndexSegment.t) : Z :=
  if IndexSegment.RecordsCount seg =? 0 then n
  else IndexSegment.LowerRecord seg.

(** The index segments are numbered 0 to [ki], each under its own
    identifier, and every segment below the last holds the records up to
    the first record of the next one. *)
Definition chain (n ki : Z) (segs : gmap Z IndexSegment.t) : Prop :=
  (forall k seg, segs !! k = Some seg ->
     0 <= k <= ki /\ IndexSegment.SegmentID seg = k) /\
  (forall k, 0 <= k < ki -> exists seg nxt,
     segs !! k = Some seg /\ segs !! (k + 1) = Some nxt /\
     0 < IndexSegment.RecordsCount seg /\
     IndexSegment.UpperRecord seg - IndexSegment.LowerRecord seg + 1
       = IndexSegment.RecordsCount seg /\
     IndexSegment.UpperRecord seg + 1 = first_record n nxt).

Lemma idx_Rotate_eq I k i :
  41 <= I <= 2 ^ 62 -> min_int64 <= k < max_int64 -> idx_at I k i ->
  Index.Rotate i
    = Ok (Index.mk (Index.Config_of i) (Index.MinSegment i) (k + 1)
            (Index.MaxRecord i)
            (<[k + 1 := fresh_index_segment (k + 1) I]> (Index.Segments i))
            (add32 (Index.LoadedSegments i) 1) (Some (Linked (k + 1)))
            (Index.dm i)).
Proof.
  intros HI Hk Hat.
  destruct (idx_at_current _ _ _ Hat) as (cur & Hc & Hid & Hcur & Hsz & Hlen).
  destruct Hat as (HcI & Hptr & _ & Hfresh).
  unfold Index.Rotate. rewrite Hptr, Hc. cbn [mbind result_bind].
  rewrite Hid. unfold add64.
  rewrite wrap64_id by (unfold in_int64, min_int64, max_int64 in *; lia).
  unfold Index.file_of. rewrite (Hfresh (k + 1)) by lia.
  cbn [fmap option_fmap option_map].
  rewrite NewIndexSegment_fresh by lia. cbn [mbind result_bind].
  rewrite HcI. reflexivity.
Qed.

Lemma ContainsRecord_empty seg id :
  IndexSegment.RecordsCount seg = 0 -> IndexSegment.ContainsRecord seg id = false.
Proof. intros H. unfold IndexSegment.ContainsRecord. by rewrite H. Qed.

Lemma ContainsRecord_true seg id :
  IndexSegment.ContainsRecord seg id = true <->
  IndexSegment.RecordsCount seg <> 0 /\
  IndexSegment.LowerRecord seg <= id <= IndexSegment.UpperRecord seg.
Proof.
  unfold IndexSegment.ContainsRecord.
  destruct (Z.eqb_spec (IndexSegment.RecordsCount seg) 0) as [E|E].
  - split; [discriminate|]. intros [H _]. contradiction.
  - rewrite andb_true_iff. rewrite Z.geb_le, Z.leb_le. split; intros; [split|]; tauto.
Qed.

(** The first step of [Append] on a full current segment: a new, empty
    index segment becomes the current one, and nothing else changes. *)
Lemma log_inv_rotate config b datas ki kd i cur dcur :
  config_ok config -> log_inv config b datas ki kd i cur dcur ->
  min_int64 <= ki < max_int64 ->
  IndexSegment.FitsRecord cur = false ->
  exists i1 cur1,
    Index.ensure_fits i = Ok i1 /\ Index.ensure_fits i1 = Ok i1 /\
    log_inv config b datas (ki + 1) kd i1 cur1 dcur /\
    IndexSegment.Cursor cur1 = 0 /\ IndexSegment.RecordsCount cur1 = 0 /\
    Index.Segments i1 = <[ki + 1 := cur1]> (Index.Segments i) /\
    Index.dm i1 = Index.dm i /\
    cur1 = fresh_index_segment (ki + 1) (GetIndexSegmentSize config).
Proof.
  intros [HI HD] ((Hcfg & Hidx & Hdm) & [Hmin Hmaxseg] & Hmax & Hc & Hcok & Hdc & Hrange & Hrecs)
         Hki Hfull.
  set (I := GetIndexSegmentSize config) in *.
  pose proof (idx_Rotate_eq I ki i HI Hki Hidx) as Hrot.
  destruct (idx_Rotate_ok I ki i HI Hki Hidx) as (i1 & Hrot' & Hidx1 & Hdm1 & _).
  rewrite Hrot in Hrot'. injection Hrot' as Hi1.
  assert (Hfresh : forall k', ki < k' -> Index.Segments i !! k' = None).
  { destruct Hidx as (_ & _ & _ & H). exact H. }
  assert (Hsegs : Index.Segments i1
                  = <[ki + 1 := fresh_index_segment (ki + 1) I]> (Index.Segments i))
    by (rewrite <- Hi1; reflexivity).
  assert (Hc1 : Index.current i1 = Ok (fresh_index_segment (ki + 1) I)).
  { rewrite <- Hi1. unfold Index.current, deref. cbn. by rewrite lookup_insert_eq. }
  exists i1, (fresh_index_segment (ki + 1) I).
  split.
  { unfold Index.ensure_fits. rewrite Hc. cbn [mbind result_bind].
    rewrite Hfull. cbn [negb]. rewrite Hrot, Hi1. reflexivity. }
  split.
  { unfold Index.ensure_fits. rewrite Hc1. cbn [mbind result_bind].
    unfold IndexSegment.FitsRecord. cbn.
    unfold add64, IndexRecord.IndexRecordSize.
    rewrite wrap64_id by (unfold in_int64, min_int64, max_int64; lia).
    destruct (Z.leb_spec (0 + (8 * 5 + 1)) I); [reflexivity|lia]. }
  split; [|split; [reflexivity|split; [reflexivity|split; [exact Hsegs|
            split; [exact Hdm1|reflexivity]]]]].
  split.
  { split; [rewrite <- Hi1; exact Hcfg|]. split; [exact Hidx1|].
    rewrite Hdm1. exact Hdm. }
  split; [rewrite <- Hi1; split; [cbn; lia|reflexivity]|].
  split; [rewrite <- Hi1; exact Hmax|].
  split; [exact Hc1|].
  split; [split; [reflexivity|left; split_conj; reflexivity]|].
  split; [rewrite Hdm1; exact Hdc|].
  split.
  { intros k seg id Hk Hcont. rewrite Hsegs in Hk.
    destruct (decide (k = ki + 1)) as [->|Hne].
    - rewrite lookup_insert_eq in Hk. injection Hk as <-.
      rewrite ContainsRecord_empty in Hcont by reflexivity. discriminate.
    - rewrite lookup_insert_ne in Hk by congruence. eauto. }
  intros j data Hj. destruct (Hrecs j data Hj) as (rec & Hloc & Hrest).
  exists rec. rewrite Hdm1. split; [|exact Hrest].
  destruct Hloc as (k & seg & Hk & Hcont & Huniq & Hload).
  exists k, seg.
  assert (Hne : k <> ki + 1).
  { intros ->. rewrite Hfresh in Hk by lia. discriminate. }
  rewrite Hsegs. split; [by rewrite lookup_insert_ne by congruence|].
  split; [exact Hcont|]. split; [|exact Hload].
  intros k' seg' Hk' Hcont'.
  destruct (decide (k' = ki + 1)) as [->|Hne'].
  - rewrite lookup_insert_eq in Hk'. injection Hk' as <-.
    rewrite ContainsRecord_empty in Hcont' by reflexivity. discriminate.
  - rewrite lookup_insert_ne in Hk' by congruence. eauto.
Qed.

(** [Read] looks at the first 41 bytes only. *)
Lemma Read_take (b : list Z) :
  41 <= len b -> IndexRecord.Read b = IndexRecord.Read (take 41 b).
Proof.
  intros Hlen. unfold len in Hlen.
  do 41 (destruct b as [|? b]; [cbn [length] in Hlen; lia|]).
  unfold IndexRecord.Read.
  assert (H1 : forall (l : list Z), (len l <? IndexRecord.IndexRecordSize) = false ->
            forall P Q : result IndexRecord.t,
            (if len l <? IndexRecord.IndexRecordSize then P else Q) = Q).
  { intros l -> P Q. reflexivity. }
  rewrite !H1.
  - reflexivity.
  - apply Z.ltb_ge. unfold len, IndexRecord.IndexRecordSize. cbn [length take]. lia.
  - apply Z.ltb_ge. unfold len, IndexRecord.IndexRecordSize. cbn [length]. lia.
Qed.

Lemma Read_agree (b b' : list Z) :
  41 <= len b -> 41 <= len b' -> take 41 b' = take 41 b ->
  IndexRecord.Read b' = IndexRecord.Read b.
Proof.
  intros H1 H2 H. rewrite (Read_take b), (Read_take b') by assumption.
  by rewrite H.
Qed.

(** The slot of a record below the cursor is not touched by the store of a
    new slot at the cursor. *)
Lemma LoadRecord_below_cursor (s s' : IndexSegment.t) (id : Z) (enc : list Z) r :
  IndexSegment.Records s'
    = write_at (IndexSegment.Records s) (IndexSegment.Cursor s) enc ->
  len enc = 41 ->
  IndexSegment.LowerRecord s' = IndexSegment.LowerRecord s ->
  IndexSegment.ContainsRecord s id = true ->
  IndexSegment.ContainsRecord s' id = true ->
  0 <= IndexSegment.LowerRecord s ->
  IndexSegment.UpperRecord s - IndexSegment.LowerRecord s + 1
    = IndexSegment.RecordsCount s ->
  IndexSegment.Cursor s = 41 * IndexSegment.RecordsCount s ->
  IndexSegment.Cursor s + 41 <= len (IndexSegment.Records s) ->
  len (IndexSegment.Records s) <= 2 ^ 62 ->
  IndexSegment.LoadRecord s id IndexRecord.zero = Ok r ->
  IndexSegment.LoadRecord s' id IndexRecord.zero = Ok r.
Proof.
  intros HR Henc HL Hc Hc' Hlo Hcount Hcur Hfit Hlen Hload.
  pose proof (proj1 (ContainsRecord_true _ _) Hc) as [Hne Hid].
  unfold IndexSegment.LoadRecord in *. rewrite Hc in Hload. rewrite Hc', HL.
  cbn [negb] in *.
  assert (Hoff : mul64 (sub64 id (IndexSegment.LowerRecord s))
                   IndexRecord.IndexRecordSize
                 = (id - IndexSegment.LowerRecord s) * 41).
  { unfold mul64, sub64, IndexRecord.IndexRecordSize. change (8 * 5 + 1) with 41.
    rewrite (wrap64_id (id - _)) by (unfold in_int64, min_int64, max_int64; lia).
    apply wrap64_id. unfold in_int64, min_int64, max_int64. lia. }
  rewrite Hoff in *.
  set (o := (id - IndexSegment.LowerRecord s) * 41) in *.
  assert (Ho : 0 <= o /\ o + 41 <= IndexSegment.Cursor s) by (subst o; lia).
  assert (Hlen' : len (IndexSegment.Records s') = len (IndexSegment.Records s)).
  { rewrite HR. apply len_write_at; lia. }
  rewrite slice_from_ok in Hload by lia.
  rewrite slice_from_ok by lia.
  cbn [mbind result_bind] in *.
  rewrite (Read_agree (drop (Z.to_nat o) (IndexSegment.Records s))
                      (drop (Z.to_nat o) (IndexSegment.Records s'))).
  - exact Hload.
  - rewrite len_drop by lia. lia.
  - rewrite len_drop by lia. lia.
  - apply (take_drop_agree _ _ _ _ (Z.to_nat (IndexSegment.Cursor s))); [lia|].
    rewrite HR. apply take_write_at. lia.
Qed.

Lemma len_snoc {A} (l : list A) (x : A) : len (l ++ [x]) = len l + 1.
Proof. unfold len. rewrite length_app. cbn [length]. lia. Qed.

Lemma run_cost_snoc datas data :
  run_cost (datas ++ [data]) = run_cost datas + len data + 1.
Proof.
  induction datas as [|d ds IH].
  - unfold run_cost. cbn. lia.
  - change (run_cost ((d :: ds) ++ [data]))
      with (len d + 1 + run_cost (ds ++ [data])).
    change (run_cost (d :: ds)) with (len d + 1 + run_cost ds). lia.
Qed.

Lemma idx_at_lookup I k i cur :
  idx_at I k i -> Index.current i = Ok cur ->
  Index.Segments i !! k = Some cur /\ IndexSegment.SegmentID cur = k /\
  0 <= IndexSegment.Cursor cur <= I /\ IndexSegment.Size cur = I /\
  len (IndexSegment.Records cur) = I.
Proof.
  intros (HI & Hptr & (c & Hk & Hrest) & Hfresh) Hc.
  unfold Index.current, deref in Hc. rewrite Hptr, Hk in Hc. injection Hc as <-.
  auto.
Qed.

(** [Append] on a log whose current index segment has room: the payload
    goes to the data segments, its record to the slot at the cursor, and
    all the records of the log stay where they were. *)
Lemma log_inv_append config b datas ki kd i cur dcur data :
  config_ok config -> log_inv config b datas ki kd i cur dcur ->
  IndexSegment.FitsRecord cur = true ->
  len data <= 2 ^ 62 -> 0 <= b -> b + len datas < 2 ^ 62 ->
  0 <= ki < 2 ^ 62 -> 0 <= kd -> kd + len data + 1 < 2 ^ 62 ->
  exists i' rec' kf cur' dcur',
    Index.Append i data IndexRecord.zero = Ok (i', rec') /\
    IndexRecord.RecordID rec' = b + len datas /\
    log_inv config b (datas ++ [data]) ki kf i' cur' dcur' /\
    kd <= kf <= kd + len data + 1 /\
    0 < IndexSegment.RecordsCount cur' /\
    IndexSegment.WriteRecord cur rec' = Ok cur' /\
    Index.Segments i' = <[ki := cur']> (Index.Segments i) /\
    Index.LoadedSegments i' = Index.LoadedSegments i /\
    exists rec0, DataManager.Write (Index.dm i) data rec0 = Ok (Index.dm i', rec').
Proof.
  intros [HI HD] ((Hcfg & Hidx & Hdm) & [Hmin Hmaxseg] & Hmax & Hc & Hcok & Hdc & Hrange & Hrecs)
         Hfits Hdata Hb Hn Hki Hkd Hkdmax.
  set (I := GetIndexSegmentSize config) in *.
  set (D := GetDataSegmentSize config) in *.
  pose proof (len_nonneg datas) as Hn0.
  set (n := b + len datas) in *.
  pose proof (len_nonneg data) as Hd0.
  destruct (idx_at_lookup _ _ _ _ Hidx Hc) as (Hlk & Hsid & Hcur & Hsz & Hlen).
  assert (Hfit : IndexSegment.Cursor cur + 41 <= I).
  { unfold IndexSegment.FitsRecord, add64, IndexRecord.IndexRecordSize in Hfits.
    rewrite wrap64_id in Hfits by (unfold in_int64, min_int64, max_int64; lia).
    apply Z.leb_le in Hfits. lia. }
  assert (Hens : Index.ensure_fits i = Ok i).
  { unfold Index.ensure_fits. rewrite Hc. cbn [mbind result_bind].
    rewrite Hfits. reflexivity. }
  assert (HrecID : add64 (Index.MaxRecord i) 1 = n).
  { rewrite Hmax. unfold add64. rewrite wrap64_id
      by (unfold in_int64, min_int64, max_int64; lia). lia. }
  unfold Index.Append, Index.Append_data. rewrite Hens. cbn [mbind result_bind].
  rewrite HrecID.
  set (rec0 := Index.set_Purged false
                 (Index.set_Size (len data) (Index.set_RecordID n IndexRecord.zero))).
  destruct (dm_Write_stored D kd (Index.dm i) dcur data rec0 HD Hdata Hdm Hdc)
    as (m' & rec' & kf & dcur' & Hw & Hdm' & Hdc' & Hkf & Hagree & Hfront & Hst
        & Hid' & Hsize' & Hpurged' & Hstart & Hend & Hoff_pos & Hoff_zero);
    [unfold min_int64; lia | unfold max_int64; lia |].
  rewrite Hw. cbn [mbind result_bind].
  assert (Hc2 : Index.current (Index.set_MaxRecord n (Index.set_dm m' i)) = Ok cur)
    by exact Hc.
  rewrite Hc2. cbn [mbind result_bind].
  destruct (WriteRecord_ok cur rec' I HI ltac:(lia) Hfit Hlen)
    as (cur2 & Hwr & Hsid2 & Hsz2 & Hcur2 & Hlen2).
  rewrite Hwr. cbn [mbind result_bind].
  destruct (WriteRecord_fields _ _ _ Hwr)
    as (_ & _ & _ & Hlow2 & Hup2 & Hcount2 & Hpur2 & Hrecords2).
  cbn in Hid', Hsize', Hpurged'.
  (* the fields of the new record *)
  assert (Hrec_in : record_in_int64 rec').
  { unfold record_in_int64, in_int64, min_int64, max_int64.
    rewrite Hid', Hsize', Hend.
    destruct (Z.ltb_spec 0 (len data)) as [Hpos|Hzero].
    - specialize (Hoff_pos Hpos). lia.
    - rewrite Hoff_zero by lia. cbn. lia. }
  (* the current index segment before and after *)
  destruct Hcok as [Hlive Hshape].
  assert (Hcount_nn : 0 <= IndexSegment.RecordsCount cur
                      /\ IndexSegment.Cursor cur = 41 * IndexSegment.RecordsCount cur).
  { destruct Hshape as [(-> & -> & _)|(? & ? & _)]; lia. }
  assert (Hcount2' : IndexSegment.RecordsCount cur2 = IndexSegment.RecordsCount cur + 1).
  { rewrite Hcount2. unfold add64. apply wrap64_id.
    unfold in_int64, min_int64, max_int64. lia. }
  assert (Hlow2' : IndexSegment.LowerRecord cur2 = n - IndexSegment.RecordsCount cur).
  { rewrite Hlow2, Hid'.
    destruct Hshape as [(Hz & Hcz & _)|(Hpos & Hcz & _ & Hlo & _)].
    - rewrite Hcz, Hz. cbn. lia.
    - destruct (Z.eqb_spec (IndexSegment.Cursor cur) 0); [lia|]. exact Hlo. }
  assert (Hlow2_nn : 0 <= IndexSegment.LowerRecord cur2).
  { rewrite Hlow2'.
    destruct Hshape as [(Hz & Hcz & _)|(Hpos & Hcz & _ & Hlo & Hlonn)]; lia. }
  set (i' := Index.set_current cur2 (Index.set_MaxRecord n (Index.set_dm m' i))).
  assert (Hptr : Index.CurrentSegment i = Some (Linked ki)).
  { destruct Hidx as (_ & H & _). exact H. }
  assert (Hsegs' : Index.Segments i' = <[ki := cur2]> (Index.Segments i)).
  { subst i'. unfold Index.set_current, store_through. cbn. rewrite Hptr. reflexivity. }
  assert (Hdm_i' : Index.dm i' = m').
  { subst i'. unfold Index.set_current, store_through. cbn. rewrite Hptr. reflexivity. }
  assert (Hmax' : Index.MaxRecord i' = n).
  { subst i'. rewrite set_current_MaxRecord. reflexivity. }
  assert (Hidx2 : idx_at I ki (Index.set_MaxRecord n (Index.set_dm m' i)))
    by exact Hidx.
  destruct (idx_set_current_ok I ki _ cur2 Hidx2 ltac:(congruence) ltac:(lia)
              ltac:(congruence) Hlen2) as [Hidx' _].
  fold i' in Hidx'.
  assert (Hc' : Index.current i' = Ok cur2).
  { unfold Index.current, deref. rewrite Hsegs'.
    subst i'. unfold Index.set_current, store_through. cbn. rewrite Hptr. cbn.
    by rewrite lookup_insert_eq. }
  (* what the new current segment contains *)
  assert (Hcont2 : forall id, IndexSegment.ContainsRecord cur2 id = true <->
                     n - IndexSegment.RecordsCount cur <= id <= n).
  { intros id. rewrite ContainsRecord_true, Hcount2', Hlow2', Hup2, Hid'. lia. }
  assert (Hcont1 : forall id, id < n ->
            IndexSegment.ContainsRecord cur2 id = true ->
            IndexSegment.ContainsRecord cur id = true /\
            IndexSegment.LowerRecord cur2 = IndexSegment.LowerRecord cur /\
            IndexSegment.UpperRecord cur - IndexSegment.LowerRecord cur + 1
              = IndexSegment.RecordsCount cur).
  { intros id Hid Hc2id. apply Hcont2 in Hc2id.
    destruct Hshape as [(Hz & Hcz & _)|(Hpos & Hcz & Hup & Hlo & Hlonn)]; [lia|].
    split; [apply ContainsRecord_true; lia|]. split; [lia|lia]. }
  exists i', rec', kf, cur2, dcur'.
  split; [reflexivity|]. split; [exact Hid'|].
  split; [|split; [exact Hkf|split; [lia|split; [exact Hwr|split; [exact Hsegs'|]]]]].
  2: { split.
       - subst i'. unfold Index.set_current. destruct (store_through _ _ _). reflexivity.
       - exists rec0. rewrite Hdm_i'. exact Hw. }
  unfold log_inv. rewrite !len_snoc.
  replace (b + (len datas + 1)) with (n + 1) by (subst n; lia).
  split.
  { split; [|split; [exact Hidx'|rewrite Hdm_i'; exact Hdm']].
    subst i'. unfold Index.set_current. destruct (store_through _ _ _). exact Hcfg. }
  split.
  { subst i'. unfold Index.set_current. destruct (store_through _ _ _).
    split; [exact Hmin|exact Hmaxseg]. }
  split; [rewrite Hmax'; lia|].
  split; [exact Hc'|].
  split.
  { split; [congruence|]. right. rewrite Hcount2', Hcur2, Hup2, Hid', Hlow2'.
    split_conj; lia. }
  split; [rewrite Hdm_i'; exact Hdc'|].
  split.
  { intros k seg id Hk Hcont. rewrite Hsegs' in Hk.
    destruct (decide (k = ki)) as [->|Hne].
    - rewrite lookup_insert_eq in Hk. injection Hk as <-.
      apply Hcont2 in Hcont. lia.
    - rewrite lookup_insert_ne in Hk by congruence.
      specialize (Hrange _ _ _ Hk Hcont). lia. }
  intros j d Hj. rewrite Hdm_i'.
  destruct (decide (j < length datas)%nat) as [Hold|Hnew].
  - (* a record that was there before *)
    rewrite lookup_app_l in Hj by exact Hold.
    destruct (Hrecs j d Hj) as (rec & Hloc & HrID & HrSize & HrP & HrS0 & HrSt).
    exists rec.
    split; [|split; [exact HrID|split; [exact HrSize|split; [exact HrP|split; [exact HrS0|]]]]].
    2: { eapply stored_frame; eauto. }
    destruct Hloc as (k & seg & Hk & Hcont & Huniq & Hload).
    assert (Hjn : b + Z.of_nat j < n) by (subst n; unfold len; lia).
    destruct (decide (k = ki)) as [->|Hne].
    + rewrite Hlk in Hk. injection Hk as <-.
      assert (Hc2j : IndexSegment.ContainsRecord cur2 (b + Z.of_nat j) = true).
      { apply Hcont2. apply ContainsRecord_true in Hcont.
        destruct Hshape as [(Hz & Hcz & _)|(Hpos & Hcz & Hup & Hlo & Hlonn)]; lia. }
      destruct (Hcont1 _ Hjn Hc2j) as (_ & HL & Hcnt).
      exists ki, cur2. rewrite Hsegs'.
      split; [by rewrite lookup_insert_eq|]. split; [exact Hc2j|]. split.
      * intros k' seg' Hk' Hcont'.
        destruct (decide (k' = ki)) as [->|Hne']; [reflexivity|].
        rewrite lookup_insert_ne in Hk' by congruence. eauto.
      * eapply (LoadRecord_below_cursor cur cur2); eauto; lia.
    + exists k, seg. rewrite Hsegs'.
      split; [by rewrite lookup_insert_ne by congruence|].
      split; [exact Hcont|]. split; [|exact Hload].
      intros k' seg' Hk' Hcont'.
      destruct (decide (k' = ki)) as [->|Hne'].
      * rewrite lookup_insert_eq in Hk'. injection Hk' as <-.
        destruct (Hcont1 _ Hjn Hcont') as (Hc1 & _).
        eapply Huniq; eauto.
      * rewrite lookup_insert_ne in Hk' by congruence. eauto.
  - (* the new record *)
    assert (Ej : j = length datas).
    { apply lookup_lt_Some in Hj. rewrite length_app in Hj. cbn in Hj. lia. }
    subst j. rewrite list_lookup_middle in Hj by reflexivity. injection Hj as <-.
    assert (Ejn : b + Z.of_nat (length datas) = n) by reflexivity.
    rewrite Ejn.
    exists rec'.
    split; [|split; [exact Hid'|split; [exact Hsize'|split; [exact Hpurged'|split; [lia|exact Hst]]]]].
    exists ki, cur2. rewrite Hsegs'.
    split; [by rewrite lookup_insert_eq|].
    assert (Hc2n : IndexSegment.ContainsRecord cur2 n = true) by (apply Hcont2; lia).
    split; [exact Hc2n|]. split.
    + intros k' seg' Hk' Hcont'.
      destruct (decide (k' = ki)) as [->|Hne']; [reflexivity|].
      rewrite lookup_insert_ne in Hk' by congruence.
      specialize (Hrange _ _ _ Hk' Hcont'). lia.
    + apply (LoadRecord_written cur2 cur n rec'); auto; try lia.
      * destruct (IndexSegment.ContainsRecord cur n) eqn:E; [|reflexivity].
        specialize (Hrange _ _ _ Hlk E). lia.
      * right. rewrite Hlow2'.
        unfold mul64, sub64, IndexRecord.IndexRecordSize. change (8 * 5 + 1) with 41.
        rewrite (wrap64_id (n - _)) by (unfold in_int64, min_int64, max_int64; lia).
        rewrite wrap64_id by (unfold in_int64, min_int64, max_int64; lia). lia.
Qed.

(** ** Every data segment is in its place *)

(** The data segments are numbered 0 to [kd], each under its own
    identifier and mapped at the size [D]. *)
Definition dm_wf (D kd : Z) (segs : gmap Z DataSegment.t) : Prop :=
  (forall k s, segs !! k = Some s ->
     0 <= k <= kd /\ DataSegment.SegmentID s = k /\ DataSegment.Size s = D /\
     len (DataSegment.Records s) = D /\ 0 <= DataSegment.Cursor s <= D) /\
  (forall k, 0 <= k <= kd -> is_Some (segs !! k)).

Lemma dm_at_unique D k k' m : dm_at D k m -> dm_at D k' m -> k = k'.
Proof. intros (_ & H & _) (_ & H' & _). congruence. Qed.

Lemma dm_wf_rotate D kd segs :
  0 <= D -> 0 <= kd + 1 -> dm_wf D kd segs ->
  dm_wf D (kd + 1) (<[kd + 1 := fresh_data_segment (kd + 1) D]> segs).
Proof.
  intros HD Hkd [Hall Hsome]. split.
  - intros k s Hk. destruct (decide (k = kd + 1)) as [->|Hne].
    + rewrite lookup_insert_eq in Hk. injection Hk as <-.
      cbn. rewrite len_zeros by lia. lia.
    + rewrite lookup_insert_ne in Hk by congruence.
      destruct (Hall _ _ Hk) as (? & ? & ? & ? & ?). split_conj; auto; lia.
  - intros k Hk. destruct (decide (k = kd + 1)) as [->|Hne].
    + rewrite lookup_insert_eq. eauto.
    + rewrite lookup_insert_ne by congruence. apply Hsome. lia.
Qed.

Lemma dm_wf_store D kd segs k s :
  dm_wf D kd segs -> 0 <= k <= kd -> DataSegment.SegmentID s = k ->
  DataSegment.Size s = D -> len (DataSegment.Records s) = D ->
  0 <= DataSegment.Cursor s <= D ->
  dm_wf D kd (<[k := s]> segs).
Proof.
  intros [Hall Hsome] Hk Hid Hsz Hlen Hcur. split.
  - intros k' s' Hk'. destruct (decide (k' = k)) as [->|Hne].
    + rewrite lookup_insert_eq in Hk'. injection Hk' as <-. auto.
    + rewrite lookup_insert_ne in Hk' by congruence. eauto.
  - intros k' Hk'. destruct (decide (k' = k)) as [->|Hne].
    + rewrite lookup_insert_eq. eauto.
    + rewrite lookup_insert_ne by congruence. auto.
Qed.

Lemma dm_ensure_available_wf D k m m' :
  0 < D <= 2 ^ 62 -> 0 <= k < max_int64 -> dm_at D k m ->
  dm_wf D k (DataManager.Segments m) ->
  DataManager.ensure_available m = Ok m' ->
  forall k', dm_at D k' m' -> dm_wf D k' (DataManager.Segments m').
Proof.
  intros HD Hk Hat Hwf Hens k' Hat'.
  destruct (dm_at_current _ _ _ Hat) as (cur & Hc & _).
  unfold DataManager.ensure_available in Hens. rewrite Hc in Hens.
  cbn [mbind result_bind] in Hens.
  destruct (negb (DataSegment.Available cur)).
  - rewrite (dm_Rotate_eq D k m HD ltac:(unfold min_int64; lia) Hat) in Hens.
    injection Hens as <-.
    destruct Hat' as (_ & Hptr & _). cbn in Hptr. injection Hptr as <-.
    cbn [DataManager.Segments]. apply dm_wf_rotate; [lia|lia|exact Hwf].
  - injection Hens as <-. by rewrite <- (dm_at_unique _ _ _ _ Hat Hat').
Qed.

Lemma dm_set_current_wf D k m cur' :
  dm_at D k m -> dm_wf D k (DataManager.Segments m) -> 0 <= k ->
  DataSegment.SegmentID cur' = k -> DataSegment.Size cur' = D ->
  len (DataSegment.Records cur') = D -> 0 <= DataSegment.Cursor cur' <= D ->
  dm_wf D k (DataManager.Segments (DataManager.set_current cur' m)).
Proof.
  intros (_ & Hptr & _) Hwf Hk Hid Hsz Hlen Hcur.
  unfold DataManager.set_current, store_through. rewrite Hptr.
  cbn [DataManager.Segments]. apply dm_wf_store; auto. lia.
Qed.

(** The loop of [Write] keeps every segment in its place. *)
Lemma dm_Write_loop_wf D data fuel : forall m rec written k cur m' rec',
  0 < D <= 2 ^ 62 -> len data <= 2 ^ 62 -> dm_at D k m ->
  DataManager.current m = Ok cur ->
  0 <= written <= len data ->
  0 <= k -> k + (len data - written) < max_int64 ->
  dm_wf D k (DataManager.Segments m) ->
  DataManager.Write_loop fuel m data rec written = Ok (m', rec') ->
  forall k', dm_at D k' m' -> dm_wf D k' (DataManager.Segments m').
Proof.
  induction fuel as [|fuel IH];
    intros m rec written k cur m' rec' HD Hdata Hat Hc Hw Hk Hkmax Hwf Hloop k' Hat';
    cbn [DataManager.Write_loop] in Hloop;
    destruct (Z.ltb_spec written (len data)) as [Hlt|Hge];
    try discriminate;
    try (injection Hloop as <- <-; by rewrite <- (dm_at_unique _ _ _ _ Hat Hat')).
  destruct (dm_ensure_available_pos D k m cur HD ltac:(unfold min_int64; lia) Hat Hc)
    as (m1 & cur1 & Hens & Hat1 & Hc1 & Hlk1 & Hid1 & Hcur1 & Hrange1 & Hsz1 & Hlen1 & _).
  set (k1 := (next_pos D k (DataSegment.Cursor cur)).1) in *.
  assert (Hk1 : k <= k1 <= k + 1).
  { subst k1. unfold next_pos.
    destruct (Z.ltb_spec (DataSegment.Cursor cur) D); cbn [fst snd]; lia. }
  pose proof (dm_ensure_available_wf D k m m1 HD ltac:(lia) Hat Hwf Hens k1 Hat1) as Hwf1.
  rewrite Hens in Hloop. cbn [mbind result_bind] in Hloop.
  rewrite Hc1 in Hloop. cbn [mbind result_bind] in Hloop.
  set (rest := drop (Z.to_nat written) data).
  assert (Hrest : slice_from data written = Ok rest)
    by (apply slice_from_ok; lia).
  assert (Hrlen : len rest = len data - written) by (apply len_drop; lia).
  destruct (dm_write_chunk D k1 m1 cur1 rest HD Hat1 Hc1 Hrange1 ltac:(lia))
    as (cur2 & n & Hwr & Hn & Hat2 & Hc2 & Hlk2 & Hcur2 & Hsz2 & Hlen2 & _).
  assert (Hid2 : DataSegment.SegmentID cur2 = k1).
  { destruct (dm_at_current _ _ _ Hat2) as (c & Hc' & _ & Hid & _).
    rewrite Hc2 in Hc'. injection Hc' as <-. exact Hid. }
  assert (Hn' : 1 <= n <= len rest /\ DataSegment.Cursor cur1 + n <= D) by lia.
  pose proof (dm_set_current_wf D k1 m1 cur2 Hat1 Hwf1 ltac:(lia) Hid2 Hsz2 Hlen2
                ltac:(lia)) as Hwf2.
  destruct (Z.eqb_spec written 0) as [->|Hnz].
  - assert (Hrest0 : rest = data) by (subst rest; reflexivity).
    rewrite Hrest0 in Hwr. rewrite Hwr in Hloop. cbn [mbind result_bind] in Hloop.
    eapply (IH _ _ n k1 cur2); eauto; lia.
  - rewrite Hrest in Hloop. cbn [mbind result_bind] in Hloop.
    rewrite Hwr in Hloop. cbn [mbind result_bind] in Hloop.
    assert (Hadd : add64 written n = written + n).
    { unfold add64. apply wrap64_id. unfold in_int64, min_int64, max_int64. lia. }
    rewrite Hadd in Hloop.
    eapply (IH _ _ (written + n) k1 cur2); eauto; lia.
Qed.

(** [Write] keeps every data segment in its place. *)
Lemma dm_Write_wf D k m data rec m' rec' :
  0 < D <= 2 ^ 62 -> len data <= 2 ^ 62 -> dm_at D k m ->
  0 <= k -> k + len data + 1 < max_int64 ->
  dm_wf D k (DataManager.Segments m) ->
  DataManager.Write m data rec = Ok (m', rec') ->
  forall k', dm_at D k' m' -> dm_wf D k' (DataManager.Segments m').
Proof.
  intros HD Hdata Hat Hk Hkmax Hwf Hwrite k' Hat'.
  pose proof (len_nonneg data) as Hnn.
  destruct (dm_at_current _ _ _ Hat) as (cur & Hc & _).
  destruct (dm_ensure_available_pos D k m cur HD ltac:(unfold min_int64; lia) Hat Hc)
    as (m1 & cur1 & Hens & Hat1 & Hc1 & _).
  set (k1 := (next_pos D k (DataSegment.Cursor cur)).1) in *.
  assert (Hk1 : k <= k1 <= k + 1).
  { subst k1. unfold next_pos.
    destruct (Z.ltb_spec (DataSegment.Cursor cur) D); cbn [fst snd]; lia. }
  pose proof (dm_ensure_available_wf D k m m1 HD ltac:(lia) Hat Hwf Hens k1 Hat1) as Hwf1.
  unfold DataManager.Write in Hwrite.
  rewrite Hens in Hwrite. cbn [mbind result_bind] in Hwrite.
  rewrite Hc1 in Hwrite. cbn [mbind result_bind] in Hwrite.
  destruct (DataManager.Write_loop _ _ _ _ _) as [[m2 rec2]| | |] eqn:Hloop;
    try discriminate.
  cbn [mbind result_bind] in Hwrite.
  destruct (DataManager.current m2) as [cur2| | |]; try discriminate.
  cbn [mbind result_bind] in Hwrite. injection Hwrite as <- <-.
  eapply (dm_Write_loop_wf D data _ m1 _ 0 k1 cur1); eauto; lia.
Qed.

(** ** Every index segment is in its file *)

(** The header of every index segment holds the fields of the segment: the
    file is the segment. *)
Definition idx_flushed (segs : gmap Z IndexSegment.t) : Prop :=
  forall k s, segs !! k = Some s ->
    exists t, s = IndexSegment.FlushMetadata t /\ segment_in_int64 t.

Lemma flushed_in_int64 s :
  (exists t, s = IndexSegment.FlushMetadata t /\ segment_in_int64 t) ->
  segment_in_int64 s.
Proof. intros (t & -> & H). exact H. Qed.

Lemma flushed_reopens s id config :
  (exists t, s = IndexSegment.FlushMetadata t /\ segment_in_int64 t) ->
  IndexSegment.NewIndexSegment id config
    (Some (IndexSegment.file (IndexSegment.Close s))) = Ok s.
Proof. intros (t & -> & H). by apply NewIndexSegment_flushed. Qed.

Lemma WriteRecord_flushed s rec s' :
  IndexSegment.WriteRecord s rec = Ok s' -> segment_in_int64 s ->
  in_int64 (IndexRecord.RecordID rec) ->
  exists t, s' = IndexSegment.FlushMetadata t /\ segment_in_int64 t.
Proof.
  intros Hwrite (Hid & Hsize & Hlower & _) Hrec.
  unfold IndexSegment.WriteRecord in Hwrite. inv_bind Hwrite. inv_Ok Hwrite.
  eexists. split; [reflexivity|].
  unfold IndexSegment.store_slot in Ha. inv_bind Ha. inv_Ok Ha.
  unfold segment_in_int64, IndexSegment.store_lower.
  destruct (IndexSegment.Cursor s =? 0); cbn;
    repeat split; try apply wrap64_range; try apply Hid; try apply Hsize;
    try apply Hlower; try apply Hrec.
Qed.

Lemma fresh_index_segment_flushed k I :
  in_int64 k -> in_int64 I ->
  exists t, fresh_index_segment k I = IndexSegment.FlushMetadata t /\
    segment_in_int64 t.
Proof.
  intros Hk HI. eexists. split; [reflexivity|].
  unfold segment_in_int64. cbn. unfold in_int64, min_int64, max_int64 in *.
  split_conj; lia.
Qed.

(** A log between two operations, when all that happened to it were
    successful appends: it holds [datas] under the identifiers from [b]
    on. *)
Definition append_only (config : Config) (b : Z) (datas : list (list Z))
    (i : Index.t) : Prop :=
  exists ki kd cur dcur,
    log_inv config b datas ki kd i cur dcur /\
    0 <= ki <= len datas /\ 0 <= kd <= run_cost datas /\
    chain (b + len datas) ki (Index.Segments i) /\
    (0 < len datas -> 0 < IndexSegment.RecordsCount cur) /\
    dm_wf (GetDataSegmentSize config) kd (DataManager.Segments (Index.dm i)) /\
    idx_flushed (Index.Segments i).

Lemma Append_after_fits i i1 data rec :
  Index.ensure_fits i = Ok i1 -> Index.ensure_fits i1 = Ok i1 ->
  Index.Append i data rec = Index.Append i1 data rec.
Proof.
  intros H H1. unfold Index.Append, Index.Append_data. rewrite H, H1. reflexivity.
Qed.

Lemma run_cost_app a b : run_cost (a ++ b) = run_cost a + run_cost b.
Proof.
  induction a as [|d ds IH]; [unfold run_cost; cbn; lia|].
  change (run_cost ((d :: ds) ++ b)) with (len d + 1 + run_cost (ds ++ b)).
  change (run_cost (d :: ds)) with (len d + 1 + run_cost ds). lia.
Qed.

Lemma run_cost_nonneg a : 0 <= run_cost a.
Proof. pose proof (run_cost_len a). pose proof (len_nonneg a). lia. Qed.

Lemma chain_rotate b n ki segs cur cur1 :
  chain n ki segs -> 0 <= ki -> segs !! ki = Some cur -> cur_ok b n cur ->
  0 < IndexSegment.RecordsCount cur ->
  IndexSegment.SegmentID cur1 = ki + 1 -> IndexSegment.RecordsCount cur1 = 0 ->
  chain n (ki + 1) (<[ki + 1 := cur1]> segs).
Proof.
  intros [Hkeys Hnext] Hki Hcur [_ Hshape] Hpos Hid1 Hcount1. split.
  - intros k seg Hk. destruct (decide (k = ki + 1)) as [->|Hne].
    + rewrite lookup_insert_eq in Hk. injection Hk as <-. lia.
    + rewrite lookup_insert_ne in Hk by congruence.
      destruct (Hkeys _ _ Hk). lia.
  - intros k Hk. destruct (decide (k = ki)) as [->|Hne].
    + exists cur, cur1.
      rewrite lookup_insert_ne by lia. rewrite lookup_insert_eq.
      split; [exact Hcur|]. split; [reflexivity|]. split; [exact Hpos|].
      unfold first_record. rewrite Hcount1. cbn.
      destruct Hshape as [(Hz & _)|(_ & _ & Hup & Hlo & _)]; lia.
    + destruct (Hnext k ltac:(lia)) as (seg & nxt & Hs & Hn & Hrest).
      exists seg, nxt. rewrite !lookup_insert_ne by lia. auto.
Qed.

Lemma chain_append b n ki segs cur cur' rec :
  chain n ki segs -> segs !! ki = Some cur -> cur_ok b n cur ->
  0 <= b -> n < 2 ^ 62 ->
  IndexSegment.WriteRecord cur rec = Ok cur' -> IndexRecord.RecordID rec = n ->
  chain (n + 1) ki (<[ki := cur']> segs).
Proof.
  intros [Hkeys Hnext] Hcur [_ Hshape] Hb Hn Hwr Hid.
  destruct (WriteRecord_fields _ _ _ Hwr)
    as (Hsid & _ & _ & Hlow & _ & Hcount & _ & _).
  assert (Hcount' : IndexSegment.RecordsCount cur' = IndexSegment.RecordsCount cur + 1).
  { rewrite Hcount. unfold add64. apply wrap64_id.
    unfold in_int64, min_int64, max_int64.
    destruct Hshape as [(-> & _)|(? & _ & _ & ? & ?)]; lia. }
  assert (Hfirst : first_record (n + 1) cur' = first_record n cur).
  { unfold first_record. rewrite Hcount', Hlow, Hid.
    destruct Hshape as [(Hz & Hcz & _)|(Hpos & Hcz & _)].
    - rewrite Hz, Hcz. reflexivity.
    - destruct (Z.eqb_spec (IndexSegment.RecordsCount cur + 1) 0); [lia|].
      destruct (Z.eqb_spec (IndexSegment.RecordsCount cur) 0); [lia|].
      destruct (Z.eqb_spec (IndexSegment.Cursor cur) 0); [lia|]. reflexivity. }
  split.
  - intros k seg Hk. destruct (decide (k = ki)) as [->|Hne].
    + rewrite lookup_insert_eq in Hk. injection Hk as <-.
      destruct (Hkeys _ _ Hcur). split; [assumption|congruence].
    + rewrite lookup_insert_ne in Hk by congruence. eauto.
  - intros k Hk. destruct (Hnext k Hk) as (seg & nxt & Hs & Hnx & Hpos & Hspan & Hup).
    destruct (decide (k + 1 = ki)) as [E|Hne].
    + exists seg, cur'. rewrite lookup_insert_ne by lia. rewrite E, lookup_insert_eq.
      rewrite E, Hcur in Hnx. injection Hnx as <-.
      split; [exact Hs|]. split; [reflexivity|]. split; [exact Hpos|].
      split; [exact Hspan|]. rewrite Hfirst. exact Hup.
    + exists seg, nxt. rewrite !lookup_insert_ne by lia.
      split; [exact Hs|]. split; [exact Hnx|]. split; [exact Hpos|].
      split; [exact Hspan|].
      destruct (Hnext (k + 1) ltac:(lia)) as (seg1 & _ & Hs1 & _ & Hpos1 & _).
      rewrite Hnx in Hs1. injection Hs1 as <-.
      unfold first_record in *.
      destruct (Z.eqb_spec (IndexSegment.RecordsCount nxt) 0); [lia|exact Hup].
Qed.

(** One [Append] on a log that has only been appended to. *)
Lemma append_only_step config b datas i data :
  config_ok config -> append_only config b datas i -> len data <= 2 ^ 62 ->
  0 <= b -> b + run_cost (datas ++ [data]) < 2 ^ 62 ->
  exists i' rec',
    Index.Append i data IndexRecord.zero = Ok (i', rec') /\
    IndexRecord.RecordID rec' = b + len datas /\
    append_only config b (datas ++ [data]) i'.
Proof.
  intros Hcfg (ki & kd & cur & dcur & Hinv & Hki & Hkd & Hchain & Hfilled & Hwf & Hfl)
         Hdata Hb Hcost.
  assert (HD : 0 < GetDataSegmentSize config <= 2 ^ 62) by apply Hcfg.
  assert (HI : 41 <= GetIndexSegmentSize config <= 2 ^ 62) by apply Hcfg.
  assert (Hdm : dm_at (GetDataSegmentSize config) kd (Index.dm i)) by apply Hinv.
  pose proof (run_cost_len datas) as Hlen.
  pose proof (len_nonneg datas) as Hn0.
  pose proof (len_nonneg data) as Hd0.
  rewrite run_cost_snoc in Hcost.
  assert (Hcur : Index.Segments i !! ki = Some cur /\ cur_ok b (b + len datas) cur).
  { destruct Hinv as ((_ & Hidx & _) & _ & _ & Hc & Hcok & _).
    destruct (idx_at_lookup _ _ _ _ Hidx Hc) as (Hlk & _). auto. }
  destruct Hcur as [Hlk Hcok].
  destruct (IndexSegment.FitsRecord cur) eqn:Hfits.
  - destruct (log_inv_append config b datas ki kd i cur dcur data Hcfg Hinv Hfits)
      as (i' & rec' & kf & cur' & dcur' & Happ & Hid & Hinv' & Hkf & Hpos' & Hwr
          & Hsegs' & _ & rec0 & Hdw); try lia.
    exists i', rec'. split; [exact Happ|]. split; [exact Hid|].
    exists ki, kf, cur', dcur'. split; [exact Hinv'|].
    rewrite len_snoc, run_cost_snoc. split; [lia|]. split; [lia|].
    split; [|split; [intros _; exact Hpos'|split]].
    + rewrite Hsegs'. replace (b + (len datas + 1)) with (b + len datas + 1) by lia.
      eapply chain_append; eauto. lia.
    + eapply (dm_Write_wf _ kd (Index.dm i)); eauto; try apply Hinv';
        unfold max_int64; lia.
    + rewrite Hsegs'. intros k s Hk.
      destruct (decide (k = ki)) as [->|Hne].
      * rewrite lookup_insert_eq in Hk. injection Hk as <-.
        eapply WriteRecord_flushed; [exact Hwr| |].
        -- apply flushed_in_int64. eapply Hfl. exact Hlk.
        -- rewrite Hid. unfold in_int64, min_int64, max_int64. lia.
      * rewrite lookup_insert_ne in Hk by congruence. eauto.
  - destruct (log_inv_rotate config b datas ki kd i cur dcur Hcfg Hinv)
      as (i1 & cur1 & Hens & Hens1 & Hinv1 & Hcur1 & Hcount1 & Hsegs1 & Hdm1 & Hfresh1);
      [unfold min_int64, max_int64; lia | exact Hfits |].
    assert (Hc1 : Index.Segments i1 !! (ki + 1) = Some cur1 /\
                  IndexSegment.SegmentID cur1 = ki + 1 /\
                  IndexSegment.Size cur1 = GetIndexSegmentSize config).
    { destruct Hinv1 as ((_ & Hidx1 & _) & _ & _ & Hc1 & _).
      destruct (idx_at_lookup _ _ _ _ Hidx1 Hc1) as (? & ? & _ & ? & _). auto. }
    destruct Hc1 as (Hlk1 & Hsid1 & Hsz1).
    assert (Hfits1 : IndexSegment.FitsRecord cur1 = true).
    { unfold IndexSegment.FitsRecord, add64, IndexRecord.IndexRecordSize.
      rewrite Hcur1, Hsz1.
      rewrite wrap64_id by (unfold in_int64, min_int64, max_int64; lia).
      apply Z.leb_le. lia. }
    assert (Hpos : 0 < IndexSegment.RecordsCount cur).
    { destruct Hinv as ((_ & Hidx & _) & _ & _ & Hc & _).
      destruct (idx_at_lookup _ _ _ _ Hidx Hc) as (_ & _ & Hcur & Hsz & _).
      unfold IndexSegment.FitsRecord, add64, IndexRecord.IndexRecordSize in Hfits.
      rewrite wrap64_id in Hfits by (unfold in_int64, min_int64, max_int64; lia).
      apply Z.leb_gt in Hfits.
      destruct Hcok as [_ [(_ & Hz & _)|(? & _)]]; lia. }
    assert (Hchain1 : chain (b + len datas) (ki + 1) (Index.Segments i1)).
    { rewrite Hsegs1. eapply chain_rotate; eauto. lia. }
    assert (Hcok1 : cur_ok b (b + len datas) cur1).
    { destruct Hinv1 as (_ & _ & _ & _ & H & _). exact H. }
    destruct (log_inv_append config b datas (ki + 1) kd i1 cur1 dcur data Hcfg Hinv1 Hfits1)
      as (i' & rec' & kf & cur' & dcur' & Happ & Hid & Hinv' & Hkf & Hpos' & Hwr
          & Hsegs' & _ & rec0 & Hdw); try lia.
    exists i', rec'.
    split; [rewrite (Append_after_fits i i1 _ _ Hens Hens1); exact Happ|].
    split; [exact Hid|].
    exists (ki + 1), kf, cur', dcur'. split; [exact Hinv'|].
    rewrite len_snoc, run_cost_snoc. split; [lia|]. split; [lia|].
    split; [|split; [intros _; exact Hpos'|split]].
    + rewrite Hsegs'. replace (b + (len datas + 1)) with (b + len datas + 1) by lia.
      eapply chain_append; eauto. lia.
    + rewrite Hdm1 in Hdw.
      eapply (dm_Write_wf _ kd (Index.dm i)); eauto; try apply Hinv';
        unfold max_int64; lia.
    + rewrite Hsegs'. intros k s Hk.
      destruct (decide (k = ki + 1)) as [->|Hne].
      * rewrite lookup_insert_eq in Hk. injection Hk as <-.
        eapply WriteRecord_flushed; [exact Hwr| |].
        -- apply flushed_in_int64. rewrite Hfresh1.
           apply fresh_index_segment_flushed;
             unfold in_int64, min_int64, max_int64; lia.
        -- rewrite Hid. unfold in_int64, min_int64, max_int64. lia.
      * rewrite lookup_insert_ne in Hk by congruence.
        rewrite Hsegs1 in Hk.
        destruct (decide (k = ki + 1)) as [->|Hne']; [congruence|].
        rewrite lookup_insert_ne in Hk by congruence. eauto.
Qed.

Lemma WriteObjects_cons i d ds :
  WriteObjects (Ok i) (d :: ds) = WriteObjects (WAL.WriteObject i d) ds.
Proof. reflexivity. Qed.

(** A run of [WriteObject] calls on a log that has only been appended
    to. *)
Lemma append_only_run config b ds : forall datas i,
  config_ok config -> append_only config b datas i ->
  Forall (fun d => len d <= 2 ^ 62) ds ->
  0 <= b -> b + run_cost (datas ++ ds) < 2 ^ 62 ->
  exists i', WriteObjects (Ok i) ds = Ok i' /\ append_only config b (datas ++ ds) i'.
Proof.
  induction ds as [|d ds IH]; intros datas i Hcfg Hinv Hall Hb Hcost.
  - exists i. rewrite app_nil_r. split; [reflexivity|exact Hinv].
  - inversion Hall as [|? ? Hd Hds]; subst.
    assert (Hcost1 : b + run_cost (datas ++ [d]) < 2 ^ 62).
    { rewrite run_cost_app in *. pose proof (run_cost_nonneg ds).
      change (run_cost (d :: ds)) with (len d + 1 + run_cost ds) in Hcost.
      change (run_cost [d]) with (len d + 1 + 0). lia. }
    destruct (append_only_step config b datas i d Hcfg Hinv Hd Hb Hcost1)
      as (i1 & rec1 & Happ & _ & Hinv1).
    rewrite WriteObjects_cons. unfold WAL.WriteObject. rewrite Happ.
    cbn [mbind result_bind].
    destruct (IH (datas ++ [d]) i1 Hcfg Hinv1 Hds Hb) as (i' & Hrun & Hinv').
    { rewrite <- app_assoc. exact Hcost. }
    exists i'. split; [exact Hrun|]. rewrite <- app_assoc in Hinv'. exact Hinv'.
Qed.

(** The log [New] makes of an empty work directory. *)
Definition fresh_log (config : Config) : Index.t :=
  Index.mk config 0 0 (-1)
    (<[0 := fresh_index_segment 0 (GetIndexSegmentSize config)]> ∅)
    (add32 0 1) (Some (Linked 0))
    (DataManager.mk config 0 0
       (<[0 := fresh_data_segment 0 (GetDataSegmentSize config)]> ∅)
       (add32 0 1) (Some (Linked 0))).

Lemma New_fresh_log config :
  config_ok config -> WAL.New config Index.empty_dir = Ok (fresh_log config).
Proof.
  intros [HI HD].
  assert (Hdef : WAL.with_defaults config = config).
  { unfold WAL.with_defaults.
    destruct (Z.eqb_spec (GetIndexSegmentSize config) 0); [lia|].
    destruct (Z.eqb_spec (GetDataSegmentSize config) 0); [lia|]. reflexivity. }
  unfold WAL.New. rewrite Hdef.
  unfold Index.NewIndex, DataManager.NewDataManager, Index.empty_dir.
  cbn [Index.data_files Index.index_files].
  rewrite !sorted_ids_empty. cbn [foldl mbind result_bind len length Z.of_nat Z.eqb].
  unfold DataManager.Rotate at 1. cbn [DataManager.CurrentSegment].
  unfold DataManager.file_of. cbn [DataManager.Segments]. rewrite lookup_empty.
  cbn [fmap option_fmap option_map DataManager.Config_of].
  rewrite NewDataSegment_fresh by lia. cbn [mbind result_bind].
  unfold Index.Rotate. cbn [Index.CurrentSegment].
  unfold Index.file_of. cbn [Index.Segments]. rewrite lookup_empty.
  cbn [fmap option_fmap option_map Index.Config_of].
  rewrite NewIndexSegment_fresh by lia. reflexivity.
Qed.

Lemma fresh_log_append_only config :
  config_ok config -> append_only config 0 [] (fresh_log config).
Proof.
  intros Hcfg.
  destruct (New_fresh config Hcfg) as (w & Hnew & Hat & Hmax).
  rewrite (New_fresh_log config Hcfg) in Hnew. injection Hnew as <-.
  destruct Hcfg as [HI HD].
  exists 0, 0, (fresh_index_segment 0 (GetIndexSegmentSize config)),
         (fresh_data_segment 0 (GetDataSegmentSize config)).
  split; [|split; [unfold len; cbn; lia|split; [unfold len, run_cost; cbn; lia|]]].
  2: { split; [|split; [unfold len; cbn; lia|split]].
       - split.
         + intros k seg Hk. unfold fresh_log in Hk. cbn in Hk.
           destruct (decide (k = 0)) as [->|Hne].
           * rewrite lookup_insert_eq in Hk. injection Hk as <-.
             split; [lia|reflexivity].
           * rewrite lookup_insert_ne in Hk by congruence. rewrite lookup_empty in Hk.
             discriminate.
         + intros k Hk. lia.
       - unfold fresh_log. cbn [Index.dm DataManager.Segments]. split.
         + intros k s Hk. destruct (decide (k = 0)) as [->|Hne].
           * rewrite lookup_insert_eq in Hk. injection Hk as <-.
             cbn. rewrite len_zeros by lia. lia.
           * rewrite lookup_insert_ne in Hk by congruence. rewrite lookup_empty in Hk.
             discriminate.
         + intros k Hk. assert (k = 0) as -> by lia. rewrite lookup_insert_eq. eauto.
       - unfold fresh_log. cbn [Index.Segments]. intros k s Hk.
         destruct (decide (k = 0)) as [->|Hne].
         + rewrite lookup_insert_eq in Hk. injection Hk as <-.
           apply fresh_index_segment_flushed;
             unfold in_int64, min_int64, max_int64; lia.
         + rewrite lookup_insert_ne in Hk by congruence. rewrite lookup_empty in Hk.
           discriminate. }
  split; [exact Hat|]. split; [split; [cbn; lia|reflexivity]|]. split; [reflexivity|].
  split.
  { unfold Index.current, deref, fresh_log. cbn. by rewrite lookup_insert_eq. }
  split; [split; [reflexivity|left; split_conj; reflexivity]|].
  split.
  { unfold DataManager.current, deref, fresh_log. cbn. by rewrite lookup_insert_eq. }
  split.
  - intros k seg id Hk Hcont. unfold fresh_log in Hk. cbn in Hk.
    destruct (decide (k = 0)) as [->|Hne].
    + rewrite lookup_insert_eq in Hk. injection Hk as <-.
      rewrite ContainsRecord_empty in Hcont by reflexivity. discriminate.
    + rewrite lookup_insert_ne in Hk by congruence. rewrite lookup_empty in Hk.
      discriminate.
  - intros j data Hj. discriminate.
Qed.

(** What [ReadObject] returns on a log that has only been appended to. *)
Lemma append_only_ReadObject config b datas i :
  config_ok config -> append_only config b datas i ->
  Forall (fun d => len d <= 2 ^ 62) datas -> run_cost datas < 2 ^ 62 ->
  (forall (j : nat) data, datas !! j = Some data ->
     WAL.ReadObject i (b + Z.of_nat j) = Ok data) /\
  (forall id, id < b \/ b + len datas <= id ->
     Index.LookupMeta i id IndexRecord.zero = Err (NotFound id) /\
     WAL.ReadObject i id = Err (NotFound id)).
Proof.
  intros [HI HD] (ki & kd & cur & dcur & Hinv & Hki & Hkd & _) Hall Hcost.
  destruct Hinv as ((Hcfg & Hidx & Hdm) & _ & Hmax & Hc & Hcok & Hdc & Hrange & Hrecs).
  split.
  - intros j data Hj.
    destruct (Hrecs j data Hj) as (rec & Hloc & HrID & HrSize & HrP & HrS0 & HrSt).
    unfold WAL.ReadObject. rewrite (located_LookupMeta _ _ _ Hloc).
    cbn [mbind result_bind]. rewrite HrP.
    unfold Index.ReadRecord, DataManager.Read. rewrite HrSize.
    assert (Hd : len data <= 2 ^ 62).
    { rewrite Forall_forall in Hall. apply Hall. eapply list_elem_of_lookup_2. exact Hj. }
    apply (Read_loop_stored _ _ kd (DataSegment.Cursor dcur) _ _ data HrSt HD
             ltac:(unfold max_int64; lia) ltac:(unfold min_int64; lia) Hd _ []
             (dom (DataManager.Segments (Index.dm i)))).
    + intros k _ Hsome. by apply elem_of_dom.
    + rewrite size_dom. lia.
  - intros id Hid.
    assert (Hnone : Index.SegmentForID i id = None).
    { apply SegmentForID_None. intros k seg Hk.
      destruct (IndexSegment.ContainsRecord seg id) eqn:E; [|reflexivity].
      specialize (Hrange _ _ _ Hk E). lia. }
    unfold WAL.ReadObject, Index.LookupMeta. rewrite Hnone. split; reflexivity.
Qed.

(** X12. The objects written to a new log read back.  The index segment
    size is at least 41 bytes, one record, the data segment size at least
    one byte, and neither is above 2^62; every payload has at most 2^62
    bytes, and the payload bytes and the objects of the run together
    number less than 2^62.  Then [New] on an empty work directory and the
    run of [WriteObject] calls succeed, and afterwards [ReadObject]
    yields, for every identifier 0, 1, ..., the payload of the write of
    that rank, byte for byte, however many index and data segments the
    run has filled; every other identifier is answered with NotFound. *)
Theorem Written_objects_read_back (config : Config) (datas : list (list Z))
  (Hconfig : config_ok config)
  (Hsizes : Forall (fun data => len data <= 2 ^ 62) datas)
  (Hcost : run_cost datas < 2 ^ 62) :
  exists w w',
    WAL.New config Index.empty_dir = Ok w /\
    WriteObjects (Ok w) datas = Ok w' /\
    (forall (id : nat) data, datas !! id = Some data ->
       WAL.ReadObject w' (Z.of_nat id) = Ok data) /\
    (forall id, id < 0 \/ len datas <= id ->
       WAL.ReadObject w' id = Err (NotFound id)).
Proof.
  destruct (append_only_run config 0 datas [] (fresh_log config) Hconfig
              (fresh_log_append_only config Hconfig) Hsizes ltac:(lia) Hcost)
    as (w' & Hrun & Hinv).
  cbn [app] in Hinv.
  exists (fresh_log config), w'.
  split; [by apply New_fresh_log|]. split; [exact Hrun|].
  destruct (append_only_ReadObject config 0 datas w' Hconfig Hinv Hsizes Hcost)
    as [Hread Hnone].
  split; [exact Hread|]. intros id Hid. apply (Hnone id Hid).
Qed.

Lemma Written_objects_read_back_witness :
  (config_ok segmented_config /\
   Forall (fun data => len data <= 2 ^ 62) [fill 298 1; fill 25 2; fill 25 3] /\
   run_cost [fill 298 1; fill 25 2; fill 25 3] < 2 ^ 62) /\
  exists w',
    WriteObjects (WAL.New segmented_config Index.empty_dir)
                 [fill 298 1; fill 25 2; fill 25 3] = Ok w' /\
    WAL.ReadObject w' 0 = Ok (fill 298 1) /\
    WAL.ReadObject w' 2 = Ok (fill 25 3) /\
    WAL.ReadObject w' 3 = Err (NotFound 3).
Proof.
  assert (H1 : config_ok segmented_config).
  { unfold config_ok, segmented_config. cbn. lia. }
  assert (H2 : Forall (fun data => len data <= 2 ^ 62)
                 [fill 298 1; fill 25 2; fill 25 3]).
  { repeat constructor; vm_compute; discriminate. }
  assert (H3 : run_cost [fill 298 1; fill 25 2; fill 25 3] < 2 ^ 62)
    by (vm_compute; reflexivity).
  split; [exact (conj H1 (conj H2 H3))|].
  destruct (Written_objects_read_back segmented_config
              [fill 298 1; fill 25 2; fill 25 3] H1 H2 H3)
    as (w & w' & Hnew & Hrun & Hread & Hnone).
  exists w'. rewrite Hnew. split; [exact Hrun|].
  split; [exact (Hread 0%nat _ eq_refl)|].
  split; [exact (Hread 2%nat _ eq_refl)|].
  apply Hnone. right. vm_compute. discriminate.
Defined.

(** ** Reading a log that has only been appended to *)

(** The log a run of [WriteObject] calls makes of an empty directory. *)
Lemma written_log config datas :
  config_ok config -> Forall (fun d => len d <= 2 ^ 62) datas ->
  run_cost datas < 2 ^ 62 ->
  exists w', WriteObjects (WAL.New config Index.empty_dir) datas = Ok w' /\
    append_only config 0 datas w'.
Proof.
  intros Hcfg Hall Hcost.
  destruct (append_only_run config 0 datas [] (fresh_log config) Hcfg
              (fresh_log_append_only config Hcfg) Hall ltac:(lia) Hcost)
    as (w' & Hrun & Hinv).
  exists w'. rewrite (New_fresh_log config Hcfg). auto.
Qed.

(** A slot that is found is decoded into the caller's record, whatever the
    record held. *)
Lemma LoadRecord_found seg id r rec0 :
  IndexSegment.LoadRecord seg id IndexRecord.zero = Ok (true, r) ->
  IndexSegment.LoadRecord seg id rec0 = Ok (true, r).
Proof.
  unfold IndexSegment.LoadRecord.
  destruct (negb (IndexSegment.ContainsRecord seg id)); [discriminate|auto].
Qed.

Lemma located_LookupMeta_into i id rec rec0 :
  located i id rec -> Index.LookupMeta i id rec0 = Ok rec.
Proof.
  intros H. apply located_SegmentForID in H as (k & seg & Hfind & Hload).
  unfold Index.LookupMeta. rewrite Hfind, (LoadRecord_found _ _ _ rec0 Hload).
  reflexivity.
Qed.

(** The loop [for cursor.Next() { cursor.Offset(); cursor.Read() }]: the
    offsets and the objects it sees, and the cursor it leaves. *)
Fixpoint read_to_end (fuel : nat) (i : Index.t) (c : Index.indexCursor)
    : result (list (Z * list Z) * Index.indexCursor) :=
  match fuel with
  | O => Diverges
  | S fuel =>
      '(more, c) ← Index.Next i c;
      if (more : bool) then
        data ← Index.Read i c;
        '(seen, c') ← read_to_end fuel i c;
        Ok ((Index.Offset c, data) :: seen, c')
      else Ok ([], c)
  end.

(** One [Next] on a log that has only been appended to. *)
Lemma append_only_Next config b datas i c :
  config_ok config -> append_only config b datas i ->
  Forall (fun d => len d <= 2 ^ 62) datas ->
  0 <= b -> b + run_cost datas < 2 ^ 62 ->
  (forall (j : nat) data, datas !! j = Some data ->
     Index.wants c = b + Z.of_nat j ->
     exists c', Index.Next i c = Ok (true, c') /\
       Index.wants c' = b + Z.of_nat j + 1 /\ Index.Offset c' = b + Z.of_nat j /\
       Index.Read i c' = Ok data) /\
  (Index.wants c < b \/ b + len datas <= Index.wants c ->
   Index.Next i c = Ok (false, c)).
Proof.
  intros Hcfg Hinv Hall Hb Hcost.
  destruct (append_only_ReadObject config b datas i Hcfg Hinv Hall ltac:(lia))
    as [Hread Hnone].
  pose proof (run_cost_len datas) as Hlen.
  destruct Hinv as (ki & kd & cur & dcur & Hinv & _).
  destruct Hinv as (_ & _ & _ & _ & _ & _ & Hrange & Hrecs).
  split.
  - intros j data Hj Hw.
    destruct (Hrecs j data Hj) as (rec & Hloc & _ & _ & HrP & _).
    specialize (Hread j data Hj). unfold WAL.ReadObject in Hread.
    rewrite (located_LookupMeta _ _ _ Hloc) in Hread.
    cbn [mbind result_bind] in Hread. rewrite HrP in Hread.
    assert (Hjn : Z.of_nat j < len datas).
    { apply lookup_lt_Some in Hj. unfold len. lia. }
    assert (Hnext : add64 (b + Z.of_nat j) 1 = b + Z.of_nat j + 1).
    { unfold add64. apply wrap64_id. unfold in_int64, min_int64, max_int64. lia. }
    exists (Index.mkCursor (b + Z.of_nat j + 1) rec).
    unfold Index.Next. rewrite Hw, (located_LookupMeta_into _ _ _ _ Hloc), Hnext.
    split; [reflexivity|]. split; [reflexivity|]. split; [|exact Hread].
    unfold Index.Offset, sub64. cbn [Index.wants].
    rewrite wrap64_id by (unfold in_int64, min_int64, max_int64; lia). lia.
  - intros Hout.
    assert (Hnf : Index.SegmentForID i (Index.wants c) = None).
    { apply SegmentForID_None. intros k seg Hk.
      destruct (IndexSegment.ContainsRecord seg (Index.wants c)) eqn:E; [|reflexivity].
      specialize (Hrange _ _ _ Hk E). lia. }
    unfold Index.Next, Index.LookupMeta. rewrite Hnf. reflexivity.
Qed.

(** The loop on a log that has only been appended to, from the position
    [first]: it sees the [k] objects that are left. *)
Lemma read_to_end_spec config b datas i :
  config_ok config -> append_only config b datas i ->
  Forall (fun d => len d <= 2 ^ 62) datas ->
  0 <= b -> b + run_cost datas < 2 ^ 62 ->
  forall (k first : nat) c fuel,
    Index.wants c = b + Z.of_nat first -> (first + k = length datas)%nat ->
    (k < fuel)%nat ->
    exists c', read_to_end fuel i c
                 = Ok (zip (seqZ (b + Z.of_nat first) (Z.of_nat k))
                           (drop first datas), c') /\
      Index.wants c' = b + len datas.
Proof.
  intros Hcfg Hinv Hall Hb Hcost.
  induction k as [|k IH]; intros first c fuel Hw Hk Hfuel;
    (destruct fuel as [|fuel]; [lia|]); cbn [read_to_end].
  - destruct (append_only_Next config b datas i c Hcfg Hinv Hall Hb Hcost) as [_ Hend].
    rewrite Hend by (rewrite Hw; unfold len; lia). cbn [mbind result_bind].
    exists c. split; [reflexivity|]. rewrite Hw. unfold len. lia.
  - destruct (lookup_lt_is_Some_2 datas first ltac:(lia)) as [d Hd].
    destruct (append_only_Next config b datas i c Hcfg Hinv Hall Hb Hcost) as [Hstep _].
    destruct (Hstep first d Hd Hw) as (c1 & Hnext & Hw1 & Hoff & Hread).
    rewrite Hnext. cbn [mbind result_bind]. rewrite Hread. cbn [mbind result_bind].
    destruct (IH (S first) c1 fuel ltac:(lia) ltac:(lia) ltac:(lia))
      as (c' & Hloop & Hw').
    rewrite Hloop. cbn [mbind result_bind]. exists c'. split; [|exact Hw'].
    rewrite Hoff. f_equal. f_equal.
    rewrite (drop_S _ _ _ Hd).
    rewrite (seqZ_cons (b + Z.of_nat first) (Z.of_nat (S k))) by lia.
    cbn [zip zip_with].
    replace (Z.pred (Z.of_nat (S k))) with (Z.of_nat k) by lia.
    replace (Z.succ (b + Z.of_nat first)) with (b + Z.of_nat (S first)) by lia.
    reflexivity.
Qed.

(** X13. A cursor reads the log to its end, in order: on a log made by a
    run of [WriteObject] calls, the loop
    [for cursor.Next() { cursor.Offset(); cursor.Read() }] over the cursor
    of [ReadObjects(id, inclusive)] ends, and sees the identifiers from
    [id] (from [id + 1] when not inclusive) up to the last one written,
    each with the payload of the write of that rank; from a negative
    identifier it sees nothing.  [Next] on the cursor the loop leaves is
    false again. *)
Theorem Cursor_reads_to_the_end (config : Config) (datas : list (list Z))
  (id : Z) (inclusive : bool) (fuel : nat)
  (Hconfig : config_ok config)
  (Hsizes : Forall (fun data => len data <= 2 ^ 62) datas)
  (Hcost : run_cost datas < 2 ^ 62)
  (Hid : min_int64 <= id < max_int64)
  (Hfuel : (length datas < fuel)%nat) :
  let first := if inclusive then id else id + 1 in
  exists w' c',
    WriteObjects (WAL.New config Index.empty_dir) datas = Ok w' /\
    read_to_end fuel w' (Index.ReadObjects id inclusive)
      = Ok (if 0 <=? first
            then zip (seqZ first (len datas - first)) (drop (Z.to_nat first) datas)
            else [], c') /\
    Index.Next w' c' = Ok (false, c').
Proof.
  intros first.
  destruct (written_log config datas Hconfig Hsizes Hcost) as (w' & Hrun & Hinv).
  exists w'.
  set (c := Index.ReadObjects id inclusive).
  assert (Hw : Index.wants c = first).
  { subst c first. unfold Index.ReadObjects. cbn [Index.wants].
    destruct inclusive; cbn [negb]; [reflexivity|].
    unfold add64. apply wrap64_id. unfold in_int64. lia. }
  destruct (decide (0 <= first <= len datas)) as [Hin|Hout].
  - destruct (read_to_end_spec config 0 datas w' Hconfig Hinv Hsizes ltac:(lia) Hcost
                (Z.to_nat (len datas - first)) (Z.to_nat first) c fuel)
      as (c' & Hloop & Hw'); [lia | unfold len in *; lia | unfold len in *; lia |].
    exists c'. split; [exact Hrun|]. split.
    + rewrite Hloop. destruct (Z.leb_spec 0 first); [|lia].
      rewrite !Z2Nat.id by lia. reflexivity.
    + destruct (append_only_Next config 0 datas w' c' Hconfig Hinv Hsizes ltac:(lia) Hcost)
        as [_ Hend].
      apply Hend. lia.
  - destruct (append_only_Next config 0 datas w' c Hconfig Hinv Hsizes ltac:(lia) Hcost)
      as [_ Hend].
    exists c. split; [exact Hrun|]. split; [|apply Hend; lia].
    destruct fuel as [|fuel]; [lia|]. cbn [read_to_end].
    rewrite Hend by lia. cbn [mbind result_bind].
    destruct (Z.leb_spec 0 first); [|reflexivity].
    rewrite seqZ_nil by lia. reflexivity.
Qed.

Lemma Cursor_reads_to_the_end_witness :
  (config_ok segmented_config /\
   Forall (fun data => len data <= 2 ^ 62) [fill 298 1; fill 25 2; fill 25 3] /\
   run_cost [fill 298 1; fill 25 2; fill 25 3] < 2 ^ 62 /\
   min_int64 <= 0 < max_int64 /\
   (length [fill 298 1; fill 25 2; fill 25 3] < 4)%nat) /\
  exists w' c',
    WriteObjects (WAL.New segmented_config Index.empty_dir)
                 [fill 298 1; fill 25 2; fill 25 3] = Ok w' /\
    read_to_end 4 w' (Index.ReadObjects 0 false)
      = Ok ([(1, fill 25 2); (2, fill 25 3)], c').
Proof.
  assert (H1 : config_ok segmented_config).
  { unfold config_ok, segmented_config. cbn. lia. }
  assert (H2 : Forall (fun data => len data <= 2 ^ 62)
                 [fill 298 1; fill 25 2; fill 25 3]).
  { repeat constructor; vm_compute; discriminate. }
  assert (H3 : run_cost [fill 298 1; fill 25 2; fill 25 3] < 2 ^ 62)
    by (vm_compute; reflexivity).
  assert (H4 : min_int64 <= 0 < max_int64) by (vm_compute; split; congruence).
  assert (H5 : (length [fill 298 1; fill 25 2; fill 25 3] < 4)%nat) by (cbn; lia).
  split; [exact (conj H1 (conj H2 (conj H3 (conj H4 H5))))|].
  destruct (Cursor_reads_to_the_end segmented_config
              [fill 298 1; fill 25 2; fill 25 3] 0 false 4 H1 H2 H3 H4 H5)
    as (w' & c' & Hrun & Hloop & _).
  exists w', c'. split; [exact Hrun|]. exact Hloop.
Defined.

(** X14. On a log that a run of [WriteObject] calls made of an empty work
    directory, neither vacuumed nor reopened, the cursor of
    [ReadObjects(0, true)] that has read to the end sees what is written
    afterwards: [Next] is false at the end, and after one more
    [WriteObject] the same cursor steps to the new object, with the
    identifier of that object as its offset and its payload to read, and
    is at the end again. *)
Theorem Cursor_resumes_after_write (config : Config) (datas : list (list Z))
  (data : list Z) (fuel : nat)
  (Hconfig : config_ok config)
  (Hsizes : Forall (fun data => len data <= 2 ^ 62) (datas ++ [data]))
  (Hcost : run_cost (datas ++ [data]) < 2 ^ 62)
  (Hfuel : (length datas < fuel)%nat) :
  exists w' seen c w'' c',
    WriteObjects (WAL.New config Index.empty_dir) datas = Ok w' /\
    read_to_end fuel w' (Index.ReadObjects 0 true) = Ok (seen, c) /\
    Index.Next w' c = Ok (false, c) /\
    WAL.WriteObject w' data = Ok w'' /\
    Index.Next w'' c = Ok (true, c') /\
    Index.Offset c' = len datas /\
    Index.Read w'' c' = Ok data /\
    Index.Next w'' c' = Ok (false, c').
Proof.
  apply Forall_app in Hsizes as [Hsizes Hdata].
  apply Forall_inv in Hdata.
  assert (Hcost0 : run_cost datas < 2 ^ 62).
  { rewrite run_cost_snoc in Hcost. pose proof (len_nonneg data). lia. }
  destruct (written_log config datas Hconfig Hsizes Hcost0) as (w' & Hrun & Hinv).
  destruct (read_to_end_spec config 0 datas w' Hconfig Hinv Hsizes ltac:(lia) Hcost0
              (length datas) 0 (Index.ReadObjects 0 true) fuel)
    as (c & Hloop & Hw); [reflexivity | lia | lia |].
  destruct (append_only_step config 0 datas w' data Hconfig Hinv Hdata ltac:(lia) Hcost)
    as (w'' & rec' & Happ & _ & Hinv').
  assert (Hsizes' : Forall (fun d => len d <= 2 ^ 62) (datas ++ [data])).
  { apply Forall_app. split; [exact Hsizes|]. by constructor. }
  destruct (append_only_Next config 0 (datas ++ [data]) w'' c Hconfig Hinv' Hsizes' ltac:(lia) Hcost)
    as [Hstep _].
  destruct (Hstep (length datas) data) as (c' & Hnext & Hw' & Hoff & Hread).
  { by rewrite list_lookup_middle. }
  { exact Hw. }
  eexists w', _, c, w'', c'.
  split; [exact Hrun|]. split; [exact Hloop|]. split.
  { destruct (append_only_Next config 0 datas w' c Hconfig Hinv Hsizes ltac:(lia) Hcost0)
      as [_ Hend].
    apply Hend. lia. }
  split; [unfold WAL.WriteObject; rewrite Happ; reflexivity|].
  split; [exact Hnext|]. split; [exact Hoff|]. split; [exact Hread|].
  destruct (append_only_Next config 0 (datas ++ [data]) w'' c' Hconfig Hinv' Hsizes' ltac:(lia) Hcost)
    as [_ Hend].
  apply Hend. right. rewrite Hw', len_snoc. unfold len. lia.
Qed.

Lemma Cursor_resumes_after_write_witness :
  (config_ok segmented_config /\
   Forall (fun data => len data <= 2 ^ 62) ([fill 298 1; fill 25 2] ++ [fill 25 3]) /\
   run_cost ([fill 298 1; fill 25 2] ++ [fill 25 3]) < 2 ^ 62 /\
   (length [fill 298 1; fill 25 2] < 3)%nat) /\
  exists w' seen c w'' c',
    WriteObjects (WAL.New segmented_config Index.empty_dir)
                 [fill 298 1; fill 25 2] = Ok w' /\
    read_to_end 3 w' (Index.ReadObjects 0 true) = Ok (seen, c) /\
    WAL.WriteObject w' (fill 25 3) = Ok w'' /\
    Index.Next w'' c = Ok (true, c') /\
    Index.Offset c' = 2 /\
    Index.Read w'' c' = Ok (fill 25 3).
Proof.
  assert (H1 : config_ok segmented_config).
  { unfold config_ok, segmented_config. cbn. lia. }
  assert (H2 : Forall (fun data => len data <= 2 ^ 62)
                 ([fill 298 1; fill 25 2] ++ [fill 25 3])).
  { repeat constructor; vm_compute; discriminate. }
  assert (H3 : run_cost ([fill 298 1; fill 25 2] ++ [fill 25 3]) < 2 ^ 62)
    by (vm_compute; reflexivity).
  assert (H4 : (length [fill 298 1; fill 25 2] < 3)%nat) by (cbn; lia).
  split; [exact (conj H1 (conj H2 (conj H3 H4)))|].
  destruct (Cursor_resumes_after_write segmented_config [fill 298 1; fill 25 2]
              (fill 25 3) 3 H1 H2 H3 H4)
    as (w' & seen & c & w'' & c' & Hrun & Hloop & _ & Hwrite & Hnext & Hoff & Hread & _).
  exists w', seen, c, w'', c'.
  split; [exact Hrun|]. split; [exact Hloop|]. split; [exact Hwrite|].
  split; [exact Hnext|]. split; [exact Hoff|]. exact Hread.
Defined.

(** ** C2: [Append] on a log that was never vacuumed *)

Lemma WriteRecord_trace_total c rec s :
  IndexSegment.WriteRecord c rec = Ok s ->
  exists segs, IndexSegment.WriteRecord_trace c rec = Ok segs.
Proof.
  unfold IndexSegment.WriteRecord, IndexSegment.WriteRecord_trace. intros H.
  destruct (IndexSegment.store_slot rec c) as [s1| | |]; try discriminate.
  cbn [mbind result_bind]. eauto.
Qed.

(** The head of [Append], up to the data write, once the current index
    segment has room: the index segments are as before, and the record
    is the one of the next identifier. *)
Lemma log_inv_Append_data config b datas ki kd i cur dcur data i0 :
  config_ok config -> log_inv config b datas ki kd i cur dcur ->
  len data <= 2 ^ 62 -> 0 <= b -> b + len datas < 2 ^ 62 ->
  0 <= kd -> kd + len data + 1 < 2 ^ 62 ->
  Index.ensure_fits i0 = Ok i ->
  exists i1 rec,
    Index.Append_data i0 data IndexRecord.zero = Ok (i1, b + len datas, rec) /\
    Index.current i1 = Ok cur /\
    Index.SegmentForID i1 (b + len datas) = None /\
    IndexSegment.ContainsRecord cur (b + len datas) = false /\
    slot_at_cursor cur (b + len datas) /\ record_in_int64 rec.
Proof.
  intros [HI HD]
    ((Hcfg & Hidx & Hdm) & _ & Hmax & Hc & Hcok & Hdc & Hrange & _)
    Hdata Hb Hn Hkd Hkdmax Hens.
  pose proof (len_nonneg datas) as Hn0. pose proof (len_nonneg data) as Hd0.
  destruct (idx_at_lookup _ _ _ _ Hidx Hc) as (Hlk & _ & Hcur & _).
  assert (HrecID : add64 (Index.MaxRecord i) 1 = b + len datas).
  { rewrite Hmax. unfold add64. rewrite wrap64_id
      by (unfold in_int64, min_int64, max_int64; lia). lia. }
  unfold Index.Append_data. rewrite Hens. cbn [mbind result_bind]. rewrite HrecID.
  set (rec0 := Index.set_Purged false
                 (Index.set_Size (len data)
                    (Index.set_RecordID (b + len datas) IndexRecord.zero))).
  destruct (dm_Write_stored (GetDataSegmentSize config) kd (Index.dm i) dcur data rec0
              HD Hdata Hdm Hdc)
    as (m' & rec' & kf & dcur' & Hw & _ & _ & Hkf & _ & _ & _
        & Hid' & Hsize' & _ & Hstart & Hend & Hoff_pos & Hoff_zero);
    [unfold min_int64; lia | unfold max_int64; lia |].
  rewrite Hw. cbn [mbind result_bind]. cbn in Hid', Hsize'.
  assert (Hnot : forall k seg, Index.Segments i !! k = Some seg ->
            IndexSegment.ContainsRecord seg (b + len datas) = false).
  { intros k seg Hk.
    destruct (IndexSegment.ContainsRecord seg (b + len datas)) eqn:E; [|reflexivity].
    specialize (Hrange _ _ _ Hk E). lia. }
  exists (Index.set_dm m' i), rec'.
  split; [reflexivity|]. split; [exact Hc|].
  split; [apply SegmentForID_None; exact Hnot|].
  split; [exact (Hnot _ _ Hlk)|]. split.
  - destruct Hcok as [_ [(_ & Hz & _)|(Hpos & Hcz & _ & Hlo & _)]]; [by left|].
    right. split; [lia|]. rewrite Hlo.
    unfold mul64, sub64, IndexRecord.IndexRecordSize. change (8 * 5 + 1) with 41.
    rewrite (wrap64_id (b + len datas - _))
      by (unfold in_int64, min_int64, max_int64; lia).
    rewrite wrap64_id by (unfold in_int64, min_int64, max_int64; lia). lia.
  - unfold record_in_int64, in_int64, min_int64, max_int64.
    rewrite Hid', Hsize', Hend.
    destruct (Z.ltb_spec 0 (len data)) as [Hpos|Hzero].
    + specialize (Hoff_pos Hpos). lia.
    + rewrite Hoff_zero by lia. cbn. lia.
Qed.

(** The same on any log that has only been appended to: when the current
    index segment is full, [Append] first makes a new one. *)
Lemma append_only_Append_data config b datas i data :
  config_ok config -> append_only config b datas i -> len data <= 2 ^ 62 ->
  0 <= b -> b + run_cost (datas ++ [data]) < 2 ^ 62 ->
  exists i1 rec c0,
    Index.Append_data i data IndexRecord.zero = Ok (i1, b + len datas, rec) /\
    Index.current i1 = Ok c0 /\
    Index.SegmentForID i1 (b + len datas) = None /\
    IndexSegment.ContainsRecord c0 (b + len datas) = false /\
    slot_at_cursor c0 (b + len datas) /\ record_in_int64 rec.
Proof.
  intros Hcfg (ki & kd & cur & dcur & Hinv & Hki & Hkd & _) Hdata Hb Hcost.
  pose proof (run_cost_len datas) as Hlen.
  pose proof (len_nonneg datas) as Hn0. pose proof (len_nonneg data) as Hd0.
  rewrite run_cost_snoc in Hcost.
  assert (Hc : Index.current i = Ok cur) by apply Hinv.
  destruct (IndexSegment.FitsRecord cur) eqn:Hfits.
  - assert (Hens : Index.ensure_fits i = Ok i).
    { unfold Index.ensure_fits. rewrite Hc. cbn [mbind result_bind].
      rewrite Hfits. reflexivity. }
    destruct (log_inv_Append_data config b datas ki kd i cur dcur data i Hcfg Hinv)
      as (i1 & rec & H); try lia; [exact Hens|].
    exists i1, rec, cur. exact H.
  - destruct (log_inv_rotate config b datas ki kd i cur dcur Hcfg Hinv)
      as (i1 & cur1 & Hens & _ & Hinv1 & _);
      [unfold min_int64, max_int64; lia | exact Hfits |].
    destruct (log_inv_Append_data config b datas (ki + 1) kd i1 cur1 dcur data i
                Hcfg Hinv1)
      as (i2 & rec & H); try lia; [exact Hens|].
    exists i2, rec, cur1. exact H.
Qed.

(** C2, amended: on a log that was never vacuumed, made of an empty work
    directory by a run of [WriteObject] calls, [Append] advances
    [MaxRecord] after the data write and before the index slot is written:
    the first state an observer can load has [MaxRecord] at the new
    identifier with the index segments untouched, and the lookup of the
    identifier fails there.  In every state that can be loaded while
    [Append] runs, the lookup of the new identifier either fails with
    NotFound or yields exactly the record being appended: the slot is
    stored before [UpperRecord] and [RecordsCount] make it visible.  The
    last of these states is the one [Append] returns. *)
Theorem Append_slot_stored_before_visible
  (config : Config) (datas : list (list Z)) (data : list Z)
  (Hconfig : config_ok config)
  (Hsizes : Forall (fun d => len d <= 2 ^ 62) (datas ++ [data]))
  (Hcost : run_cost (datas ++ [data]) < 2 ^ 62) :
  exists w i1 rec st0 rest,
    WriteObjects (WAL.New config Index.empty_dir) datas = Ok w /\
    Index.Append_data w data IndexRecord.zero = Ok (i1, len datas, rec) /\
    Index.Append_trace w data IndexRecord.zero = Ok (st0 :: rest) /\
    (Index.MaxRecord st0 = len datas /\
     Index.Segments st0 = Index.Segments i1 /\ Index.dm st0 = Index.dm i1 /\
     Index.LookupMeta st0 (len datas) IndexRecord.zero
       = Err (NotFound (len datas))) /\
    Forall (fun st =>
              Index.MaxRecord st = len datas /\
              (Index.LookupMeta st (len datas) IndexRecord.zero
                 = Err (NotFound (len datas)) \/
               Index.LookupMeta st (len datas) IndexRecord.zero = Ok rec))
           (st0 :: rest) /\
    exists w', Index.Append w data IndexRecord.zero = Ok (w', rec) /\
      last (st0 :: rest) = Some w'.
Proof.
  pose proof Hsizes as Hall. apply Forall_app in Hall as [Hold Hnew].
  apply Forall_inv in Hnew.
  assert (Hcost0 : run_cost datas < 2 ^ 62).
  { rewrite run_cost_snoc in Hcost. pose proof (len_nonneg data). lia. }
  destruct (written_log config datas Hconfig Hold Hcost0) as (w & Hrun & Hinv).
  destruct (append_only_Append_data config 0 datas w data Hconfig Hinv Hnew
              ltac:(lia) ltac:(lia))
    as (i1 & rec & c0 & Hdata & Hcur & Hnone & Hcont & Hslot & Hrec).
  rewrite Z.add_0_l in Hdata, Hnone, Hcont, Hslot.
  destruct (append_only_step config 0 datas w data Hconfig Hinv Hnew
              ltac:(lia) ltac:(lia))
    as (w' & rec' & Happ & _).
  assert (Htrace : exists trace,
            Index.Append_trace w data IndexRecord.zero = Ok trace).
  { unfold Index.Append in Happ. unfold Index.Append_trace.
    rewrite Hdata in *. cbn [mbind result_bind] in *.
    rewrite current_set_MaxRecord, Hcur in *. cbn [mbind result_bind] in *.
    destruct (IndexSegment.WriteRecord c0 rec) as [s| | |] eqn:Hw; try discriminate.
    destruct (WriteRecord_trace_total _ _ _ Hw) as (segs & ->).
    cbn [mbind result_bind]. eauto. }
  destruct Htrace as (trace & Htrace).
  destruct (Append_trace_spec w data IndexRecord.zero i1 (len datas) rec c0 trace
              Hdata Hcur Hnone Hcont Hslot Hrec Htrace)
    as (st0 & rest & -> & Hfirst & Hall & Hlast).
  exists w, i1, rec, st0, rest.
  split; [exact Hrun|]. split; [exact Hdata|]. split; [exact Htrace|].
  split; [exact Hfirst|]. split; [exact Hall|exact Hlast].
Qed.

Lemma Append_slot_stored_before_visible_witness :
  (config_ok segmented_config /\
   Forall (fun d => len d <= 2 ^ 62) ([fill 298 1; fill 25 2] ++ [fill 25 3]) /\
   run_cost ([fill 298 1; fill 25 2] ++ [fill 25 3]) < 2 ^ 62) /\
  exists w st0 rest,
    WriteObjects (WAL.New segmented_config Index.empty_dir)
                 [fill 298 1; fill 25 2] = Ok w /\
    Index.Append_trace w (fill 25 3) IndexRecord.zero = Ok (st0 :: rest) /\
    Forall (fun st => Index.MaxRecord st = 2) (st0 :: rest) /\
    Index.LookupMeta st0 2 IndexRecord.zero = Err (NotFound 2).
Proof.
  assert (H1 : config_ok segmented_config).
  { unfold config_ok, segmented_config. cbn. lia. }
  assert (H2 : Forall (fun d => len d <= 2 ^ 62)
                 ([fill 298 1; fill 25 2] ++ [fill 25 3])).
  { repeat constructor; vm_compute; discriminate. }
  assert (H3 : run_cost ([fill 298 1; fill 25 2] ++ [fill 25 3]) < 2 ^ 62)
    by (vm_compute; reflexivity).
  split; [exact (conj H1 (conj H2 H3))|].
  destruct (Append_slot_stored_before_visible segmented_config
              [fill 298 1; fill 25 2] (fill 25 3) H1 H2 H3)
    as (w & i1 & rec & st0 & rest & Hrun & _ & Htrace & (_ & _ & _ & Hfirst)
        & Hall & _).
  exists w, st0, rest.
  split; [exact Hrun|]. split; [exact Htrace|]. split.
  - eapply Forall_impl; [exact Hall|]. intros st [Hm _]. exact Hm.
  - exact Hfirst.
Defined.

(** ** Counting the objects of a log that has only been appended to *)

(** The identifier behind the last slot of [seg]. *)
Definition last_end (n : Z) (seg : IndexSegment.t) : Z :=
  if IndexSegment.RecordsCount seg =? 0 then n
  else IndexSegment.UpperRecord seg + 1.

(** From the segment [j] on, the loop of [CountObjects] adds the records
    that follow those of [j], up to the last of the log. *)
Lemma CountObjects_loop_chain b n ki i cur :
  chain n ki (Index.Segments i) -> Index.Segments i !! ki = Some cur ->
  cur_ok b n cur -> (forall k', ki < k' -> Index.Segments i !! k' = None) ->
  (forall k seg, Index.Segments i !! k = Some seg -> last_end n seg <= n) ->
  0 <= ki < 2 ^ 62 ->
  forall fuel j seg total (X : gset Z),
    Index.Segments i !! j = Some seg -> 0 <= j <= ki ->
    (forall k, j < k -> is_Some (Index.Segments i !! k) -> k ∈ X) ->
    (size X < fuel)%nat ->
    0 <= total -> total + (n - last_end n seg) < 2 ^ 62 ->
    Index.CountObjects_loop fuel i seg total = Ok (total + (n - last_end n seg)).
Proof.
  intros [Hkeys Hnext] Hcur [_ Hshape] Hfresh Hends Hki.
  induction fuel as [|fuel IH]; intros j seg total X Hj Hjk HX Hsize Ht Hbound; [lia|].
  cbn [Index.CountObjects_loop].
  destruct (Hkeys _ _ Hj) as [_ Hsid]. rewrite Hsid.
  assert (Hsucc : add64 j 1 = j + 1).
  { unfold add64. apply wrap64_id. unfold in_int64, min_int64, max_int64. lia. }
  rewrite Hsucc.
  destruct (decide (j = ki)) as [->|Hne].
  - rewrite Hfresh by lia. rewrite Hcur in Hj. injection Hj as <-.
    f_equal. unfold last_end.
    destruct Hshape as [(-> & _)|(Hpos & _ & Hup & _)]; [cbn; lia|].
    destruct (Z.eqb_spec (IndexSegment.RecordsCount cur) 0); lia.
  - destruct (Hnext j ltac:(lia)) as (seg0 & nxt & Hs & Hnx & Hpos & Hspan & Hup).
    rewrite Hj in Hs. injection Hs as <-. rewrite Hnx.
    assert (Hnxt : 0 <= IndexSegment.RecordsCount nxt /\
              IndexSegment.RecordsCount nxt + (n - last_end n nxt)
                = n - last_end n seg).
    { unfold last_end, first_record in *.
      destruct (Z.eqb_spec (IndexSegment.RecordsCount seg) 0); [lia|].
      destruct (Z.eqb_spec (IndexSegment.RecordsCount nxt) 0) as [->|Hn0]; [lia|].
      destruct (decide (j + 1 = ki)) as [E|E].
      - rewrite E, Hcur in Hnx. injection Hnx as <-.
        destruct Hshape as [(? & _)|(? & _ & ? & ? & _)]; lia.
      - destruct (Hnext (j + 1) ltac:(lia)) as (s1 & _ & Hs1 & _ & ? & ? & _).
        rewrite Hnx in Hs1. injection Hs1 as <-. lia. }
    destruct Hnxt as [Hc0 Hsum].
    assert (Hadd : add64 total (IndexSegment.RecordsCount nxt)
                   = total + IndexSegment.RecordsCount nxt).
    { unfold add64. apply wrap64_id. unfold in_int64, min_int64, max_int64.
      pose proof (Hends _ _ Hnx). lia. }
    rewrite Hadd.
    rewrite (IH (j + 1) nxt _ (X ∖ {[j + 1]}) Hnx ltac:(lia)).
    + f_equal. lia.
    + intros k Hk Hsome. apply elem_of_difference.
      split; [apply HX; [lia|exact Hsome]|]. rewrite elem_of_singleton. lia.
    + assert (Hin : j + 1 ∈ X) by (apply HX; [lia|rewrite Hnx; eauto]).
      assert (Hsz : size X = S (size (X ∖ {[j + 1]}))).
      { rewrite (union_difference_L {[j + 1]} X) at 1
          by (apply singleton_subseteq_l; exact Hin).
        rewrite size_union by set_solver. rewrite size_singleton. lia. }
      lia.
    + lia.
    + lia.
Qed.

(** [CountObjects] on a log that has only been appended to. *)
Lemma append_only_CountObjects config b datas i id inclusive :
  config_ok config -> append_only config b datas i ->
  0 <= b -> b + run_cost datas < 2 ^ 62 ->
  Index.CountObjects i id inclusive
    = Ok (if (b <=? id) && (id <? b + len datas)
          then if inclusive then b + len datas - id else b + len datas - id - 1
          else 0).
Proof.
  intros Hcfg (ki & kd & cur & dcur & Hinv & Hki & Hkd & Hchain & _) Hb Hcost.
  pose proof (len_nonneg datas) as Hn0.
  pose proof (run_cost_len datas) as Hlen.
  destruct Hinv as ((_ & Hidx & _) & _ & _ & Hc & Hcok & _ & Hrange & Hrecs).
  destruct (idx_at_lookup _ _ _ _ Hidx Hc) as (Hlk & _).
  assert (Hfresh : forall k', ki < k' -> Index.Segments i !! k' = None).
  { destruct Hidx as (_ & _ & _ & H). exact H. }
  set (n := b + len datas) in *.
  assert (Hspan : forall k seg, Index.Segments i !! k = Some seg ->
            IndexSegment.RecordsCount seg <> 0 ->
            IndexSegment.LowerRecord seg <= IndexSegment.UpperRecord seg).
  { intros k seg Hk Hne. destruct (proj1 Hchain _ _ Hk) as [Hk0 _].
    destruct (decide (k = ki)) as [->|Hlt].
    - rewrite Hlk in Hk. injection Hk as <-.
      destruct Hcok as [_ [(? & _)|(? & _ & ? & ? & _)]]; lia.
    - destruct (proj2 Hchain k ltac:(lia)) as (s & _ & Hs & _ & ? & ? & _).
      rewrite Hk in Hs. injection Hs as <-. lia. }
  assert (Hends : forall k seg, Index.Segments i !! k = Some seg -> last_end n seg <= n).
  { intros k seg Hk. unfold last_end.
    destruct (Z.eqb_spec (IndexSegment.RecordsCount seg) 0) as [|Hne]; [lia|].
    pose proof (Hspan _ _ Hk Hne).
    assert (Hcont : IndexSegment.ContainsRecord seg (IndexSegment.UpperRecord seg) = true)
      by (apply ContainsRecord_true; lia).
    specialize (Hrange _ _ _ Hk Hcont). lia. }
  unfold Index.CountObjects.
  destruct (Index.SegmentForID i id) as [[k seg]|] eqn:Hfind.
  - apply SegmentForID_Some in Hfind as [Hk Hcont].
    pose proof (Hrange _ _ _ Hk Hcont) as Hid.
    destruct (Z.leb_spec b id); [|lia]. destruct (Z.ltb_spec id n); [|lia].
    cbn [andb].
    apply ContainsRecord_true in Hcont as [Hne Hbounds].
    pose proof (Hends _ _ Hk) as Hend. unfold last_end in Hend.
    destruct (Z.eqb_spec (IndexSegment.RecordsCount seg) 0) as [|_]; [lia|].
    assert (Htotal : sub64 (IndexSegment.UpperRecord seg) id
                     = IndexSegment.UpperRecord seg - id).
    { unfold sub64. apply wrap64_id. unfold in_int64, min_int64, max_int64. lia. }
    rewrite Htotal.
    destruct (proj1 Hchain _ _ Hk) as [Hk0 _].
    rewrite (CountObjects_loop_chain b n ki i cur Hchain Hlk Hcok Hfresh Hends
               ltac:(lia) _ k seg _ (dom (Index.Segments i)) Hk Hk0).
    + cbn [mbind result_bind]. f_equal. unfold last_end.
      destruct (Z.eqb_spec (IndexSegment.RecordsCount seg) 0) as [|_]; [lia|].
      destruct inclusive.
      * unfold add64. rewrite wrap64_id
          by (unfold in_int64, min_int64, max_int64; lia). lia.
      * lia.
    + intros k' _ Hsome. by apply elem_of_dom.
    + rewrite size_dom. lia.
    + lia.
    + unfold last_end.
      destruct (Z.eqb_spec (IndexSegment.RecordsCount seg) 0) as [|_]; lia.
  - rewrite SegmentForID_None in Hfind.
    destruct (Z.leb_spec b id); [|reflexivity].
    destruct (Z.ltb_spec id n); [|reflexivity].
    exfalso.
    destruct (lookup_lt_is_Some_2 datas (Z.to_nat (id - b))) as [d Hd].
    { subst n. unfold len in *. lia. }
    destruct (Hrecs _ _ Hd) as (rec & (k & seg & Hk & Hcont & _) & _).
    replace (b + Z.of_nat (Z.to_nat (id - b))) with id in Hcont by lia.
    rewrite (Hfind _ _ Hk) in Hcont. discriminate.
Qed.

(** X15. [CountObjects] counts what was written: on a log made by a run
    of [WriteObject] calls, [CountObjects(id, true)] is the number of
    objects from [id] to the last one, [CountObjects(id, false)] the number
    of those after [id], for every [id] that was written, across all the
    index segments the run filled.  For any other [id], also the [-1] in
    front of the first object, the answer is 0. *)
Theorem CountObjects_of_written_log (config : Config) (datas : list (list Z))
  (Hconfig : config_ok config)
  (Hsizes : Forall (fun data => len data <= 2 ^ 62) datas)
  (Hcost : run_cost datas < 2 ^ 62) :
  exists w',
    WriteObjects (WAL.New config Index.empty_dir) datas = Ok w' /\
    (forall id, 0 <= id < len datas ->
       WAL.CountObjects w' id true = Ok (len datas - id) /\
       WAL.CountObjects w' id false = Ok (len datas - id - 1)) /\
    (forall id inclusive, id < 0 \/ len datas <= id ->
       WAL.CountObjects w' id inclusive = Ok 0).
Proof.
  destruct (written_log config datas Hconfig Hsizes Hcost) as (w' & Hrun & Hinv).
  exists w'. split; [exact Hrun|]. unfold WAL.CountObjects. split.
  - intros id Hid.
    rewrite !(append_only_CountObjects config 0 datas w' _ _ Hconfig Hinv ltac:(lia) Hcost).
    rewrite !Z.add_0_l.
    destruct (Z.leb_spec 0 id); [|lia]. destruct (Z.ltb_spec id (len datas)); [|lia].
    split; reflexivity.
  - intros id inclusive Hid.
    rewrite (append_only_CountObjects config 0 datas w' _ _ Hconfig Hinv ltac:(lia) Hcost).
    rewrite !Z.add_0_l.
    destruct (Z.leb_spec 0 id); [|reflexivity].
    destruct (Z.ltb_spec id (len datas)); [lia|reflexivity].
Qed.

Lemma CountObjects_of_written_log_witness :
  (config_ok segmented_config /\
   Forall (fun data => len data <= 2 ^ 62) [fill 298 1; fill 25 2; fill 25 3] /\
   run_cost [fill 298 1; fill 25 2; fill 25 3] < 2 ^ 62) /\
  exists w',
    WriteObjects (WAL.New segmented_config Index.empty_dir)
                 [fill 298 1; fill 25 2; fill 25 3] = Ok w' /\
    WAL.CountObjects w' 0 true = Ok 3 /\
    WAL.CountObjects w' 1 false = Ok 1 /\
    WAL.CountObjects w' (-1) false = Ok 0.
Proof.
  assert (H1 : config_ok segmented_config).
  { unfold config_ok, segmented_config. cbn. lia. }
  assert (H2 : Forall (fun data => len data <= 2 ^ 62)
                 [fill 298 1; fill 25 2; fill 25 3]).
  { repeat constructor; vm_compute; discriminate. }
  assert (H3 : run_cost [fill 298 1; fill 25 2; fill 25 3] < 2 ^ 62)
    by (vm_compute; reflexivity).
  split; [exact (conj H1 (conj H2 H3))|].
  destruct (CountObjects_of_written_log segmented_config
              [fill 298 1; fill 25 2; fill 25 3] H1 H2 H3)
    as (w' & Hrun & Hin & Hout).
  exists w'. split; [exact Hrun|].
  split; [exact (proj1 (Hin 0 ltac:(vm_compute; split; congruence)))|].
  split; [exact (proj2 (Hin 1 ltac:(vm_compute; split; congruence)))|].
  apply Hout. left. reflexivity.
Defined.

(** ** Whether a log that has only been appended to is empty *)

Lemma append_only_IsEmpty config b datas i :
  append_only config b datas i ->
  Index.IsEmpty i = Ok (len datas =? 0).
Proof.
  intros (ki & kd & cur & dcur & Hinv & Hki & Hkd & Hchain & _).
  destruct Hinv as ((_ & Hidx & _) & [Hmin Hmaxseg] & _ & Hc & Hcok & _ & Hrange & Hrecs).
  destruct (idx_at_lookup _ _ _ _ Hidx Hc) as (Hlk & _).
  pose proof (len_nonneg datas) as Hn0.
  unfold Index.IsEmpty. rewrite Hmaxseg, Hc.
  destruct (Z.eqb_spec ki 0) as [->|Hne].
  2: rewrite andb_false_r.
  1: replace (Index.MinSegment i) with 0 by lia; cbn [Z.eqb andb].
  all: cbn [mbind result_bind].
  - f_equal.
    destruct (Z.eqb_spec (IndexSegment.RecordsCount cur) 0) as [Hz|Hnz];
      destruct (Z.eqb_spec (len datas) 0) as [Hn|Hn]; try reflexivity; exfalso.
    + destruct (lookup_lt_is_Some_2 datas 0) as [d Hd].
      { unfold len in *. lia. }
      destruct (Hrecs _ _ Hd) as (rec & (k & seg & Hk & Hcont & _) & _).
      destruct (proj1 Hchain _ _ Hk) as [Hk0 _].
      assert (k = 0) by lia. subst k. rewrite Hlk in Hk. injection Hk as <-.
      rewrite ContainsRecord_empty in Hcont by exact Hz. discriminate.
    + destruct Hcok as [_ [(? & _)|(? & _ & _ & ? & ?)]]; lia.
  - f_equal.
    assert (Hpos : 0 < len datas).
    { destruct (proj2 Hchain 0 ltac:(lia)) as (s & _ & Hs & _ & ? & ? & _).
      assert (Hcont : IndexSegment.ContainsRecord s (IndexSegment.LowerRecord s) = true)
        by (apply ContainsRecord_true; lia).
      specialize (Hrange _ _ _ Hs Hcont). lia. }
    destruct (Z.eqb_spec (len datas) 0); [lia|].
    destruct (forallb _ _) eqn:Hall; [exfalso|reflexivity].
    rewrite forallb_forall in Hall.
    specialize (Hall (ki, cur)). cbn in Hall.
    destruct Hcok as [Hlive _]. rewrite Hlive in Hall.
    assert (true = false -> False) by discriminate.
    apply H. symmetry. apply Hall.
    apply list_elem_of_In. unfold Index.Range. by apply elem_of_map_to_list.
Qed.

(** X16. A log is empty exactly as long as nothing was written to it: on a
    log made by a run of [WriteObject] calls, [IsEmpty] is true when the run
    is empty and false otherwise, whether the objects are all in the first
    index segment or not; [CurrentRecordID] is the identifier of the last
    object written, and 0 when there is none. *)
Theorem IsEmpty_of_written_log (config : Config) (datas : list (list Z))
  (Hconfig : config_ok config)
  (Hsizes : Forall (fun data => len data <= 2 ^ 62) datas)
  (Hcost : run_cost datas < 2 ^ 62) :
  exists w',
    WriteObjects (WAL.New config Index.empty_dir) datas = Ok w' /\
    WAL.IsEmpty w' = Ok (match datas with [] => true | _ => false end) /\
    WAL.CurrentRecordID w' = Z.max (len datas - 1) 0.
Proof.
  destruct (written_log config datas Hconfig Hsizes Hcost) as (w' & Hrun & Hinv).
  exists w'. split; [exact Hrun|]. split.
  - unfold WAL.IsEmpty. rewrite (append_only_IsEmpty config 0 datas w' Hinv).
    destruct datas; reflexivity.
  - destruct Hinv as (ki & kd & cur & dcur & Hinv & _).
    destruct Hinv as (_ & _ & Hmax & _).
    unfold WAL.CurrentRecordID. rewrite Hmax. reflexivity.
Qed.

Lemma IsEmpty_of_written_log_witness :
  (config_ok segmented_config /\
   Forall (fun data => len data <= 2 ^ 62) [fill 298 1; fill 25 2; fill 25 3] /\
   run_cost [fill 298 1; fill 25 2; fill 25 3] < 2 ^ 62) /\
  exists w',
    WriteObjects (WAL.New segmented_config Index.empty_dir)
                 [fill 298 1; fill 25 2; fill 25 3] = Ok w' /\
    WAL.IsEmpty w' = Ok false /\ WAL.CurrentRecordID w' = 2.
Proof.
  assert (H1 : config_ok segmented_config).
  { unfold config_ok, segmented_config. cbn. lia. }
  assert (H2 : Forall (fun data => len data <= 2 ^ 62)
                 [fill 298 1; fill 25 2; fill 25 3]).
  { repeat constructor; vm_compute; discriminate. }
  assert (H3 : run_cost [fill 298 1; fill 25 2; fill 25 3] < 2 ^ 62)
    by (vm_compute; reflexivity).
  split; [exact (conj H1 (conj H2 H3))|].
  destruct (IsEmpty_of_written_log segmented_config
              [fill 298 1; fill 25 2; fill 25 3] H1 H2 H3)
    as (w' & Hrun & Hempty & Hcur).
  exists w'. split; [exact Hrun|]. split; [exact Hempty|exact Hcur].
Defined.

(** ** Closing a log and opening it again *)

Lemma Sorted_seqZ (n : nat) : forall m, Sorted Z.le (seqZ m (Z.of_nat n)).
Proof.
  induction n as [|n IH]; intros m.
  - rewrite seqZ_nil by lia. constructor.
  - rewrite seqZ_cons by lia.
    replace (Z.pred (Z.of_nat (S n))) with (Z.of_nat n) by lia.
    constructor; [apply IH|].
    destruct n as [|n].
    + rewrite seqZ_nil by lia. constructor.
    + rewrite seqZ_cons by lia. constructor. lia.
Qed.

(** The files numbered 0 to [k] are loaded in this order. *)
Lemma sorted_ids_contiguous {A} (files : gmap Z A) (n : nat) :
  (forall j, is_Some (files !! j) <-> 0 <= j < Z.of_nat n) ->
  sorted_ids files = seqZ 0 (Z.of_nat n).
Proof.
  intros Hkeys. unfold sorted_ids.
  apply (Sorted_unique Z.le); [apply Sorted_merge_sort; apply _|apply Sorted_seqZ|].
  rewrite merge_sort_Permutation.
  apply NoDup_Permutation; [apply NoDup_fst_map_to_list|apply NoDup_seqZ|].
  intros x. rewrite elem_of_seqZ, list_elem_of_fmap. split.
  - intros ([j a] & -> & Hin). apply elem_of_map_to_list in Hin. cbn.
    assert (Hs : is_Some (files !! j)) by eauto. apply Hkeys in Hs. lia.
  - intros Hx. destruct (proj2 (Hkeys x) ltac:(lia)) as [a Ha].
    exists (x, a). split; [reflexivity|]. by apply elem_of_map_to_list.
Qed.

(** The data files [Close] leaves. *)
Definition data_files_of_segments (segs : gmap Z DataSegment.t)
    : gmap Z (list Z) :=
  (fun s => DataSegment.file (DataSegment.Close s)) <$> segs.

(** The loading loop of [NewDataManager] over the files of the
    segments 0 to [n - 1]. *)
Lemma dm_load_all config D kd segs :
  dm_wf D kd segs -> 0 <= D <= 2 ^ 62 -> kd < 2 ^ 62 ->
  forall n : nat, Z.of_nat n <= kd + 1 ->
  exists r,
    foldl (DataManager.load_segment config (data_files_of_segments segs))
          (Ok (DataManager.mk config (-1) (-1) ∅ 0 None))
          (seqZ 0 (Z.of_nat n)) = Ok r /\
    DataManager.Config_of r = config /\
    DataManager.CurrentSegment r
      = (if decide (n = 0%nat) then None else Some (Linked (Z.of_nat n - 1))) /\
    (forall k, DataManager.Segments r !! k
       = if decide (0 <= k < Z.of_nat n) then DataSegment.Close <$> segs !! k
         else None).
Proof.
  intros [Hall Hsome] HD Hkd.
  induction n as [|n IH]; intros Hn.
  - eexists. split; [reflexivity|]. split; [reflexivity|]. split; [reflexivity|].
    intros k. cbn [DataManager.Segments]. rewrite lookup_empty.
    destruct (decide (0 <= k < Z.of_nat 0)); [lia|reflexivity].
  - destruct (IH ltac:(lia)) as (r & Hfold & Hcfg & Hptr & Hsegs).
    rewrite seqZ_S, foldl_snoc, Hfold. rewrite Z.add_0_l.
    destruct (Hsome (Z.of_nat n) ltac:(lia)) as [s Hs].
    destruct (Hall _ _ Hs) as (_ & Hid & Hsz & Hlen & Hcur).
    unfold DataManager.load_segment. cbn [mbind result_bind].
    unfold data_files_of_segments. rewrite lookup_fmap, Hs.
    cbn [fmap option_fmap option_map].
    rewrite NewDataSegment_closed
      by (unfold in_int64, min_int64, max_int64; lia).
    cbn [mbind result_bind].
    set (min := if (DataManager.MinSegment r =? -1)
                   || (Z.of_nat n <? DataManager.MinSegment r)
                then Z.of_nat n else DataManager.MinSegment r).
    set (segs' := <[Z.of_nat n := DataSegment.Close s]> (DataManager.Segments r)).
    set (loaded := add32 (DataManager.LoadedSegments r) 1).
    assert (Hinstall :
      match DataManager.CurrentSegment r with
      | None => Ok (DataManager.mk config min (Z.of_nat n) segs' loaded
                      (Some (Linked (Z.of_nat n))))
      | Some _ =>
          cur ← DataManager.current
                  (DataManager.mk config min (DataManager.MaxSegment r) segs' loaded
                     (DataManager.CurrentSegment r));
          if Z.of_nat n >? DataSegment.SegmentID cur
          then Ok (DataManager.mk config min (Z.of_nat n) segs' loaded
                     (Some (Linked (Z.of_nat n))))
          else Ok (DataManager.mk config min (DataManager.MaxSegment r) segs' loaded
                     (DataManager.CurrentSegment r))
      end = Ok (DataManager.mk config min (Z.of_nat n) segs' loaded
                  (Some (Linked (Z.of_nat n))))).
    { rewrite Hptr. destruct (decide (n = 0%nat)) as [|Hn0]; [reflexivity|].
      unfold DataManager.current, deref. cbn [DataManager.Segments DataManager.CurrentSegment].
      subst segs'. rewrite lookup_insert_ne by lia. rewrite Hsegs.
      destruct (decide (0 <= Z.of_nat n - 1 < Z.of_nat n)); [|lia].
      destruct (Hsome (Z.of_nat n - 1) ltac:(lia)) as [p Hp]. rewrite Hp.
      cbn [fmap option_fmap option_map mbind result_bind].
      destruct (Hall _ _ Hp) as (_ & Hpid & _).
      change (DataSegment.SegmentID (DataSegment.Close p)) with (DataSegment.SegmentID p).
      rewrite Hpid. destruct (Z.gtb_spec (Z.of_nat n) (Z.of_nat n - 1)); [reflexivity|lia]. }
    cbn [DataManager.CurrentSegment DataManager.MaxSegment DataManager.Segments
         DataManager.LoadedSegments DataManager.MinSegment] in *.
    fold min segs' loaded. rewrite Hinstall. cbn [mbind result_bind].
    unfold DataManager.current, deref.
    cbn [DataManager.Segments DataManager.CurrentSegment].
    subst segs'. rewrite lookup_insert_eq. cbn [mbind result_bind].
    change (DataSegment.SegmentID (DataSegment.Close s)) with (DataSegment.SegmentID s).
    rewrite Hid. destruct (Z.gtb_spec (Z.of_nat n) (Z.of_nat n)); [lia|].
    eexists. split; [reflexivity|]. split; [reflexivity|]. split.
    + cbn [DataManager.CurrentSegment]. destruct (decide (S n = 0%nat)); [lia|].
      do 2 f_equal. lia.
    + intros k. cbn [DataManager.Segments].
      destruct (decide (k = Z.of_nat n)) as [->|Hne].
      * rewrite lookup_insert_eq, Hs.
        destruct (decide (0 <= Z.of_nat n < Z.of_nat (S n))); [reflexivity|lia].
      * rewrite lookup_insert_ne by congruence. rewrite Hsegs.
        destruct (decide (0 <= k < Z.of_nat n)), (decide (0 <= k < Z.of_nat (S n)));
          try reflexivity; lia.
Qed.

(** The index files [Close] leaves. *)
Definition index_files_of_segments (segs : gmap Z IndexSegment.t)
    : gmap Z (list Z) :=
  (fun s => IndexSegment.file (IndexSegment.Close s)) <$> segs.

(** The loading loop of [NewIndex] over the files of the segments 0 to
    [n - 1]: the last one loaded is the current segment, its number is
    [MinSegment] as well as [MaxSegment], and its [UpperRecord] is
    [MaxRecord]. *)
Lemma idx_load_all config ki segs dm0 :
  (forall k s, segs !! k = Some s -> IndexSegment.SegmentID s = k) ->
  (forall k, 0 <= k <= ki -> is_Some (segs !! k)) ->
  idx_flushed segs ->
  forall n : nat, Z.of_nat n <= ki + 1 ->
  exists r,
    foldl (Index.load_segment config (index_files_of_segments segs))
          (Ok (Index.mk config (-1) (-1) 0 ∅ 0 None dm0))
          (seqZ 0 (Z.of_nat n)) = Ok r /\
    Index.Config_of r = config /\ Index.dm r = dm0 /\
    Index.MinSegment r = Z.of_nat n - 1 /\ Index.MaxSegment r = Z.of_nat n - 1 /\
    Index.CurrentSegment r
      = (if decide (n = 0%nat) then None else Some (Linked (Z.of_nat n - 1))) /\
    (forall s, segs !! (Z.of_nat n - 1) = Some s -> n <> 0%nat ->
       Index.MaxRecord r = IndexSegment.UpperRecord s) /\
    (forall k, Index.Segments r !! k
       = if decide (0 <= k < Z.of_nat n) then segs !! k else None).
Proof.
  intros Hids Hsome Hfl.
  induction n as [|n IH]; intros Hn.
  - eexists. split; [reflexivity|]. split; [reflexivity|]. split; [reflexivity|].
    split; [reflexivity|]. split; [reflexivity|]. split; [reflexivity|].
    split; [intros s _ H; congruence|].
    intros k. cbn [Index.Segments]. rewrite lookup_empty.
    destruct (decide (0 <= k < Z.of_nat 0)); [lia|reflexivity].
  - destruct (IH ltac:(lia)) as (r & Hfold & Hcfg & Hdm & Hmin & Hmax & Hptr & _ & Hsegs).
    rewrite seqZ_S, foldl_snoc, Hfold. rewrite Z.add_0_l.
    destruct (Hsome (Z.of_nat n) ltac:(lia)) as [s Hs].
    pose proof (Hids _ _ Hs) as Hid.
    unfold Index.load_segment. cbn [mbind result_bind].
    unfold index_files_of_segments. rewrite lookup_fmap, Hs.
    cbn [fmap option_fmap option_map].
    rewrite (flushed_reopens s _ _ (Hfl _ _ Hs)). cbn [mbind result_bind].
    rewrite Hmin.
    assert (Hgt : (Z.of_nat n >? Z.of_nat n - 1) = true).
    { destruct (Z.gtb_spec (Z.of_nat n) (Z.of_nat n - 1)); [reflexivity|lia]. }
    rewrite Hgt. cbn [orb].
    cbn [Index.set_MinSegment Index.Config_of Index.MinSegment Index.MaxSegment
         Index.MaxRecord Index.Segments Index.LoadedSegments Index.CurrentSegment
         Index.dm].
    rewrite Hptr.
    destruct (decide (n = 0%nat)) as [Hn0|Hn0].
    + eexists. split; [reflexivity|].
      cbn. rewrite Hid, Hcfg, Hdm. split_conj; try reflexivity; try lia.
      * destruct (decide (S n = 0%nat)); [lia|]. do 2 f_equal. lia.
      * intros s' Hs' _. replace (Z.of_nat (S n) - 1) with (Z.of_nat n) in Hs' by lia.
        congruence.
      * intros k. destruct (decide (k = Z.of_nat n)) as [->|Hne].
        -- rewrite lookup_insert_eq, Hs.
           destruct (decide (0 <= Z.of_nat n < Z.of_nat (S n))); [reflexivity|lia].
        -- rewrite lookup_insert_ne by congruence. rewrite Hsegs.
           destruct (decide (0 <= k < Z.of_nat n)), (decide (0 <= k < Z.of_nat (S n)));
             try reflexivity; lia.
    + unfold Index.current, deref.
      cbn [Index.Segments Index.CurrentSegment].
      rewrite lookup_insert_ne by lia. rewrite Hsegs.
      destruct (decide (0 <= Z.of_nat n - 1 < Z.of_nat n)); [|lia].
      destruct (Hsome (Z.of_nat n - 1) ltac:(lia)) as [p Hp']. rewrite Hp'.
      cbn [mbind result_bind]. rewrite (Hids _ _ Hp'), Hgt.
      eexists. split; [reflexivity|].
      cbn. rewrite Hid, Hcfg, Hdm. split_conj; try reflexivity; try lia.
      * destruct (decide (S n = 0%nat)); [lia|]. do 2 f_equal. lia.
      * intros s' Hs' _. replace (Z.of_nat (S n) - 1) with (Z.of_nat n) in Hs' by lia.
        congruence.
      * intros k. destruct (decide (k = Z.of_nat n)) as [->|Hne].
        -- rewrite lookup_insert_eq, Hs.
           destruct (decide (0 <= Z.of_nat n < Z.of_nat (S n))); [reflexivity|lia].
        -- rewrite lookup_insert_ne by congruence. rewrite Hsegs.
           destruct (decide (0 <= k < Z.of_nat n)), (decide (0 <= k < Z.of_nat (S n)));
             try reflexivity; lia.
Qed.

Lemma stored_closed D segs kf cf k off data :
  stored D segs kf cf k off data ->
  stored D (DataSegment.Close <$> segs) kf cf k off data.
Proof.
  induction 1 as [k off|k off seg data Hne Hk Hsz Hlen Hoff Hfit Hfront Htake
                  |k off seg data Hk Hsz Hlen Hoff Hspan Hlt Hdrop Hrest IH].
  - constructor.
  - eapply (stored_last _ _ _ _ _ _ (DataSegment.Close seg)); eauto.
    by rewrite lookup_fmap, Hk.
  - eapply (stored_span _ _ _ _ _ _ (DataSegment.Close seg)); eauto.
    by rewrite lookup_fmap, Hk.
Qed.

Lemma dm_wf_closed D kd segs :
  dm_wf D kd segs -> dm_wf D kd (DataSegment.Close <$> segs).
Proof.
  intros [Hall Hsome]. split.
  - intros k s Hk. rewrite lookup_fmap in Hk.
    destruct (segs !! k) as [p|] eqn:Hp; [|discriminate].
    injection Hk as <-. exact (Hall _ _ Hp).
  - intros k Hk. rewrite lookup_fmap. destruct (Hsome k Hk) as [p ->]. eauto.
Qed.

Lemma located_same_segments i i' id rec :
  Index.Segments i' = Index.Segments i -> located i id rec -> located i' id rec.
Proof. unfold located. intros ->. auto. Qed.

(** A log that has only been appended to, closed and opened again, is
    such a log again, with the same objects under the same identifiers;
    but when it holds no object, the identifiers start at 1 from then
    on: [NewIndex] takes [MaxRecord] from the [UpperRecord] of the last
    index segment, which is 0 also when the segment has no record. *)
Lemma append_only_reopen config b datas i :
  config_ok config -> append_only config b datas i ->
  0 <= b -> b + run_cost datas < 2 ^ 62 ->
  exists i',
    WAL.New config (WAL.Close i) = Ok i' /\
    append_only config (if len datas =? 0 then 1 else b) datas i'.
Proof.
  intros Hcfg (ki & kd & cur & dcur & Hinv & Hki & Hkd & Hchain & Hfilled & Hwf & Hfl)
         Hb Hcost.
  pose proof (run_cost_len datas) as Hlen. pose proof (len_nonneg datas) as Hn0.
  destruct Hcfg as [HI HD].
  destruct Hinv as ((Hconf & Hidx & Hdm) & Hseg & Hmax & Hc & Hcok & Hdc & Hrange & Hrecs).
  destruct (idx_at_lookup _ _ _ _ Hidx Hc) as (Hlk & Hsid & Hcur & Hsz & Hrlen).
  destruct (dm_at_current _ _ _ Hdm) as (dcur0 & Hdc0 & Hdlk & Hdid & Hdcur & Hdsz & Hdlen).
  rewrite Hdc in Hdc0. injection Hdc0 as <-.
  assert (Hdef : WAL.with_defaults config = config).
  { unfold WAL.with_defaults.
    destruct (Z.eqb_spec (GetIndexSegmentSize config) 0); [lia|].
    destruct (Z.eqb_spec (GetDataSegmentSize config) 0); [lia|]. reflexivity. }
  set (dsegs := DataManager.Segments (Index.dm i)) in *.
  set (segs := Index.Segments i) in *.
  (* the data manager *)
  assert (Hdkeys : forall j, is_Some (data_files_of_segments dsegs !! j)
                             <-> 0 <= j < Z.of_nat (Z.to_nat (kd + 1))).
  { intros j. unfold data_files_of_segments. rewrite lookup_fmap, fmap_is_Some.
    split.
    - intros [s Hs]. destruct (proj1 Hwf _ _ Hs). lia.
    - intros Hj. apply (proj2 Hwf). lia. }
  destruct (dm_load_all config _ kd dsegs Hwf ltac:(lia) ltac:(lia)
              (Z.to_nat (kd + 1)) ltac:(lia))
    as (dm' & Hdfold & Hdconf & Hdptr & Hdsegs).
  assert (Hdm_new : DataManager.NewDataManager config (data_files_of_segments dsegs)
                    = Ok dm').
  { unfold DataManager.NewDataManager.
    rewrite (sorted_ids_contiguous _ _ Hdkeys), Hdfold. cbn [mbind result_bind].
    unfold len. rewrite length_seqZ.
    destruct (Z.eqb_spec (Z.of_nat (Z.to_nat (Z.of_nat (Z.to_nat (kd + 1))))) 0);
      [lia|reflexivity]. }
  assert (Hdsegs' : DataManager.Segments dm' = DataSegment.Close <$> dsegs).
  { apply map_eq. intros k. rewrite Hdsegs, lookup_fmap.
    destruct (decide (0 <= k < Z.of_nat (Z.to_nat (kd + 1)))) as [|Hout];
      [reflexivity|].
    destruct (dsegs !! k) as [s|] eqn:Hs; [|reflexivity].
    destruct (proj1 Hwf _ _ Hs). lia. }
  assert (Hdptr' : DataManager.CurrentSegment dm' = Some (Linked kd)).
  { rewrite Hdptr. destruct (decide (Z.to_nat (kd + 1) = 0%nat)); [lia|].
    do 2 f_equal. lia. }
  assert (Hdm' : dm_at (GetDataSegmentSize config) kd dm').
  { split; [by rewrite Hdconf|]. split; [exact Hdptr'|]. split.
    - exists (DataSegment.Close dcur). rewrite Hdsegs', lookup_fmap, Hdlk.
      split; [reflexivity|]. auto.
    - intros k' Hk'. rewrite Hdsegs', lookup_fmap.
      destruct Hdm as (_ & _ & _ & Hfresh). by rewrite Hfresh. }
  assert (Hdc' : DataManager.current dm' = Ok (DataSegment.Close dcur)).
  { unfold DataManager.current, deref. rewrite Hdptr', Hdsegs', lookup_fmap, Hdlk.
    reflexivity. }
  (* the index *)
  assert (Hsome : forall k, 0 <= k <= ki -> is_Some (segs !! k)).
  { intros k Hk. destruct (decide (k = ki)) as [->|Hne]; [eauto|].
    destruct (proj2 Hchain k ltac:(lia)) as (s & _ & Hs & _). eauto. }
  assert (Hkeys : forall j, is_Some (index_files_of_segments segs !! j)
                            <-> 0 <= j < Z.of_nat (Z.to_nat (ki + 1))).
  { intros j. unfold index_files_of_segments. rewrite lookup_fmap, fmap_is_Some.
    split.
    - intros [s Hs]. destruct (proj1 Hchain _ _ Hs). lia.
    - intros Hj. apply Hsome. lia. }
  destruct (idx_load_all config ki segs dm'
              (fun k s Hs => proj2 (proj1 Hchain k s Hs)) Hsome Hfl
              (Z.to_nat (ki + 1)) ltac:(lia))
    as (i' & Hfold & Hconf' & Hdmi' & Hmin' & Hmax' & Hptr' & Hmaxrec' & Hsegs').
  assert (Hnew : WAL.New config (WAL.Close i) = Ok i').
  { unfold WAL.New, WAL.Close, Index.Close, Index.NewIndex, DataManager.Close.
    rewrite Hdef. cbn [Index.data_files Index.index_files].
    fold dsegs segs. fold (data_files_of_segments dsegs).
    fold (index_files_of_segments segs).
    rewrite Hdm_new. cbn [mbind result_bind].
    rewrite (sorted_ids_contiguous _ _ Hkeys), Hfold. cbn [mbind result_bind].
    unfold len. rewrite length_seqZ.
    destruct (Z.eqb_spec (Z.of_nat (Z.to_nat (Z.of_nat (Z.to_nat (ki + 1))))) 0);
      [lia|reflexivity]. }
  assert (Hsegs_eq : Index.Segments i' = segs).
  { apply map_eq. intros k. rewrite Hsegs'.
    destruct (decide (0 <= k < Z.of_nat (Z.to_nat (ki + 1)))) as [|Hout];
      [reflexivity|].
    destruct (segs !! k) as [s|] eqn:Hs; [|reflexivity].
    destruct (proj1 Hchain _ _ Hs). lia. }
  assert (Hptr_eq : Index.CurrentSegment i' = Some (Linked ki)).
  { rewrite Hptr'. destruct (decide (Z.to_nat (ki + 1) = 0%nat)); [lia|].
    do 2 f_equal. lia. }
  assert (Hmaxrec : Index.MaxRecord i' = IndexSegment.UpperRecord cur).
  { apply Hmaxrec'; [|lia]. rewrite <- Hlk. f_equal. lia. }
  assert (Hc' : Index.current i' = Ok cur).
  { unfold Index.current, deref. rewrite Hptr_eq, Hsegs_eq, Hlk. reflexivity. }
  exists i'. split; [exact Hnew|].
  set (b' := if len datas =? 0 then 1 else b).
  assert (Hb' : (len datas = 0 /\ b' = 1) \/ (0 < len datas /\ b' = b)).
  { subst b'. destruct (Z.eqb_spec (len datas) 0); [left|right]; split; auto; lia. }
  exists ki, kd, cur, (DataSegment.Close dcur).
  assert (Hcok' : cur_ok b' (b' + len datas) cur /\
                  IndexSegment.UpperRecord cur = b' + len datas - 1).
  { destruct Hcok as [Hlive Hshape]. destruct Hb' as [[Hz ->]|[Hpos ->]].
    - destruct Hshape as [(H0 & Hcz & Hup)|(H0 & _ & _ & Hlo & Hlob)]; [|lia].
      split; [|lia]. split; [exact Hlive|]. left. auto.
    - specialize (Hfilled Hpos).
      destruct Hshape as [(H0 & _)|(H0 & Hcz & Hup & Hlo & Hlob)]; [lia|].
      split; [|exact Hup]. split; [exact Hlive|]. right. auto. }
  destruct Hcok' as [Hcok' Hup'].
  split; [|split; [exact Hki|split; [exact Hkd|split; [|split; [exact Hfilled|split]]]]].
  - split.
    { split; [exact Hconf'|]. split; [|by rewrite Hdmi'].
      split; [by rewrite Hconf'|]. split; [exact Hptr_eq|]. split.
      - exists cur. rewrite Hsegs_eq. auto.
      - intros k' Hk'. rewrite Hsegs_eq. destruct Hidx as (_ & _ & _ & Hfresh).
        by apply Hfresh. }
    split; [rewrite Hmin', Hmax'; lia|].
    split; [rewrite Hmaxrec; exact Hup'|].
    split; [exact Hc'|]. split; [exact Hcok'|].
    split; [rewrite Hdmi'; exact Hdc'|].
    split.
    + intros k seg id Hk Hcont. rewrite Hsegs_eq in Hk.
      specialize (Hrange _ _ _ Hk Hcont).
      destruct Hb' as [[Hz ->]|[Hpos ->]]; lia.
    + intros j data Hj.
      destruct Hb' as [[Hz ->]|[Hpos ->]].
      { apply lookup_lt_Some in Hj. unfold len in Hz. lia. }
      destruct (Hrecs j data Hj) as (rec & Hloc & HrID & HrSize & HrP & HrS0 & HrSt).
      exists rec. split; [by apply (located_same_segments i)|].
      split; [exact HrID|]. split; [exact HrSize|]. split; [exact HrP|].
      split; [exact HrS0|].
      rewrite Hdmi', Hdsegs'. by apply stored_closed.
  - rewrite Hsegs_eq. destruct Hb' as [[Hz ->]|[Hpos ->]]; [|exact Hchain].
    assert (ki = 0) as -> by lia.
    split; [exact (proj1 Hchain)|]. intros k Hk. lia.
  - rewrite Hdmi', Hdsegs'. by apply dm_wf_closed.
  - rewrite Hsegs_eq. exact Hfl.
Qed.

(** X17. What was written survives a restart, on a log that was never
    vacuumed: the log a run of at least one [WriteObject] call made of an
    empty work directory, closed and opened again with the same
    configuration, answers every [ReadObject] as before and reports the
    same [CurrentRecordID]; the objects written after the restart
    continue the numbering, and all of them, old and new, read back byte
    for byte. *)
Theorem Objects_survive_reopening (config : Config) (datas more : list (list Z))
  (Hconfig : config_ok config)
  (Hsome : datas <> [])
  (Hsizes : Forall (fun data => len data <= 2 ^ 62) (datas ++ more))
  (Hcost : run_cost (datas ++ more) < 2 ^ 62) :
  exists w1 w2 w3,
    WriteObjects (WAL.New config Index.empty_dir) datas = Ok w1 /\
    WAL.New config (WAL.Close w1) = Ok w2 /\
    (forall id, WAL.ReadObject w2 id = WAL.ReadObject w1 id) /\
    WAL.CurrentRecordID w2 = WAL.CurrentRecordID w1 /\
    WriteObjects (Ok w2) more = Ok w3 /\
    (forall (id : nat) data, (datas ++ more) !! id = Some data ->
       WAL.ReadObject w3 (Z.of_nat id) = Ok data) /\
    (forall id, id < 0 \/ len (datas ++ more) <= id ->
       WAL.ReadObject w3 id = Err (NotFound id)).
Proof.
  pose proof (Hsizes) as Hall. apply Forall_app in Hall as [Hold Hnew].
  assert (Hcost0 : run_cost datas < 2 ^ 62).
  { rewrite run_cost_app in Hcost. pose proof (run_cost_nonneg more). lia. }
  assert (Hpos : 0 < len datas).
  { destruct datas; [congruence|]. unfold len. cbn [length]. lia. }
  destruct (written_log config datas Hconfig Hold Hcost0) as (w1 & Hrun & Hinv1).
  destruct (append_only_reopen config 0 datas w1 Hconfig Hinv1 ltac:(lia) ltac:(lia))
    as (w2 & Hopen & Hinv2).
  destruct (Z.eqb_spec (len datas) 0) as [|_]; [lia|].
  destruct (append_only_run config 0 more datas w2 Hconfig Hinv2 Hnew ltac:(lia)
              ltac:(lia)) as (w3 & Hrun3 & Hinv3).
  destruct (append_only_ReadObject config 0 datas w1 Hconfig Hinv1 Hold Hcost0)
    as [Hread1 Hnone1].
  destruct (append_only_ReadObject config 0 datas w2 Hconfig Hinv2 Hold Hcost0)
    as [Hread2 Hnone2].
  destruct (append_only_ReadObject config 0 (datas ++ more) w3 Hconfig Hinv3 Hsizes Hcost)
    as [Hread3 Hnone3].
  exists w1, w2, w3.
  split; [exact Hrun|]. split; [exact Hopen|]. split.
  { intros id. destruct (decide (0 <= id < len datas)) as [Hin|Hout].
    - destruct (lookup_lt_is_Some_2 datas (Z.to_nat id)) as [d Hd].
      { unfold len in *. lia. }
      pose proof (Hread1 _ _ Hd) as H1. pose proof (Hread2 _ _ Hd) as H2.
      rewrite Z.add_0_l, Z2Nat.id in H1, H2 by lia. congruence.
    - rewrite (proj2 (Hnone1 id ltac:(lia))), (proj2 (Hnone2 id ltac:(lia))).
      reflexivity. }
  split.
  { destruct Hinv1 as (? & ? & ? & ? & (_ & _ & Hm1 & _) & _).
    destruct Hinv2 as (? & ? & ? & ? & (_ & _ & Hm2 & _) & _).
    unfold WAL.CurrentRecordID. congruence. }
  split; [exact Hrun3|]. split.
  - intros id data Hid. exact (Hread3 id data Hid).
  - intros id Hid. apply (Hnone3 id). lia.
Qed.

Lemma Objects_survive_reopening_witness :
  (config_ok segmented_config /\ [fill 298 1; fill 25 2] <> [] /\
   Forall (fun data => len data <= 2 ^ 62) ([fill 298 1; fill 25 2] ++ [fill 25 3]) /\
   run_cost ([fill 298 1; fill 25 2] ++ [fill 25 3]) < 2 ^ 62) /\
  exists w1 w2 w3,
    WriteObjects (WAL.New segmented_config Index.empty_dir)
                 [fill 298 1; fill 25 2] = Ok w1 /\
    WAL.New segmented_config (WAL.Close w1) = Ok w2 /\
    WAL.ReadObject w2 0 = WAL.ReadObject w1 0 /\
    WriteObjects (Ok w2) [fill 25 3] = Ok w3 /\
    WAL.ReadObject w3 0 = Ok (fill 298 1) /\
    WAL.ReadObject w3 2 = Ok (fill 25 3).
Proof.
  assert (H1 : config_ok segmented_config).
  { unfold config_ok, segmented_config. cbn. lia. }
  assert (H2 : [fill 298 1; fill 25 2] <> []) by discriminate.
  assert (H3 : Forall (fun data => len data <= 2 ^ 62)
                 ([fill 298 1; fill 25 2] ++ [fill 25 3])).
  { repeat constructor; vm_compute; discriminate. }
  assert (H4 : run_cost ([fill 298 1; fill 25 2] ++ [fill 25 3]) < 2 ^ 62)
    by (vm_compute; reflexivity).
  split; [exact (conj H1 (conj H2 (conj H3 H4)))|].
  destruct (Objects_survive_reopening segmented_config [fill 298 1; fill 25 2]
              [fill 25 3] H1 H2 H3 H4)
    as (w1 & w2 & w3 & Hrun & Hopen & Hsame & _ & Hrun3 & Hread & _).
  exists w1, w2, w3.
  split; [exact Hrun|]. split; [exact Hopen|]. split; [exact (Hsame 0)|].
  split; [exact Hrun3|].
  split; [exact (Hread 0%nat _ eq_refl)|exact (Hread 2%nat _ eq_refl)].
Defined.

(** X18. A log that is closed before anything was written to it numbers
    its objects from 1 once it is opened again: [NewIndex] takes
    [MaxRecord] from the [UpperRecord] of the last index segment, which is
    0 in a segment without records, where [New] on an empty directory
    starts from -1.  The reopened log is empty and reports 0 as
    [CurrentRecordID], like a new one; but the objects written to it are
    found under 1, 2, ..., and identifier 0 is never assigned:
    [ReadObject(0)] fails with NotFound, [CountObjects(0, true)] is 0, and
    the cursor of [ReadObjects(0, true)] has no next object, however many
    objects the log holds. *)
Theorem Reopened_empty_log_numbers_from_1 (config : Config) (datas : list (list Z))
  (Hconfig : config_ok config)
  (Hsizes : Forall (fun data => len data <= 2 ^ 62) datas)
  (Hcost : 1 + run_cost datas < 2 ^ 62) :
  exists w0 w1 w2,
    WAL.New config Index.empty_dir = Ok w0 /\
    WAL.New config (WAL.Close w0) = Ok w1 /\
    WAL.IsEmpty w1 = Ok true /\ WAL.CurrentRecordID w1 = 0 /\
    WriteObjects (Ok w1) datas = Ok w2 /\
    (forall (j : nat) data, datas !! j = Some data ->
       WAL.ReadObject w2 (1 + Z.of_nat j) = Ok data) /\
    WAL.ReadObject w2 0 = Err (NotFound 0) /\
    WAL.CountObjects w2 0 true = Ok 0 /\
    Index.Next w2 (Index.ReadObjects 0 true) = Ok (false, Index.ReadObjects 0 true) /\
    WAL.CurrentRecordID w2 = len datas.
Proof.
  pose proof (len_nonneg datas) as Hn0.
  pose proof (fresh_log_append_only config Hconfig) as Hinv0.
  destruct (append_only_reopen config 0 [] (fresh_log config) Hconfig Hinv0
              ltac:(lia) ltac:(unfold run_cost; cbn; lia))
    as (w1 & Hopen & Hinv1).
  change (if len (@nil (list Z)) =? 0 then 1 else 0) with 1 in Hinv1.
  destruct (append_only_run config 1 datas [] w1 Hconfig Hinv1 Hsizes ltac:(lia) Hcost)
    as (w2 & Hrun & Hinv2).
  cbn [app] in Hinv2.
  destruct (append_only_ReadObject config 1 datas w2 Hconfig Hinv2 Hsizes ltac:(lia))
    as [Hread Hnone].
  exists (fresh_log config), w1, w2.
  split; [by apply New_fresh_log|]. split; [exact Hopen|]. split.
  { unfold WAL.IsEmpty. rewrite (append_only_IsEmpty config 1 [] w1 Hinv1). reflexivity. }
  split.
  { destruct Hinv1 as (? & ? & ? & ? & (_ & _ & Hm1 & _) & _).
    unfold WAL.CurrentRecordID. rewrite Hm1. reflexivity. }
  split; [exact Hrun|]. split; [exact Hread|].
  split; [apply (Hnone 0); lia|]. split.
  { unfold WAL.CountObjects.
    rewrite (append_only_CountObjects config 1 datas w2 0 true Hconfig Hinv2
               ltac:(lia) Hcost).
    reflexivity. }
  split.
  { destruct (append_only_Next config 1 datas w2 (Index.ReadObjects 0 true)
                Hconfig Hinv2 Hsizes ltac:(lia) Hcost) as [_ Hend].
    apply Hend. left. cbn. lia. }
  destruct Hinv2 as (? & ? & ? & ? & (_ & _ & Hm2 & _) & _).
  unfold WAL.CurrentRecordID. rewrite Hm2. lia.
Qed.

Lemma Reopened_empty_log_numbers_from_1_witness :
  (config_ok segmented_config /\
   Forall (fun data => len data <= 2 ^ 62) [fill 298 1; fill 25 2] /\
   1 + run_cost [fill 298 1; fill 25 2] < 2 ^ 62) /\
  exists w0 w1 w2,
    WAL.New segmented_config Index.empty_dir = Ok w0 /\
    WAL.New segmented_config (WAL.Close w0) = Ok w1 /\
    WriteObjects (Ok w1) [fill 298 1; fill 25 2] = Ok w2 /\
    WAL.ReadObject w2 1 = Ok (fill 298 1) /\
    WAL.ReadObject w2 2 = Ok (fill 25 2) /\
    WAL.ReadObject w2 0 = Err (NotFound 0).
Proof.
  assert (H1 : config_ok segmented_config).
  { unfold config_ok, segmented_config. cbn. lia. }
  assert (H2 : Forall (fun data => len data <= 2 ^ 62) [fill 298 1; fill 25 2]).
  { repeat constructor; vm_compute; discriminate. }
  assert (H3 : 1 + run_cost [fill 298 1; fill 25 2] < 2 ^ 62)
    by (vm_compute; reflexivity).
  split; [exact (conj H1 (conj H2 H3))|].
  destruct (Reopened_empty_log_numbers_from_1 segmented_config
              [fill 298 1; fill 25 2] H1 H2 H3)
    as (w0 & w1 & w2 & Hnew & Hopen & _ & _ & Hrun & Hread & Hzero & _).
  exists w0, w1, w2.
  split; [exact Hnew|]. split; [exact Hopen|]. split; [exact Hrun|].
  split; [exact (Hread 0%nat _ eq_refl)|].
  split; [exact (Hread 1%nat _ eq_refl)|exact Hzero].
Defined.

(** ** The lock file: the flags of the instance and the kernel *)

(** A call of a method of [Flock], with the answers of the operating
    system to the calls the method may make. *)
Inductive flock_op : Type :=
  | DoLock (kernel : option Flock.os_error)
  | DoUnlock (kernel : option Flock.os_error)
  | DoClose (kernel file : option Flock.os_error)
  | DoRemove (kernel file remove : option Flock.os_error)
  | DoWrite (data : list Z) (write sync : option Flock.os_error)
  | DoRead (size count : Z) (read : option Flock.os_error).

Definition flock_step (f : Flock.t) (o : flock_op) : Flock.outcome :=
  match o with
  | DoLock k => Flock.Lock f k
  | DoUnlock k => Flock.Unlock f k
  | DoClose k c => Flock.Close f k c
  | DoRemove k c r => Flock.Remove f k c r
  | DoWrite d w s => Flock.Write f d w s
  | DoRead n c r => (Flock.Read f n c r).1
  end.

(** A sequence of method calls on one instance: the instance afterwards,
    the errors returned and the system calls made, in order. *)
Fixpoint flock_run (f : Flock.t) (ops : list flock_op)
    : Flock.t * list (option Flock.error) * list (Flock.call * bool) :=
  match ops with
  | [] => (f, [], [])
  | o :: ops =>
      let '(f, e, calls) := flock_step f o in
      let '(f, es, more) := flock_run f ops in
      (f, e :: es, calls ++ more)
  end.

(** What the kernel keeps for the descriptor, after the calls: whether the
    lock is held through it, and whether it is open.  A lock is held from
    a successful [LOCK_EX] to the next successful [LOCK_UN] or to the close
    of the descriptor.  [os.File.Close] releases the descriptor whether it
    reports an error or not. *)
Fixpoint kernel_after (held open : bool) (calls : list (Flock.call * bool))
    : bool * bool :=
  match calls with
  | [] => (held, open)
  | (Flock.flock_LOCK_EX_NB, true) :: calls => kernel_after true open calls
  | (Flock.flock_LOCK_UN, true) :: calls => kernel_after false open calls
  | (Flock.file_Close, _) :: calls => kernel_after false false calls
  | _ :: calls => kernel_after held open calls
  end.

(** No [file.Close] of the run reported an error. *)
Definition closes_succeed (calls : list (Flock.call * bool)) : bool :=
  forallb (fun c : Flock.call * bool =>
             match c with
             | (Flock.file_Close, false) => false
             | _ => true
             end) calls.

(** No [flock] and no [Close] is asked for a descriptor that is closed,
    and no lock that is held is asked for again. *)
Fixpoint calls_in_order (held open : bool) (calls : list (Flock.call * bool))
    : bool :=
  match calls with
  | [] => true
  | (c, ok) :: calls =>
      let fits :=
        match c with
        | Flock.flock_LOCK_EX_NB => open && negb held
        | Flock.flock_LOCK_UN => open && held
        | Flock.file_Close => open && negb held
        | _ => true
        end in
      fits && let '(held, open) := kernel_after held open [(c, ok)] in
              calls_in_order held open calls
  end.

Lemma kernel_after_app held open calls more :
  kernel_after held open (calls ++ more)
    = let '(h, o) := kernel_after held open calls in kernel_after h o more.
Proof.
  revert held open. induction calls as [|[c ok] calls IH]; intros held open.
  - cbn. destruct (kernel_after held open []) eqn:E. cbn in E. by injection E as <- <-.
  - cbn [app kernel_after]. destruct c, ok; apply IH.
Qed.

Lemma calls_in_order_app held open calls more :
  calls_in_order held open (calls ++ more)
    = calls_in_order held open calls
      && let '(h, o) := kernel_after held open calls in calls_in_order h o more.
Proof.
  revert held open. induction calls as [|[c ok] calls IH]; intros held open.
  - reflexivity.
  - cbn [app calls_in_order]. rewrite <- andb_assoc. f_equal.
    destruct c, ok; cbn [kernel_after]; apply IH.
Qed.

Lemma closes_succeed_app calls more :
  closes_succeed (calls ++ more) = closes_succeed calls && closes_succeed more.
Proof. apply forallb_app. Qed.

(** One method call from a state that agrees with the kernel, when no
    [file.Close] fails in it. *)
Lemma flock_step_agrees f o f' e calls :
  flock_step f o = (f', e, calls) ->
  (Flock.closed f = true -> Flock.locked f = false) ->
  closes_succeed calls = true ->
  kernel_after (Flock.locked f) (negb (Flock.closed f)) calls
    = (Flock.locked f', negb (Flock.closed f')) /\
  calls_in_order (Flock.locked f) (negb (Flock.closed f)) calls = true.
Proof.
  destruct f as [l c]. intros Hstep Hinv. cbn [Flock.locked Flock.closed] in *.
  destruct o as [k|k|k fc|k fc r|d w s|n cnt r]; cbn [flock_step] in Hstep;
    unfold Flock.Lock, Flock.Unlock, Flock.Close, Flock.Remove, Flock.close,
      Flock.unlock, Flock.Write, Flock.Read, Flock.answered, Flock.IsNotExist in Hstep;
    repeat match goal with
           | x : option Flock.os_error |- _ => destruct x as [[? [|] [|]]|]
           end;
    destruct c, l; cbn in Hstep;
    injection Hstep as <- <- <-; cbn; auto;
    try (specialize (Hinv eq_refl); discriminate);
    try (intros; discriminate).
Qed.

(** One method call, whatever the operating system answers: the instance
    holds no lock once it is closed, it stays closed, and it is marked
    closed only when the descriptor is. *)
Lemma flock_step_closed f o f' e calls held open :
  flock_step f o = (f', e, calls) ->
  (Flock.closed f = true -> Flock.locked f = false) ->
  (Flock.closed f = true -> open = false) ->
  (Flock.closed f' = true -> Flock.locked f' = false) /\
  (Flock.closed f' = true -> (kernel_after held open calls).2 = false).
Proof.
  destruct f as [l c]. intros Hstep Hinv Hopen. cbn [Flock.locked Flock.closed] in *.
  destruct o as [k|k|k fc|k fc r|d w s|n cnt r]; cbn [flock_step] in Hstep;
    unfold Flock.Lock, Flock.Unlock, Flock.Close, Flock.Remove, Flock.close,
      Flock.unlock, Flock.Write, Flock.Read, Flock.answered, Flock.IsNotExist in Hstep;
    repeat match goal with
           | x : option Flock.os_error |- _ => destruct x as [[? [|] [|]]|]
           end;
    destruct c, l; cbn in Hstep;
    injection Hstep as <- <- <-; cbn; auto;
    try (specialize (Hinv eq_refl); discriminate);
    try (split; intros; discriminate);
    destruct held, open; cbn; auto.
Qed.

(** X19. The flags of a [Flock] and the kernel, after any sequence of
    [Lock], [Unlock], [Close], [Remove], [Write] and [Read] on a new
    instance, whatever the operating system answered to each call.  As
    long as no [file.Close] reported an error, [locked] is set exactly
    when the kernel holds the lock through the descriptor and [closed]
    exactly when the descriptor is closed; no [flock] and no [Close] was
    asked for a closed descriptor, no [LOCK_EX] for a lock that is held,
    no [LOCK_UN] for one that is not, and the descriptor was not closed
    with the lock held.  In every case an instance marked [closed] holds
    no lock and its descriptor is closed.  The converse fails once
    [file.Close] reports an error: the descriptor is released, the
    instance is not marked [closed], and the next [Lock] asks for the
    lock on the released descriptor. *)
Theorem Flock_flags_follow_kernel (ops : list flock_op) :
  let '(f, _, calls) := flock_run Flock.New ops in
  (closes_succeed calls = true ->
   kernel_after false true calls = (Flock.locked f, negb (Flock.closed f)) /\
   calls_in_order false true calls = true) /\
  (Flock.closed f = true ->
   Flock.locked f = false /\ (kernel_after false true calls).2 = false) /\
  (forall e k,
     let '(f1, err, calls1) := Flock.Close f None (Some e) in
     Flock.closed f = false ->
     err = Some (Flock.OSError e) /\ Flock.closed f1 = false /\
     (kernel_after false true (calls ++ calls1)).2 = false /\
     Flock.Lock f1 k
       = (if k is None then Flock.mk true false else f1,
          Flock.CannotLockErr <$> k,
          [Flock.answered Flock.flock_LOCK_EX_NB k]) /\
     calls_in_order false true
       (calls ++ calls1 ++ [Flock.answered Flock.flock_LOCK_EX_NB k]) = false).
Proof.
  enough (Hrun : forall f held open,
            (Flock.closed f = true -> Flock.locked f = false) ->
            (Flock.closed f = true -> open = false) ->
            let '(f', _, calls) := flock_run f ops in
            (held = Flock.locked f -> open = negb (Flock.closed f) ->
             closes_succeed calls = true ->
             kernel_after held open calls
               = (Flock.locked f', negb (Flock.closed f')) /\
             calls_in_order held open calls = true) /\
            (Flock.closed f' = true -> Flock.locked f' = false) /\
            (Flock.closed f' = true -> (kernel_after held open calls).2 = false)).
  { specialize (Hrun Flock.New false true ltac:(discriminate) ltac:(discriminate)).
    destruct (flock_run Flock.New ops) as [[f es] calls].
    destruct Hrun as (Hagree & Hlocked & Hclosed).
    split; [intros Hok; by apply Hagree|].
    split; [intros Hc; split; auto|].
    intros e k. destruct f as [l c]. cbn [Flock.closed] in *.
    unfold Flock.Close, Flock.close, Flock.unlock, Flock.Lock, Flock.answered.
    cbn [Flock.closed Flock.locked].
    destruct c; [intros; discriminate|].
    destruct l; cbn; intros _;
      (split; [reflexivity|]); (split; [reflexivity|]);
      rewrite ?kernel_after_app, ?calls_in_order_app;
      destruct (kernel_after false true calls) as [h o]; cbn;
      (split; [reflexivity|]);
      (split; [destruct k; reflexivity|]);
      rewrite ?calls_in_order_app;
      destruct (calls_in_order false true calls); cbn;
      try reflexivity; destruct h, o, k; reflexivity. }
  induction ops as [|o ops IH]; intros f held open Hinv Hopen; cbn [flock_run].
  - split; [intros -> -> _; auto|]. split; [exact Hinv|].
    intros Hc. cbn. auto.
  - destruct (flock_step f o) as [[f1 e] calls] eqn:Hstep.
    destruct (flock_step_closed _ _ _ _ _ held open Hstep Hinv Hopen)
      as [Hinv1 Hopen1].
    destruct (kernel_after held open calls) as [h1 o1] eqn:Hk1.
    cbn [snd] in Hopen1.
    specialize (IH f1 h1 o1 Hinv1 Hopen1).
    destruct (flock_run f1 ops) as [[f2 es] more].
    destruct IH as (Hagree2 & Hinv2 & Hclosed2).
    split; [|split; [exact Hinv2|]].
    + intros -> -> Hok. rewrite closes_succeed_app in Hok.
      apply andb_prop in Hok as [Hok1 Hok2].
      destruct (flock_step_agrees _ _ _ _ _ Hstep Hinv Hok1) as [Hk Ho].
      rewrite Hk1 in Hk. injection Hk as -> ->.
      destruct (Hagree2 eq_refl eq_refl Hok2) as [Hk2 Ho2].
      rewrite kernel_after_app, calls_in_order_app, Hk1, Ho, Hk2, Ho2. auto.
    + intros Hc. rewrite kernel_after_app, Hk1. by apply Hclosed2.
Qed.

(** X20. A closed [Flock] stays closed, and is not removed any more: once
    [Close] has succeeded, [Lock], [Unlock], [Close] and [Remove] all fail
    with [ClosedErr], whatever the operating system would answer, and
    without a system call.  In particular [Remove] after [Close] leaves the
    lock file in place: it passes on the [ClosedErr] of [close], which is
    not [os.ErrClosed]. *)
Theorem Flock_closed_is_final (f f' : Flock.t)
  (kernel file : option Flock.os_error) (calls : list (Flock.call * bool))
  (Hclose : Flock.Close f kernel file = (f', None, calls)) :
  Flock.closed f' = true /\ Flock.locked f' = false /\
  (forall k, Flock.Lock f' k = (f', Some Flock.ClosedErr, [])) /\
  (forall k, Flock.Unlock f' k = (f', Some Flock.ClosedErr, [])) /\
  (forall k c, Flock.Close f' k c = (f', Some Flock.ClosedErr, [])) /\
  (forall k c r, Flock.Remove f' k c r = (f', Some Flock.ClosedErr, [])).
Proof.
  assert (Hf' : Flock.closed f' = true /\ Flock.locked f' = false).
  { destruct f as [l c].
    unfold Flock.Close, Flock.close, Flock.unlock, Flock.answered in Hclose.
    cbn [Flock.locked Flock.closed] in Hclose.
    destruct kernel as [?|], file as [?|], c, l; cbn in Hclose;
      try discriminate; injection Hclose as <- _; auto. }
  destruct Hf' as [Hc Hl]. split; [exact Hc|]. split; [exact Hl|].
  unfold Flock.Remove, Flock.Close, Flock.close, Flock.Unlock, Flock.Lock.
  rewrite Hc. cbn. auto.
Qed.

Lemma Flock_closed_is_final_witness :
  Flock.Close (Flock.mk true false) None None
    = (Flock.mk false true, None,
       [(Flock.flock_LOCK_UN, true); (Flock.file_Close, true)]) /\
  Flock.Remove (Flock.mk false true) None None None
    = (Flock.mk false true, Some Flock.ClosedErr, []).
Proof.
  assert (H : Flock.Close (Flock.mk true false) None None
              = (Flock.mk false true, None,
                 [(Flock.flock_LOCK_UN, true); (Flock.file_Close, true)]))
    by reflexivity.
  split; [exact H|].
  destruct (Flock_closed_is_final _ _ _ _ _ H) as (_ & _ & _ & _ & _ & Hremove).
  apply Hremove.
Defined.
